(* ===== verification/_CoqProject ===== *)
-Q . S2P
Prelude.v
Memory.v
LibC.v
AllocSpec.v
HeapBlock.v
HeapLive.v
UserMalloc.v
KMalloc.v
Heaps.v
HeapFill.v
Multitask.v
TaskLogic.v
TaskStack.v
TaskInv.v
TaskOps.v
TaskCalls.v
TaskCreate.v
TaskSched.v
TaskSys.v
TaskFrames.v
TaskProps.v
Fs.v
FsChain.v
FsTree.v
FsOps.v
FsProps.v
PortIO.v
Keyboard.v
Clock.v
Vga.v
KStats.v
Idt.v
Power.v
Machine.v
Loader.v
Startup.v
Syscall.v
Itoa.v
Kernel.v
KernelInv.v
KernelSys.v
Boot.v
KernelProps.v
Cpu.v
Stubs.v
StubProps.v
Preempt.v
Start.v
Wrappers.v
StackProtector.v
Uasm.v
Programs.v
Ucpu.v
Ulogic.v
SmallProgs.v
Htop.v
Terminal.v
UserCalls.v
Debug.v
