(* ===== verification/Prelude.v ===== *)
(** * Verification of the Kernel-C teaching kernel

    Kernel-C is a 64-bit kernel for the PC: a few static tables, two heaps, a
    RAM-disk file system, a round-robin scheduler driven by the timer
    interrupt, drivers for the keyboard, the clock and the text screen, and a
    system call gate.  This library translates the C sources (paths below are
    relative to src/) into executable definitions over one byte memory and
    proves what they do.  The file Prelude.v itself holds the machine
    integers, the shared tactics ([bcase], [bsimp], [rw_test]), and the list
    lemmas every component uses.

    ** The program and how its parts meet

    The boot loader jumps to [start] (kernel.asm), which switches the processor
    to 64-bit mode and calls [kmain].  [kmain] (kernel.c) installs the IDT,
    sets the clock from the CMOS, starts the timer, initialises the heaps and
    the file system, copies the linked program images into /bin, clears the
    screen, starts the scheduler and creates the first tasks.  From then on the kernel only reacts: to the
    timer (time/timer.c counts, multitask/multitask.c picks the next task),
    to the keyboard (keyboard/keyboard.c fills a ring buffer) and to int 0x80
    (syscall/syscall.c dispatches to all other components), each through an
    assembly stub of interrupt/.  Loading a program
    goes through the file system, the user heap and the scheduler, whose task
    records and stacks live in the kernel heap.

    ** Files

    Memory.v is the byte memory with little-endian loads and stores; a pointer
    is a physical address, as the identity page map of kernel.asm makes it.
    LibC.v is libc/string.c on it.

    Heaps: AllocSpec.v states what an allocator promises (live regions as a
    finite map, [astep], the class [Allocator]).  HeapBlock.v is the block
    header and list both allocators share, HeapLive.v ties regions to blocks,
    UserMalloc.v is malloc/user_malloc.c, KMalloc.v is malloc/malloc.c,
    KStats.v prints the statistics.  Heaps.v puts both heaps into one memory
    behind the class [Heaps]; everything above is proved against that class,
    [heap_pair] implements it.  HeapFill.v adds to the interface that a heap
    does not read what its users keep in their regions.

    Scheduler: Multitask.v is multitask/multitask.c over a store of task
    records; TaskLogic.v has the weakest preconditions, TaskInv.v the
    invariant [core_ok], TaskStack.v, TaskOps.v, TaskCalls.v, TaskCreate.v and
    TaskSched.v one lemma per operation, TaskSys.v the step relation [reach],
    TaskFrames.v what a call leaves of the stack frames of all tasks,
    TaskProps.v the properties.

    File system: Fs.v is fat16/fs.c with ramdisk/ramdisk.c; FsChain.v the
    cluster chains, FsTree.v the abstract tree [afs] and the relation
    [fs_rel], FsOps.v the simulation, FsProps.v the properties.

    Devices: PortIO.v is portio/portio.c, pic.c and the PIT part of
    time/timer.c, as traces of port accesses; Keyboard.v, Clock.v
    (time/timer.c, time/clock/clock.c, time/clock/rtc.c), Vga.v
    (vga/vga.c), Idt.v (idt.c, lidt_load.asm), Power.v (power/poweroff.c,
    power/reboot.c).

    The whole: Machine.v joins the states, Loader.v is the program loader of
    syscall/syscall.c, tasks/tasks.c and [load_app_to_fs]; Startup.v what they
    do at boot; Syscall.v is syscall/syscall.c; Itoa.v, Kernel.v
    and Debug.v are kernel.c and what the interrupt stubs call; KernelInv.v the joint
    invariant [kernel_ok], KernelSys.v the events and their step relation
    [runs], Boot.v the boot, KernelProps.v the properties.

    The processor: Cpu.v has its registers, the instructions of the stubs,
    the delivery of an interrupt and [iretq]; Stubs.v is the four files of
    interrupt/, with the C functions they call as arguments that keep the ABI
    ([returns]); StubProps.v has their properties.  Preempt.v runs tasks, the
    timer stub and the scheduler together.  Start.v is kernel.asm with the
    control registers, descriptors and page tables it sets up; Wrappers.v is
    the inline functions of syscall/syscall.h with the instruction [syscall]
    they execute; StackProtector.v is libc/stack_protector.c.

    The user programs: Uasm.v has the instructions they use, their machine
    code and the assembly of a source; Programs.v the six sources under user/
    and the byte arrays the kernel embeds; Ucpu.v the processor that decodes
    and executes these; Ulogic.v runs a program while the kernel and other
    tasks interleave ([ostep], [eventually]), with rules that reduce such a
    run to one memory, and the tactics that apply them.  SmallProgs.v, Htop.v
    and Terminal.v follow the programs through their images; UserCalls.v ties
    the calls they make to [syscall_handler] and shows that the kernel answers
    them as the programs rely on.

    ** What the theorems show

    - The whole kernel: [kmain_boots] (from any memory, and whatever the
      devices answer as long as the real-time clock is not busy for ever,
      [kmain] comes to its end and establishes the joint invariant; with a
      busy clock it stays in its loop), [kernel_safe] (every sequence of legal
      events keeps it and every legal event returns), [load_program_result]
      (the program loader on every branch, the one where no task can be
      created included).
    - The heaps refine the abstract allocator ([kernel_alloc_contract],
      [user_alloc_contract]), with first fit, merging, in-place growth and
      exact statistics as functional properties.  [user_heap_safe] speaks of
      every state reachable by calls of the user heap: the relation [ureach]
      has the concrete calls alone, with [ledger] for what their callers have
      seen.  [kmalloc_overlap] shows for every kernel heap that a request no
      free block fits is answered with memory inside the last block.
    - The file system refines the abstract tree ([fs_refines]), reads back
      what was written, ends its walks on any table within a bound that is part
      of the statement ([fs_walks_end]), and loses long names.
      [fs_reachable_ok] derives the invariant from [fs_init] and the calls.
    - The scheduler: safety of every legal call, fairness of the round robin,
      what creating, stopping and ending a task leaves.
    - Preemption, from the processor's registers down: however tasks compute,
      call the kernel and are interrupted, each goes on in exactly the context
      it was interrupted in ([preemption_transparent]); the system call gate
      changes rax alone ([syscall_stub_transparent]); the wrappers of
      syscall.h never enter the kernel ([wrappers_never_enter]): the
      instruction they use is not enabled; the exception stubs return, but for
      those with an error code.
    - The boot: [start] reaches [kmain] in 64-bit mode through valid tables
      ([start_enters_long_mode]), which map the first gigabyte to itself
      ([identity_map]).
    - The user programs: the embedded arrays are what the sources assemble to
      ([images_assembled]); the terminal implements its line editor, turn by
      turn ([terminal_refines]), until a line fills its buffer
      ([terminal_overrun]); htop prints the seven statistics in decimal
      ([htop_prints_stats]); the small programs make their calls
      ([small_programs]).  They rely on [answer]: a call returns and leaves
      the program's own bytes alone; the kernel does that
      ([kernel_answers]).
    - Drivers: the keyboard buffer is a queue, the screen is a terminal, the
      clock keeps time, the gates read back, power-off writes the sleep
      command the tables ask for (but for the type) when the tables lie in the
      memory kernel.asm maps, and faults when the root table does not.

    ** Bounds and fuel

    Integers are [Z] reduced to their width at every assignment.  A loop that
    is not structural takes fuel; the theorems either give a bound that
    is enough (block walks: the area divided by the header size; ring walks:
    the number of tasks; cluster walks: the FAT's size; digit loops: the
    width) or quantify over every fuel above a measure of the input.  Polling
    of devices (RTC, keyboard controller) has fuel for a device that never
    answers: out of fuel the code is still in its loop, which is [None] of the
    driver and [Stuck] of the kernel ([rtc_answers] of Boot.v says when the
    clock is not).  Reading past an array, following NULL or a freed record,
    or an ACPI table above 1 GiB, is [None] or [Fault], running out of fuel is
    [Stuck]; the theorems exclude both or say when they happen.

    ** What legal means

    The kernel trusts its callers: a program may write anywhere.  [legal_call]
    and [legal_event] ask that buffers and strings lie in live regions, that
    regions are freed by their owners, that screen positions are on the
    screen, and that the heap is safe from [heap_expand], which hands out
    overlapping memory: for [malloc] a free block fits, for the creation of a
    task the requests either fit or fail without harm ([k_tame] of the class
    [Heaps]).  Events are atomic: each runs to its end before the
    next, as the interrupt gates' cleared flag makes them; the places where
    the code enables interrupts inside an operation are shown separately in
    TaskProps.v.

    ** Not modelled

    [debug_run_tests] of kernel.c, a smoke test release builds leave out.  The
    images are arguments of [kmain], whatever their bytes; what the embedded
    ones do is shown separately.  Of the assembler and the processor, only what this code uses:
    the stubs and the user programs are modelled instruction by instruction,
    the C code between them as the functions of the other files; in a user
    program an interrupt is invisible but for memory that is not its own.  Left
    out are segment limits, caches, selector checks in [iretq], and the
    translation of the push and the two fetches with which [start] goes over
    to [kmain], whose addresses the linker puts below 1 GiB. *)

From Stdlib Require Import ZArith Lia.
From stdpp Require Export base gmap list numbers.

#[global] Set Default Goal Selector "!".
#[export] Unset Program Cases.
Open Scope Z_scope.

(** ** Machine integers

    A w-bit unsigned integer is a [Z] in [0, 2^w); [u8] .. [u64] reduce an
    arbitrary integer to it, as an assignment to a [uintN_t] does.  [s8],
    [s16] and [s32] read the low bits as a two's complement number. *)

Definition u8 (x : Z) : Z := x mod 2 ^ 8.
Definition u16 (x : Z) : Z := x mod 2 ^ 16.
Definition u32 (x : Z) : Z := x mod 2 ^ 32.
Definition u64 (x : Z) : Z := x mod 2 ^ 64.

Definition sext (w x : Z) : Z :=
  let y := x mod 2 ^ w in if y <? 2 ^ (w - 1) then y else y - 2 ^ w.
Definition s8 (x : Z) : Z := sext 8 x.
Definition s16 (x : Z) : Z := sext 16 x.
Definition s32 (x : Z) : Z := sext 32 x.

Lemma u8_range x : 0 <= u8 x < 256.
Proof. apply Z.mod_pos_bound. lia. Qed.
Lemma u16_range x : 0 <= u16 x < 65536.
Proof. apply Z.mod_pos_bound. lia. Qed.
Lemma u32_range x : 0 <= u32 x < 4294967296.
Proof. apply Z.mod_pos_bound. lia. Qed.
Lemma u64_range x : 0 <= u64 x < 18446744073709551616.
Proof. apply Z.mod_pos_bound. lia. Qed.

Lemma u8_small x : 0 <= x < 256 -> u8 x = x.
Proof. apply Z.mod_small. Qed.
Lemma u16_small x : 0 <= x < 65536 -> u16 x = x.
Proof. apply Z.mod_small. Qed.
Lemma u32_small x : 0 <= x < 4294967296 -> u32 x = x.
Proof. apply Z.mod_small. Qed.
Lemma u64_small x : 0 <= x < 18446744073709551616 -> u64 x = x.
Proof. apply Z.mod_small. Qed.

Lemma u8_idem x : u8 (u8 x) = u8 x.
Proof. apply u8_small, u8_range. Qed.

Lemma sext_small w x : 0 < w -> 0 <= x < 2 ^ (w - 1) -> sext w x = x.
Proof.
  intros Hw Hx. unfold sext.
  assert (2 ^ (w - 1) < 2 ^ w) by (apply Z.pow_lt_mono_r; lia).
  rewrite Z.mod_small by lia.
  destruct (Z.ltb_spec x (2 ^ (w - 1))); lia.
Qed.

Lemma s32_small x : 0 <= x < 2147483648 -> s32 x = x.
Proof. intros. apply sext_small; simpl; lia. Qed.

(** ** Lists read like C arrays

    [nthZ l i d] is [l[i]], with [d] where the C program would read outside
    the modelled array. *)

Definition nthZ {A} (d : A) (l : list A) (i : Z) : A :=
  if i <? 0 then d else nth (Z.to_nat i) l d.
Definition lenZ {A} (l : list A) : Z := Z.of_nat (length l).
Definition updZ {A} (l : list A) (i : Z) (x : A) : list A :=
  if i <? 0 then l else <[Z.to_nat i := x]> l.

(** ** Tactics *)

Create HintDb word discriminated.
#[export] Hint Resolve u8_range u16_range u32_range u64_range : word.

(** [bcase] turns an integer test of the goal into a case split. *)
Ltac bcase :=
  match goal with
  | |- context [?a =? ?b] => destruct (Z.eqb_spec a b)
  | |- context [?a <? ?b] => destruct (Z.ltb_spec a b)
  | |- context [?a <=? ?b] => destruct (Z.leb_spec a b)
  end.

Ltac bsimp :=
  repeat match goal with
  | H : (_ =? _) = true |- _ => apply Z.eqb_eq in H
  | H : (_ =? _) = false |- _ => apply Z.eqb_neq in H
  | H : (_ <? _) = true |- _ => apply Z.ltb_lt in H
  | H : (_ <? _) = false |- _ => apply Z.ltb_ge in H
  | H : (_ <=? _) = true |- _ => apply Z.leb_le in H
  | H : (_ <=? _) = false |- _ => apply Z.leb_gt in H
  | H : (_ && _) = true |- _ => apply andb_true_iff in H; destruct H
  | H : (_ || _) = false |- _ => apply orb_false_iff in H; destruct H
  | H : negb _ = true |- _ => apply negb_true_iff in H
  | H : negb _ = false |- _ => apply negb_false_iff in H
  end.

(** [rw_test] rewrites one test whose outcome [lia] decides. *)
Ltac rw_test :=
  match goal with
  | |- context [?a =? ?b] =>
      first [ rewrite (proj2 (Z.eqb_eq a b)) by lia
            | rewrite (proj2 (Z.eqb_neq a b)) by lia ]
  | |- context [?a <? ?b] =>
      first [ rewrite (proj2 (Z.ltb_lt a b)) by lia
            | rewrite (proj2 (Z.ltb_ge a b)) by lia ]
  | |- context [?a <=? ?b] =>
      first [ rewrite (proj2 (Z.leb_le a b)) by lia
            | rewrite (proj2 (Z.leb_gt a b)) by lia ]
  end.
