(* ===== verification/Memory.v ===== *)
(** * Physical memory

    The kernel runs with paging set up as an identity map, so a pointer is a
    physical address and every object of the program (heap headers, the VGA
    text buffer, program images) lives in one array of bytes.  [mem] is that
    array; an address never written reads 0, as the loader's zeroed memory
    does.  [ld n] and [st n] are the little-endian loads and stores of n-byte
    integers the compiler emits for [uint32_t], [size_t] and pointers. *)

From S2P Require Import Prelude.

Abbreviation mem := (gmap Z Z).

Definition rb (m : mem) (a : Z) : Z := u8 (default 0 (m !! a)).
Definition wb (m : mem) (a v : Z) : mem := <[a := u8 v]> m.

Fixpoint ld (n : nat) (m : mem) (a : Z) : Z :=
  match n with
  | O => 0
  | S k => rb m a + 256 * ld k m (a + 1)
  end.

Fixpoint st (n : nat) (m : mem) (a v : Z) : mem :=
  match n with
  | O => m
  | S k => st k (wb m a v) (a + 1) (v / 256)
  end.

(** Reading and writing a run of bytes. *)
Definition rbs (m : mem) (a : Z) (n : nat) : list Z :=
  (fun i => rb m (a + Z.of_nat i)) <$> seq 0 n.
Fixpoint wbs (m : mem) (a : Z) (bs : list Z) : mem :=
  match bs with
  | [] => m
  | b :: r => wbs (wb m a b) (a + 1) r
  end.

(** Two memories are the same when every byte reads the same. *)
Definition mem_eq (m m' : mem) : Prop := forall a, rb m a = rb m' a.
Declare Scope mem_scope.
Infix "≈" := mem_eq (at level 70) : mem_scope.
Open Scope mem_scope.

(** [same_on lo hi m m'] : they agree on the addresses [lo, hi). *)
Definition same_on (lo hi : Z) (m m' : mem) : Prop :=
  forall x, lo <= x < hi -> rb m x = rb m' x.

(** Only the addresses [lo, hi) were written. *)
Definition only_in (lo hi : Z) (m m' : mem) : Prop :=
  forall x, ~ (lo <= x < hi) -> rb m' x = rb m x.

#[export] Instance only_in_refl lo hi : Reflexive (only_in lo hi).
Proof. by intros m x Hx. Qed.
#[export] Instance only_in_trans lo hi : Transitive (only_in lo hi).
Proof. intros m m' m'' H H' x Hx. rewrite H' by done. by apply H. Qed.
Lemma only_in_same lo hi a b m m' : only_in lo hi m m' -> b <= lo \/ hi <= a -> same_on a b m m'.
Proof. intros H Hd x Hx. symmetry. apply H. lia. Qed.

#[export] Instance mem_eq_equiv : Equivalence mem_eq.
Proof. split; red; unfold mem_eq; intros; congruence. Qed.

#[export] Instance same_on_equiv lo hi : Equivalence (same_on lo hi).
Proof.
  split; red; unfold same_on; [done|..].
  - intros m m' H x Hx. symmetry. auto.
  - intros m m' m'' H H' x Hx. rewrite H by done. auto.
Qed.

Lemma rb_range m a : 0 <= rb m a < 256.
Proof. apply u8_range. Qed.
#[export] Hint Resolve rb_range : word.

Lemma rb_wb m a v x : rb (wb m a v) x = if a =? x then u8 v else rb m x.
Proof.
  unfold rb, wb. bcase.
  - subst. rewrite lookup_insert_eq. apply u8_idem.
  - by rewrite lookup_insert_ne.
Qed.

Lemma rb_wb_eq m a v : rb (wb m a v) a = u8 v.
Proof. rewrite rb_wb. by rw_test. Qed.

Lemma rb_wb_ne m a v x : a <> x -> rb (wb m a v) x = rb m x.
Proof. intros. rewrite rb_wb. by rw_test. Qed.

#[export] Instance rb_proper : Proper (mem_eq ==> eq ==> eq) rb.
Proof. intros m m' H a _ <-. apply H. Qed.

#[export] Instance wb_proper : Proper (mem_eq ==> eq ==> eq ==> mem_eq) wb.
Proof. intros m m' H a _ <- v _ <- x. by rewrite !rb_wb, H. Qed.

(** ** Loads *)

Lemma ld_range n m a : 0 <= ld n m a < 256 ^ Z.of_nat n.
Proof.
  revert a. induction n as [|n IH]; intros a; [simpl; lia|].
  cbn [ld]. specialize (IH (a + 1)). pose proof (rb_range m a).
  rewrite Nat2Z.inj_succ, Z.pow_succ_r by lia. lia.
Qed.

Lemma ld_ext n m m' a : same_on a (a + Z.of_nat n) m m' -> ld n m a = ld n m' a.
Proof.
  revert a. induction n as [|n IH]; intros a H; [done|]. cbn [ld].
  rewrite (H a) by lia. f_equal. f_equal. apply IH. intros x Hx. apply H. lia.
Qed.

#[export] Instance ld_proper n : Proper (mem_eq ==> eq ==> eq) (ld n).
Proof. intros m m' H a _ <-. apply ld_ext. intros x _. apply H. Qed.

(** ** Stores *)

Lemma rb_st_out n m a v x : x < a \/ a + Z.of_nat n <= x -> rb (st n m a v) x = rb m x.
Proof.
  revert m a v. induction n as [|n IH]; intros m a v H; [done|]. cbn [st].
  rewrite IH by lia. apply rb_wb_ne. lia.
Qed.

Lemma ld_st_out n k m a v b :
  b + Z.of_nat k <= a \/ a + Z.of_nat n <= b -> ld k (st n m a v) b = ld k m b.
Proof. intros H. apply ld_ext. intros x Hx. apply rb_st_out. lia. Qed.

Lemma ld_st_eq n m a v : ld n (st n m a v) a = v mod 256 ^ Z.of_nat n.
Proof.
  revert m a v. induction n as [|n IH]; intros m a v; [by rewrite Z.mod_1_r|].
  cbn [st ld]. rewrite IH, rb_st_out, rb_wb_eq by lia.
  rewrite Nat2Z.inj_succ, Z.pow_succ_r by lia.
  rewrite Z.rem_mul_r by lia. reflexivity.
Qed.

Lemma ld_st_small n m a v : 0 <= v < 256 ^ Z.of_nat n -> ld n (st n m a v) a = v.
Proof. intros. rewrite ld_st_eq. by apply Z.mod_small. Qed.

#[export] Instance st_proper n : Proper (mem_eq ==> eq ==> eq ==> mem_eq) (st n).
Proof.
  induction n as [|n IH]; intros m m' H a _ <- v _ <-; [done|].
  cbn [st]. apply IH; [by rewrite H|done..].
Qed.

(** ** Runs of bytes *)

Lemma length_rbs m a n : length (rbs m a n) = n.
Proof. unfold rbs. by rewrite length_fmap, length_seq. Qed.

Lemma rbs_ext m m' a b n :
  (forall i, 0 <= i < Z.of_nat n -> rb m (a + i) = rb m' (b + i)) -> rbs m a n = rbs m' b n.
Proof.
  intros H. unfold rbs. apply list_fmap_ext. intros i j Hj.
  apply lookup_seq in Hj as [-> ?]. apply H. lia.
Qed.

Lemma take_rbs m a k n : (k <= n)%nat -> take k (rbs m a n) = rbs m a k.
Proof.
  intros H. unfold rbs. rewrite <- fmap_take. f_equal.
  replace n with (k + (n - k))%nat by lia. rewrite seq_app, take_app_le by (rewrite length_seq; lia).
  by rewrite take_ge by (rewrite length_seq; lia).
Qed.

Lemma lookup_rbs m a n i : (i < n)%nat -> rbs m a n !! i = Some (rb m (a + Z.of_nat i)).
Proof. intros H. unfold rbs. by rewrite list_lookup_fmap, lookup_seq_lt by done. Qed.

Lemma rbs_wb_in m a n x v :
  a <= x < a + Z.of_nat n -> rbs (wb m x v) a n = <[Z.to_nat (x - a) := u8 v]> (rbs m a n).
Proof.
  intros Hx. apply list_eq. intros i.
  destruct (Nat.lt_ge_cases i n) as [Hi|Hi].
  - rewrite lookup_rbs by done. destruct (decide (i = Z.to_nat (x - a))) as [->|Hne].
    + rewrite list_lookup_insert_eq by (rewrite length_rbs; lia).
      rewrite rb_wb. by rw_test.
    + rewrite list_lookup_insert_ne, lookup_rbs by (done || lia).
      rewrite rb_wb. by rw_test.
  - rewrite !lookup_ge_None_2; rewrite ?length_insert, ?length_rbs; done.
Qed.

Lemma rb_wbs_out m a bs x : x < a \/ a + lenZ bs <= x -> rb (wbs m a bs) x = rb m x.
Proof.
  unfold lenZ. revert m a. induction bs as [|b bs IH]; intros m a H; [done|].
  cbn [wbs length] in *. rewrite IH by lia. apply rb_wb_ne. lia.
Qed.

Lemma rbs_wbs m a bs : Forall (fun b => 0 <= b < 256) bs -> rbs (wbs m a bs) a (length bs) = bs.
Proof.
  intros H. revert m a. induction H as [|b bs Hb Hbs IH]; intros m a; [done|].
  cbn [wbs length]. unfold rbs in *. cbn [seq fmap list_fmap]. f_equal.
  - rewrite Z.add_0_r, rb_wbs_out by lia. rewrite rb_wb_eq. by apply u8_small.
  - rewrite <- (IH (wb m a b) (a + 1)) at 2. rewrite <- seq_shift, <- list_fmap_compose.
    apply list_fmap_ext. intros i j Hj. simpl. f_equal. lia.
Qed.

Lemma rb_wbs_in m a bs i c : bs !! i = Some c -> 0 <= c < 256 -> rb (wbs m a bs) (a + Z.of_nat i) = c.
Proof.
  revert m a i. induction bs as [|b bs IH]; intros m a [|i] Hi Hc; try done; cbn [wbs].
  - injection Hi as ->. rewrite rb_wbs_out by lia. rewrite Z.add_0_r, rb_wb_eq. by apply u8_small.
  - replace (a + Z.of_nat (S i)) with (a + 1 + Z.of_nat i) by lia. by apply IH.
Qed.

Lemma ld_wb_out n m a v b : a < b \/ b + Z.of_nat n <= a -> ld n (wb m a v) b = ld n m b.
Proof. intros Ha. apply ld_ext. intros x Hx. apply rb_wb_ne. lia. Qed.

(** Reads through the stores [lia] can tell apart. *)
Ltac mem_peel :=
  repeat match goal with
  | |- context [ld ?n (st ?n ?m ?a ?v) ?a] => rewrite (ld_st_small n m a v) by (simpl; lia)
  | |- context [ld ?k (st ?n ?m ?a ?v) ?b] => rewrite (ld_st_out n k m a v b) by (simpl; lia)
  | |- context [ld ?k (wb ?m ?a ?v) ?b] => rewrite (ld_wb_out k m a v b) by (simpl; lia)
  | |- context [rb (st ?n ?m ?a ?v) ?b] => rewrite (rb_st_out n m a v b) by (simpl; lia)
  | |- context [rb (wb ?m ?a ?v) ?a] => rewrite (rb_wb_eq m a v)
  | |- context [rb (wb ?m ?a ?v) ?b] => rewrite (rb_wb_ne m a v b) by lia
  end.
