(* ===== verification/LibC.v ===== *)
(** * libc/string.c

    The functions work on the byte memory, one byte access per byte access of
    the C loops.  Loops that run to a NUL byte take fuel and return [None]
    when the string does not end within it; [cstr m a s] says that the C
    string at [a] is [s], and for such a string any fuel above its length is
    enough.  An index [d[i]] is the address [d + i]: no object of the kernel
    reaches the end of the address space. *)

From Stdlib Require Import ZArith Lia.
From S2P Require Import Prelude Memory.

(** ** The functions *)

(** [for (i = 0; i < n; ++i) d[i] = s[i];] *)
Fixpoint memcpy_loop (k : nat) (i : Z) (m : mem) (dst src : Z) : mem :=
  match k with
  | O => m
  | S k => memcpy_loop k (i + 1) (wb m (dst + i) (rb m (src + i))) dst src
  end.
Definition memcpy (m : mem) (dst src n : Z) : mem := memcpy_loop (Z.to_nat n) 0 m dst src.

Fixpoint memset_loop (k : nat) (i : Z) (m : mem) (s c : Z) : mem :=
  match k with
  | O => m
  | S k => memset_loop k (i + 1) (wb m (s + i) (u8 c)) s c
  end.
Definition memset (m : mem) (s c n : Z) : mem := memset_loop (Z.to_nat n) 0 m s c.

Fixpoint strlen_loop (fuel : nat) (m : mem) (s len : Z) : option Z :=
  match fuel with
  | O => None
  | S k => if rb m s =? 0 then Some len else strlen_loop k m (s + 1) (u64 (len + 1))
  end.
Definition strlen (fuel : nat) (m : mem) (s : Z) : option Z := strlen_loop fuel m s 0.

(** The assignment-in-condition loop: the NUL is copied too. *)
Fixpoint strcpy_loop (fuel : nat) (m : mem) (d src : Z) : option mem :=
  match fuel with
  | O => None
  | S k =>
      let c := rb m src in
      let m := wb m d c in
      if c =? 0 then Some m else strcpy_loop k m (d + 1) (src + 1)
  end.
Definition strcpy (fuel : nat) (m : mem) (dst src : Z) : option mem := strcpy_loop fuel m dst src.

(** The first loop of [strncpy]; it hands [i] to the zero-filling one. *)
Fixpoint strncpy_copy (k : nat) (i : Z) (m : mem) (dst src : Z) : mem * nat :=
  match k with
  | O => (m, O)
  | S k' =>
      if rb m (src + i) =? 0 then (m, k)
      else strncpy_copy k' (i + 1) (wb m (dst + i) (rb m (src + i))) dst src
  end.
Definition strncpy (m : mem) (dst src n : Z) : mem :=
  let '(m, rest) := strncpy_copy (Z.to_nat n) 0 m dst src in
  memset_loop rest (n - Z.of_nat rest) m dst 0.

(** Walk [d] to the NUL byte. *)
Fixpoint str_end (fuel : nat) (m : mem) (d : Z) : option Z :=
  match fuel with
  | O => None
  | S k => if rb m d =? 0 then Some d else str_end k m (d + 1)
  end.

Definition strcat (fuel : nat) (m : mem) (dst src : Z) : option mem :=
  match str_end fuel m dst with
  | None => None
  | Some d => strcpy_loop fuel m d src
  end.

Fixpoint strncat_copy (k : nat) (i : Z) (m : mem) (d src : Z) : mem * Z :=
  match k with
  | O => (m, i)
  | S k' =>
      if rb m (src + i) =? 0 then (m, i)
      else strncat_copy k' (i + 1) (wb m (d + i) (rb m (src + i))) d src
  end.
Definition strncat (fuel : nat) (m : mem) (dest src n : Z) : option mem :=
  match str_end fuel m dest with
  | None => None
  | Some d =>
      let '(m, i) := strncat_copy (Z.to_nat n) 0 m d src in
      Some (wb m (d + i) 0)
  end.

Fixpoint strcmp (fuel : nat) (m : mem) (a b : Z) : option Z :=
  match fuel with
  | O => None
  | S k =>
      if negb (rb m a =? 0) && (rb m a =? rb m b) then strcmp k m (a + 1) (b + 1)
      else Some (rb m a - rb m b)
  end.

Fixpoint strncmp_loop (k : nat) (i : Z) (m : mem) (a b : Z) : Z :=
  match k with
  | O => 0
  | S k =>
      if negb (rb m (a + i) =? rb m (b + i)) then rb m (a + i) - rb m (b + i)
      else if rb m (a + i) =? 0 then 0
      else strncmp_loop k (i + 1) m a b
  end.
Definition strncmp (m : mem) (a b n : Z) : Z := strncmp_loop (Z.to_nat n) 0 m a b.

Fixpoint strchr (fuel : nat) (m : mem) (s c : Z) : option Z :=
  match fuel with
  | O => None
  | S k =>
      if rb m s =? 0 then Some 0
      else if rb m s =? u8 c then Some s
      else strchr k m (s + 1) c
  end.

Fixpoint strrchr_loop (fuel : nat) (m : mem) (s c last : Z) : option Z :=
  match fuel with
  | O => None
  | S k =>
      if rb m s =? 0 then Some last
      else strrchr_loop k m (s + 1) c (if rb m s =? u8 c then s else last)
  end.
Definition strrchr (fuel : nat) (m : mem) (s c : Z) : option Z := strrchr_loop fuel m s c 0.

(** ** [memcpy] and [memset] *)

Lemma memcpy_loop_out k i m dst src x :
  x < dst + i \/ dst + i + Z.of_nat k <= x -> rb (memcpy_loop k i m dst src) x = rb m x.
Proof.
  revert i m. induction k as [|k IH]; intros i m H; [done|]. cbn [memcpy_loop].
  rewrite IH by lia. apply rb_wb_ne. lia.
Qed.

(** A forward copy is right when the source is not overwritten before it is
    read: the regions are disjoint, or the destination is below the source. *)
Lemma memcpy_loop_in k i m dst src x :
  dst <= src \/ src + i + Z.of_nat k <= dst + i -> 0 <= i ->
  i <= x < i + Z.of_nat k ->
  rb (memcpy_loop k i m dst src) (dst + x) = rb m (src + x).
Proof.
  revert i m. induction k as [|k IH]; intros i m H Hi Hx; [lia|]. cbn [memcpy_loop].
  destruct (Z.eq_dec x i) as [->|Hne].
  - rewrite memcpy_loop_out by lia. rewrite rb_wb_eq. apply u8_small, rb_range.
  - rewrite IH by lia. destruct (Z.eq_dec (dst + i) (src + x)) as [E|E].
    + lia.
    + by apply rb_wb_ne.
Qed.

Lemma memcpy_out m dst src n x :
  x < dst \/ dst + n <= x -> rb (memcpy m dst src n) x = rb m x.
Proof.
  intros H. unfold memcpy. destruct (Z.le_gt_cases n 0).
  - by replace (Z.to_nat n) with O by lia.
  - apply memcpy_loop_out. lia.
Qed.

Lemma memcpy_in m dst src n x :
  dst <= src \/ src + n <= dst -> 0 <= x < n ->
  rb (memcpy m dst src n) (dst + x) = rb m (src + x).
Proof. intros H Hx. apply memcpy_loop_in; lia. Qed.

Lemma memset_loop_rb k i m s c x :
  rb (memset_loop k i m s c) x =
  if (s + i <=? x) && (x <? s + i + Z.of_nat k) then u8 c else rb m x.
Proof.
  revert i m. induction k as [|k IH]; intros i m.
  - cbn [memset_loop]. repeat bcase; simpl; lia || done.
  - cbn [memset_loop]. rewrite IH, rb_wb, u8_idem.
    repeat bcase; simpl; lia || done.
Qed.

Lemma memset_rb m s c n x :
  rb (memset m s c n) x = if (s <=? x) && (x <? s + n) then u8 c else rb m x.
Proof.
  unfold memset. rewrite memset_loop_rb, Z.add_0_r.
  destruct (Z.le_gt_cases 0 n); [by rewrite Z2Nat.id|].
  replace (Z.of_nat (Z.to_nat n)) with 0 by lia. repeat bcase; simpl; lia || done.
Qed.

(** ** C strings *)

(** The bytes from [a] on are [s] and a NUL. *)
Fixpoint cstr (m : mem) (a : Z) (s : list Z) : Prop :=
  match s with
  | [] => rb m a = 0
  | c :: r => rb m a = c /\ c <> 0 /\ cstr m (a + 1) r
  end.

Lemma cstr_ext m m' a s : same_on a (a + lenZ s + 1) m m' -> cstr m a s -> cstr m' a s.
Proof.
  unfold lenZ. revert a. induction s as [|c s IH]; intros a H; cbn [cstr length] in *.
  - rewrite (H a) by lia. done.
  - rewrite (H a) by lia. intros (? & ? & ?). split; [done|]. split; [done|].
    apply IH; [|done]. intros x Hx. apply H. lia.
Qed.

Lemma cstr_get m a s i c : cstr m a s -> s !! i = Some c -> rb m (a + Z.of_nat i) = c /\ 0 < c < 256.
Proof.
  revert a i. induction s as [|d s IH]; intros a i Hs Hi; [done|]. destruct Hs as (Hd & Hd0 & Hs).
  destruct i as [|i]; cbn in Hi.
  - injection Hi as <-. rewrite Z.add_0_r. split; [done|]. pose proof (rb_range m a). lia.
  - destruct (IH (a + 1) i Hs Hi) as [<- ?]. split; [f_equal; lia|done].
Qed.

Lemma cstr_end m a s : cstr m a s -> rb m (a + lenZ s) = 0.
Proof.
  unfold lenZ. revert a. induction s as [|c s IH]; intros a; cbn [cstr length].
  - intros. by rewrite Z.add_0_r.
  - intros (_ & _ & H). rewrite <- (IH _ H). f_equal. lia.
Qed.

Lemma cstr_of m a s :
  (forall i c, s !! i = Some c -> rb m (a + Z.of_nat i) = c /\ c <> 0) ->
  rb m (a + lenZ s) = 0 -> cstr m a s.
Proof.
  unfold lenZ. revert a. induction s as [|c s IH]; intros a Hs He; cbn [cstr length] in *.
  - by rewrite Z.add_0_r in He.
  - destruct (Hs O c eq_refl) as [Hc ?]. rewrite Z.add_0_r in Hc. split; [done|]. split; [done|].
    apply IH.
    + intros i d Hi. destruct (Hs (S i) d Hi) as [<- ?]. split; [f_equal; lia|done].
    + rewrite <- He. f_equal. lia.
Qed.

(** A memory holds one string at an address. *)
Lemma cstr_fun m a s t : cstr m a s -> cstr m a t -> s = t.
Proof.
  revert a t. induction s as [|c s IH]; intros a [|d t]; cbn [cstr]; try done.
  - intros E (? & ? & _). congruence.
  - intros (? & ? & _) E. congruence.
  - intros (<- & _ & Hs) (<- & _ & Ht). f_equal. by eapply IH.
Qed.

Lemma strlen_loop_ok fuel m a s n :
  cstr m a s -> (length s < fuel)%nat -> 0 <= n -> n + lenZ s < 18446744073709551616 ->
  strlen_loop fuel m a n = Some (n + lenZ s).
Proof.
  unfold lenZ. revert fuel a n. induction s as [|c s IH]; intros fuel a n Hs Hf Hn Hl;
    (destruct fuel as [|fuel]; [simpl in Hf; lia|]); cbn [strlen_loop cstr length] in *.
  - rewrite Hs. f_equal. simpl. lia.
  - destruct Hs as (-> & Hc & Hs). rw_test. rewrite u64_small by lia.
    rewrite IH by (done || lia). f_equal. lia.
Qed.

Lemma str_end_ok fuel m a s :
  cstr m a s -> (length s < fuel)%nat -> str_end fuel m a = Some (a + lenZ s).
Proof.
  unfold lenZ. revert fuel a. induction s as [|c s IH]; intros fuel a Hs Hf;
    (destruct fuel as [|fuel]; [simpl in Hf; lia|]); cbn [str_end cstr length] in *.
  - rewrite Hs. f_equal. simpl. lia.
  - destruct Hs as (-> & Hc & Hs). rw_test. rewrite IH by (done || lia). f_equal. lia.
Qed.

(** The byte copy of [strcpy], when the destination does not run into the
    part of the source still to be read. *)
Lemma strcpy_loop_ok fuel m d a s :
  cstr m a s -> (length s < fuel)%nat -> d <= a \/ a + lenZ s < d ->
  exists m', strcpy_loop fuel m d a = Some m' /\ cstr m' d s /\
    (forall x, ~ (d <= x <= d + lenZ s) -> rb m' x = rb m x).
Proof.
  unfold lenZ. revert fuel m d a. induction s as [|c s IH]; intros fuel m d a Hs Hf Hd;
    (destruct fuel as [|fuel]; [simpl in Hf; lia|]); cbn [strcpy_loop cstr length] in *.
  - rewrite Hs. exists (wb m d 0). rw_test. split; [done|]. split; [by rewrite rb_wb_eq|].
    intros x Hx. apply rb_wb_ne. simpl in Hx. lia.
  - destruct Hs as (Ha & Hc & Hs). rewrite Ha. rw_test.
    assert (Hc8 : u8 c = c) by (apply u8_small; rewrite <- Ha; apply rb_range).
    destruct (IH fuel (wb m d c) (d + 1) (a + 1)) as (m' & E & H1 & H2).
    + eapply cstr_ext; [|exact Hs]. intros x Hx. unfold lenZ in Hx. symmetry. apply rb_wb_ne. lia.
    + lia.
    + lia.
    + exists m'. split; [done|]. split; [split; [|done]|].
      * rewrite H2 by lia. by rewrite rb_wb_eq.
      * intros x Hx. rewrite H2 by lia. apply rb_wb_ne. lia.
Qed.

(** Appending a string right after another one. *)
Lemma cstr_append m a s b t :
  (forall i c, s !! i = Some c -> rb m (a + Z.of_nat i) = c /\ c <> 0) ->
  b = a + lenZ s -> cstr m b t -> cstr m a (s ++ t).
Proof.
  unfold lenZ. intros Hs -> Ht. revert a Hs Ht. induction s as [|c s IH]; intros a Hs Ht.
  - cbn [app length] in *. by rewrite Z.add_0_r in Ht.
  - cbn [app cstr length] in *. destruct (Hs O c eq_refl) as [Hc ?]. rewrite Z.add_0_r in Hc.
    split; [done|]. split; [done|]. apply IH.
    + intros i d Hi. destruct (Hs (S i) d Hi) as [<- ?]. split; [f_equal; lia|done].
    + by replace (a + 1 + Z.of_nat (length s)) with (a + Z.of_nat (S (length s))) by lia.
Qed.

(** *** Comparison *)

(** The reference: the difference of the first bytes that differ, a missing
    byte counting as 0. *)
Fixpoint lexcmp (s t : list Z) : Z :=
  match s, t with
  | [], [] => 0
  | [], d :: _ => - d
  | c :: _, [] => c
  | c :: s, d :: t => if c =? d then lexcmp s t else c - d
  end.

Lemma lexcmp_eq s t :
  Forall (fun c => 0 < c) s -> Forall (fun c => 0 < c) t -> lexcmp s t = 0 <-> s = t.
Proof.
  intros Hs. revert t. induction Hs as [|c s Hc Hs IH]; intros t Ht; (destruct Ht as [|d t Hd Ht]); cbn [lexcmp].
  - done.
  - split; [lia|done].
  - split; [lia|done].
  - bcase; [subst; rewrite IH by done; split; congruence|]. split; [lia|congruence].
Qed.

Lemma lexcmp_antisym s t : lexcmp s t = - lexcmp t s.
Proof.
  revert t. induction s as [|c s IH]; intros [|d t]; cbn [lexcmp]; try lia.
  rewrite (Z.eqb_sym d c). bcase; [apply IH|lia].
Qed.

Lemma cstr_pos m a s : cstr m a s -> Forall (fun c => 0 < c) s.
Proof.
  revert a. induction s as [|c s IH]; intros a; [constructor|]. intros (H & ? & Hs).
  constructor; [pose proof (rb_range m a); lia|by eapply IH].
Qed.

Lemma strcmp_lex fuel m a b s t :
  cstr m a s -> cstr m b t -> (length s < fuel)%nat -> strcmp fuel m a b = Some (lexcmp s t).
Proof.
  revert fuel a b t. induction s as [|c s IH]; intros fuel a b t Hs Ht Hf;
    (destruct fuel as [|fuel]; [simpl in Hf; lia|]); cbn [strcmp cstr length] in *.
  - rewrite Hs. cbn [negb andb Z.eqb]. f_equal. destruct t as [|d t]; cbn [lexcmp cstr] in *.
    + by rewrite Ht.
    + destruct Ht as (-> & _). lia.
  - destruct Hs as (-> & Hc & Hs). destruct t as [|d t]; cbn [lexcmp cstr] in *.
    + rewrite Ht. rw_test. cbn [negb andb]. f_equal. lia.
    + destruct Ht as (-> & Hd & Ht). rewrite (proj2 (Z.eqb_neq c 0)) by done. cbn [negb andb].
      bcase; [|done]. apply IH; [done|done|lia].
Qed.

Lemma strncmp_lex k i m a b s t :
  cstr m (a + i) s -> cstr m (b + i) t ->
  strncmp_loop k i m a b = lexcmp (take k s) (take k t).
Proof.
  revert i s t. induction k as [|k IH]; intros i s t Hs Ht; [done|]. cbn [strncmp_loop].
  destruct s as [|c s], t as [|d t]; cbn [cstr take lexcmp] in *.
  - by rewrite Hs, Ht.
  - destruct Ht as (-> & Hd & _). rewrite Hs. rw_test. cbn [negb]. lia.
  - destruct Hs as (-> & Hc & _). rewrite Ht. rw_test. cbn [negb]. lia.
  - destruct Hs as (-> & Hc & Hs), Ht as (-> & Hd & Ht). bcase; cbn [negb]; [|done].
    rw_test. apply IH; by rewrite Z.add_assoc.
Qed.

(** *** Search *)

(** The index of the first, and of the last, [c] in [s]. *)
Fixpoint first_idx (c : Z) (s : list Z) : option Z :=
  match s with
  | [] => None
  | d :: r => if d =? c then Some 0 else (fun i => i + 1) <$> first_idx c r
  end.
Fixpoint last_idx (c : Z) (s : list Z) : option Z :=
  match s with
  | [] => None
  | d :: r => match last_idx c r with
              | Some i => Some (i + 1)
              | None => if d =? c then Some 0 else None
              end
  end.

Lemma strchr_idx fuel m a s c :
  cstr m a s -> (length s < fuel)%nat ->
  strchr fuel m a c = Some (match first_idx (u8 c) s with None => 0 | Some i => a + i end).
Proof.
  revert fuel a. induction s as [|d s IH]; intros fuel a Hs Hf;
    (destruct fuel as [|fuel]; [simpl in Hf; lia|]); cbn [strchr cstr length first_idx] in *.
  - by rewrite Hs.
  - destruct Hs as (-> & Hd & Hs). rw_test. bcase; [f_equal; lia|].
    rewrite IH by (done || lia). f_equal. destruct (first_idx (u8 c) s); cbn; lia.
Qed.

Lemma strrchr_idx fuel m a s c last :
  cstr m a s -> (length s < fuel)%nat ->
  strrchr_loop fuel m a c last =
  Some (match last_idx (u8 c) s with None => last | Some i => a + i end).
Proof.
  revert fuel a last. induction s as [|d s IH]; intros fuel a last Hs Hf;
    (destruct fuel as [|fuel]; [simpl in Hf; lia|]); cbn [strrchr_loop cstr length last_idx] in *.
  - by rewrite Hs.
  - destruct Hs as (-> & Hd & Hs). rw_test.
    rewrite IH by (done || lia). f_equal. destruct (last_idx (u8 c) s); [lia|]. bcase; lia.
Qed.

(** *** [strncpy] and [strncat] *)

Lemma strncpy_copy_ok k i m d a s :
  cstr m (a + i) s -> d + i + Z.of_nat k <= a + i \/ a + i + lenZ s < d + i -> 0 <= i ->
  let n := Nat.min k (length s) in
  exists m', strncpy_copy k i m d a = (m', (k - n)%nat) /\
    (forall j c, take n s !! j = Some c -> rb m' (d + i + Z.of_nat j) = c) /\
    (forall x, ~ (d + i <= x < d + i + Z.of_nat n) -> rb m' x = rb m x).
Proof.
  unfold lenZ. revert i m s. induction k as [|k IH]; intros i m s Hs Hd Hi.
  - exists m. split; [done|]. by split.
  - destruct s as [|c s]; cbn [strncpy_copy cstr length] in *.
    + rewrite Hs. exists m. split; [done|]. by split.
    + destruct Hs as (Ha & Hc & Hs). rewrite Ha. rw_test.
      assert (Hc8 : u8 c = c) by (apply u8_small; rewrite <- Ha; apply rb_range).
      destruct (IH (i + 1) (wb m (d + i) c) s) as (m' & E & H1 & H2).
      * rewrite Z.add_assoc. eapply cstr_ext; [|exact Hs]. intros x Hx. symmetry. unfold lenZ in Hx.
        apply rb_wb_ne. lia.
      * lia.
      * lia.
      * exists m'. cbn [Nat.min take]. split; [rewrite E; f_equal; lia|]. split.
        -- intros [|j] e; cbn.
           ++ intros [= <-]. rewrite H2 by lia. by rewrite Z.add_0_r, rb_wb_eq.
           ++ intros Hj. rewrite <- (H1 _ _ Hj). f_equal. lia.
        -- intros x Hx. rewrite H2 by lia. apply rb_wb_ne. lia.
Qed.

Lemma strncat_copy_ok k i m d a s :
  cstr m (a + i) s -> d + i + Z.of_nat k <= a + i \/ a + i + lenZ s < d + i -> 0 <= i ->
  let n := Nat.min k (length s) in
  exists m', strncat_copy k i m d a = (m', i + Z.of_nat n) /\
    (forall j c, take n s !! j = Some c -> rb m' (d + i + Z.of_nat j) = c) /\
    (forall x, ~ (d + i <= x < d + i + Z.of_nat n) -> rb m' x = rb m x).
Proof.
  unfold lenZ. revert i m s. induction k as [|k IH]; intros i m s Hs Hd Hi.
  - exists m. split; [simpl; f_equal; lia|]. by split.
  - destruct s as [|c s]; cbn [strncat_copy cstr length] in *.
    + rewrite Hs. exists m. split; [simpl; f_equal; lia|]. by split.
    + destruct Hs as (Ha & Hc & Hs). rewrite Ha. rw_test.
      assert (Hc8 : u8 c = c) by (apply u8_small; rewrite <- Ha; apply rb_range).
      destruct (IH (i + 1) (wb m (d + i) c) s) as (m' & E & H1 & H2).
      * rewrite Z.add_assoc. eapply cstr_ext; [|exact Hs]. intros x Hx. symmetry. unfold lenZ in Hx.
        apply rb_wb_ne. lia.
      * lia.
      * lia.
      * exists m'. cbn [Nat.min take]. split; [rewrite E; f_equal; lia|]. split.
        -- intros [|j] e; cbn.
           ++ intros [= <-]. rewrite H2 by lia. by rewrite Z.add_0_r, rb_wb_eq.
           ++ intros Hj. rewrite <- (H1 _ _ Hj). f_equal. lia.
        -- intros x Hx. rewrite H2 by lia. apply rb_wb_ne. lia.
Qed.

Lemma rbs_of (m : mem) a l :
  (forall i c, l !! i = Some c -> rb m (a + Z.of_nat i) = c) -> rbs m a (length l) = l.
Proof.
  intros H. apply list_eq. intros i. destruct (l !! i) as [c|] eqn:E.
  - rewrite lookup_rbs by (by eapply lookup_lt_Some). f_equal. by apply H.
  - apply lookup_ge_None. rewrite length_rbs. by apply lookup_ge_None.
Qed.

(** ** Properties *)

(** A memory with "ab" at 100 and "abc" at 200, for the witnesses. *)
Definition m0 : mem := wbs (wbs ∅ 100 [97; 98; 0]) 200 [97; 98; 99; 0].
Lemma m0_s : cstr m0 100 [97; 98].
Proof. vm_compute. repeat split; congruence. Qed.
Lemma m0_t : cstr m0 200 [97; 98; 99].
Proof. vm_compute. repeat split; congruence. Qed.

(** [strcat] appends: with [s] at [dst] and [t] at [src], apart from the
    bytes it writes, it ends with [s ++ t] at [dst], having written only the
    bytes of [t] and the NUL; [strcpy] is the case of an empty [s] (and then
    needs nothing of what was at [dst]). *)
Theorem strcat_concat fuel m dst src s t :
  cstr m dst s -> cstr m src t -> (length s < fuel)%nat -> (length t < fuel)%nat ->
  dst + lenZ s <= src \/ src + lenZ t < dst + lenZ s ->
  (exists m', strcat fuel m dst src = Some m' /\ cstr m' dst (s ++ t) /\
    forall x, ~ (dst + lenZ s <= x <= dst + lenZ s + lenZ t) -> rb m' x = rb m x) /\
  (dst <= src \/ src + lenZ t < dst ->
   exists m', strcpy fuel m dst src = Some m' /\ cstr m' dst t /\
    forall x, ~ (dst <= x <= dst + lenZ t) -> rb m' x = rb m x).
Proof.
  intros Hs Ht Hfs Hft Hd. split; [|by apply strcpy_loop_ok].
  unfold strcat. rewrite (str_end_ok _ _ _ _ Hs Hfs).
  destruct (strcpy_loop_ok fuel m (dst + lenZ s) src t Ht Hft Hd) as (m' & E & H1 & H2).
  exists m'. split; [done|]. split; [|done].
  eapply cstr_append; [|reflexivity|done]. intros i c Hi.
  destruct (cstr_get _ _ _ _ _ Hs Hi) as [<- ?]. split; [|lia].
  apply H2. apply lookup_lt_Some in Hi. unfold lenZ. lia.
Qed.

Lemma strcat_concat_witness :
  exists m', strcat 9 m0 100 200 = Some m' /\ cstr m' 100 [97; 98; 97; 98; 99].
Proof.
  destruct (strcat_concat 9 m0 100 200 [97; 98] [97; 98; 99]) as [(m' & E & H & _) _].
  - apply m0_s.
  - apply m0_t.
  - simpl. lia.
  - simpl. lia.
  - vm_compute. by left.
  - by exists m'.
Defined.

(** [strcmp] compares strings lexicographically by unsigned bytes: its
    value is the difference of the first bytes that differ, so it is 0 exactly
    on equal strings and changes sign when the arguments are swapped;
    [strncmp] does the same on the first [n] bytes. *)
Theorem strcmp_lexicographic fuel m a b n s t :
  cstr m a s -> cstr m b t -> (length s < fuel)%nat -> (length t < fuel)%nat ->
  strcmp fuel m a b = Some (lexcmp s t) /\
  strcmp fuel m b a = Some (- lexcmp s t) /\
  (lexcmp s t = 0 <-> s = t) /\
  strncmp m a b n = lexcmp (take (Z.to_nat n) s) (take (Z.to_nat n) t) /\
  (strncmp m a b n = 0 <-> take (Z.to_nat n) s = take (Z.to_nat n) t).
Proof.
  intros Hs Ht Hfs Hft. pose proof (cstr_pos _ _ _ Hs) as Ps. pose proof (cstr_pos _ _ _ Ht) as Pt.
  assert (En : strncmp m a b n = lexcmp (take (Z.to_nat n) s) (take (Z.to_nat n) t))
    by (apply strncmp_lex; by rewrite Z.add_0_r).
  split; [by apply strcmp_lex|]. split; [rewrite <- lexcmp_antisym; by apply strcmp_lex|].
  split; [by apply lexcmp_eq|]. split; [done|]. rewrite En. apply lexcmp_eq; by apply Forall_take.
Qed.

Lemma strcmp_lexicographic_witness :
  strcmp 9 m0 100 200 = Some (-99) /\ strncmp m0 100 200 2 = 0.
Proof.
  destruct (strcmp_lexicographic 9 m0 100 200 2 [97; 98] [97; 98; 99]) as (H1 & _ & _ & _ & H2).
  - apply m0_s.
  - apply m0_t.
  - simpl. lia.
  - simpl. lia.
  - split; [exact H1|]. by apply H2.
Defined.

(** [strncpy] writes exactly [n] bytes: the first [n] bytes of the source
    string, padded with NULs; so the result is a C string (the source's) only
    when the source is shorter than [n]. *)
Theorem strncpy_pads m dst src n s :
  cstr m src s -> 0 <= n -> dst + n <= src \/ src + lenZ s < dst ->
  let m' := strncpy m dst src n in
  rbs m' dst (Z.to_nat n) = take (Z.to_nat n) (s ++ replicate (Z.to_nat n) 0) /\
  (forall x, ~ (dst <= x < dst + n) -> rb m' x = rb m x) /\
  (lenZ s < n -> cstr m' dst s).
Proof.
  intros Hs Hn Hd m'.
  destruct (strncpy_copy_ok (Z.to_nat n) 0 m dst src s) as (m1 & E & H1 & H2);
    [by rewrite Z.add_0_r|lia|lia|].
  assert (Em : m' = memset_loop (Z.to_nat n - Nat.min (Z.to_nat n) (length s))
    (Z.of_nat (Nat.min (Z.to_nat n) (length s))) m1 dst 0).
  { unfold m', strncpy. rewrite E. f_equal. lia. }
  assert (Hrb : forall i, 0 <= i < n -> rb m' (dst + i) = default 0 (s !! Z.to_nat i)).
  { intros i Hi. rewrite Em, memset_loop_rb. destruct (s !! Z.to_nat i) as [c|] eqn:Ei.
    - pose proof (lookup_lt_Some _ _ _ Ei). repeat rw_test. cbn [andb default].
      specialize (H1 (Z.to_nat i) c). rewrite lookup_take in H1. rewrite decide_True in H1 by lia.
      unfold id. rewrite <- (H1 Ei). f_equal. lia.
    - apply lookup_ge_None in Ei. by repeat rw_test. }
  assert (Hout : forall x, ~ (dst <= x < dst + n) -> rb m' x = rb m x).
  { intros x Hx. rewrite Em, memset_loop_rb.
    replace ((dst + Z.of_nat (Nat.min (Z.to_nat n) (length s)) <=? x) && _) with false;
      [apply H2; lia|]. symmetry. repeat bcase; simpl; lia || done. }
  split; [|split; [exact Hout|]].
  - rewrite <- (rbs_of m' dst (take (Z.to_nat n) (s ++ replicate (Z.to_nat n) 0))).
    + f_equal. rewrite length_take, length_app, length_replicate. lia.
    + intros i c. rewrite lookup_take. case_decide; [|done]. rewrite lookup_app.
      rewrite Hrb by lia. rewrite Nat2Z.id. destruct (s !! i) as [d|] eqn:Ei; [by intros [= <-]|].
      intros [-> _]%lookup_replicate. done.
  - unfold lenZ. intros Hlt. apply cstr_of; unfold lenZ.
    + intros i c Hi. pose proof (lookup_lt_Some _ _ _ Hi).
      destruct (cstr_get _ _ _ _ _ Hs Hi) as [_ ?]. rewrite Hrb by lia. rewrite Nat2Z.id, Hi.
      split; [done|lia].
    + rewrite Hrb by lia. rewrite Nat2Z.id. by rewrite (lookup_ge_None_2 s) by lia.
Qed.

Lemma strncpy_pads_witness :
  rbs (strncpy m0 300 200 5) 300 5 = [97; 98; 99; 0; 0] /\ cstr (strncpy m0 300 200 5) 300 [97; 98; 99].
Proof.
  destruct (strncpy_pads m0 300 200 5 [97; 98; 99]) as (H1 & _ & H2).
  - apply m0_t.
  - lia.
  - right. vm_compute. reflexivity.
  - split; [exact H1|]. apply H2. vm_compute. reflexivity.
Defined.

(** [strncat] appends at most [n] bytes of the source and always
    terminates the result. *)
Theorem strncat_bounded fuel m dst src n s t :
  cstr m dst s -> cstr m src t -> (length s < fuel)%nat -> 0 <= n ->
  dst + lenZ s + n < src \/ src + lenZ t < dst ->
  exists m', strncat fuel m dst src n = Some m' /\ cstr m' dst (s ++ take (Z.to_nat n) t) /\
    forall x, ~ (dst + lenZ s <= x <= dst + lenZ s + Z.min n (lenZ t)) -> rb m' x = rb m x.
Proof.
  intros Hs Ht Hf Hn Hd. unfold strncat. rewrite (str_end_ok _ _ _ _ Hs Hf).
  pose proof (Zle_0_nat (length s)) as Hls.
  destruct (strncat_copy_ok (Z.to_nat n) 0 m (dst + lenZ s) src t) as (m1 & E & H1 & H2);
    [by rewrite Z.add_0_r|unfold lenZ in *; lia|lia|].
  rewrite E. eexists. split; [reflexivity|].
  rewrite Z.add_0_l. rewrite Z.add_0_r in H1, H2.
  assert (Hmin : Z.of_nat (Nat.min (Z.to_nat n) (length t)) = Z.min n (lenZ t)) by (unfold lenZ; lia).
  rewrite Hmin in *. set (k := Z.min n (lenZ t)) in *. assert (Hk : 0 <= k) by (unfold k, lenZ; lia).
  split.
  - eapply cstr_append; [|reflexivity|].
    + intros i c Hi. pose proof (lookup_lt_Some _ _ _ Hi).
      destruct (cstr_get _ _ _ _ _ Hs Hi) as [<- ?]. split; [|lia].
      rewrite rb_wb_ne by (unfold lenZ; lia). apply H2. unfold lenZ. lia.
    + apply cstr_of.
      * intros i c Hi. pose proof Hi as Hi'. apply lookup_lt_Some in Hi'. rewrite length_take in Hi'.
        assert (Ht' : t !! i = Some c) by (rewrite lookup_take in Hi; by case_decide).
        destruct (cstr_get _ _ _ _ _ Ht Ht') as [_ ?]. split; [|lia].
        rewrite rb_wb_ne by lia. apply H1. rewrite lookup_take.
        by rewrite decide_True by lia.
      * replace (lenZ (take (Z.to_nat n) t)) with k by (unfold lenZ; rewrite length_take; lia).
        by rewrite rb_wb_eq.
  - intros x Hx. rewrite rb_wb_ne by lia. apply H2. lia.
Qed.

Lemma strncat_bounded_witness :
  exists m', strncat 9 m0 100 200 2 = Some m' /\ cstr m' 100 [97; 98; 97; 98].
Proof.
  destruct (strncat_bounded 9 m0 100 200 2 [97; 98] [97; 98; 99]) as (m' & E & H & _).
  - apply m0_s.
  - apply m0_t.
  - simpl. lia.
  - lia.
  - vm_compute. by left.
  - by exists m'.
Defined.

(** [strlen] counts the bytes before the NUL; [strchr] and [strrchr]
    return the address of the first and of the last occurrence of a byte, or
    NULL; searching for NUL returns NULL (the C library's would return the
    terminator's address). *)
Theorem string_search fuel m a s c :
  cstr m a s -> (length s < fuel)%nat -> lenZ s < 18446744073709551616 ->
  strlen fuel m a = Some (lenZ s) /\
  strchr fuel m a c = Some (match first_idx (u8 c) s with None => 0 | Some i => a + i end) /\
  strrchr fuel m a c = Some (match last_idx (u8 c) s with None => 0 | Some i => a + i end) /\
  (u8 c = 0 -> strchr fuel m a c = Some 0 /\ strrchr fuel m a c = Some 0).
Proof.
  intros Hs Hf Hl. split; [by apply (strlen_loop_ok fuel m a s 0)|].
  pose proof (strchr_idx fuel m a s c Hs Hf) as H1.
  pose proof (strrchr_idx fuel m a s c 0 Hs Hf) as H2.
  split; [done|]. split; [done|]. intros Hc. unfold strrchr. rewrite H1, H2, Hc.
  pose proof (cstr_pos _ _ _ Hs) as Hp. clear -Hp.
  assert (first_idx 0 s = None /\ last_idx 0 s = None) as [-> ->]; [|done].
  induction Hp as [|d s Hd Hs [IH1 IH2]]; [done|]. cbn [first_idx last_idx].
  rewrite IH1, IH2. by rw_test.
Qed.

Lemma string_search_witness :
  strlen 9 m0 200 = Some 3 /\ strchr 9 m0 200 98 = Some 201 /\ strchr 9 m0 200 120 = Some 0.
Proof.
  destruct (string_search 9 m0 200 [97; 98; 99] 98) as (H1 & H2 & _).
  - apply m0_t.
  - simpl. lia.
  - done.
  - destruct (string_search 9 m0 200 [97; 98; 99] 120) as (_ & H3 & _).
    + apply m0_t.
    + simpl. lia.
    + done.
    + split; [exact H1|]. split; [exact H2|exact H3].
Defined.
