(* ===== verification/AllocSpec.v ===== *)
(** * What an allocator promises

    The contract the other components rely on, stated without headers or
    lists: a set of live regions with their contents.  [astep] is the abstract
    machine; [ledger] is what a caller knows of the regions from the answers
    it got and the bytes it wrote; [Allocator] is the interface the two allocators implement and
    the scheduler and the program loader use. *)

From Stdlib Require Import ZArith Lia.
From S2P Require Import Prelude Memory.

(** Live regions: address of the first byte, contents. *)
Abbreviation regions := (gmap Z (list Z)).

(** The largest request [align_up] does not wrap on. *)
Definition MAX_REQ : Z := 18446744073709551608.

Inductive call :=
  | CMalloc (n : Z)
  | CFree (p : Z)
  | CRealloc (p n : Z)
  | CWrite (x v : Z).

(** Region [p, p+n) meets no region of [A]. *)
Definition apart (A : regions) (p n : Z) : Prop :=
  forall q d, A !! q = Some d -> p + n <= q \/ q + lenZ d <= p.

Section Spec.
Context (lo hi : Z).

Definition fits_region (p n : Z) : Prop := lo <= p /\ p + n <= hi.

(** [astep A c r A'] : the call [c] may return [r] and leave [A']. *)
Inductive astep (A : regions) : call -> Z -> regions -> Prop :=
  | as_malloc n p d :
      p <> 0 -> lenZ d = n -> fits_region p n -> apart A p n -> A !! p = None ->
      astep A (CMalloc n) p (<[p := d]> A)
  | as_malloc_null n : astep A (CMalloc n) 0 A
  | as_free p d : A !! p = Some d -> astep A (CFree p) 0 (delete p A)
  | as_realloc p c n q d :
      A !! p = Some c -> q <> 0 -> lenZ d = n -> fits_region q n ->
      apart (delete p A) q n -> delete p A !! q = None ->
      take (Nat.min (length c) (length d)) d = take (Nat.min (length c) (length d)) c ->
      astep A (CRealloc p n) q (<[q := d]> (delete p A))
  | as_realloc_null p c n : A !! p = Some c -> n <> 0 -> astep A (CRealloc p n) 0 A
  | as_realloc_zero p c : A !! p = Some c -> astep A (CRealloc p 0) 0 (delete p A)
  | as_write p c x v :
      A !! p = Some c -> p <= x < p + lenZ c ->
      astep A (CWrite x v) 0 (<[p := <[Z.to_nat (x - p) := u8 v]> c]> A).

(** Calls a correct client makes: sizes that do not wrap, pointers it owns,
    bytes it owns. *)
Definition client_ok (A : regions) (c : call) : Prop :=
  match c with
  | CMalloc n => 0 <= n <= MAX_REQ
  | CFree p => is_Some (A !! p)
  | CRealloc p n => is_Some (A !! p) /\ 0 <= n <= MAX_REQ
  | CWrite x v => exists p c, A !! p = Some c /\ p <= x < p + lenZ c
  end.
End Spec.

(** The memory holds the contents of the regions. *)
Definition agrees (m : mem) (A : regions) : Prop :=
  forall p d, A !! p = Some d -> rbs m p (length d) = d.

Definition disjoint_regions (A : regions) : Prop :=
  forall p c q d, A !! p = Some c -> A !! q = Some d -> p <> q ->
    p + lenZ c <= q \/ q + lenZ d <= p.

(** ** The client's ledger

    What a client knows of its regions: it notes what it gets and gives back,
    and what it writes; the first contents of new memory are those it finds
    there ([m], the memory after the call).  The ledger is a function of the
    calls, their results and that memory, and asks nothing of the allocator. *)
Definition ledger (c : call) (r : Z) (m : mem) (A : regions) : regions :=
  match c with
  | CMalloc n => if r =? 0 then A else <[r := rbs m r (Z.to_nat n)]> A
  | CFree p => delete p A
  | CRealloc p n =>
      if r =? 0 then (if n =? 0 then delete p A else A)
      else
        let c := default [] (A !! p) in
        let k := Nat.min (length c) (Z.to_nat n) in
        <[r := take k c ++ drop k (rbs m r (Z.to_nat n))]> (delete p A)
  | CWrite x v =>
      map_imap (fun p c => Some (if (p <=? x) && (x <? p + lenZ c) then <[Z.to_nat (x - p) := u8 v]> c else c)) A
  end.

(** What the abstract machine leaves open (the contents of fresh memory) is
    settled by the memory it must agree with. *)
Lemma astep_ledger lo hi m A c r A' :
  disjoint_regions A -> astep lo hi A c r A' -> agrees m A' -> A' = ledger c r m A.
Proof.
  intros Hd Hs Hg. destruct Hs; cbn [ledger]; try rewrite (proj2 (Z.eqb_neq _ _)) by done; try done.
  - subst n. unfold lenZ. by rewrite Nat2Z.id, (Hg p d) by apply lookup_insert_eq.
  - rewrite H. cbn [default]. subst n. unfold lenZ. rewrite Nat2Z.id, (Hg q d) by apply lookup_insert_eq.
    unfold id. rewrite <- H5, take_drop. done.
  - rewrite Z.eqb_refl. by rewrite (proj2 (Z.eqb_neq n 0)).
  - apply map_eq. intros q. rewrite map_lookup_imap. destruct (decide (q = p)) as [->|Hne].
    + rewrite lookup_insert_eq, H. cbn. by rewrite (proj2 (Z.leb_le p x)), (proj2 (Z.ltb_lt x _)) by lia.
    + rewrite lookup_insert_ne by done. destruct (A !! q) as [d|] eqn:Eq; [|done]. cbn.
      destruct (_ && _) eqn:E; [|done]. bsimp. destruct (Hd _ _ _ _ H Eq) as [?|?]; [done|lia..].
Qed.

(** An implementation: its state, the call function ([None] when a loop does
    not end within the fuel) and the relation [al_rel] to the live regions.
    [al_safe s n] is what the implementation needs to handle a request of [n]
    bytes correctly, [al_room s n] what it needs to serve it. *)
Class Allocator (St : Type) := {
  al_lo : Z; al_hi : Z;
  al_call : call -> St -> option (Z * St);
  al_rel : St -> regions -> Prop;
  al_safe : St -> Z -> Prop;
  al_room : St -> Z -> Prop
}.

(** The size a call requests, if it requests one. *)
Definition request (c : call) : option Z :=
  match c with
  | CMalloc n | CRealloc _ n => Some n
  | _ => None
  end.

(** The contract: from related states every client call returns, and does
    what the abstract machine allows; a request there is room for is served;
    live regions are non-null, inside the managed area and disjoint. *)
Class AllocatorOk (St : Type) `{!Allocator St} := {
  al_simulates s A c :
    al_rel s A -> client_ok A c -> (forall n, request c = Some n -> al_safe s n) ->
    exists r s' A', al_call c s = Some (r, s') /\ astep al_lo al_hi A c r A' /\ al_rel s' A';
  al_serves s A n r s' :
    al_rel s A -> 0 < n <= MAX_REQ -> al_room s n ->
    al_call (CMalloc n) s = Some (r, s') -> r <> 0;
  al_room_safe s n : al_room s n -> al_safe s n;
  al_disjoint s A p c q d :
    al_rel s A -> A !! p = Some c -> A !! q = Some d -> p <> q ->
    p + lenZ c <= q \/ q + lenZ d <= p;
  al_inside s A p c : al_rel s A -> A !! p = Some c -> al_lo <= p /\ p + lenZ c <= al_hi /\ p <> 0
}.
