(* ===== verification/HeapBlock.v ===== *)
(** * Block headers and the block list in memory

    malloc/malloc.c and malloc/user_malloc.c lay out the same header in front
    of every payload and thread the headers on a doubly linked list.  This
    file holds what the two allocators share: the header's fields as loads and
    stores at their offsets, [split_block], [coalesce] and [find_fit] as the
    two files write them (they differ in the MAGIC constant only), and the
    representation predicate [seg] that ties the linked headers in memory to
    a list of abstract blocks. *)

From Stdlib Require Import ZArith Lia.
From S2P Require Import Prelude Memory.

(** ** The header

    [struct block_header { uint32_t magic; size_t size; int free;
    struct block_header *prev, *next; }] under the x86-64 ABI. *)

Inductive field := Fmagic | Fsize | Ffree | Fprev | Fnext.
#[export] Instance field_eq_dec : EqDecision field.
Proof. solve_decision. Defined.

Definition foff (f : field) : Z :=
  match f with Fmagic => 0 | Fsize => 8 | Ffree => 16 | Fprev => 24 | Fnext => 32 end.
Definition fwid (f : field) : nat :=
  match f with Fmagic => 4%nat | Fsize => 8%nat | Ffree => 4%nat | Fprev => 8%nat | Fnext => 8%nat end.
Definition SIZEOF_HDR : Z := 40.
Definition ALIGN : Z := 8.
Definition MIN_SPLIT_SIZE : Z := SIZEOF_HDR + ALIGN.

Definition fget (m : mem) (h : Z) (f : field) : Z := ld (fwid f) m (h + foff f).
Definition fset (m : mem) (h : Z) (f : field) (v : Z) : mem := st (fwid f) m (h + foff f) v.

(** [(n + (ALIGN - 1)) & ~(ALIGN - 1)] on [size_t]: [~7] converts to
    2^64 - 8. *)
Definition align_up (n : Z) : Z := Z.land (u64 (n + (ALIGN - 1))) (u64 (Z.lnot (ALIGN - 1))).
Definition header_to_payload (h : Z) : Z := u64 (h + SIZEOF_HDR).
Definition payload_to_header (p : Z) : Z := u64 (p - SIZEOF_HDR).

(** The memory and the two list-end pointers both allocators keep. *)
Record heap := Heap { hmem : mem; hhead : Z; htail : Z }.

Section Operations.
Context (MAGIC : Z).

(** Cut the block at [h] after [req_size] payload bytes when the rest can
    hold a header and [ALIGN] bytes. *)
Definition split_block (h req_size : Z) (s : heap) : heap :=
  let '(Heap m head tail) := s in
  if fget m h Fsize <? u64 (req_size + MIN_SPLIT_SIZE) then s else
  let newh := u64 (header_to_payload h + req_size) in
  let m := fset m newh Fmagic MAGIC in
  let m := fset m newh Ffree 1 in
  let m := fset m newh Fsize (u64 (fget m h Fsize - req_size - SIZEOF_HDR)) in
  let m := fset m newh Fprev h in
  let m := fset m newh Fnext (fget m h Fnext) in
  let m := if fget m newh Fnext =? 0 then m
           else fset m (fget m newh Fnext) Fprev newh in
  let m := fset m h Fnext newh in
  let m := fset m h Fsize req_size in
  Heap m head (if tail =? h then newh else tail).

(** [if (h->next && h->next->free) {...}] *)
Definition coalesce_next (h : Z) (s : heap) : heap :=
  let '(Heap m head tail) := s in
  let n := fget m h Fnext in
  if negb (n =? 0) && negb (fget m n Ffree =? 0) then
    let m := fset m h Fsize (u64 (fget m h Fsize + SIZEOF_HDR + fget m n Fsize)) in
    let m := fset m h Fnext (fget m n Fnext) in
    let m := if fget m n Fnext =? 0 then m
             else fset m (fget m n Fnext) Fprev h in
    Heap m head (if tail =? n then h else tail)
  else s.

(** [if (h->prev && h->prev->free) {...}] *)
Definition coalesce_prev (h : Z) (s : heap) : heap :=
  let '(Heap m head tail) := s in
  let p := fget m h Fprev in
  if negb (p =? 0) && negb (fget m p Ffree =? 0) then
    let m := fset m p Fsize (u64 (fget m p Fsize + SIZEOF_HDR + fget m h Fsize)) in
    let m := fset m p Fnext (fget m h Fnext) in
    let m := if fget m h Fnext =? 0 then m
             else fset m (fget m h Fnext) Fprev p in
    Heap m head (if tail =? h then p else tail)
  else s.

Definition coalesce (h : Z) (s : heap) : heap :=
  if h =? 0 then s else coalesce_prev h (coalesce_next h s).

(** First fit, from [cur] on.  [None]: the walk did not end within [fuel]
    nodes; [Some 0] is the NULL the C function returns. *)
Fixpoint find_fit (fuel : nat) (m : mem) (cur size : Z) : option Z :=
  match fuel with
  | O => None
  | S k =>
      if cur =? 0 then Some 0
      else if negb (fget m cur Ffree =? 0) && (size <=? fget m cur Fsize) then Some cur
      else find_fit k m (fget m cur Fnext) size
  end.
End Operations.

Definition on_mem (f : mem -> mem) (s : heap) : heap := Heap (f (hmem s)) (hhead s) (htail s).

(** ** Statistics *)

(** [kmalloc_stats_t] and [umalloc_stats_t]: the same seven counters. *)
Record stats := Stats {
  total_managed : Z; used_payload : Z; free_payload : Z; largest_free : Z;
  num_blocks : Z; num_used : Z; num_free : Z }.

(** The walk of [get_kmalloc_stats] and [get_usermalloc_stats] from [cur] on. *)
Fixpoint stats_loop (fuel : nat) (m : mem) (cur : Z) (st : stats) : option stats :=
  match fuel with
  | O => None
  | S k =>
      if cur =? 0 then Some st else
      let z := fget m cur Fsize in
      let st := Stats (u64 (total_managed st + (SIZEOF_HDR + z))) (used_payload st)
                  (free_payload st) (largest_free st) (u64 (num_blocks st + 1))
                  (num_used st) (num_free st) in
      let st :=
        if negb (fget m cur Ffree =? 0) then
          Stats (total_managed st) (used_payload st) (u64 (free_payload st + z))
            (if largest_free st <? z then z else largest_free st)
            (num_blocks st) (num_used st) (u64 (num_free st + 1))
        else
          Stats (total_managed st) (u64 (used_payload st + z)) (free_payload st)
            (largest_free st) (num_blocks st) (u64 (num_used st + 1)) (num_free st) in
      stats_loop k m (fget m cur Fnext) st
  end.

(** ** Field lemmas *)

Definition fmax (f : field) : Z :=
  match f with Fmagic | Ffree => 4294967296 | _ => 18446744073709551616 end.

Lemma fmax_fwid f : fmax f = 256 ^ Z.of_nat (fwid f).
Proof. by destruct f. Qed.

Lemma fget_range m h f : 0 <= fget m h f < fmax f.
Proof. rewrite fmax_fwid. apply ld_range. Qed.

Lemma fget_fset_eq m h f v : 0 <= v < fmax f -> fget (fset m h f v) h f = v.
Proof. rewrite fmax_fwid. apply ld_st_small. Qed.

Lemma fget_fset_ne m h f g v : f <> g -> fget (fset m h f v) h g = fget m h g.
Proof. intros Hn. apply ld_st_out. destruct f, g; simpl; congruence || lia. Qed.

Lemma fget_fset_far m h f v h' g :
  h' + 40 <= h \/ h + 40 <= h' -> fget (fset m h f v) h' g = fget m h' g.
Proof. intros Hn. apply ld_st_out. destruct f, g; simpl; lia. Qed.

Lemma rb_fset m h f v x : x < h \/ h + 40 <= x -> rb (fset m h f v) x = rb m x.
Proof. intros Hn. apply rb_st_out. destruct f; simpl; lia. Qed.

Lemma fget_ext m m' h f : same_on h (h + 40) m m' -> fget m h f = fget m' h f.
Proof.
  intros H. apply ld_ext. intros x Hx. apply H. destruct f; simpl in Hx; lia.
Qed.

Ltac fsimp :=
  repeat match goal with
  | |- context [fget (fset ?m ?a ?f ?v) ?b ?g] =>
      first [ rewrite (fget_fset_eq m a f v) by (simpl fmax; lia)
            | rewrite (fget_fset_ne m a f g v) by congruence
            | rewrite (fget_fset_far m a f v b g) by lia ]
  end.
Ltac bsimp_mem :=
  repeat match goal with
  | |- context [rb (fset ?m ?a ?f ?v) ?x] => rewrite (rb_fset m a f v x) by lia
  end.

(** [align_up] rounds up to a multiple of 8, unless the addition wraps. *)
Lemma align_up_eq n : 0 <= n <= 18446744073709551608 -> align_up n = (n + 7) / 8 * 8.
Proof.
  intros Hn. unfold align_up, ALIGN. change (8 - 1) with 7. rewrite u64_small by lia.
  change (u64 (Z.lnot 7)) with (Z.ldiff (Z.ones 64) (Z.ones 3)).
  replace (Z.land (n + 7) (Z.ldiff (Z.ones 64) (Z.ones 3)))
    with (Z.ldiff (Z.land (n + 7) (Z.ones 64)) (Z.ones 3))
    by (apply Z.bits_inj'; intros i Hi; rewrite ?Z.land_spec, ?Z.ldiff_spec, ?Z.land_spec;
        by rewrite andb_assoc).
  rewrite Z.land_ones by lia. rewrite Z.mod_small by (change (2 ^ 64) with 18446744073709551616; lia).
  rewrite Z.ldiff_ones_r by lia. rewrite Z.shiftl_mul_pow2, Z.shiftr_div_pow2 by lia. done.
Qed.

Lemma align_up_bounds n :
  0 <= n <= 18446744073709551608 -> n <= align_up n < n + 8 /\ (8 | align_up n).
Proof.
  intros Hn. rewrite align_up_eq by done.
  pose proof (Z.div_mod (n + 7) 8 ltac:(lia)). pose proof (Z.mod_pos_bound (n + 7) 8 ltac:(lia)).
  split; [lia|]. apply Z.divide_factor_r.
Qed.

Lemma align_up_twice n :
  0 <= n <= 18446744073709551608 ->
  align_up n <= 18446744073709551608 /\ align_up (align_up n) = align_up n.
Proof.
  intros Hn. destruct (align_up_bounds n Hn) as [Hb [k Hk]].
  assert (align_up n <= 18446744073709551608) by lia. split; [done|].
  rewrite (align_up_eq (align_up n)) by lia. rewrite Hk.
  rewrite Z.div_add_l by lia. change (7 / 8) with 0. lia.
Qed.

(** ** Abstract blocks *)

(** A block of the list: its payload size and whether it is free. *)
Record blk := Blk { bsz : Z; bfr : bool }.
#[export] Instance blk_eq_dec : EqDecision blk.
Proof. solve_decision. Defined.

(** The bytes a list of adjacent blocks takes, headers included. *)
Fixpoint total (bs : list blk) : Z :=
  match bs with [] => 0 | b :: r => 40 + bsz b + total r end.

Definition blks_wf (bs : list blk) : Prop := Forall (fun b => 0 <= bsz b) bs.

Fixpoint last_addr (p a : Z) (bs : list blk) : Z :=
  match bs with [] => p | b :: r => last_addr a (a + 40 + bsz b) r end.

Definition hd_addr (e nx : Z) (r : list blk) : Z :=
  match r with [] => nx | _ => e end.

(** [x] is a header byte, or a payload byte of a used block, of the blocks
    laid out from [a] on. *)
Fixpoint in_hdr (a : Z) (bs : list blk) (x : Z) : Prop :=
  match bs with
  | [] => False
  | b :: r => a <= x < a + 40 \/ in_hdr (a + 40 + bsz b) r x
  end.
Fixpoint used_at (a : Z) (bs : list blk) (x : Z) : Prop :=
  match bs with
  | [] => False
  | b :: r => (bfr b = false /\ a + 40 <= x < a + 40 + bsz b) \/ used_at (a + 40 + bsz b) r x
  end.

Section Rep.
Context (MAGIC : Z).

Definition hdr_ok (m : mem) (a : Z) (b : blk) (p n : Z) : Prop :=
  fget m a Fmagic = MAGIC /\ fget m a Fsize = bsz b /\ fget m a Ffree = Z.b2z (bfr b) /\
  fget m a Fprev = p /\ fget m a Fnext = n.

(** The headers of [bs] sit one after the other from address [a], each
    linked to its neighbours; [p] precedes the first, [nx] follows the last. *)
Fixpoint seg (m : mem) (p a : Z) (bs : list blk) (nx : Z) : Prop :=
  match bs with
  | [] => True
  | b :: r => hdr_ok m a b p (hd_addr (a + 40 + bsz b) nx r) /\ seg m a (a + 40 + bsz b) r nx
  end.

(** The heap [s] is the list [bs] of blocks filling [base, limit), a region
    in the lower half of the address space. *)
Record rep (base limit : Z) (s : heap) (bs : list blk) : Prop := {
  rep_head : hhead s = base;
  rep_seg : seg (hmem s) 0 base bs 0;
  rep_end : base + total bs = limit;
  rep_wf : blks_wf bs;
  rep_base : 0 < base;
  rep_limit : limit < 9223372036854775808
}.
End Rep.

Lemma total_app l r : total (l ++ r) = total l + total r.
Proof. induction l as [|b l IH]; simpl; lia. Qed.

Lemma total_nonneg bs : blks_wf bs -> 0 <= total bs.
Proof. induction 1; simpl; lia. Qed.

Lemma total_length bs : blks_wf bs -> 40 * Z.of_nat (length bs) <= total bs.
Proof. induction 1; simpl length; cbn [total]; lia. Qed.

Lemma last_addr_app p a l b r :
  last_addr p a (l ++ b :: r) = last_addr (a + total l) (a + total l + 40 + bsz b) r.
Proof.
  revert p a. induction l as [|c l IH]; intros p a; simpl; [f_equal; lia|].
  rewrite IH. f_equal; lia.
Qed.

Lemma in_hdr_range a bs x : blks_wf bs -> in_hdr a bs x -> a <= x < a + total bs.
Proof.
  intros H. revert a. induction H as [|b r Hb Hr IH]; intros a; simpl; [done|].
  pose proof (total_nonneg r Hr). intros [?|Hx]; [lia|]. specialize (IH _ Hx). lia.
Qed.

Lemma used_at_range a bs x : blks_wf bs -> used_at a bs x -> a + 40 <= x < a + total bs.
Proof.
  intros H. revert a. induction H as [|b r Hb Hr IH]; intros a; simpl; [done|].
  pose proof (total_nonneg r Hr). intros [?|Hx]; [lia|]. specialize (IH _ Hx). lia.
Qed.

Lemma used_not_hdr a bs x : blks_wf bs -> used_at a bs x -> ~ in_hdr a bs x.
Proof.
  intros H. revert a. induction H as [|b r Hb Hr IH]; intros a; simpl; [done|].
  intros [[_ ?]|Hu] [?|Hh].
  - lia.
  - apply in_hdr_range in Hh; [lia|done].
  - apply used_at_range in Hu; [lia|done].
  - by eapply IH.
Qed.

Lemma used_at_app a l r x : used_at a (l ++ r) x <-> used_at a l x \/ used_at (a + total l) r x.
Proof.
  revert a. induction l as [|b l IH]; intros a; simpl.
  - rewrite Z.add_0_r. tauto.
  - rewrite IH. replace (a + (40 + bsz b + total l)) with (a + 40 + bsz b + total l) by lia. tauto.
Qed.

Lemma in_hdr_app a l r x : in_hdr a (l ++ r) x <-> in_hdr a l x \/ in_hdr (a + total l) r x.
Proof.
  revert a. induction l as [|b l IH]; intros a; simpl.
  - rewrite Z.add_0_r. tauto.
  - rewrite IH. replace (a + (40 + bsz b + total l)) with (a + 40 + bsz b + total l) by lia. tauto.
Qed.

(** ** Segments *)

Section Segments.
Context (MAGIC : Z).
Abbreviation seg := (seg MAGIC).
Abbreviation hdr_ok := (hdr_ok MAGIC).

Lemma hdr_ok_ext m m' a b p n : same_on a (a + 40) m m' -> hdr_ok m a b p n -> hdr_ok m' a b p n.
Proof. intros H. unfold HeapBlock.hdr_ok. by rewrite !(fget_ext m m' a _ H). Qed.

Lemma seg_ext m m' p a bs nx :
  (forall x, in_hdr a bs x -> rb m x = rb m' x) -> seg m p a bs nx -> seg m' p a bs nx.
Proof.
  revert p a. induction bs as [|b r IH]; intros p a H; simpl; [done|].
  intros [Hh Hs]. split.
  - eapply hdr_ok_ext; [|done]. intros x Hx. apply H. by left.
  - apply IH; [|done]. intros x Hx. apply H. by right.
Qed.

Lemma seg_same m m' p a bs nx :
  blks_wf bs -> same_on a (a + total bs) m m' -> seg m p a bs nx -> seg m' p a bs nx.
Proof. intros Hw H. apply seg_ext. intros x Hx. apply H. by apply in_hdr_range. Qed.

Lemma seg_zip m p a l b r nx :
  seg m p a (l ++ b :: r) nx <->
  seg m p a l (a + total l) /\
  hdr_ok m (a + total l) b (last_addr p a l) (hd_addr (a + total l + 40 + bsz b) nx r) /\
  seg m (a + total l) (a + total l + 40 + bsz b) r nx.
Proof.
  revert p a. induction l as [|c l IH]; intros p a.
  - simpl. rewrite Z.add_0_r. tauto.
  - cbn [app HeapBlock.seg total last_addr]. rewrite IH.
    replace (a + (40 + bsz c + total l)) with (a + 40 + bsz c + total l) by lia.
    replace (hd_addr (a + 40 + bsz c) nx (l ++ b :: r)) with (a + 40 + bsz c) by by destruct l.
    replace (hd_addr (a + 40 + bsz c) (a + 40 + bsz c + total l) l) with (a + 40 + bsz c)
      by (destruct l; simpl; lia).
    tauto.
Qed.

Lemma seg_relink m m' p p' e r nx :
  blks_wf r ->
  seg m p e r nx ->
  (r <> [] -> fget m' e Fprev = p' /\ forall f, f <> Fprev -> fget m' e f = fget m e f) ->
  same_on (e + 40) (e + total r) m m' ->
  seg m' p' e r nx.
Proof.
  intros Hw Hs Hd Hsame. destruct r as [|b r]; [done|].
  destruct Hd as [Hp Hf]; [done|]. apply Forall_cons_1 in Hw as [Hb Hr].
  simpl in *. destruct Hs as [(Hm & Hz & Hfr & Hpv & Hn) Hs].
  split.
  - unfold HeapBlock.hdr_ok. rewrite Hp. by rewrite (Hf Fmagic), (Hf Fsize), (Hf Ffree), (Hf Fnext).
  - eapply seg_same; [done| |done]. intros x Hx. apply Hsame. lia.
Qed.
End Segments.

(** A decomposition of the block list around one block, with the facts about
    it that [lia] needs. *)
Lemma rep_zip MAGIC base limit s l b r :
  rep MAGIC base limit s (l ++ b :: r) ->
  let h := base + total l in
  seg MAGIC (hmem s) 0 base l h /\
  hdr_ok MAGIC (hmem s) h b (last_addr 0 base l) (hd_addr (h + 40 + bsz b) 0 r) /\
  seg MAGIC (hmem s) h (h + 40 + bsz b) r 0 /\
  blks_wf l /\ 0 <= bsz b /\ blks_wf r /\ h + 40 + bsz b + total r = limit.
Proof.
  intros [Hh Hs He Hw Hb Hl]. simpl. apply seg_zip in Hs as (Hs1 & Hs2 & Hs3).
  apply Forall_app in Hw as [Hw1 Hw2]. apply Forall_cons_1 in Hw2 as [Hw2 Hw3].
  rewrite total_app in He. simpl in He. repeat (split; [done|]). lia.
Qed.

(** ** The list-level meaning of the operations *)

(** Cutting block [b] at [n]. *)
Definition spec_split (n : Z) (b : blk) : list blk :=
  if bsz b <? n + MIN_SPLIT_SIZE then [b]
  else [Blk n (bfr b); Blk (bsz b - n - SIZEOF_HDR) true].

(** Allocating [n] bytes from a free block [b]. *)
Definition spec_alloc (n : Z) (b : blk) : list blk :=
  if bsz b <? n + MIN_SPLIT_SIZE then [Blk (bsz b) false]
  else [Blk n false; Blk (bsz b - n - SIZEOF_HDR) true].

(** Block [x] absorbs its right neighbour [y]. *)
Definition merge_blk (x y : blk) : blk := Blk (bsz x + SIZEOF_HDR + bsz y) (bfr x).

Definition spec_merge_next (b : blk) (r : list blk) : blk * list blk :=
  match r with
  | c :: r' => if bfr c then (merge_blk b c, r') else (b, r)
  | [] => (b, [])
  end.

(** [rl] is the reversed prefix, so its head is [h->prev]. *)
Definition spec_merge_prev (rl : list blk) (b : blk) : list blk * blk :=
  match rl with
  | p :: rl' => if bfr p then (rl', merge_blk p b) else (rl, b)
  | [] => ([], b)
  end.

Definition spec_coalesce (l : list blk) (b : blk) (r : list blk) : list blk :=
  let '(b1, r1) := spec_merge_next b r in
  let '(rl, b2) := spec_merge_prev (reverse l) b1 in
  reverse rl ++ b2 :: r1.

(** The first free block that holds [n] bytes, with what precedes and
    follows it. *)
Fixpoint first_fit (n : Z) (bs : list blk) : option (list blk * blk * list blk) :=
  match bs with
  | [] => None
  | b :: r =>
      if bfr b && (n <=? bsz b) then Some ([], b, r)
      else match first_fit n r with
           | None => None
           | Some (l, c, r') => Some (b :: l, c, r')
           end
  end.

Lemma spec_coalesce_ne l b r : spec_coalesce l b r <> [].
Proof.
  unfold spec_coalesce. destruct (spec_merge_next b r), (spec_merge_prev (reverse l) b0).
  by destruct (reverse l1).
Qed.

Lemma last_addr_ge p a bs : blks_wf bs -> p <= a -> p <= last_addr p a bs.
Proof.
  intros H. revert p a. induction H as [|b r Hb Hr IH]; intros p a Hp; simpl; [lia|].
  specialize (IH a (a + 40 + bsz b)). lia.
Qed.

Lemma total_split n b : 0 <= n -> total (spec_split n b) = 40 + bsz b.
Proof. intros. unfold spec_split, SIZEOF_HDR. bcase; simpl; lia. Qed.

Lemma total_alloc n b : total (spec_alloc n b) = 40 + bsz b.
Proof. unfold spec_alloc, SIZEOF_HDR. bcase; simpl; lia. Qed.

Lemma first_fit_app n bs l b r :
  first_fit n bs = Some (l, b, r) -> bs = l ++ b :: r /\ bfr b = true /\ n <= bsz b.
Proof.
  revert l. induction bs as [|c bs IH]; intros l; simpl; [done|].
  destruct (bfr c && (n <=? bsz c)) eqn:E.
  - intros [= <- <- <-]. bsimp. done.
  - destruct (first_fit n bs) as [[[l' c'] r']|]; [|done]. intros [= <- <- <-].
    destruct (IH l') as (-> & ? & ?); done.
Qed.

(** It is the first: nothing before it fits. *)
Lemma first_fit_least n bs l b r c :
  first_fit n bs = Some (l, b, r) -> c ∈ l -> bfr c = false \/ bsz c < n.
Proof.
  revert l. induction bs as [|d bs IH]; intros l; simpl; [done|].
  destruct (bfr d && (n <=? bsz d)) eqn:E.
  - intros [= <- <- <-] Hc. by apply not_elem_of_nil in Hc.
  - destruct (first_fit n bs) as [[[l' c'] r']|]; [|done]. intros [= <- <- <-] Hc.
    apply elem_of_cons in Hc as [->|Hc]; [|by eapply IH].
    apply andb_false_iff in E as [E|E]; bsimp; [by left|by right].
Qed.

Lemma first_fit_none n bs c : first_fit n bs = None -> c ∈ bs -> bfr c = false \/ bsz c < n.
Proof.
  induction bs as [|d bs IH]; simpl; intros Hf Hc; [by apply not_elem_of_nil in Hc|].
  destruct (bfr d && (n <=? bsz d)) eqn:E; [done|].
  destruct (first_fit n bs) as [[[l' c'] r']|]; [done|].
  apply elem_of_cons in Hc as [->|Hc]; [|by apply IH].
  apply andb_false_iff in E as [E|E]; bsimp; [by left|by right].
Qed.

(** ** Refinement of the memory operations *)

(** The payloads in use afterwards, and every byte outside the area, read as
    before. *)
Definition kept_at (base : Z) (bs : list blk) (x : Z) : Prop :=
  used_at base bs x \/ ~ (base <= x < base + total bs).
Definition keeps_used (base : Z) (m m' : mem) (bs' : list blk) : Prop :=
  forall x, kept_at base bs' x -> rb m' x = rb m x.

(** Only header bytes of the new list were written. *)
Definition keeps_rest (base : Z) (m m' : mem) (bs' : list blk) : Prop :=
  forall x, ~ in_hdr base bs' x -> rb m' x = rb m x.

Lemma keeps_rest_used base m m' bs' :
  blks_wf bs' -> keeps_rest base m m' bs' -> keeps_used base m m' bs'.
Proof.
  intros Hw H x [Hx|Hx]; apply H; [by apply used_not_hdr|].
  intros Hin. by apply Hx, in_hdr_range.
Qed.

(** The list-end pointer is the last header's address. *)
Definition tail_ok (base : Z) (s : heap) (bs : list blk) : Prop :=
  htail s = last_addr 0 base bs.

Section Refinement.
Context (MAGIC : Z) (HMAGIC : 0 <= MAGIC < 4294967296).
Abbreviation seg := (seg MAGIC).
Abbreviation hdr_ok := (hdr_ok MAGIC).
Abbreviation rep := (rep MAGIC).

(** *** [split_block] *)

(** Its stores, for a block [h] of size [z] followed by [nx]. *)
Definition split_stores (m : mem) (h n z nx : Z) : mem :=
  let nh := h + 40 + n in
  let m := fset (fset (fset (fset (fset m nh Fmagic MAGIC) nh Ffree 1)
                        nh Fsize (z - n - 40)) nh Fprev h) nh Fnext nx in
  let m := if nx =? 0 then m else fset m nx Fprev nh in
  fset (fset m h Fnext nh) h Fsize n.

Lemma split_block_stores h n m head tail :
  let z := fget m h Fsize in
  let nx := fget m h Fnext in
  0 < h -> 0 <= n -> n + 48 <= z -> h + 40 + z < 9223372036854775808 ->
  (nx = 0 \/ h + 40 + z <= nx) ->
  split_block MAGIC h n (Heap m head tail) =
  Heap (split_stores m h n z nx) head (if tail =? h then h + 40 + n else tail).
Proof.
  intros z nx Hh Hn Hz Hlim Hnx.
  pose proof (fget_range m h Fnext) as Hr. simpl in Hr. fold nx in Hr.
  unfold split_block, split_stores, header_to_payload, MIN_SPLIT_SIZE, SIZEOF_HDR, ALIGN.
  fold z. rewrite (u64_small (n + (40 + 8))) by lia. rw_test.
  rewrite (u64_small (h + 40)), (u64_small (h + 40 + n)) by lia. cbn zeta.
  fsimp. fold z nx. rewrite (u64_small (z - n - 40)) by lia. fsimp.
  done.
Qed.

Lemma split_stores_ok m h n b p r :
  let e := h + 40 + bsz b in
  let nh := h + 40 + n in
  let m' := split_stores m h n (bsz b) (hd_addr e 0 r) in
  0 < h -> 0 <= n -> n + 48 <= bsz b -> e + total r < 9223372036854775808 -> blks_wf r ->
  hdr_ok m h b p (hd_addr e 0 r) -> seg m h e r 0 ->
  hdr_ok m' h (Blk n (bfr b)) p nh /\
  hdr_ok m' nh (Blk (bsz b - n - 40) true) h (hd_addr e 0 r) /\
  seg m' nh e r 0 /\
  (forall x, ~ (h <= x < h + 40) -> ~ (nh <= x < nh + 40) ->
     (r <> [] -> ~ (e <= x < e + 40)) -> rb m' x = rb m x).
Proof.
  intros e nh m' Hh Hn Hge Hlim Hwr (Hmg & Hsz & Hfr & Hpv & Hnx) Hr.
  pose proof (total_nonneg _ Hwr).
  assert (Hrb : forall x, ~ (h <= x < h + 40) -> ~ (nh <= x < nh + 40) ->
    (r <> [] -> ~ (e <= x < e + 40)) -> rb m' x = rb m x).
  { intros x H1 H2 H3. subst m' nh e. unfold split_stores.
    destruct r; cbn [hd_addr] in *; rw_test; [bsimp_mem; done|].
    specialize (H3 ltac:(done)). bsimp_mem. done. }
  split; [|split; [|split; [|exact Hrb]]].
  - subst m' nh e. unfold split_stores.
    destruct r; cbn [hd_addr] in *; rw_test; repeat split; fsimp; done.
  - subst m' nh e. unfold split_stores.
    destruct r; cbn [hd_addr] in *; rw_test; repeat split; fsimp; done.
  - eapply seg_relink; [done..| |].
    + intros Hne. subst m' nh e. unfold split_stores.
      destruct r; cbn [hd_addr] in *; [done|]. rw_test.
      split; [by fsimp|]. intros f Hf. fsimp. done.
    + intros x Hx. symmetry. apply Hrb; subst e nh; lia.
Qed.

Lemma last_addr_split base l b r n :
  0 <= n -> n + 48 <= bsz b -> blks_wf r ->
  let h := base + total l in
  last_addr 0 base (l ++ [Blk n (bfr b); Blk (bsz b - n - 40) true] ++ r) =
  (if last_addr 0 base (l ++ b :: r) =? h then h + 40 + n else last_addr 0 base (l ++ b :: r)).
Proof using. clear HMAGIC MAGIC.
  intros Hn Hge Hwr h. cbn [app]. rewrite !last_addr_app. fold h. cbn [last_addr bsz].
  replace (h + 40 + n + 40 + (bsz b - n - 40)) with (h + 40 + bsz b) by lia.
  destruct r as [|c r]; cbn [last_addr]; [by rw_test|].
  apply Forall_cons_1 in Hwr as [Hc Hwr].
  assert (h + 40 + bsz b <= last_addr (h + 40 + bsz b) (h + 40 + bsz b + 40 + bsz c) r)
    by (apply last_addr_ge; [done|lia]).
  by rw_test.
Qed.

Lemma split_block_rep base limit s l b r n :
  rep base limit s (l ++ b :: r) -> 0 <= n <= bsz b ->
  let s' := split_block MAGIC (base + total l) n s in
  rep base limit s' (l ++ spec_split n b ++ r) /\
  keeps_rest base (hmem s) (hmem s') (l ++ spec_split n b ++ r) /\
  (tail_ok base s (l ++ b :: r) -> tail_ok base s' (l ++ spec_split n b ++ r)).
Proof.
  intros Hrep Hn s'. destruct (rep_zip _ _ _ _ _ _ _ Hrep) as
    (Hl & Hhdr & Hr & Hwl & Hb & Hwr & Hend). pose proof Hhdr as (_ & Hsz & _ & _ & Hnx).
  pose proof (total_nonneg _ Hwl). pose proof (total_nonneg _ Hwr).
  destruct Hrep as [Hhd ? He Hw Hb0 Hlim].
  destruct s as [m head tail]. cbn [hmem hhead htail] in *. subst s'.
  unfold spec_split, MIN_SPLIT_SIZE, SIZEOF_HDR, ALIGN.
  destruct (Z.ltb_spec (bsz b) (n + (40 + 8))) as [Hlt|Hge].
  { unfold split_block. rewrite Hsz. unfold MIN_SPLIT_SIZE, SIZEOF_HDR, ALIGN.
    rewrite u64_small by lia. rw_test. split; [done|]. split; done. }
  remember (base + total l) as h eqn:Eh. remember (h + 40 + bsz b) as e eqn:Ee.
  assert (hd_addr e 0 r = 0 \/ h + 40 + bsz b <= hd_addr e 0 r)
    by (destruct r; cbn [hd_addr]; lia).
  rewrite split_block_stores; rewrite ?Hsz, ?Hnx; try lia. rewrite Ee in *.
  destruct (split_stores_ok m h n b (last_addr 0 base l) r) as (Hs1 & Hs2 & Hs3 & Hrb); try done; try lia.
  set (m' := split_stores _ _ _ _ _) in *.
  assert (Hw' : blks_wf (l ++ [Blk n (bfr b); Blk (bsz b - n - 40) true] ++ r)).
  { apply Forall_app; split; [done|]. repeat apply Forall_cons_2; simpl; try lia. done. }
  assert (Ene : h + 40 + n + 40 + (bsz b - n - 40) = h + 40 + bsz b) by lia.
  split; [|split].
  - split; cbn [hmem hhead htail]; try done; [|rewrite !total_app; simpl; lia].
    apply seg_zip. rewrite <- Eh. cbn [bsz hd_addr app HeapBlock.seg].
    rewrite Ene. repeat (split; try done).
    eapply seg_same; [done| |done]. intros x Hx. symmetry. apply Hrb; lia.
  - intros x Hx. cbn [hmem]. rewrite in_hdr_app in Hx. cbn [app in_hdr bsz] in Hx. rewrite <- Eh, Ene in Hx.
    apply Hrb; [tauto..|]. intros Hne. destruct r; [done|]. simpl in Hx. tauto.
  - unfold tail_ok. cbn [htail]. intros ->.
    rewrite last_addr_split by (done || lia). by rewrite <- Eh.
Qed.

(** *** Setting the free flag *)

Lemma set_free_rep base limit s l b r v :
  rep base limit s (l ++ b :: r) ->
  let s' := Heap (fset (hmem s) (base + total l) Ffree (Z.b2z v)) (hhead s) (htail s) in
  rep base limit s' (l ++ Blk (bsz b) v :: r) /\
  keeps_rest base (hmem s) (hmem s') (l ++ Blk (bsz b) v :: r) /\
  (tail_ok base s (l ++ b :: r) -> tail_ok base s' (l ++ Blk (bsz b) v :: r)).
Proof.
  intros Hrep s'. destruct (rep_zip _ _ _ _ _ _ _ Hrep) as
    (Hl & (Hmg & Hsz & Hfr & Hpv & Hnx) & Hr & Hwl & Hb & Hwr & Hend).
  pose proof (total_nonneg _ Hwl). pose proof (total_nonneg _ Hwr).
  destruct Hrep as [Hhd ? He Hw Hb0 Hlim].
  remember (base + total l) as h eqn:Eh.
  assert (Hrb : forall x, x < h \/ h + 40 <= x -> rb (hmem s') x = rb (hmem s) x).
  { intros x Hx. apply rb_fset. lia. }
  assert (Hw' : blks_wf (l ++ Blk (bsz b) v :: r)).
  { apply Forall_app; split; [done|]. by apply Forall_cons_2. }
  split; [|split].
  - split; try done; [|rewrite total_app in *; simpl in *; lia].
    apply seg_zip. rewrite <- Eh. cbn [bsz].
    split; [|split].
    + eapply seg_same; [done| |done]. intros x Hx. symmetry. apply Hrb; lia.
    + subst s'. cbn [hmem]. repeat split; cbn [bfr bsz]; fsimp; try done.
      apply fget_fset_eq. destruct v; simpl; lia.
    + eapply seg_same; [done| |done]. intros x Hx. symmetry. apply Hrb; lia.
  - intros x Hx. rewrite in_hdr_app in Hx. cbn [in_hdr bsz] in Hx. rewrite <- Eh in Hx. apply Hrb. lia.
  - unfold tail_ok. subst s'. cbn [htail]. intros ->. by rewrite !last_addr_app.
Qed.

(** *** Merging a block with its right neighbour *)

Definition merge_stores (m : mem) (a z nx : Z) : mem :=
  let m := fset (fset m a Fsize z) a Fnext nx in
  if nx =? 0 then m else fset m nx Fprev a.

Lemma merge_stores_ok m a x y p r :
  let e := a + 40 + bsz x in
  let e' := e + 40 + bsz y in
  let m' := merge_stores m a (bsz x + 40 + bsz y) (hd_addr e' 0 r) in
  0 < a -> 0 <= bsz x -> 0 <= bsz y -> e' + total r < 9223372036854775808 -> blks_wf r ->
  hdr_ok m a x p e -> seg m a e (y :: r) 0 ->
  hdr_ok m' a (merge_blk x y) p (hd_addr e' 0 r) /\
  seg m' a e' r 0 /\
  (forall z, ~ (a <= z < a + 40) -> (r <> [] -> ~ (e' <= z < e' + 40)) -> rb m' z = rb m z).
Proof.
  intros e e' m' Ha Hx Hy Hlim Hwr (Hmg & Hsz & Hfr & Hpv & Hnx) [_ Hr].
  pose proof (total_nonneg _ Hwr).
  assert (Hrb : forall z, ~ (a <= z < a + 40) -> (r <> [] -> ~ (e' <= z < e' + 40)) ->
    rb m' z = rb m z).
  { intros z H1 H2. subst m' e' e. unfold merge_stores.
    destruct r; cbn [hd_addr] in *; rw_test; [bsimp_mem; done|].
    specialize (H2 ltac:(done)). bsimp_mem. done. }
  split; [|split; [|exact Hrb]].
  - subst m' e' e. unfold merge_stores.
    destruct r; cbn [hd_addr] in *; rw_test; repeat split; fsimp; done.
  - eapply seg_relink; [done..| |].
    + intros Hne. subst m' e' e. unfold merge_stores.
      destruct r; cbn [hd_addr] in *; [done|]. rw_test.
      split; [by fsimp|]. intros f Hf. fsimp. done.
    + intros z Hz. symmetry. apply Hrb; subst e' e; lia.
Qed.

Lemma last_addr_merge base l x y r :
  0 <= bsz x -> 0 <= bsz y -> blks_wf r ->
  let a := base + total l in
  let t := last_addr 0 base (l ++ x :: y :: r) in
  last_addr 0 base (l ++ merge_blk x y :: r) = (if t =? a + 40 + bsz x then a else t).
Proof using. clear HMAGIC MAGIC.
  intros Hx Hy Hwr a t. subst t. rewrite !last_addr_app. fold a.
  cbn [last_addr merge_blk bsz]. unfold SIZEOF_HDR.
  replace (a + 40 + (bsz x + 40 + bsz y)) with (a + 40 + bsz x + 40 + bsz y) by lia.
  destruct r as [|c r]; cbn [last_addr]; [by rw_test|].
  apply Forall_cons_1 in Hwr as [Hc Hwr].
  match goal with |- last_addr ?e ?e2 r = _ =>
    assert (e <= last_addr e e2 r) by (apply last_addr_ge; [done|lia]) end.
  by rw_test.
Qed.

Lemma merge_rep base limit s l x y r t :
  rep base limit s (l ++ x :: y :: r) ->
  let a := base + total l in
  let e' := a + 40 + bsz x + 40 + bsz y in
  let s' := Heap (merge_stores (hmem s) a (bsz x + 40 + bsz y) (hd_addr e' 0 r)) (hhead s) t in
  rep base limit s' (l ++ merge_blk x y :: r) /\
  keeps_rest base (hmem s) (hmem s') (l ++ merge_blk x y :: r).
Proof.
  intros Hrep a e' s'. destruct (rep_zip _ _ _ _ _ _ _ Hrep) as
    (Hl & Hhdr & Hr & Hwl & Hx & Hwr & Hend). apply Forall_cons_1 in Hwr as [Hy Hwr].
  pose proof (total_nonneg _ Hwl). pose proof (total_nonneg _ Hwr).
  destruct Hrep as [Hhd ? He Hw Hb0 Hlim]. cbn [total hd_addr] in *.
  destruct (merge_stores_ok (hmem s) a x y (last_addr 0 base l) r)
    as (Hs1 & Hs2 & Hrb); try done; try lia.
  assert (Hw' : blks_wf (l ++ merge_blk x y :: r)).
  { apply Forall_app; split; [done|]. apply Forall_cons_2; [simpl; unfold SIZEOF_HDR; lia|done]. }
  assert (Ee : a + 40 + bsz (merge_blk x y) = e') by (simpl; unfold SIZEOF_HDR; subst e'; lia).
  split.
  - split; try done; [|rewrite total_app in *; simpl in *; unfold SIZEOF_HDR; lia].
    apply seg_zip. fold a. rewrite Ee. split; [|split; [done|done]].
    eapply seg_same; [done| |done]. intros z Hz. symmetry. apply Hrb; lia.
  - intros z Hz. rewrite in_hdr_app in Hz. cbn [in_hdr] in Hz. fold a in Hz. rewrite Ee in Hz.
    apply Hrb; [tauto|]. intros Hne. destruct r; [done|]. simpl in Hz. tauto.
Qed.

(** *** [coalesce] *)

(** What one merging step promises: [bs'] is the new list. *)
Definition step_ok (base limit : Z) (s s' : heap) (bs bs' : list blk) : Prop :=
  rep base limit s' bs' /\ keeps_used base (hmem s) (hmem s') bs' /\
  (tail_ok base s bs -> tail_ok base s' bs').

Lemma coalesce_next_rep base limit s l b r :
  rep base limit s (l ++ b :: r) ->
  let '(b', r') := spec_merge_next b r in
  step_ok base limit s (coalesce_next (base + total l) s) (l ++ b :: r) (l ++ b' :: r').
Proof.
  intros Hrep. destruct (rep_zip _ _ _ _ _ _ _ Hrep) as
    (Hl & (Hmg & Hsz & Hfr & Hpv & Hnx) & Hr & Hwl & Hb & Hwr & Hend).
  pose proof (total_nonneg _ Hwl). destruct (Hrep) as [Hhd ? He Hw Hb0 Hlim].
  destruct s as [m head tail]. cbn [hmem hhead htail] in *.
  unfold coalesce_next. rewrite Hnx.
  destruct r as [|c r]; cbn [spec_merge_next hd_addr]; [done|].
  cbn [total] in Hend. apply Forall_cons_1 in Hwr as [Hc Hwr].
  pose proof (total_nonneg _ Hwr).
  destruct Hr as [(_ & Hcz & Hcf & _ & Hcn) _]. rewrite Hcf.
  destruct (bfr c) eqn:Efc; cbn [Z.b2z]; do 2 rw_test; cbn [negb andb]; [|done].
  pose proof (merge_rep base limit _ l b c r
    (if tail =? base + total l + 40 + bsz b then base + total l else tail) Hrep) as [H1 H2].
  cbn [hmem hhead htail] in *. unfold SIZEOF_HDR.
  rewrite Hsz, Hcz. rewrite (u64_small (bsz b + 40 + bsz c)) by lia.
  fsimp. rewrite Hcn. repeat rw_test.
  split; [exact H1|split; [exact (keeps_rest_used _ _ _ _ (rep_wf _ _ _ _ _ H1) H2)|]].
  unfold tail_ok. cbn [htail]. intros ->. by rewrite last_addr_merge by done.
Qed.

Lemma coalesce_prev_rep base limit s l b r :
  rep base limit s (l ++ b :: r) ->
  let '(rl, b') := spec_merge_prev (reverse l) b in
  step_ok base limit s (coalesce_prev (base + total l) s) (l ++ b :: r) (reverse rl ++ b' :: r).
Proof.
  intros Hrep. destruct (rep_zip _ _ _ _ _ _ _ Hrep) as
    (_ & (_ & Hsz & _ & Hpv & Hnx) & _ & Hwl & Hb & Hwr & Hend).
  pose proof (total_nonneg _ Hwl). pose proof (total_nonneg _ Hwr).
  destruct (Hrep) as [Hhd ? He Hw Hb0 Hlim].
  destruct s as [m head tail]. cbn [hmem hhead htail] in *.
  unfold coalesce_prev. rewrite Hpv.
  destruct l as [|p l0 _] using rev_ind; [done|]. rewrite reverse_snoc. cbn [spec_merge_prev].
  replace ((l0 ++ [p]) ++ b :: r) with (l0 ++ p :: b :: r) in * by by rewrite <- app_assoc.
  destruct (rep_zip _ _ _ _ _ _ _ Hrep) as
    (_ & (_ & Hpz & Hpf & _ & _) & _ & Hwl0 & Hp & _ & _).
  pose proof (total_nonneg _ Hwl0). cbn [hmem] in *.
  rewrite last_addr_app. cbn [last_addr]. rewrite total_app in *. cbn [total] in *.
  rewrite Hpf. destruct (bfr p) eqn:Efp; cbn [Z.b2z]; do 2 rw_test; cbn [negb andb].
  2: { rewrite reverse_cons, reverse_involutive, <- app_assoc. done. }
  remember (base + total l0) as a eqn:Ea.
  replace (base + (total l0 + (40 + bsz p + 0))) with (a + 40 + bsz p) in * by lia.
  pose proof (merge_rep base limit _ l0 p b r
    (if tail =? a + 40 + bsz p then a else tail) Hrep) as [H1' H2'].
  cbn [hmem hhead htail] in *. rewrite <- Ea in H1', H2'. unfold SIZEOF_HDR.
  rewrite Hsz, Hpz. rewrite (u64_small (bsz p + 40 + bsz b)) by lia.
  fsimp. rewrite Hnx. rewrite reverse_involutive.
  split; [exact H1'|split; [exact (keeps_rest_used _ _ _ _ (rep_wf _ _ _ _ _ H1') H2')|]].
  unfold tail_ok. cbn [htail]. intros ->. rewrite last_addr_merge by done. by rewrite <- Ea.
Qed.

Lemma step_ok_trans base limit s s' s'' bs bs' bs'' :
  step_ok base limit s s' bs bs' -> step_ok base limit s' s'' bs' bs'' ->
  (forall x, used_at base bs'' x -> used_at base bs' x) ->
  step_ok base limit s s'' bs bs''.
Proof.
  intros (H1 & H2 & H3) (H4 & H5 & H6) Hu. split; [done|split; [|by auto]].
  intros x Hx. rewrite H5 by done. apply H2. destruct Hx as [Hx|Hx]; [left; auto|right].
  by rewrite (rep_end _ _ _ _ _ H1) in *; rewrite (rep_end _ _ _ _ _ H4) in Hx.
Qed.

Lemma used_at_merge_prev a l b r x :
  bfr b = true ->
  let '(rl, b') := spec_merge_prev (reverse l) b in
  used_at a (reverse rl ++ b' :: r) x -> used_at a (l ++ b :: r) x.
Proof using. clear HMAGIC MAGIC.
  intros Hb. destruct l as [|p l _] using rev_ind; [exact (fun H => H)|]. rewrite reverse_snoc.
  cbn [spec_merge_prev]. destruct (bfr p) eqn:Ep.
  - rewrite reverse_involutive. rewrite !used_at_app, total_app. cbn [used_at merge_blk bfr bsz total].
    unfold SIZEOF_HDR. rewrite Ep, Hb.
    replace (a + total l + 40 + (bsz p + 40 + bsz b)) with
      (a + (total l + (40 + bsz p + 0)) + 40 + bsz b) by lia.
    intros [?|[[? _]|?]]; [tauto|done|tauto].
  - by rewrite reverse_cons, reverse_involutive.
Qed.

Lemma spec_merge_next_free b r : bfr (spec_merge_next b r).1 = bfr b.
Proof using. destruct r as [|c r]; simpl; [done|]. by destruct (bfr c). Qed.

Lemma coalesce_rep base limit s l b r :
  rep base limit s (l ++ b :: r) -> bfr b = true ->
  step_ok base limit s (coalesce (base + total l) s) (l ++ b :: r) (spec_coalesce l b r).
Proof.
  intros Hrep Hb. destruct (rep_zip _ _ _ _ _ _ _ Hrep) as (_ & _ & _ & Hwl & _).
  pose proof (total_nonneg _ Hwl). pose proof (rep_base _ _ _ _ _ Hrep).
  unfold coalesce, spec_coalesce. rw_test.
  pose proof (coalesce_next_rep _ _ _ _ _ _ Hrep) as H1.
  pose proof (spec_merge_next_free b r) as Hf.
  destruct (spec_merge_next b r) as [b1 r1]. cbn [fst] in Hf.
  pose proof (coalesce_prev_rep _ _ _ _ _ _ (proj1 H1)) as H2.
  pose proof (used_at_merge_prev base l b1 r1) as Hu.
  destruct (spec_merge_prev (reverse l) b1) as [rl b2].
  eapply step_ok_trans; [exact H1|exact H2|]. intros x. apply Hu. congruence.
Qed.

(** *** [find_fit] *)

Lemma find_fit_ok fuel m p a bs n :
  blks_wf bs -> seg m p a bs 0 -> 0 < a -> (length bs < fuel)%nat ->
  find_fit fuel m (hd_addr a 0 bs) n =
  Some (match first_fit n bs with None => 0 | Some (l, _, _) => a + total l end).
Proof.
  intros Hw. revert fuel p a. induction Hw as [|b r Hb Hw IH]; intros fuel p a Hs Ha Hf.
  - destruct fuel; [lia|]. done.
  - destruct fuel as [|fuel]; [simpl in Hf; lia|]. destruct Hs as [(_ & Hz & Hfr & _ & Hn) Hs].
    cbn [find_fit hd_addr first_fit]. rw_test. rewrite Hfr, Hz, Hn.
    replace (negb (Z.b2z (bfr b) =? 0)) with (bfr b) by by destruct (bfr b).
    destruct (bfr b && (n <=? bsz b)) eqn:E; [cbn [total]; f_equal; lia|].
    rewrite IH with (p := a); [|done|lia|simpl in Hf; lia].
    destruct (first_fit n r) as [[[l c] r']|]; [|done]. cbn [total]. f_equal. lia.
Qed.

(** *** What the allocators build from these steps *)

(** Writing payload bytes does not disturb the list. *)
Lemma rep_payload base limit s m' bs :
  rep base limit s bs -> (forall x, in_hdr base bs x -> rb m' x = rb (hmem s) x) ->
  rep base limit (Heap m' (hhead s) (htail s)) bs.
Proof.
  intros [Hh Hs He Hw Hb Hl] Hx. split; cbn [hmem hhead]; try done.
  eapply seg_ext; [|done]. intros x Hin. by rewrite Hx.
Qed.

Lemma payload_header base limit s l b r :
  rep base limit s (l ++ b :: r) ->
  header_to_payload (base + total l) = base + total l + 40 /\
  payload_to_header (base + total l + 40) = base + total l /\
  0 < base + total l.
Proof.
  intros Hrep. destruct (rep_zip _ _ _ _ _ _ _ Hrep) as (_ & _ & _ & Hwl & Hb & Hwr & Hend).
  pose proof (total_nonneg _ Hwl). pose proof (total_nonneg _ Hwr). destruct Hrep.
  unfold header_to_payload, payload_to_header, SIZEOF_HDR.
  rewrite !u64_small by lia. lia.
Qed.

Lemma rep_header base limit s l b r :
  rep base limit s (l ++ b :: r) ->
  let h := base + total l in
  fget (hmem s) h Fmagic = MAGIC /\ fget (hmem s) h Fsize = bsz b /\
  fget (hmem s) h Ffree = Z.b2z (bfr b) /\
  fget (hmem s) h Fnext = hd_addr (h + 40 + bsz b) 0 r.
Proof.
  intros Hrep. by destruct (rep_zip _ _ _ _ _ _ _ Hrep) as (_ & (? & ? & ? & _ & ?) & _).
Qed.

Lemma rep_header_next base limit s l b c r :
  rep base limit s (l ++ b :: c :: r) ->
  let e := base + total l + 40 + bsz b in
  fget (hmem s) e Fmagic = MAGIC /\ fget (hmem s) e Fsize = bsz c /\
  fget (hmem s) e Ffree = Z.b2z (bfr c) /\
  fget (hmem s) e Fnext = hd_addr (e + 40 + bsz c) 0 r.
Proof.
  intros Hrep e. replace e with (base + total (l ++ [b]))
    by (rewrite total_app; simpl; subst e; lia).
  apply (rep_header base limit). by rewrite <- app_assoc.
Qed.

Lemma rep_bounds base limit s l b r :
  rep base limit s (l ++ b :: r) ->
  0 < base + total l /\ 0 <= bsz b /\ blks_wf r /\ 0 <= total r /\
  base + total l + 40 + bsz b + total r < 9223372036854775808.
Proof.
  intros Hrep. destruct (rep_zip _ _ _ _ _ _ _ Hrep) as (_ & _ & _ & Hwl & Hb & Hwr & Hend).
  pose proof (total_nonneg _ Hwl). pose proof (total_nonneg _ Hwr). destruct Hrep.
  repeat split; try done; lia.
Qed.

Lemma alloc_rep base limit s l b r n :
  rep base limit s (l ++ b :: r) -> 0 <= n <= bsz b ->
  let h := base + total l in
  let s' := on_mem (fun m => fset m h Ffree 0) (split_block MAGIC h n s) in
  rep base limit s' (l ++ spec_alloc n b ++ r) /\
  keeps_rest base (hmem s) (hmem s') (l ++ spec_alloc n b ++ r) /\
  (tail_ok base s (l ++ b :: r) -> tail_ok base s' (l ++ spec_alloc n b ++ r)).
Proof.
  intros Hrep Hn h s'. destruct (split_block_rep _ _ _ _ _ _ _ Hrep Hn) as (H1 & H2 & H3).
  fold h in H1, H2, H3. set (s1 := split_block MAGIC h n s) in *.
  unfold spec_split, spec_alloc in *.
  destruct (bsz b <? n + MIN_SPLIT_SIZE); cbn [app] in *;
    destruct (set_free_rep _ _ _ _ _ _ false H1) as (H4 & H5 & H6);
    (split; [exact H4|split; [|auto]]); intros x Hx; (rewrite <- H2; [by apply H5|]);
    rewrite in_hdr_app in Hx |- *; exact Hx.
Qed.

(** Absorbing the right neighbour, then cutting and marking in use. *)
Lemma grow_rep base limit s l b c r n :
  rep base limit s (l ++ b :: c :: r) -> 0 <= n <= bsz b + 40 + bsz c ->
  let h := base + total l in
  let s1 := on_mem (fun m => merge_stores m h (bsz b + 40 + bsz c)
               (hd_addr (h + 40 + bsz b + 40 + bsz c) 0 r)) s in
  let s' := on_mem (fun m => fset m h Ffree 0) (split_block MAGIC h n s1) in
  let bs' := l ++ spec_alloc n (merge_blk b c) ++ r in
  rep base limit s' bs' /\ keeps_rest base (hmem s) (hmem s') bs'.
Proof.
  intros Hrep Hn h s1 s' bs'.
  destruct (merge_rep _ _ _ _ _ _ _ (htail s) Hrep) as [H1 H2].
  destruct (alloc_rep _ _ _ _ _ _ n H1) as (H3 & H4 & _).
  { cbn [merge_blk bsz]. unfold SIZEOF_HDR. lia. }
  split; [exact H3|]. intros x Hx.
  transitivity (rb (hmem s1) x); [by apply H4|]. apply H2. intros Hx'. apply Hx. subst bs'.
  rewrite in_hdr_app in Hx' |- *. destruct Hx' as [?|Hx']; [by left|]. right.
  rewrite in_hdr_app. revert Hx'. unfold spec_alloc, SIZEOF_HDR.
  bcase; cbn [in_hdr bsz merge_blk total]; unfold SIZEOF_HDR; intros [?|Hr].
  - tauto.
  - right. by replace (base + total l + (40 + (bsz b + 40 + bsz c) + 0)) with
      (base + total l + 40 + (bsz b + 40 + bsz c)) by lia.
  - tauto.
  - right. by replace (base + total l + (40 + n + (40 + (bsz b + 40 + bsz c - n - 40) + 0))) with
      (base + total l + 40 + (bsz b + 40 + bsz c)) by lia.
Qed.

Lemma used_at_coalesce a l b r x :
  bfr b = true -> used_at a (spec_coalesce l b r) x -> used_at a (l ++ b :: r) x.
Proof using. clear HMAGIC MAGIC.
  intros Hb. unfold spec_coalesce.
  assert (Hnext : let '(b1, r1) := spec_merge_next b r in
                  used_at a (l ++ b1 :: r1) x -> used_at a (l ++ b :: r) x).
  { destruct r as [|c r]; cbn [spec_merge_next]; [done|].
    destruct (bfr c) eqn:Ec; [|done].
    rewrite !used_at_app. cbn [used_at merge_blk bfr bsz]. unfold SIZEOF_HDR. rewrite Hb, Ec.
    replace (a + total l + 40 + (bsz b + 40 + bsz c)) with
      (a + total l + 40 + bsz b + 40 + bsz c) by lia.
    intros [?|[[? _]|?]]; [tauto|done|tauto]. }
  pose proof (spec_merge_next_free b r) as Hf.
  destruct (spec_merge_next b r) as [b1 r1]. cbn [fst] in Hf.
  pose proof (used_at_merge_prev a l b1 r1 x ltac:(congruence)) as Hu.
  destruct (spec_merge_prev (reverse l) b1) as [rl b2]. auto.
Qed.

Lemma free_rep base limit s l b r :
  rep base limit s (l ++ b :: r) ->
  let h := base + total l in
  step_ok base limit s (coalesce h (on_mem (fun m => fset m h Ffree 1) s)) (l ++ b :: r)
    (spec_coalesce l (Blk (bsz b) true) r).
Proof.
  intros Hrep h. destruct (set_free_rep _ _ _ _ _ _ true Hrep) as (H1 & H2 & H3).
  pose proof (coalesce_rep _ _ _ _ _ _ H1 eq_refl) as (H4 & H5 & H6).
  split; [exact H4|split; [|by intros Ht; apply H6, H3]]. intros x Hx.
  transitivity (rb (fset (hmem s) h Ffree 1) x); [by apply H5|].
  apply (keeps_rest_used _ _ _ _ (rep_wf _ _ _ _ _ H1) H2).
  destruct Hx as [Hx|Hx]; [left; by apply used_at_coalesce|right].
  by rewrite (rep_end _ _ _ _ _ H1); rewrite (rep_end _ _ _ _ _ H4) in Hx.
Qed.
End Refinement.

(** The memory determines the list. *)
Lemma rep_fun MAGIC base limit s bs bs' :
  rep MAGIC base limit s bs -> rep MAGIC base limit s bs' -> bs = bs'.
Proof.
  intros [_ Hs He Hw _ _] [_ Hs' He' Hw' _ _].
  assert (Ht : total bs = total bs') by lia. clear He He'. revert bs' Ht Hw' Hs'.
  generalize dependent base. generalize 0 at 1 3 as p.
  induction Hw as [|b r Hb Hw IH]; intros p a Hs [|b' r'] Ht Hw' Hs'; cbn [total] in Ht.
  - done.
  - apply Forall_cons_1 in Hw' as [? Hw']. pose proof (total_nonneg _ Hw'). lia.
  - pose proof (total_nonneg _ Hw). lia.
  - apply Forall_cons_1 in Hw' as [Hb' Hw']. cbn [seg] in Hs, Hs'.
    destruct Hs as [(_ & Hz & Hf & _) Hs], Hs' as [(_ & Hz' & Hf' & _) Hs'].
    assert (b = b') as <-.
    { destruct b as [z f], b' as [z' f']. cbn [bsz bfr] in *. f_equal; [congruence|].
      rewrite Hf in Hf'. by destruct f, f'. }
    f_equal. eapply IH; [exact Hs|lia|done|exact Hs'].
Qed.

(** ** Blocks by address *)

Fixpoint blk_at (a : Z) (bs : list blk) (h : Z) (b : blk) : Prop :=
  match bs with
  | [] => False
  | c :: r => (h = a /\ c = b) \/ blk_at (a + 40 + bsz c) r h b
  end.

Lemma blk_at_app a l r h b : blk_at a (l ++ r) h b <-> blk_at a l h b \/ blk_at (a + total l) r h b.
Proof.
  revert a. induction l as [|c l IH]; intros a; simpl.
  - rewrite Z.add_0_r. tauto.
  - rewrite IH. replace (a + (40 + bsz c + total l)) with (a + 40 + bsz c + total l) by lia. tauto.
Qed.

Lemma blk_at_split a bs h b :
  blk_at a bs h b <-> exists l r, bs = l ++ b :: r /\ h = a + total l.
Proof.
  revert a. induction bs as [|c bs IH]; intros a; cbn [blk_at].
  - split; [done|]. intros ([|? ?] & r & ? & _); done.
  - split.
    + intros [[-> ->]|H].
      * exists [], bs. simpl. split; [done|lia].
      * apply IH in H as (l & r & -> & ->). exists (c :: l), r. simpl. split; [done|lia].
    + intros ([|d l] & r & E & ->); simpl in E; injection E as -> ->.
      * left. simpl. split; [lia|done].
      * right. apply IH. exists l, r. split; [done|]. simpl. lia.
Qed.

(** Every used block of [bs] is still there, at the same place, in [bs']. *)
Definition used_stay (a : Z) (bs bs' : list blk) : Prop :=
  forall h c, bfr c = false -> blk_at a bs h c -> blk_at a bs' h c.

#[export] Instance used_stay_refl a : Reflexive (used_stay a).
Proof. by intros bs h c. Qed.
#[export] Instance used_stay_trans a : Transitive (used_stay a).
Proof. intros bs bs' bs'' H H' h c Hc Hb. auto. Qed.

(** Replacing free blocks by blocks of the same extent keeps the others. *)
Lemma used_stay_mid a l mid mid' r :
  total mid = total mid' -> Forall (fun b => bfr b = true) mid ->
  used_stay a (l ++ mid ++ r) (l ++ mid' ++ r).
Proof.
  intros Ht Hf h c Hc. rewrite !blk_at_app, Ht. intros [?|[H|?]]; [tauto| |tauto].
  exfalso. apply blk_at_split in H as (l0 & r0 & -> & _).
  apply Forall_app in Hf as [_ Hf]. apply Forall_cons_1 in Hf as [Hf _]. congruence.
Qed.

Lemma used_stay_alloc a l b r n :
  bfr b = true -> used_stay a (l ++ b :: r) (l ++ spec_alloc n b ++ r).
Proof.
  intros Hb. apply (used_stay_mid a l [b]).
  - unfold spec_alloc, SIZEOF_HDR. bcase; simpl; lia.
  - by repeat constructor.
Qed.

Lemma used_stay_coalesce a l b r :
  bfr b = true -> used_stay a (l ++ b :: r) (spec_coalesce l b r).
Proof.
  intros Hb. unfold spec_coalesce.
  assert (Hnext : let '(b1, r1) := spec_merge_next b r in
                  used_stay a (l ++ b :: r) (l ++ b1 :: r1)).
  { destruct r as [|c r]; cbn [spec_merge_next]; [done|].
    destruct (bfr c) eqn:Ec; [|done].
    apply (used_stay_mid a l [b; c] [merge_blk b c]); [simpl; unfold SIZEOF_HDR; lia|].
    by repeat constructor. }
  pose proof (spec_merge_next_free b r) as Hf.
  destruct (spec_merge_next b r) as [b1 r1]. cbn [fst] in Hf.
  etrans; [exact Hnext|].
  destruct l as [|p l _] using rev_ind; [done|]. rewrite reverse_snoc. cbn [spec_merge_prev].
  destruct (bfr p) eqn:Ep; rewrite ?reverse_cons, reverse_involutive; [|done].
  rewrite <- app_assoc. apply (used_stay_mid a l [p; b1] [merge_blk p b1]).
  - simpl. unfold SIZEOF_HDR. lia.
  - repeat constructor; congruence.
Qed.

(** Two blocks of the list are the same or do not overlap. *)
Lemma blk_at_disjoint a bs h b h' b' :
  blks_wf bs -> blk_at a bs h b -> blk_at a bs h' b' ->
  (h = h' /\ b = b') \/ h + 40 + bsz b <= h' \/ h' + 40 + bsz b' <= h.
Proof.
  intros Hw. revert a. induction Hw as [|c r Hc Hw IH]; intros a; cbn [blk_at]; [done|].
  assert (Hge : forall x y, blk_at (a + 40 + bsz c) r x y -> a + 40 + bsz c <= x).
  { intros x y Hx. apply blk_at_split in Hx as (l & r' & -> & ->).
    apply Forall_app in Hw as [Hw _]. pose proof (total_nonneg _ Hw). lia. }
  intros [[-> ->]|H1] [[-> ->]|H2].
  - by left.
  - apply Hge in H2. right. by left.
  - apply Hge in H1. right. by right.
  - by eapply IH.
Qed.

Lemma blk_at_wf a bs h b : blks_wf bs -> blk_at a bs h b -> 0 <= bsz b.
Proof.
  intros Hw H. apply blk_at_split in H as (l & r & -> & _).
  apply Forall_app in Hw as [_ Hr]. by apply Forall_cons_1 in Hr as [? _].
Qed.

Lemma blk_at_fun a bs h b b' : blks_wf bs -> blk_at a bs h b -> blk_at a bs h b' -> b = b'.
Proof.
  intros Hw H H'. pose proof (blk_at_wf _ _ _ _ Hw H). pose proof (blk_at_wf _ _ _ _ Hw H').
  destruct (blk_at_disjoint _ _ _ _ _ _ Hw H H') as [[_ ?]|?]; [done|lia].
Qed.

Lemma blk_at_range a bs h b :
  blks_wf bs -> blk_at a bs h b -> a <= h /\ h + 40 + bsz b <= a + total bs.
Proof.
  intros Hw H. apply blk_at_split in H as (l & r & -> & ->).
  apply Forall_app in Hw as [Hl Hr]. apply Forall_cons_1 in Hr as [_ Hr].
  pose proof (total_nonneg _ Hl). pose proof (total_nonneg _ Hr). rewrite total_app. simpl. lia.
Qed.

Lemma blk_at_used a bs h b x :
  blk_at a bs h b -> bfr b = false -> h + 40 <= x < h + 40 + bsz b -> used_at a bs x.
Proof.
  intros H Hb Hx. apply blk_at_split in H as (l & r & -> & ->).
  apply used_at_app. right. by left.
Qed.

(** A header byte of the list is outside the payload of every block. *)
Lemma blk_at_not_hdr a bs h b x :
  blks_wf bs -> blk_at a bs h b -> h + 40 <= x < h + 40 + bsz b -> ~ in_hdr a bs x.
Proof.
  intros Hw H Hx. apply blk_at_split in H as (l & r & -> & ->).
  apply Forall_app in Hw as [Hl Hr]. apply Forall_cons_1 in Hr as [Hb Hr].
  rewrite in_hdr_app. cbn [in_hdr]. intros [Hi|[Hi|Hi]].
  - apply in_hdr_range in Hi; [lia|done].
  - lia.
  - apply in_hdr_range in Hi; [lia|done].
Qed.

(** ** Statistics of a block list *)

Fixpoint sum_sz (free : bool) (bs : list blk) : Z :=
  match bs with
  | [] => 0
  | b :: r => (if eqb (bfr b) free then bsz b else 0) + sum_sz free r
  end.
Fixpoint count_blk (free : bool) (bs : list blk) : Z :=
  match bs with
  | [] => 0
  | b :: r => (if eqb (bfr b) free then 1 else 0) + count_blk free r
  end.
Fixpoint max_free (bs : list blk) : Z :=
  match bs with
  | [] => 0
  | b :: r => Z.max (if bfr b then bsz b else 0) (max_free r)
  end.

(** The counters [st] advanced by the blocks [bs]. *)
Definition stats_add (st : stats) (bs : list blk) : stats :=
  Stats (total_managed st + total bs) (used_payload st + sum_sz false bs)
    (free_payload st + sum_sz true bs) (Z.max (largest_free st) (max_free bs))
    (num_blocks st + lenZ bs) (num_used st + count_blk false bs) (num_free st + count_blk true bs).

Lemma sum_sz_total bs : sum_sz true bs + sum_sz false bs + 40 * lenZ bs = total bs.
Proof.
  unfold lenZ. induction bs as [|b r IH]; [done|]. cbn [sum_sz total length].
  destruct (bfr b); cbn [eqb]; lia.
Qed.

Lemma count_blk_len bs : count_blk true bs + count_blk false bs = lenZ bs.
Proof.
  unfold lenZ. induction bs as [|b r IH]; [done|]. cbn [count_blk length].
  destruct (bfr b); cbn [eqb]; lia.
Qed.

Lemma sum_sz_nonneg f bs : blks_wf bs -> 0 <= sum_sz f bs.
Proof. induction 1 as [|b r Hb Hr IH]; cbn [sum_sz]; [lia|]. destruct (eqb _ _); lia. Qed.

Lemma count_blk_nonneg f bs : 0 <= count_blk f bs.
Proof. induction bs as [|b r IH]; cbn [count_blk]; [lia|]. destruct (eqb _ _); lia. Qed.

Definition stats_small (st : stats) (n : Z) : Prop :=
  Forall (fun x => 0 <= x /\ x + n < 18446744073709551616)
    [total_managed st; used_payload st; free_payload st; num_blocks st; num_used st; num_free st]
  /\ 0 <= largest_free st.

Lemma stats_loop_ok MAGIC fuel m p a bs st :
  blks_wf bs -> seg MAGIC m p a bs 0 -> 0 < a -> (length bs < fuel)%nat ->
  stats_small st (total bs) ->
  stats_loop fuel m (hd_addr a 0 bs) st = Some (stats_add st bs).
Proof.
  intros Hw. revert fuel p a st.
  induction Hw as [|b r Hb Hw IH]; intros fuel p a st Hs Ha Hf [Hsm Hlg]; (destruct fuel as [|fuel]; [simpl in Hf; lia|]).
  - cbn [stats_loop hd_addr]. rw_test. unfold stats_add, lenZ. destruct st; simpl in *. do 2 f_equal; lia.
  - destruct Hs as [(_ & Hz & Hfr & _ & Hn) Hs]. cbn [stats_loop hd_addr]. rw_test.
    rewrite Hz, Hfr, Hn. unfold SIZEOF_HDR. pose proof (total_nonneg _ Hw). cbn [total] in Hsm.
    repeat (apply Forall_cons_1 in Hsm as [? Hsm]).
    destruct st as [tm up fp lf nb nu nf]. cbn [total_managed used_payload free_payload largest_free
      num_blocks num_used num_free] in *.
    rewrite (u64_small (tm + (40 + bsz b))), (u64_small (up + bsz b)), (u64_small (fp + bsz b)),
      (u64_small (nb + 1)), (u64_small (nu + 1)), (u64_small (nf + 1)) by lia.
    destruct (bfr b) eqn:Eb; cbn [Z.b2z]; rw_test; cbn [negb];
      (rewrite IH with (p := a); [|done|lia|simpl in Hf; lia|]).
    + f_equal. unfold stats_add, lenZ. cbn [total_managed used_payload free_payload largest_free
        num_blocks num_used num_free total sum_sz max_free count_blk length]. rewrite Eb. cbn [eqb].
      f_equal; try lia. bcase; lia.
    + split; [repeat (apply Forall_cons_2; [simpl; lia|]); constructor|simpl; bcase; lia].
    + f_equal. unfold stats_add, lenZ. cbn [total_managed used_payload free_payload largest_free
        num_blocks num_used num_free total sum_sz max_free count_blk length]. rewrite Eb. cbn [eqb].
      f_equal; lia.
    + split; [repeat (apply Forall_cons_2; [simpl; lia|]); constructor|simpl; lia].
Qed.

Definition stats0 : stats := Stats 0 0 0 0 0 0 0.

Lemma stats_rep MAGIC base limit s bs fuel :
  rep MAGIC base limit s bs -> bs <> [] -> (length bs < fuel)%nat ->
  stats_loop fuel (hmem s) (hhead s) stats0 = Some (stats_add stats0 bs).
Proof.
  intros [Hh Hs He Hw Hb Hl] Hne Hf. rewrite Hh.
  rewrite <- (stats_loop_ok MAGIC fuel (hmem s) 0 base bs stats0); [by destruct bs|done..|].
  pose proof (total_nonneg _ Hw).
  split; [repeat (apply Forall_cons_2; [simpl; lia|]); constructor|simpl; lia].
Qed.
