(* ===== verification/HeapLive.v ===== *)
(** * Live regions over a block list

    Ties the abstract regions of AllocSpec to the blocks of HeapBlock, for
    both allocators: each live region lies in a used block of its own, and
    the moves of the block list keep the regions they do not concern. *)

From Stdlib Require Import ZArith Lia.
From S2P Require Import Prelude Memory LibC AllocSpec HeapBlock.

(** Every used block but the one at [h0] stays. *)
Definition used_stay_but (a h0 : Z) (bs bs' : list blk) : Prop :=
  forall h c, h <> h0 -> bfr c = false -> blk_at a bs h c -> blk_at a bs' h c.

Lemma used_stay_but_of a h0 bs bs' : used_stay a bs bs' -> used_stay_but a h0 bs bs'.
Proof. intros H h c _. apply H. Qed.

(** Block [b] and the free blocks [ms] after it become [mid]. *)
Lemma used_stay_but_mids a l b ms mid r :
  total mid = 40 + bsz b + total ms -> Forall (fun c => bfr c = true) ms ->
  used_stay_but a (a + total l) (l ++ b :: ms ++ r) (l ++ mid ++ r).
Proof.
  intros Ht Hms h c Hne Hc. rewrite !blk_at_app, Ht. cbn [blk_at].
  rewrite blk_at_app.
  replace (a + total l + 40 + bsz b + total ms) with (a + total l + (40 + bsz b + total ms)) by lia.
  intros [?|[[? _]|[Hm|?]]]; [tauto|done| |tauto].
  exfalso. apply blk_at_split in Hm as (l0 & r0 & -> & _).
  apply Forall_app in Hms as [_ Hms]. apply Forall_cons_1 in Hms as [Hms _]. congruence.
Qed.

Lemma used_stay_but_mid a l b mid r :
  total mid = 40 + bsz b ->
  used_stay_but a (a + total l) (l ++ b :: r) (l ++ mid ++ r).
Proof. intros Ht. apply (used_stay_but_mids a l b []); [simpl; lia|constructor]. Qed.

Lemma used_stay_but_trans a h0 bs bs' bs'' :
  used_stay_but a h0 bs bs' -> used_stay a bs' bs'' -> used_stay_but a h0 bs bs''.
Proof. intros H H' h c Hh Hc Hb. auto. Qed.

Section Live.
Context (base : Z).

(** The region [c] at [p] is (part of) the payload of a used block. *)
Definition live_in (m : mem) (bs : list blk) (A : regions) : Prop :=
  forall p c, A !! p = Some c ->
    c <> [] /\ exists b, blk_at base bs (p - 40) b /\ bfr b = false /\ lenZ c <= bsz b /\
    rbs m p (length c) = c.

Lemma live_in_empty m bs : live_in m bs ∅.
Proof. intros p c H. by rewrite lookup_empty in H. Qed.

Lemma live_in_keeps_but m m' bs bs' A p :
  live_in m bs A -> used_stay_but base (p - 40) bs bs' -> keeps_used base m m' bs' ->
  live_in m' bs' (delete p A).
Proof.
  intros HA Hs Hk q c Hq. apply lookup_delete_Some in Hq as [Hne Hq].
  destruct (HA q c Hq) as (Hc & b & Hb & Hbf & Hl & Hbytes).
  split; [done|]. exists b. assert (Hb' : blk_at base bs' (q - 40) b) by (apply Hs; [lia|done..]).
  repeat (split; [done|]). rewrite <- Hbytes at 2. apply rbs_ext. intros i Hi.
  apply Hk. left. eapply blk_at_used; [done..|]. unfold lenZ in Hl. lia.
Qed.

Lemma live_in_keeps m m' bs bs' A :
  live_in m bs A -> used_stay base bs bs' -> keeps_used base m m' bs' -> live_in m' bs' A.
Proof.
  intros HA Hs Hk q c Hq.
  destruct (HA q c Hq) as (Hc & b & Hb & Hbf & Hl & Hbytes).
  split; [done|]. exists b. assert (Hb' : blk_at base bs' (q - 40) b) by (by apply Hs).
  repeat (split; [done|]). rewrite <- Hbytes at 2. apply rbs_ext. intros i Hi.
  apply Hk. left. eapply blk_at_used; [done..|]. unfold lenZ in Hl. lia.
Qed.

Lemma live_in_insert m bs A p n b :
  live_in m bs A -> blk_at base bs (p - 40) b -> bfr b = false -> 0 < n <= bsz b ->
  live_in m bs (<[p := rbs m p (Z.to_nat n)]> A).
Proof.
  intros HA Hb Hbf Hn q c Hq. apply lookup_insert_Some in Hq as [[<- <-]|[Hne Hq]]; [|by apply HA].
  split.
  - intros E%(f_equal length). rewrite length_rbs in E. simpl in E. lia.
  - exists b. unfold lenZ. rewrite length_rbs. repeat (split; [done|]). split; [lia|done].
Qed.

Lemma live_in_disjoint m bs A p c q d :
  blks_wf bs -> live_in m bs A -> A !! p = Some c -> A !! q = Some d -> p <> q ->
  p + lenZ c <= q \/ q + lenZ d <= p.
Proof.
  intros Hw HA Hp Hq Hne.
  destruct (HA p c Hp) as (_ & b & Hb & _ & Hl & _).
  destruct (HA q d Hq) as (_ & b' & Hb' & _ & Hl' & _).
  destruct (blk_at_disjoint _ _ _ _ _ _ Hw Hb Hb') as [[? _]|?]; lia.
Qed.

Lemma live_in_inside m bs A p c :
  blks_wf bs -> live_in m bs A -> A !! p = Some c ->
  base + 40 <= p /\ p + lenZ c <= base + total bs.
Proof.
  intros Hw HA Hp. destruct (HA p c Hp) as (_ & b & Hb & _ & Hl & _).
  pose proof (blk_at_range _ _ _ _ Hw Hb). lia.
Qed.

(** A used block that holds no region of [A] is apart from all of them. *)
Lemma live_in_apart m bs A p n b :
  blks_wf bs -> live_in m bs A -> blk_at base bs (p - 40) b -> n <= bsz b -> A !! p = None ->
  apart A p n.
Proof.
  intros Hw HA Hb Hn Hp q d Hq.
  destruct (HA q d Hq) as (_ & b' & Hb' & _ & Hl' & _).
  destruct (blk_at_disjoint _ _ _ _ _ _ Hw Hb Hb') as [[? _]|?]; [|lia].
  assert (p = q) as -> by lia. congruence.
Qed.

(** Client writes: one byte of a live region. *)
Lemma live_in_write m bs A p c x v :
  blks_wf bs -> live_in m bs A -> A !! p = Some c -> p <= x < p + lenZ c ->
  live_in (wb m x v) bs (<[p := <[Z.to_nat (x - p) := u8 v]> c]> A).
Proof.
  intros Hw HA Hp Hx q d Hq.
  apply lookup_insert_Some in Hq as [[<- <-]|[Hne Hq]].
  - destruct (HA p c Hp) as (Hc & b & Hb & Hbf & Hl & Hbytes).
    unfold lenZ in *. rewrite length_insert. split.
    + intros E%(f_equal length). rewrite length_insert in E. simpl in E.
      by apply nil_length_inv in E.
    + exists b. repeat (split; [done|]). rewrite rbs_wb_in by done. by rewrite Hbytes.
  - destruct (HA q d Hq) as (Hd & b & Hb & Hbf & Hl & Hbytes).
    split; [done|]. exists b. repeat (split; [done|]).
    destruct (live_in_disjoint _ _ _ _ _ _ _ Hw HA Hp Hq Hne) as [Hd'|Hd'];
      rewrite <- Hbytes at 2; apply rbs_ext; intros i Hi; apply rb_wb_ne; unfold lenZ in *; lia.
Qed.

(** Rewriting the bytes of one region's block leaves the other regions. *)
Lemma live_in_rewrite m m' bs A q b :
  blks_wf bs -> live_in m bs A -> blk_at base bs (q - 40) b -> A !! q = None ->
  (forall x, ~ (q <= x < q + bsz b) -> rb m' x = rb m x) -> live_in m' bs A.
Proof.
  intros Hw HA Hb Hq Hrb p c Hp.
  destruct (HA p c Hp) as (Hc & b' & Hb' & Hbf & Hl & Hbytes).
  split; [done|]. exists b'. repeat (split; [done|]). rewrite <- Hbytes at 2. apply rbs_ext.
  intros i Hi. apply Hrb. unfold lenZ in *.
  destruct (blk_at_disjoint _ _ _ _ _ _ Hw Hb Hb') as [[E _]|?]; [|lia].
  assert (q = p) as -> by lia. congruence.
Qed.
End Live.

(** ** From block-list steps to steps of the abstract machine *)

(** The list after an allocation of [n] (aligned) bytes, with the payload
    address; [None] when nothing fits. *)
Definition spec_malloc (base n : Z) (bs : list blk) : option (Z * list blk) :=
  match first_fit n bs with
  | None => None
  | Some (l, b, r) => Some (base + total l + 40, l ++ spec_alloc n b ++ r)
  end.

(** What an allocation does to the set of used blocks. *)
Lemma spec_malloc_blk base n bs q bs' :
  spec_malloc base n bs = Some (q, bs') -> blks_wf bs ->
  (exists z, n <= z /\ blk_at base bs' (q - 40) (Blk z false)) /\
  used_stay base bs bs' /\
  (forall h c, blk_at base bs h c -> bfr c = false -> h <> q - 40).
Proof.
  unfold spec_malloc. intros H Hw.
  destruct (first_fit n bs) as [[[l b] r]|] eqn:Ef; [|done]. injection H as <- <-.
  apply first_fit_app in Ef as (-> & Hb & Hn).
  replace (base + total l + 40 - 40) with (base + total l) by lia.
  split; [|split].
  - unfold spec_alloc. bcase; eexists; (split; [|apply blk_at_split; exists l; eexists; done]); lia.
  - by apply used_stay_alloc.
  - intros h c Hc Hcf ->.
    assert (Hbl : blk_at base (l ++ b :: r) (base + total l) b)
      by (apply blk_at_split; eauto).
    by rewrite (blk_at_fun _ _ _ _ _ Hw Hc Hbl) in Hcf; congruence.
Qed.

Lemma spec_malloc_ne base n bs q bs' : spec_malloc base n bs = Some (q, bs') -> bs' <> [].
Proof.
  unfold spec_malloc. destruct (first_fit n bs) as [[[l b] r]|]; [|done]. intros [= _ <-].
  unfold spec_alloc. by destruct l, (bsz b <? n + MIN_SPLIT_SIZE).
Qed.

(** Where an allocated block lies. *)
Lemma spec_malloc_range base n bs q bs' :
  spec_malloc base n bs = Some (q, bs') -> blks_wf bs -> base + 40 <= q /\ q + n <= base + total bs.
Proof.
  unfold spec_malloc. destruct (first_fit n bs) as [[[l b] r]|] eqn:E; [|done].
  apply first_fit_app in E as (-> & _ & Hn). intros [= <- _] Hw.
  apply Forall_app in Hw as [Hl Hw]. apply Forall_cons_1 in Hw as [_ Hr].
  pose proof (total_nonneg _ Hl). pose proof (total_nonneg _ Hr).
  rewrite total_app. cbn [total]. lia.
Qed.

Section Sim.
Context (MAGIC base limit : Z).
Abbreviation rep s bs := (rep MAGIC base limit s bs).

(** The heap holds the regions [A]. *)
Definition hrel (s : heap) (A : regions) : Prop :=
  exists bs, rep s bs /\ bs <> [] /\ live_in base (hmem s) bs A.

Lemma rest_only_in s m' bs :
  rep s bs -> keeps_rest base m' (hmem s) bs -> only_in base limit m' (hmem s).
Proof.
  intros Hrep H x Hx. apply H. intros Hin. apply Hx.
  rewrite <- (rep_end _ _ _ _ _ Hrep). eapply in_hdr_range; [apply Hrep|done].
Qed.
Lemma used_only_in s m' bs :
  rep s bs -> keeps_used base m' (hmem s) bs -> only_in base limit m' (hmem s).
Proof. intros Hrep H x Hx. apply H. right. by rewrite (rep_end _ _ _ _ _ Hrep). Qed.
(** The blocks of the heap depend on its memory only. *)
Lemma rep_same s s' bs :
  hhead s' = hhead s -> same_on base limit (hmem s) (hmem s') -> rep s bs -> rep s' bs.
Proof.
  intros Hh Hs Hrep. pose proof (rep_wf _ _ _ _ _ Hrep) as Hw. pose proof (rep_end _ _ _ _ _ Hrep) as He.
  destruct Hrep as [? Hseg ? ? ? ?]. split; try done; [congruence|].
  eapply seg_ext; [|exact Hseg]. intros x Hx. apply Hs. apply in_hdr_range in Hx; [lia|done].
Qed.
Lemma hrel_same s s' A :
  hhead s' = hhead s -> same_on base limit (hmem s) (hmem s') -> hrel s A -> hrel s' A.
Proof.
  intros Hh Hs (bs & Hrep & Hne & HA). pose proof (rep_wf _ _ _ _ _ Hrep) as Hw.
  pose proof (rep_end _ _ _ _ _ Hrep) as He. exists bs. split; [|split; [done|]].
  - by eapply rep_same.
  - intros p c Hp. destruct (live_in_inside _ _ _ _ _ _ Hw HA Hp) as (?&?).
    destruct (HA p c Hp) as (Hc & b & Hb & Hf & Hl & E). split; [done|]. exists b.
    do 3 (split; [done|]). rewrite <- E at 2. apply rbs_ext. intros i Hi. symmetry. apply Hs.
    unfold lenZ in *. lia.
Qed.

(** The same for a reallocation that moved [k] bytes to [q]. *)
Lemma moved_only_in s s' bs bs1 bs' q n k :
  spec_malloc base n bs = Some (q, bs1) -> rep s bs -> rep s' bs' -> k <= n ->
  (forall x, kept_at base bs' x -> ~ (q <= x < q + k) -> rb (hmem s') x = rb (hmem s) x) ->
  only_in base limit (hmem s) (hmem s').
Proof.
  intros Esp Hrep Hrep' Hk H x Hx.
  destruct (spec_malloc_range _ _ _ _ _ Esp (rep_wf _ _ _ _ _ Hrep)) as [H1 H2].
  rewrite (rep_end _ _ _ _ _ Hrep) in H2.
  apply H; [right; by rewrite (rep_end _ _ _ _ _ Hrep')|lia].
Qed.

Lemma hrel_bounds s bs p z :
  rep s bs -> blk_at base bs (p - 40) (Blk z false) ->
  0 < base /\ base + 40 <= p /\ p + z <= limit.
Proof.
  intros Hrep Hb. pose proof (blk_at_range _ _ _ _ (rep_wf _ _ _ _ _ Hrep) Hb) as H.
  pose proof (rep_end _ _ _ _ _ Hrep). pose proof (rep_base _ _ _ _ _ Hrep). simpl in H. lia.
Qed.

Lemma hrel_malloc s s' bs bs' A p n :
  rep s bs -> live_in base (hmem s) bs A -> 0 < n <= MAX_REQ ->
  spec_malloc base (align_up n) bs = Some (p, bs') ->
  rep s' bs' -> keeps_rest base (hmem s) (hmem s') bs' ->
  let A' := <[p := rbs (hmem s') p (Z.to_nat n)]> A in
  astep base limit A (CMalloc n) p A' /\ hrel s' A' /\ p <> 0.
Proof.
  intros Hrep HA Hn Esp Hrep' Hk A'.
  pose proof (align_up_bounds n ltac:(unfold MAX_REQ in *; lia)) as [Hal _].
  destruct (spec_malloc_blk _ _ _ _ _ Esp (rep_wf _ _ _ _ _ Hrep)) as ((z & Hz & Hb) & Hstay & Hnew).
  destruct (hrel_bounds _ _ _ _ Hrep' Hb) as (H0 & H1 & H2).
  assert (HA' : live_in base (hmem s') bs' A).
  { eapply live_in_keeps; [done..|]. by eapply keeps_rest_used; [apply Hrep'|]. }
  assert (Hp : A !! p = None).
  { destruct (A !! p) as [c|] eqn:Ec; [|done]. exfalso.
    destruct (HA _ _ Ec) as (_ & b' & Hb' & Hbf & _). by eapply Hnew. }
  split; [|split; [|lia]].
  - constructor; [lia|unfold lenZ; rewrite length_rbs; lia|split; lia| |done].
    eapply live_in_apart; [apply Hrep'|done|exact Hb|simpl; lia|done].
  - exists bs'. split; [done|]. split; [by eapply spec_malloc_ne|].
    eapply live_in_insert; [done|exact Hb|done|simpl; lia].
Qed.

(** A region's block, as a split of the list. *)
Lemma live_block s bs A p c :
  rep s bs -> live_in base (hmem s) bs A -> A !! p = Some c ->
  exists l b r, bs = l ++ b :: r /\ p = base + total l + 40 /\ bfr b = false /\
    lenZ c <= bsz b /\ rbs (hmem s) p (length c) = c /\ c <> [].
Proof.
  intros Hrep HA Hp. destruct (HA p c Hp) as (Hc0 & b & Hb & Hbf & Hcl & Hbytes).
  apply blk_at_split in Hb as (l & r & -> & Hl). exists l, b, r.
  split; [done|]. split; [lia|]. done.
Qed.

Lemma hrel_free s s' A p c l b r :
  live_in base (hmem s) (l ++ b :: r) A -> A !! p = Some c -> p = base + total l + 40 ->
  rep s' (spec_coalesce l (Blk (bsz b) true) r) ->
  keeps_used base (hmem s) (hmem s') (spec_coalesce l (Blk (bsz b) true) r) ->
  hrel s' (delete p A).
Proof.
  intros HA Hp Ep H1 H2. eexists. split; [exact H1|]. split; [by apply spec_coalesce_ne|].
  eapply live_in_keeps_but; [done| |exact H2].
  replace (p - 40) with (base + total l) by lia.
  eapply used_stay_but_trans; [|by apply used_stay_coalesce].
  apply (used_stay_but_mid _ l b [Blk (bsz b) true] r). simpl. lia.
Qed.

(** What is left to check once a reallocation has placed the data at [q]. *)
Lemma hrel_finish m s' bs' A p c q n z :
  A !! p = Some c -> rbs m p (length c) = c ->
  rep s' bs' -> bs' <> [] -> live_in base (hmem s') bs' (delete p A) ->
  blk_at base bs' (q - 40) (Blk z false) -> 0 < n <= z ->
  delete p A !! q = None ->
  (forall i, 0 <= i < lenZ c -> i < n -> rb (hmem s') (q + i) = rb m (p + i)) ->
  exists A', astep base limit A (CRealloc p n) q A' /\ hrel s' A'.
Proof.
  intros Hp Hc Hrep Hne HA Hb Hn Hq Hbytes.
  destruct (hrel_bounds _ _ _ _ Hrep Hb) as (H0 & H1 & H2).
  exists (<[q := rbs (hmem s') q (Z.to_nat n)]> (delete p A)). split.
  - apply as_realloc with c; try done; [lia|unfold lenZ; rewrite length_rbs; lia|split; lia| |].
    + eapply live_in_apart; [apply Hrep|done|exact Hb|simpl; lia|done].
    + rewrite length_rbs. rewrite take_rbs by lia. rewrite <- Hc at 3. rewrite take_rbs by lia.
      apply rbs_ext. intros i Hi. apply Hbytes; unfold lenZ; lia.
  - exists bs'. split; [done|]. split; [done|].
    by eapply live_in_insert; [done|exact Hb|done|].
Qed.

(** Reallocation in place: the block at [p], with the free blocks [ms] after
    it, becomes a used block [Blk z false] and free rest. *)
Lemma hrel_in_place s s' A p c l b ms z mid r n :
  A !! p = Some c -> rbs (hmem s) p (length c) = c ->
  live_in base (hmem s) (l ++ b :: ms ++ r) A -> p = base + total l + 40 ->
  Forall (fun d => bfr d = true) ms ->
  40 + z + total mid = 40 + bsz b + total ms -> 0 < n <= z ->
  rep s' (l ++ (Blk z false :: mid) ++ r) ->
  keeps_rest base (hmem s) (hmem s') (l ++ (Blk z false :: mid) ++ r) ->
  exists A', astep base limit A (CRealloc p n) p A' /\ hrel s' A'.
Proof.
  intros Hp Hc HA Ep Hms Ht Hn Hrep' Hk.
  assert (Eh : p - 40 = base + total l) by lia.
  assert (Hb : blk_at base (l ++ (Blk z false :: mid) ++ r) (p - 40) (Blk z false)).
  { apply blk_at_split. by exists l, (mid ++ r). }
  pose proof (rep_wf _ _ _ _ _ Hrep') as Hw'.
  eapply (hrel_finish (hmem s)); try done.
  - by destruct l.
  - eapply live_in_keeps_but; [done| |by apply keeps_rest_used].
    rewrite Eh. by apply used_stay_but_mids.
  - by rewrite lookup_delete_eq.
  - intros i Hi Hin. apply Hk. apply (blk_at_not_hdr _ _ _ _ _ Hw' Hb). cbn [bsz]. lia.
Qed.

Lemma spec_split_head n b : bfr b = false -> n <= bsz b ->
  exists z mid, spec_split n b = Blk z false :: mid /\ n <= z.
Proof.
  intros Hb Hn. unfold spec_split. destruct b as [z f]. cbn [bsz bfr] in *. subst f.
  bcase; eexists _, _; (split; [reflexivity|lia]).
Qed.

Lemma spec_alloc_head n b : n <= bsz b -> exists z mid, spec_alloc n b = Blk z false :: mid /\ n <= z.
Proof. intros Hn. unfold spec_alloc. bcase; eexists _, _; (split; [reflexivity|lia]). Qed.

(** Reallocation by moving: allocate, copy, free.  [b] is found again in the
    list after the allocation. *)
Lemma hrel_move s s' A p c l b r n k q bs1 l1 r1 :
  let bs' := spec_coalesce l1 (Blk (bsz b) true) r1 in
  A !! p = Some c -> rbs (hmem s) p (length c) = c -> lenZ c <= bsz b ->
  rep s (l ++ b :: r) -> live_in base (hmem s) (l ++ b :: r) A ->
  p = base + total l + 40 -> bfr b = false -> 0 < n <= MAX_REQ ->
  spec_malloc base (align_up n) (l ++ b :: r) = Some (q, bs1) ->
  bs1 = l1 ++ b :: r1 -> total l1 = total l -> k <= align_up n -> Z.min (lenZ c) n <= k ->
  rep s' bs' ->
  (forall i, 0 <= i < k -> rb (hmem s') (q + i) = rb (hmem s) (p + i)) ->
  (forall x, kept_at base bs' x -> ~ (q <= x < q + k) -> rb (hmem s') x = rb (hmem s) x) ->
  exists A', astep base limit A (CRealloc p n) q A' /\ hrel s' A'.
Proof.
  intros bs' Hp Hc Hcl Hrep HA Ep Hbf Hn Esp -> Hl1 Hka Hk Hrep' Hcopy Hkeep.
  pose proof (align_up_bounds n ltac:(unfold MAX_REQ in *; lia)) as [Hal _].
  destruct (spec_malloc_blk _ _ _ _ _ Esp (rep_wf _ _ _ _ _ Hrep)) as ((z & Hz & Hq) & Hstay & Hnew).
  assert (Hbl : blk_at base (l ++ b :: r) (base + total l) b)
    by (apply blk_at_split; by exists l, r).
  pose proof (Hnew _ _ Hbl Hbf) as Hpq.
  assert (Hbut : used_stay_but base (p - 40) (l1 ++ b :: r1) bs').
  { eapply used_stay_but_trans; [|by apply used_stay_coalesce].
    replace (p - 40) with (base + total l1) by lia.
    apply (used_stay_but_mid _ l1 b [Blk (bsz b) true] r1). simpl. lia. }
  assert (Hq' : blk_at base bs' (q - 40) (Blk z false)) by (apply Hbut; [lia|done..]).
  assert (Hnone : A !! q = None).
  { destruct (A !! q) as [d|] eqn:Ed; [|done]. exfalso.
    destruct (HA _ _ Ed) as (_ & b' & Hb' & Hbf' & _). by eapply Hnew. }
  eapply (hrel_finish (hmem s) s' bs' A p c q n z); try done.
  - by apply spec_coalesce_ne.
  - intros p' d Hd. apply lookup_delete_Some in Hd as [Hne Hd].
    destruct (HA p' d Hd) as (Hdn & b' & Hb' & Hbf' & Hdl & Hbytes).
    split; [done|]. exists b'.
    assert (Hb1 : blk_at base bs' (p' - 40) b').
    { apply Hbut; [lia|done|]. by apply Hstay. }
    repeat (split; [done|]). rewrite <- Hbytes at 2. apply rbs_ext. intros i Hi.
    unfold lenZ in *. apply Hkeep; [left; eapply blk_at_used; [done..|lia]|].
    destruct (blk_at_disjoint _ _ _ _ _ _ (rep_wf _ _ _ _ _ Hrep') Hq' Hb1) as [[Eq _]|?];
      cbn [bsz] in *; [|lia].
    by eapply Hnew in Hb'.
  - lia.
  - by apply lookup_delete_None; right.
  - intros i Hi Hin. apply Hcopy. lia.
Qed.

Lemma hrel_write s A p c x v :
  hrel s A -> A !! p = Some c -> p <= x < p + lenZ c ->
  hrel (on_mem (fun m => wb m x v) s) (<[p := <[Z.to_nat (x - p) := u8 v]> c]> A).
Proof.
  intros (bs & Hrep & Hne & HA) Hp Hx. exists bs. split; [|split; [done|]].
  - apply rep_payload; [done|]. intros y Hy. apply rb_wb_ne. intros ->.
    destruct (HA p c Hp) as (_ & b & Hb & _ & Hcl & _).
    eapply blk_at_not_hdr; [apply Hrep|exact Hb| |exact Hy]. lia.
  - by eapply live_in_write; [apply Hrep|..].
Qed.

(** ... or any of its bytes at once. *)
Lemma hrel_fill s A p c m :
  hrel s A -> A !! p = Some c -> only_in p (p + lenZ c) (hmem s) m ->
  hrel (Heap m (hhead s) (htail s)) (<[p := rbs m p (length c)]> A).
Proof.
  intros (bs & Hrep & Hne & HA) Hp Hm. pose proof (rep_wf _ _ _ _ _ Hrep) as Hw.
  destruct (HA p c Hp) as (Hc & b & Hb & Hbf & Hcl & _). exists bs. split; [|split; [done|]].
  - apply rep_payload; [done|]. intros y Hy. apply Hm. intros Hin.
    eapply blk_at_not_hdr; [exact Hw|exact Hb| |exact Hy]. lia.
  - intros q d Hq. apply lookup_insert_Some in Hq as [[<- <-]|[Hne' Hq]].
    + rewrite length_rbs. split; [|exists b; unfold lenZ in *; rewrite length_rbs; done].
      intros E%(f_equal length). rewrite length_rbs in E. by apply nil_length_inv in E.
    + destruct (HA q d Hq) as (Hd & b' & Hb' & Hbf' & Hl' & Hbytes).
      split; [done|]. exists b'. do 3 (split; [done|]).
      rewrite <- Hbytes at 2. apply rbs_ext. intros i Hi. apply Hm.
      destruct (live_in_disjoint _ _ _ _ _ _ _ _ Hw HA Hp Hq Hne'); unfold lenZ in *; lia.
Qed.

Lemma hrel_disjoint s A p c q d :
  hrel s A -> A !! p = Some c -> A !! q = Some d -> p <> q ->
  p + lenZ c <= q \/ q + lenZ d <= p.
Proof. intros (bs & Hrep & _ & HA). eapply live_in_disjoint; [apply Hrep|done]. Qed.

Lemma hrel_inside s A p c :
  hrel s A -> A !! p = Some c -> base <= p /\ p + lenZ c <= limit /\ p <> 0.
Proof.
  intros (bs & Hrep & _ & HA) Hp.
  pose proof (live_in_inside _ _ _ _ _ _ (rep_wf _ _ _ _ _ Hrep) HA Hp).
  pose proof (rep_end _ _ _ _ _ Hrep). pose proof (rep_base _ _ _ _ _ Hrep). lia.
Qed.

(** The copy and the freeing of [hrel_move], on memory: [q] is another used
    block of at least [k] bytes. *)
Lemma move_copy s l b r q z k :
  0 <= MAGIC < 4294967296 ->
  let bs := l ++ b :: r in
  let h := base + total l in
  let p := h + 40 in
  rep s bs -> blk_at base bs (q - 40) (Blk z false) -> q - 40 <> h -> k <= z -> k <= bsz b ->
  let s2 := on_mem (fun m => memcpy m q p k) s in
  let s3 := coalesce h (on_mem (fun m => fset m h Ffree 1) s2) in
  let bs' := spec_coalesce l (Blk (bsz b) true) r in
  rep s2 bs /\ rep s3 bs' /\
  (forall i, 0 <= i < k -> rb (hmem s3) (q + i) = rb (hmem s) (p + i)) /\
  (forall x, kept_at base bs' x -> ~ (q <= x < q + k) -> rb (hmem s3) x = rb (hmem s) x).
Proof.
  intros HM bs h p Hrep Hq Hqp Hkz Hkb s2 s3 bs'.
  pose proof (rep_wf _ _ _ _ _ Hrep) as Hw.
  assert (Hbl : blk_at base bs h b) by (apply blk_at_split; by exists l, r).
  assert (Hdis : q + z <= h \/ p + bsz b <= q - 40).
  { destruct (blk_at_disjoint _ _ _ _ _ _ Hw Hq Hbl) as [[? _]|[?|?]]; cbn [bsz] in *; lia. }
  assert (Hrep2 : rep s2 bs).
  { apply rep_payload; [done|]. intros x Hx. apply memcpy_out.
    destruct (Z.le_gt_cases q x); [|lia].
    destruct (Z.le_gt_cases (q + k) x); [lia|]. exfalso.
    apply (blk_at_not_hdr _ _ _ _ x Hw Hq); [cbn [bsz]; lia|done]. }
  destruct (free_rep MAGIC HM _ _ _ _ _ _ Hrep2) as (H1 & H2 & _). fold h s3 bs' in H1, H2.
  split; [done|split; [exact H1|split]].
  - intros i Hi. transitivity (rb (hmem s2) (q + i)).
    + apply H2. left. eapply (blk_at_used _ _ (q - 40) (Blk z false)); cbn [bsz bfr]; [|done|lia].
      apply (used_stay_coalesce _ l (Blk (bsz b) true) r eq_refl); [done|].
      apply blk_at_app in Hq. apply blk_at_app.
      destruct Hq as [?|[[? _]|Hq]]; [by left|unfold h in *; lia|right]. right. exact Hq.
    + apply memcpy_in; lia.
  - intros x Hx Hout. transitivity (rb (hmem s2) x); [by apply H2|].
    apply memcpy_out. lia.
Qed.

(** Allocate, copy, free as a whole, after the allocation: the old block is
    found again in the list [bs1], and [free] will accept its header. *)
Lemma move_rep s s1 l b r q bs1 n :
  0 <= MAGIC < 4294967296 ->
  let h := base + total l in
  let p := h + 40 in
  let s2 := on_mem (fun m => memcpy m q p (bsz b)) s1 in
  let s3 := coalesce h (on_mem (fun m => fset m h Ffree 1) s2) in
  rep s (l ++ b :: r) -> bfr b = false -> bsz b <= n ->
  spec_malloc base n (l ++ b :: r) = Some (q, bs1) ->
  rep s1 bs1 -> keeps_rest base (hmem s) (hmem s1) bs1 ->
  exists l1 r1, bs1 = l1 ++ b :: r1 /\ total l1 = total l /\ q <> 0 /\
    fget (hmem s1) h Fsize = bsz b /\
    fget (hmem s2) h Fmagic = MAGIC /\ fget (hmem s2) h Ffree = 0 /\
    let bs' := spec_coalesce l1 (Blk (bsz b) true) r1 in
    rep s3 bs' /\
    (forall i, 0 <= i < bsz b -> rb (hmem s3) (q + i) = rb (hmem s) (p + i)) /\
    (forall x, kept_at base bs' x -> ~ (q <= x < q + bsz b) ->
       rb (hmem s3) x = rb (hmem s) x).
Proof.
  intros HM h p s2 s3 Hrep Hb Hlt Esp Hrep1 Hk.
  destruct (spec_malloc_blk _ _ _ _ _ Esp (rep_wf _ _ _ _ _ Hrep)) as ((z & Hz & Hq) & Hstay & Hnq).
  assert (Hbl : blk_at base (l ++ b :: r) h b) by (apply blk_at_split; exists l, r; done).
  pose proof (Hnq _ _ Hbl Hb) as Hne'. apply (Hstay _ _ Hb) in Hbl.
  destruct (hrel_bounds _ _ _ _ Hrep1 Hq) as (_ & Hq0 & _).
  pose proof (rep_base _ _ _ _ _ Hrep1).
  apply blk_at_split in Hbl as (l1 & r1 & -> & Hl1).
  destruct (rep_header MAGIC _ _ _ _ _ _ Hrep1) as (_ & Hz1 & _).
  pose proof (rep_wf _ _ _ _ _ Hrep1) as Hw1.
  assert (Hbl1 : blk_at base (l1 ++ b :: r1) (base + total l1) b)
    by (apply blk_at_split; by exists l1, r1).
  destruct (move_copy s1 l1 b r1 q z (bsz b) HM Hrep1 Hq) as (Hr2 & A & B & C); [lia..|].
  destruct (rep_header MAGIC _ _ _ _ _ _ Hr2) as (Hm2 & _ & Hf2 & _). cbn [hmem on_mem] in Hm2, Hf2.
  rewrite <- Hl1 in *. rewrite Hb in Hf2.
  exists l1, r1. split; [done|]. split; [subst h; lia|]. split; [lia|].
  do 3 (split; [done|]). split; [exact A|split].
  - intros i Hi. transitivity (rb (hmem s1) (p + i)); [by apply B|].
    apply Hk. apply (blk_at_not_hdr _ _ _ _ _ Hw1 Hbl1). lia.
  - intros x Hx Hout. transitivity (rb (hmem s1) x); [by apply C|].
    apply Hk. intros Hin. destruct Hx as [Hx|Hx].
    2: { apply Hx. rewrite (rep_end _ _ _ _ _ A), <- (rep_end _ _ _ _ _ Hrep1).
         by apply in_hdr_range. }
    apply used_at_coalesce in Hx; [|done]. eapply used_not_hdr; [|exact Hx|].
    + apply Forall_app in Hw1 as [? Hw1]. apply Forall_cons_1 in Hw1 as [? ?].
      apply Forall_app; split; [done|]. by apply Forall_cons_2.
    + rewrite in_hdr_app in Hin |- *. exact Hin.
Qed.
End Sim.
