(* ===== verification/UserMalloc.v ===== *)
(** * malloc/user_malloc.c

    The allocator of the .user region.  [user_start] and [user_end] are the
    linker symbols of link.ld; the state is the three static variables over
    the kernel's memory.  The walk over the block list takes fuel. *)

From Stdlib Require Import ZArith Lia.
From S2P Require Import Prelude Memory LibC AllocSpec HeapBlock HeapLive.

Definition UMAGIC : Z := 3237998080. (* 0xC0FFEE00 *)

(** [user_head] and [user_tail] are the ends of the [heap]. *)
Record uheap := UHeap { uh : heap; user_brk : Z }.

Definition umem (s : uheap) : mem := hmem (uh s).
Definition on_heap (f : heap -> heap) (s : uheap) : uheap := UHeap (f (uh s)) (user_brk s).

Definition user_split_block : Z -> Z -> heap -> heap := split_block UMAGIC.
Definition user_coalesce : Z -> heap -> heap := coalesce.
Definition user_find_fit (fuel : nat) (s : heap) (size : Z) : option Z :=
  find_fit fuel (hmem s) (hhead s) size.

Section UserMalloc.
Context (user_start user_end : Z).

Definition user_malloc_init (s : uheap) : uheap :=
  if negb (hhead (uh s) =? 0) then s else
  let head := user_start in
  let m := umem s in
  let m := fset m head Fmagic UMAGIC in
  let m := fset m head Fsize (u64 (user_end - user_start - SIZEOF_HDR)) in
  let m := fset m head Ffree 1 in
  let m := fset m head Fnext 0 in
  let m := fset m head Fprev 0 in
  UHeap (Heap m head head) user_end.

Definition user_malloc (fuel : nat) (size : Z) (s : uheap) : option (Z * uheap) :=
  let s := if hhead (uh s) =? 0 then user_malloc_init s else s in
  if size =? 0 then Some (0, s) else
  let size := align_up size in
  match user_find_fit fuel (uh s) size with
  | None => None
  | Some fit =>
      if fit =? 0 then Some (0, s) else
      let s := on_heap (user_split_block fit size) s in
      let s := on_heap (on_mem (fun m => fset m fit Ffree 0)) s in
      Some (header_to_payload fit, s)
  end.

Definition user_free (ptr : Z) (s : uheap) : uheap :=
  if ptr =? 0 then s else
  let h := payload_to_header ptr in
  if negb (fget (umem s) h Fmagic =? UMAGIC) || negb (fget (umem s) h Ffree =? 0) then s else
  let s := on_heap (on_mem (fun m => fset m h Ffree 1)) s in
  on_heap (user_coalesce h) s.

Definition user_realloc (fuel : nat) (ptr new_size : Z) (s : uheap) : option (Z * uheap) :=
  if ptr =? 0 then user_malloc fuel new_size s else
  if new_size =? 0 then Some (0, user_free ptr s) else
  let h := payload_to_header ptr in
  if negb (fget (umem s) h Fmagic =? UMAGIC) then Some (0, s) else
  let new_size := align_up new_size in
  if new_size <=? fget (umem s) h Fsize then
    Some (ptr, on_heap (user_split_block h new_size) s)
  else
  let m := umem s in
  let nx := fget m h Fnext in
  if negb (nx =? 0) && negb (fget m nx Ffree =? 0) &&
     (new_size <=? u64 (fget m h Fsize + SIZEOF_HDR + fget m nx Fsize))
  then
    let m := fset m h Fsize (u64 (fget m h Fsize + (SIZEOF_HDR + fget m nx Fsize))) in
    let m := fset m h Fnext (fget m (fget m h Fnext) Fnext) in
    let m := if fget m h Fnext =? 0 then m else fset m (fget m h Fnext) Fprev h in
    let s := on_heap (on_mem (fun _ => m)) s in
    let s := on_heap (user_split_block h new_size) s in
    Some (ptr, on_heap (on_mem (fun m => fset m h Ffree 0)) s)
  else
  match user_malloc fuel new_size s with
  | None => None
  | Some (newp, s) =>
      if newp =? 0 then Some (0, s) else
      let s := on_heap (on_mem (fun m => memcpy m newp ptr (fget m h Fsize))) s in
      Some (newp, user_free ptr s)
  end.

Definition get_usermalloc_stats (fuel : nat) (s : uheap) : option stats :=
  stats_loop fuel (umem s) (hhead (uh s)) (Stats 0 0 0 0 0 0 0).
End UserMalloc.

Section Correctness.
Context (user_start user_end : Z).
Abbreviation urep s bs := (rep UMAGIC user_start user_end (uh s) bs).
Abbreviation umalloc := (user_malloc user_start user_end).
Abbreviation urealloc := (user_realloc user_start user_end).

Lemma umagic_ok : 0 <= UMAGIC < 4294967296.
Proof. unfold UMAGIC. lia. Qed.

Lemma user_find_fit_ok fuel s bs n :
  urep s bs -> (length bs < fuel)%nat -> bs <> [] ->
  user_find_fit fuel (uh s) n =
  Some (match first_fit n bs with None => 0 | Some (l, _, _) => user_start + total l end).
Proof.
  intros [Hh Hs He Hw Hb Hl] Hf Hne. unfold user_find_fit. rewrite Hh.
  rewrite <- (find_fit_ok UMAGIC fuel (hmem (uh s)) 0 user_start bs n) by done.
  by destruct bs.
Qed.

Lemma user_malloc_rep fuel size s bs :
  urep s bs -> bs <> [] -> (length bs < fuel)%nat -> 0 < size <= 18446744073709551608 ->
  match spec_malloc user_start (align_up size) bs with
  | None => umalloc fuel size s = Some (0, s)
  | Some (p, bs') =>
      exists s', umalloc fuel size s = Some (p, s') /\ urep s' bs' /\
        keeps_rest user_start (umem s) (umem s') bs'
  end.
Proof.
  intros Hrep Hne Hf Hsz. pose proof (align_up_bounds size ltac:(lia)) as [Hal _].
  assert (Hh : hhead (uh s) <> 0) by (destruct Hrep; lia).
  unfold user_malloc. do 2 rw_test. rewrite user_find_fit_ok with (bs := bs) by done.
  unfold spec_malloc. destruct (first_fit (align_up size) bs) as [[[l b] r]|] eqn:Efit; [|by rw_test].
  apply first_fit_app in Efit as (-> & Hb & Hn).
  destruct (payload_header UMAGIC _ _ _ _ _ _ Hrep) as (Hp1 & Hp2 & Hp3).
  destruct (alloc_rep UMAGIC umagic_ok _ _ _ _ _ _ (align_up size) Hrep) as (H1 & H2 & _); [lia|].
  rw_test. rewrite Hp1. eexists. split; [reflexivity|]. split; [exact H1|exact H2].
Qed.

Lemma user_free_rep s l b r :
  urep s (l ++ b :: r) -> bfr b = false ->
  let s' := user_free (user_start + total l + 40) s in
  urep s' (spec_coalesce l (Blk (bsz b) true) r) /\
  keeps_used user_start (umem s) (umem s') (spec_coalesce l (Blk (bsz b) true) r).
Proof.
  intros Hrep Hb s'. destruct (payload_header UMAGIC _ _ _ _ _ _ Hrep) as (_ & Hp2 & Hp3).
  destruct (rep_header UMAGIC _ _ _ _ _ _ Hrep) as (Hm & _ & Hf & _).
  destruct (free_rep UMAGIC umagic_ok _ _ _ _ _ _ Hrep) as (H1 & H2 & _).
  subst s'. unfold user_free. rw_test. rewrite Hp2. unfold umem.
  rewrite Hm, Hf, Hb. cbn [Z.b2z]. do 2 rw_test. split; [exact H1|exact H2].
Qed.

(** A pointer to a block that is already free is left alone. *)
Lemma user_free_twice s l b r :
  urep s (l ++ b :: r) -> bfr b = true -> user_free (user_start + total l + 40) s = s.
Proof.
  intros Hrep Hb. destruct (payload_header UMAGIC _ _ _ _ _ _ Hrep) as (_ & Hp2 & Hp3).
  destruct (rep_header UMAGIC _ _ _ _ _ _ Hrep) as (Hm & _ & Hf & _).
  unfold user_free. rw_test. rewrite Hp2. unfold umem.
  rewrite Hm, Hf, Hb. cbn [Z.b2z]. by do 2 rw_test.
Qed.

(** The branch of [user_realloc] a live block takes. *)
Lemma user_realloc_shrink fuel s l b r size :
  urep s (l ++ b :: r) -> 0 < size <= 18446744073709551608 -> align_up size <= bsz b ->
  let p := user_start + total l + 40 in
  exists s', urealloc fuel p size s = Some (p, s') /\
    urep s' (l ++ spec_split (align_up size) b ++ r) /\
    keeps_rest user_start (umem s) (umem s') (l ++ spec_split (align_up size) b ++ r).
Proof.
  intros Hrep Hsz Hle p. destruct (payload_header UMAGIC _ _ _ _ _ _ Hrep) as (_ & Hp2 & Hp3).
  destruct (rep_header UMAGIC _ _ _ _ _ _ Hrep) as (Hm & Hz & _ & _).
  pose proof (align_up_bounds size ltac:(lia)) as [Hal _].
  destruct (split_block_rep UMAGIC umagic_ok _ _ _ _ _ _ (align_up size) Hrep) as (H1 & H2 & _); [lia|].
  subst p. unfold user_realloc. do 2 rw_test. rewrite Hp2. unfold umem.
  rewrite Hm, Hz. rewrite Z.eqb_refl. cbn [negb]. rw_test.
  eexists. split; [reflexivity|]. split; [exact H1|exact H2].
Qed.

Lemma user_realloc_grow fuel s l b c r size :
  urep s (l ++ b :: c :: r) -> 0 < size <= 18446744073709551608 ->
  bfr c = true -> bsz b < align_up size <= bsz b + 40 + bsz c ->
  let p := user_start + total l + 40 in
  let bs' := l ++ spec_alloc (align_up size) (merge_blk b c) ++ r in
  exists s', urealloc fuel p size s = Some (p, s') /\ urep s' bs' /\
    keeps_rest user_start (umem s) (umem s') bs'.
Proof.
  intros Hrep Hsz Hc Hle p bs'.
  destruct (rep_header_next UMAGIC _ _ _ _ _ _ _ Hrep) as (_ & Hcz & Hcf & Hcn).
  destruct (rep_bounds UMAGIC _ _ _ _ _ _ Hrep) as (_ & Hb0 & Hwr & _ & Hlim).
  apply Forall_cons_1 in Hwr as [Hc0 Hwr]. pose proof (total_nonneg _ Hwr). cbn [total] in Hlim.
  destruct (payload_header UMAGIC _ _ _ _ _ _ Hrep) as (_ & Hp2 & Hp3).
  destruct (rep_header UMAGIC _ _ _ _ _ _ Hrep) as (Hm & Hz & _ & Hn).
  pose proof (align_up_bounds size ltac:(lia)) as [Hal _].
  subst p. unfold user_realloc. do 2 rw_test. rewrite Hp2. unfold umem.
  rewrite Hm, Hz. rewrite Z.eqb_refl. cbn [negb]. rw_test. rewrite Hn.
  cbn [hd_addr] in *. unfold SIZEOF_HDR. rewrite Hcz, Hcf, Hc.
  rewrite (u64_small (bsz b + 40 + bsz c)), (u64_small (bsz b + (40 + bsz c))) by lia.
  cbn [Z.b2z]. repeat rw_test. cbn [negb andb].
  fsimp. rewrite Hn, Hcn.
  assert (0 <= hd_addr (user_start + total l + 40 + bsz b + 40 + bsz c) 0 r < 9223372036854775808)
    by (destruct r; cbn [hd_addr]; lia).
  fsimp.
  destruct (grow_rep UMAGIC umagic_ok _ _ _ _ _ _ _ (align_up size) Hrep) as (H1 & H2); [lia|].
  unfold merge_stores in H1, H2. rewrite Z.add_assoc.
  eexists. split; [reflexivity|]. split; [exact H1|exact H2].
Qed.

(** The in-place test fails, so [user_realloc] allocates. *)
Lemma user_realloc_falls fuel s l b r size :
  let n := align_up size in
  let p := user_start + total l + 40 in
  urep s (l ++ b :: r) -> 0 < size <= 18446744073709551608 -> bsz b < n ->
  (forall c r', r = c :: r' -> bfr c = true -> bsz b + 40 + bsz c < n) ->
  urealloc fuel p size s =
  match umalloc fuel n s with
  | None => None
  | Some (q, s1) =>
      if q =? 0 then Some (0, s1) else
      let s2 := on_heap (on_mem (fun m => memcpy m q p (fget m (user_start + total l) Fsize))) s1 in
      Some (q, user_free p s2)
  end.
Proof.
  intros n p Hrep Hsz Hlt Hno.
  destruct (payload_header UMAGIC _ _ _ _ _ _ Hrep) as (_ & Hp2 & Hp3).
  destruct (rep_header UMAGIC _ _ _ _ _ _ Hrep) as (Hm & Hz & _ & Hn).
  destruct (rep_bounds UMAGIC _ _ _ _ _ _ Hrep) as (_ & Hb0 & Hwr & _ & Hlim).
  subst p. unfold user_realloc. do 2 rw_test. rewrite Hp2. unfold umem.
  rewrite Hm, Hz, Hn. rewrite Z.eqb_refl. cbn [negb]. fold n. rw_test.
  destruct r as [|c r]; cbn [hd_addr]; [done|].
  destruct (rep_header_next UMAGIC _ _ _ _ _ _ _ Hrep) as (_ & Hcz & Hcf & _).
  apply Forall_cons_1 in Hwr as [Hc0 Hwr]. pose proof (total_nonneg _ Hwr). cbn [total] in Hlim.
  rewrite Hcf, Hcz. unfold SIZEOF_HDR. rewrite u64_small by lia.
  destruct (bfr c) eqn:Ec; cbn [Z.b2z].
  - specialize (Hno c r eq_refl Ec). by repeat rw_test.
  - by repeat rw_test.
Qed.

(** Otherwise the data moves: the old block is found again in the list
    after the allocation. *)
Lemma user_realloc_move fuel s l b r size :
  let bs := l ++ b :: r in
  let n := align_up size in
  let p := user_start + total l + 40 in
  urep s bs -> 0 < size <= 18446744073709551608 -> (length bs < fuel)%nat ->
  bfr b = false -> bsz b < n ->
  (forall c r', r = c :: r' -> bfr c = true -> bsz b + 40 + bsz c < n) ->
  match spec_malloc user_start n bs with
  | None => urealloc fuel p size s = Some (0, s)
  | Some (q, bs1) =>
      exists l1 r1 s', bs1 = l1 ++ b :: r1 /\ total l1 = total l /\
        urealloc fuel p size s = Some (q, s') /\
        let bs' := spec_coalesce l1 (Blk (bsz b) true) r1 in
        urep s' bs' /\
        (forall i, 0 <= i < bsz b -> rb (umem s') (q + i) = rb (umem s) (p + i)) /\
        (forall x, kept_at user_start bs' x -> ~ (q <= x < q + bsz b) ->
           rb (umem s') x = rb (umem s) x)
  end.
Proof.
  intros bs n p Hrep Hsz Hf Hb Hlt Hno.
  pose proof (align_up_bounds size ltac:(lia)) as [Hal _].
  destruct (align_up_twice size ltac:(lia)) as [Hal1 Hal2].
  assert (Hne : bs <> []) by (subst bs; by destruct l).
  pose proof (user_malloc_rep fuel n s bs Hrep Hne Hf ltac:(lia)) as Hmal.
  replace (align_up n) with n in Hmal by done.
  unfold p. rewrite user_realloc_falls with (b := b) (r := r) by done. fold p n.
  destruct (spec_malloc user_start n bs) as [[q bs1]|] eqn:Esp; [|by rewrite Hmal].
  destruct Hmal as (s1 & -> & Hrep1 & Hk).
  destruct (move_rep UMAGIC _ _ (uh s) (uh s1) l b r q bs1 n umagic_ok Hrep Hb ltac:(lia) Esp Hrep1 Hk)
    as (l1 & r1 & -> & Hl1 & Hq0 & Hz1 & Hm2 & Hf2 & H).
  destruct (payload_header UMAGIC _ _ _ _ _ _ Hrep) as (_ & Hpp & Hp1). rw_test.
  exists l1, r1. eexists. split; [done|]. split; [done|]. split; [reflexivity|].
  unfold p, user_free, umem, on_heap, on_mem in *. cbn [uh hmem hhead htail] in *.
  rewrite Hz1, Hpp, Hm2, Hf2. repeat rw_test. cbn [negb orb uh hmem]. exact H.
Qed.

(** ** The contract *)

Definition ucall (fuel : nat) (c : call) (s : uheap) : option (Z * uheap) :=
  match c with
  | CMalloc n => umalloc fuel n s
  | CFree p => Some (0, user_free p s)
  | CRealloc p n => urealloc fuel p n s
  | CWrite x v => Some (0, on_heap (on_mem (fun m => wb m x v)) s)
  end.

Definition urel (s : uheap) (A : regions) : Prop := hrel UMAGIC user_start user_end (uh s) A.

Lemma urep_fuel fuel s bs :
  urep s bs -> user_end - user_start < 40 * Z.of_nat fuel -> (length bs < fuel)%nat.
Proof. intros [_ _ He Hw _ _] Hf. pose proof (total_length _ Hw). lia. Qed.

Lemma user_sim_malloc fuel s A n :
  user_end - user_start < 40 * Z.of_nat fuel -> urel s A -> 0 <= n <= MAX_REQ ->
  exists r s' A', umalloc fuel n s = Some (r, s') /\
    astep user_start user_end A (CMalloc n) r A' /\ urel s' A' /\
    only_in user_start user_end (umem s) (umem s').
Proof.
  intros Hf (bs & Hrep & Hne & HA) Hn. pose proof (urep_fuel _ _ _ Hrep Hf) as Hfl.
  destruct (Z.eq_dec n 0) as [->|Hn0].
  { exists 0, s, A. split; [|split; [constructor|split; [by exists bs|done]]].
    unfold user_malloc. destruct Hrep. by do 2 rw_test. }
  pose proof (user_malloc_rep fuel n s bs Hrep Hne Hfl ltac:(unfold MAX_REQ in *; lia)) as H.
  destruct (spec_malloc user_start (align_up n) bs) as [[p bs']|] eqn:Esp.
  - destruct H as (s' & E & Hrep' & Hk).
    destruct (hrel_malloc _ _ _ _ (uh s') _ _ _ _ n Hrep HA ltac:(lia) Esp Hrep' Hk) as (? & ? & _).
    eexists _, s', _. do 3 (split; [done|]). exact (rest_only_in _ _ _ _ _ _ Hrep' Hk).
  - exists 0, s, A. split; [done|]. split; [constructor|split; [by exists bs|done]].
Qed.

Lemma user_sim_free s A p c :
  urel s A -> A !! p = Some c ->
  urel (user_free p s) (delete p A) /\ only_in user_start user_end (umem s) (umem (user_free p s)).
Proof.
  intros (bs & Hrep & Hne & HA) Hp.
  destruct (live_block _ _ _ _ _ _ _ _ Hrep HA Hp) as (l & b & r & -> & -> & Hbf & _).
  destruct (user_free_rep _ _ _ _ Hrep Hbf) as [H1 H2].
  split; [by eapply hrel_free|exact (used_only_in _ _ _ _ _ _ H1 H2)].
Qed.

Lemma user_sim_realloc fuel s A p c n :
  user_end - user_start < 40 * Z.of_nat fuel -> urel s A -> A !! p = Some c -> 0 <= n <= MAX_REQ ->
  exists q s' A', urealloc fuel p n s = Some (q, s') /\
    astep user_start user_end A (CRealloc p n) q A' /\ urel s' A' /\
    only_in user_start user_end (umem s) (umem s').
Proof.
  intros Hf Hrel Hp Hn. pose proof Hrel as (bs & Hrep & Hne & HA).
  pose proof (urep_fuel _ _ _ Hrep Hf) as Hfl.
  destruct (live_block _ _ _ _ _ _ _ _ Hrep HA Hp) as (l & b & r & -> & Ep & Hbf & Hcl & Hc & Hc0).
  destruct (rep_bounds UMAGIC _ _ _ _ _ _ Hrep) as (Hlo & _).
  destruct (Z.eq_dec n 0) as [->|Hn0].
  { exists 0, (user_free p s), (delete p A). split; [|split].
    - unfold user_realloc. by do 2 rw_test.
    - by eapply as_realloc_zero.
    - by eapply user_sim_free. }
  pose proof (align_up_bounds n ltac:(unfold MAX_REQ in *; lia)) as [Hal _].
  destruct (Z.le_gt_cases (align_up n) (bsz b)) as [Hle|Hgt].
  { destruct (user_realloc_shrink fuel _ _ _ _ n Hrep ltac:(unfold MAX_REQ in *; lia) Hle) as (s' & E & Hrep' & Hk).
    destruct (spec_split_head _ _ Hbf Hle) as (z & mid & Esp & Hz).
    pose proof (total_split (align_up n) b ltac:(lia)) as Ht. rewrite Esp in *. cbn [total bsz] in Ht.
    destruct (hrel_in_place UMAGIC user_start user_end (uh s) (uh s') A p c l b [] z mid r n) as (A' & ? & ?); try done; [simpl; lia|lia|].
    subst p. exists (user_start + total l + 40), s', A'. do 3 (split; [done|]).
    exact (rest_only_in _ _ _ _ _ _ Hrep' Hk). }
  destruct (match r with d :: _ => bfr d && (align_up n <=? bsz b + 40 + bsz d) | [] => false end) eqn:Eg.
  { destruct r as [|d r]; [done|]. bsimp.
    destruct (user_realloc_grow fuel _ _ _ _ _ n Hrep ltac:(unfold MAX_REQ in *; lia) ltac:(done) ltac:(lia))
      as (s' & E & Hrep' & Hk).
    destruct (spec_alloc_head (align_up n) (merge_blk b d)) as (z & mid & Esp & Hz).
    { simpl. unfold SIZEOF_HDR. lia. }
    pose proof (total_alloc (align_up n) (merge_blk b d)) as Ht. rewrite Esp in *.
    cbn [total bsz merge_blk] in Ht. unfold SIZEOF_HDR in Ht.
    destruct (hrel_in_place UMAGIC user_start user_end (uh s) (uh s') A p c l b [d] z mid r n) as (A' & ? & ?); try done;
      [by repeat constructor|simpl; lia|lia|].
    subst p. exists (user_start + total l + 40), s', A'. do 3 (split; [done|]).
    exact (rest_only_in _ _ _ _ _ _ Hrep' Hk). }
  pose proof (user_realloc_move fuel s l b r n Hrep ltac:(unfold MAX_REQ in *; lia) Hfl Hbf ltac:(lia)) as H.
  rewrite <- Ep in H.
  assert (Hno : forall d r', r = d :: r' -> bfr d = true -> bsz b + 40 + bsz d < align_up n).
  { intros d r' -> Hd. rewrite Hd in Eg. cbn [andb] in Eg. bsimp. lia. }
  specialize (H Hno).
  destruct (spec_malloc user_start (align_up n) (l ++ b :: r)) as [[q bs1]|] eqn:Esp.
  - destruct H as (l1 & r1 & s' & Hbs1 & Hl1 & E & Hrep' & Hcopy & Hkeep).
    destruct (hrel_move UMAGIC user_start user_end (uh s) (uh s') A p c l b r n (bsz b) q bs1 l1 r1) as (A' & ? & ?); try done; try lia.
    exists q, s', A'. do 3 (split; [done|]). eapply moved_only_in; [exact Esp|exact Hrep|exact Hrep'| |exact Hkeep]; lia.
  - exists 0, s, A. split; [exact H|]. split; [by eapply as_realloc_null; [|lia]|]. split; [by eexists|done].
Qed.

(** Every client call returns and is a step of the abstract machine. *)
Lemma user_simulates fuel s A c :
  user_end - user_start < 40 * Z.of_nat fuel -> urel s A -> client_ok A c ->
  exists r s' A', ucall fuel c s = Some (r, s') /\ astep user_start user_end A c r A' /\ urel s' A' /\
    only_in user_start user_end (umem s) (umem s').
Proof.
  intros Hf Hrel Hc. destruct c as [n|p|p n|x v]; cbn [client_ok ucall] in *.
  - by apply user_sim_malloc.
  - destruct Hc as [d Hd]. exists 0. eexists _, _. split; [done|].
    split; [by econstructor|by eapply user_sim_free].
  - destruct Hc as [[d Hd] Hn]. by eapply user_sim_realloc.
  - destruct Hc as (p & d & Hd & Hx). exists 0. eexists _, _. split; [done|].
    split; [by econstructor|]. split; [by eapply hrel_write|].
    destruct (hrel_inside _ _ _ _ _ _ _ Hrel Hd) as (? & ? & _).
    intros y Hy. apply rb_wb_ne. intros ->. apply Hy. lia.
Qed.

Lemma user_init_rep s :
  hhead (uh s) = 0 -> 0 < user_start -> user_start + 40 <= user_end < 9223372036854775808 ->
  urep (user_malloc_init user_start user_end s) [Blk (user_end - user_start - 40) true].
Proof.
  intros Hh Hs He. unfold user_malloc_init. rw_test. cbn [negb]. unfold SIZEOF_HDR, umem.
  rewrite (u64_small (user_end - user_start - 40)) by lia.
  split; cbn [uh hmem hhead total bsz HeapBlock.seg]; try done; [|lia|constructor; simpl; [lia|done]|lia].
  split; [|done]. pose proof umagic_ok. repeat split; cbn [hd_addr bsz bfr Z.b2z]; fsimp; done.
Qed.

Lemma user_init_rel s :
  hhead (uh s) = 0 -> 0 < user_start -> user_start + 40 <= user_end < 9223372036854775808 ->
  urel (user_malloc_init user_start user_end s) ∅.
Proof.
  intros Hh Hs He. eexists. split; [by apply user_init_rep|]. split; [done|apply live_in_empty].
Qed.

(** *** Reachable states *)

(** The heap and the client's [ledger] after any calls of a correct client,
    from [user_malloc_init] on; the client may choose each call from what it
    has seen.  A step is the call and nothing else: what the allocator did is
    in the new heap, and the ledger follows the call and its result. *)
Inductive ureach (fuel : nat) : uheap -> regions -> Prop :=
  | ur_init s : hhead (uh s) = 0 -> ureach fuel (user_malloc_init user_start user_end s) ∅
  | ur_call s A c r s' :
      ureach fuel s A -> client_ok A c -> ucall fuel c s = Some (r, s') ->
      ureach fuel s' (ledger c r (umem s') A).

Lemma urel_agrees s A : urel s A -> agrees (umem s) A.
Proof.
  intros (bs & _ & _ & HA) p d Hp. by destruct (HA p d Hp) as (_ & b & _ & _ & _ & ?).
Qed.

(** A call on a state that holds the ledger does what the abstract machine
    allows, and the ledger after it is the abstract machine's. *)
Lemma ucall_ledger fuel s A c :
  user_end - user_start < 40 * Z.of_nat fuel -> urel s A -> client_ok A c ->
  exists r s', ucall fuel c s = Some (r, s') /\
    astep user_start user_end A c r (ledger c r (umem s') A) /\ urel s' (ledger c r (umem s') A).
Proof.
  intros Hf Hrel Hc. destruct (user_simulates fuel s A c Hf Hrel Hc) as (r & s' & A' & E & Ha & Hrel' & _).
  exists r, s'. split; [done|].
  assert (A' = ledger c r (umem s') A) as <-; [|done].
  eapply astep_ledger; [|exact Ha|by apply urel_agrees]. intros p d q d'. by apply (hrel_disjoint _ _ _ _ _ _ _ _ _ Hrel).
Qed.

Lemma ureach_rel fuel s A :
  0 < user_start -> user_start + 40 <= user_end < 9223372036854775808 ->
  user_end - user_start < 40 * Z.of_nat fuel ->
  ureach fuel s A -> urel s A.
Proof.
  intros Hs He Hf. induction 1 as [s Hh|s A c r s' Hr IH Hc E]; [by apply user_init_rel|].
  destruct (ucall_ledger fuel s A c Hf IH Hc) as (r2 & s2 & E2 & _ & Hrel).
  rewrite E in E2. by injection E2 as <- <-.
Qed.

(** *** The instance of the interface *)

Section Instance.
Context (fuel : nat) (Hfuel : user_end - user_start < 40 * Z.of_nat fuel).

Definition user_room (s : uheap) (n : Z) : Prop :=
  exists bs, urep s bs /\ first_fit (align_up n) bs <> None.

#[export] Instance user_allocator : Allocator uheap := {|
  al_lo := user_start; al_hi := user_end;
  al_call := ucall fuel; al_rel := urel;
  al_safe := fun _ _ => True; al_room := user_room |}.

Lemma user_serves s A n r s' :
  urel s A -> 0 < n <= MAX_REQ -> user_room s n ->
  ucall fuel (CMalloc n) s = Some (r, s') -> r <> 0.
Proof.
  intros _ Hn (bs & Hrep & Hfit) E. cbn [ucall] in E.
  assert (Hne : bs <> []) by (intros ->; by apply Hfit).
  pose proof (user_malloc_rep fuel n s bs Hrep Hne (urep_fuel _ _ _ Hrep Hfuel) Hn) as H.
  unfold spec_malloc in H. destruct (first_fit (align_up n) bs) as [[[l b] r0]|] eqn:Ef; [|done].
  destruct H as (s2 & E2 & _). rewrite E in E2. injection E2 as -> _.
  apply first_fit_app in Ef as (-> & _). destruct (rep_bounds UMAGIC _ _ _ _ _ _ Hrep). lia.
Qed.

#[export] Instance user_allocator_ok : AllocatorOk uheap.
Proof using Hfuel.
  split; cbn [al_rel al_call al_safe al_room al_lo al_hi user_allocator].
  - intros s A c Hrel Hc _.
    destruct (user_simulates fuel s A c Hfuel Hrel Hc) as (r & s' & A' & ? & ? & ? & _). by exists r, s', A'.
  - apply user_serves.
  - done.
  - intros s A p c q d. apply hrel_disjoint.
  - intros s A p c. apply hrel_inside.
Qed.
End Instance.
End Correctness.

(** ** Properties *)

(** A small heap for the witnesses: 4096 bytes at address 4096. *)
Definition u0 : uheap := user_malloc_init 4096 8192 (UHeap (Heap ∅ 0 0) 0).
Lemma u0_rel : urel 4096 8192 u0 ∅.
Proof. by apply user_init_rel. Qed.

(** C21. The user allocator implements the allocator contract: from any state
    that holds the live regions [A], every call a correct client makes
    (malloc, free, realloc, a write to a byte it owns) returns within the
    fuel, its result is one the abstract machine allows, and the new state
    holds the new regions.  So regions handed out are fresh, disjoint and
    inside .user, realloc keeps the data, other regions keep theirs, and no
    byte outside .user is written. *)
Theorem user_alloc_contract user_start user_end fuel s A c :
  user_end - user_start < 40 * Z.of_nat fuel ->
  urel user_start user_end s A -> client_ok A c ->
  exists r s' A', ucall user_start user_end fuel c s = Some (r, s') /\
    astep user_start user_end A c r A' /\ urel user_start user_end s' A' /\
    only_in user_start user_end (umem s) (umem s').
Proof. apply user_simulates. Qed.

Lemma user_alloc_contract_witness :
  exists r s' A', ucall 4096 8192 200 (CMalloc 100) u0 = Some (r, s') /\
    astep 4096 8192 ∅ (CMalloc 100) r A' /\ urel 4096 8192 s' A' /\
    only_in 4096 8192 (umem u0) (umem s').
Proof.
  apply (user_alloc_contract 4096 8192 200 u0 ∅ (CMalloc 100)).
  - simpl. lia.
  - apply u0_rel.
  - unfold client_ok, MAX_REQ. lia.
Defined.

(** C24. Every reachable heap is safe: after any sequence of calls of a
    correct client from [user_malloc_init] on, the regions of the client's
    ledger (what it was given and has not given back) are pairwise disjoint,
    lie inside [_user_start, _user_end) and hold what the client last wrote
    there, and every next call returns with a result the abstract machine
    allows: memory handed out is fresh and meets no region still held. *)
Theorem user_heap_safe user_start user_end fuel s A :
  0 < user_start -> user_start + 40 <= user_end < 9223372036854775808 ->
  user_end - user_start < 40 * Z.of_nat fuel ->
  ureach user_start user_end fuel s A ->
  disjoint_regions A /\
  (forall p c, A !! p = Some c -> user_start <= p /\ p + lenZ c <= user_end /\ p <> 0) /\
  agrees (umem s) A /\
  (forall c, client_ok A c -> exists r s', ucall user_start user_end fuel c s = Some (r, s') /\
     astep user_start user_end A c r (ledger c r (umem s') A)).
Proof.
  intros Hs He Hf Hr. pose proof (ureach_rel _ _ _ _ _ Hs He Hf Hr) as Hrel.
  split; [|split; [|split]].
  - intros p c q d. by apply (hrel_disjoint _ _ _ _ _ _ _ _ _ Hrel).
  - intros p c. by apply (hrel_inside _ _ _ _ _ _ _ Hrel).
  - by apply (urel_agrees _ _ _ _ Hrel).
  - intros c Hc. destruct (ucall_ledger _ _ _ _ _ c Hf Hrel Hc) as (r & s' & E & Ha & _). by exists r, s'.
Qed.

(** A client that has asked for 24 bytes and written one of them. *)
Definition u1 : Z * uheap := default (0, u0) (ucall 4096 8192 200 (CMalloc 24) u0).
Definition u2 : Z * uheap := default (0, u0) (ucall 4096 8192 200 (CWrite 4140 7) u1.2).
Lemma user_heap_safe_witness :
  exists A, A !! 4136 = Some ([0; 0; 0; 0; 7] ++ replicate 19 0) /\ agrees (umem u2.2) A /\
    exists r s', ucall 4096 8192 200 (CMalloc 24) u2.2 = Some (r, s') /\
      astep 4096 8192 A (CMalloc 24) r (ledger (CMalloc 24) r (umem s') A).
Proof.
  set (A1 := ledger (CMalloc 24) 4136 (umem u1.2) ∅).
  assert (H1 : ureach 4096 8192 200 u1.2 A1).
  { apply (ur_call _ _ _ u0 ∅ (CMalloc 24)); [by apply ur_init|vm_compute; intuition congruence|by vm_compute]. }
  set (A2 := ledger (CWrite 4140 7) 0 (umem u2.2) A1).
  assert (H2 : ureach 4096 8192 200 u2.2 A2).
  { apply (ur_call _ _ _ u1.2 A1 (CWrite 4140 7)); [exact H1| |by vm_compute].
    exists 4136, (replicate 24 0). split; [by vm_compute|vm_compute; intuition congruence]. }
  exists A2. split; [by vm_compute|].
  destruct (user_heap_safe 4096 8192 200 u2.2 A2) as (_ & _ & H3 & H4).
  - lia.
  - lia.
  - simpl. lia.
  - exact H2.
  - split; [exact H3|]. apply H4. vm_compute. intuition congruence.
Defined.

(** [user_malloc] is first fit with splitting: on a heap with blocks [bs]
    it returns the payload of the lowest free block that holds the rounded
    size, marks it used, cuts the rest off as a free block when a header and
    8 bytes fit, and writes headers only; when no block fits it returns NULL
    and changes nothing. *)
Theorem user_malloc_first_fit user_start user_end fuel size s bs :
  rep UMAGIC user_start user_end (uh s) bs -> bs <> [] -> (length bs < fuel)%nat ->
  0 < size <= MAX_REQ ->
  match first_fit (align_up size) bs with
  | None =>
      user_malloc user_start user_end fuel size s = Some (0, s) /\
      Forall (fun b => bfr b = false \/ bsz b < align_up size) bs
  | Some (l, b, r) =>
      bs = l ++ b :: r /\ Forall (fun c => bfr c = false \/ bsz c < align_up size) l /\
      bfr b = true /\ size <= align_up size <= bsz b /\
      exists s', user_malloc user_start user_end fuel size s = Some (user_start + total l + 40, s') /\
        rep UMAGIC user_start user_end (uh s') (l ++ spec_alloc (align_up size) b ++ r) /\
        keeps_rest user_start (umem s) (umem s') (l ++ spec_alloc (align_up size) b ++ r)
  end.
Proof.
  intros Hrep Hne Hf Hsz. pose proof (user_malloc_rep _ _ fuel size s bs Hrep Hne Hf Hsz) as H.
  pose proof (align_up_bounds size ltac:(unfold MAX_REQ in *; lia)) as [Hal _].
  unfold spec_malloc in H. destruct (first_fit (align_up size) bs) as [[[l b] r]|] eqn:Ef.
  - destruct (first_fit_app _ _ _ _ _ Ef) as (-> & Hb & Hn). split; [done|].
    split; [|split; [done|split; [lia|exact H]]].
    apply Forall_forall. intros c Hc%list_elem_of_In. by eapply first_fit_least.
  - split; [exact H|]. apply Forall_forall. intros c Hc%list_elem_of_In. by eapply first_fit_none.
Qed.

Lemma user_malloc_first_fit_witness :
  exists s', user_malloc 4096 8192 5 100 u0 = Some (4136, s') /\
    rep UMAGIC 4096 8192 (uh s') [Blk 104 false; Blk 3912 true].
Proof.
  assert (Hrep : rep UMAGIC 4096 8192 (uh u0) [Blk 4056 true]) by by apply user_init_rep.
  pose proof (user_malloc_first_fit 4096 8192 5 100 u0 [Blk 4056 true] Hrep) as H.
  destruct H as (_ & _ & _ & _ & s' & E & Hrep' & _).
  - done.
  - simpl. lia.
  - unfold MAX_REQ. lia.
  - by exists s'.
Defined.

(** [user_free] of a live block marks it free and merges it with a free
    right neighbour and a free left neighbour, writing nothing into payloads
    in use; freeing a block that is already free changes nothing. *)
Theorem user_free_merges user_start user_end s l b r :
  rep UMAGIC user_start user_end (uh s) (l ++ b :: r) ->
  let p := user_start + total l + 40 in
  if bfr b then user_free p s = s
  else
    let bs' := spec_coalesce l (Blk (bsz b) true) r in
    rep UMAGIC user_start user_end (uh (user_free p s)) bs' /\
    keeps_used user_start (umem s) (umem (user_free p s)) bs'.
Proof.
  intros Hrep p. destruct (bfr b) eqn:Hb.
  - by eapply user_free_twice.
  - by apply user_free_rep.
Qed.

Lemma user_free_merges_witness :
  exists s', user_malloc 4096 8192 5 100 u0 = Some (4136, s') /\
    rep UMAGIC 4096 8192 (uh (user_free 4136 s')) [Blk 4056 true].
Proof.
  assert (Hrep : rep UMAGIC 4096 8192 (uh u0) [Blk 4056 true]) by by apply user_init_rep.
  destruct (user_malloc_rep 4096 8192 5 100 u0 _ Hrep) as (s' & E & Hrep' & _).
  - done.
  - simpl. lia.
  - unfold MAX_REQ. lia.
  - exists s'. split; [exact E|].
    apply (user_free_merges 4096 8192 s' [] (Blk 104 false) [Blk 3912 true] Hrep').
Defined.

(** The counters of [get_usermalloc_stats] are exact: the walk ends, and
    reports the block and byte counts of the list; headers and payloads
    together account for the whole region. *)
Theorem usermalloc_stats_exact user_start user_end fuel s bs :
  rep UMAGIC user_start user_end (uh s) bs -> bs <> [] -> (length bs < fuel)%nat ->
  exists st, get_usermalloc_stats fuel s = Some st /\
    num_blocks st = lenZ bs /\ num_used st = count_blk false bs /\ num_free st = count_blk true bs /\
    used_payload st = sum_sz false bs /\ free_payload st = sum_sz true bs /\
    largest_free st = max_free bs /\
    total_managed st = user_end - user_start /\
    used_payload st + free_payload st + 40 * num_blocks st = total_managed st /\
    num_used st + num_free st = num_blocks st.
Proof.
  intros Hrep Hne Hf. exists (stats_add stats0 bs).
  split; [by eapply stats_rep|]. pose proof (rep_end _ _ _ _ _ Hrep).
  pose proof (sum_sz_total bs). pose proof (count_blk_len bs).
  unfold stats_add, stats0. cbn. assert (0 <= max_free bs) by (clear; induction bs; simpl; lia).
  repeat split; lia.
Qed.

Lemma usermalloc_stats_exact_witness :
  exists st, get_usermalloc_stats 5 u0 = Some st /\ total_managed st = 4096 /\ num_free st = 1.
Proof.
  destruct (usermalloc_stats_exact 4096 8192 5 u0 [Blk 4056 true]) as (st & E & _ & _ & Hf & _ & _ & _ & Ht & _).
  - by apply user_init_rep.
  - done.
  - simpl. lia.
  - exists st. split; [exact E|]. split; [exact Ht|exact Hf].
Defined.
