(* ===== verification/KMalloc.v ===== *)
(** * malloc/malloc.c

    The kernel heap.  Unlike the user allocator it tries to grow the heap
    ([heap_expand], [simple_morecore]) when no block fits, and [realloc] may
    absorb several free neighbours.  [heap_start_sym] is the linker symbol
    [_heap_start] that [simple_morecore] compares with. *)

From Stdlib Require Import ZArith Lia.
From S2P Require Import Prelude Memory LibC AllocSpec HeapBlock HeapLive.

Definition KMAGIC : Z := 2976579765. (* 0xB16B00B5 *)

Record kheap := KHeap { kh : heap; managed_heap_end : Z; brk_ptr : Z }.
Definition kmem (s : kheap) : mem := hmem (kh s).
Definition on_kheap (f : heap -> heap) (s : kheap) : kheap :=
  KHeap (f (kh s)) (managed_heap_end s) (brk_ptr s).

Definition ksplit_block (h req_size : Z) (s : heap) : heap :=
  if h =? 0 then s else split_block KMAGIC h req_size s.
Definition kfind_fit (fuel : nat) (s : heap) (size : Z) : option Z :=
  find_fit fuel (hmem s) (hhead s) size.

Definition malloc_init (heap_start heap_size : Z) (s : kheap) : kheap :=
  if (heap_start =? 0) || (heap_size <? SIZEOF_HDR) then s else
  let head := heap_start in
  let m := kmem s in
  let m := fset m head Fmagic KMAGIC in
  let m := fset m head Fsize (u64 (heap_size - SIZEOF_HDR)) in
  let m := fset m head Ffree 1 in
  let m := fset m head Fnext 0 in
  let m := fset m head Fprev 0 in
  KHeap (Heap m head head) (u64 (heap_start + heap_size)) (u64 (heap_start + heap_size)).

Definition free (ptr : Z) (s : kheap) : kheap :=
  if ptr =? 0 then s else
  let h := payload_to_header ptr in
  if negb (fget (kmem s) h Fmagic =? KMAGIC) then s else
  if negb (fget (kmem s) h Ffree =? 0) then s else
  let s := on_kheap (on_mem (fun m => fset m h Ffree 1)) s in
  on_kheap (coalesce h) s.

Section KMalloc.
Context (heap_start_sym : Z).

(** Bump allocation from the top of the area, downwards. *)
Definition simple_morecore (bytes : Z) (s : kheap) : Z * kheap :=
  let req := align_up bytes in
  let new_brk := u64 (brk_ptr s - req) in
  if new_brk <? heap_start_sym then (0, s)
  else (new_brk, KHeap (kh s) (managed_heap_end s) new_brk).

Definition heap_expand (bytes : Z) (s : kheap) : bool * kheap :=
  let need := align_up (u64 (bytes + SIZEOF_HDR)) in
  let '(p, s) := simple_morecore need s in
  if p =? 0 then (false, s) else
  let h := p in
  let '(Heap m head tail) := kh s in
  let m := fset m h Fmagic KMAGIC in
  let m := fset m h Ffree 1 in
  let m := fset m h Fsize (u64 (need - SIZEOF_HDR)) in
  let m := fset m h Fprev tail in
  let m := fset m h Fnext 0 in
  let m := if tail =? 0 then m else fset m tail Fnext h in
  let tail := h in
  let head := if head =? 0 then h else head in
  (true, KHeap (Heap m head tail) (managed_heap_end s) (brk_ptr s)).

(** [while (!fit) { if (!heap_expand(size)) break; fit = find_fit(size); }] *)
Fixpoint expand_loop (k fuel : nat) (size fit : Z) (s : kheap) : option (Z * kheap) :=
  match k with
  | O => None
  | S k =>
      if negb (fit =? 0) then Some (fit, s) else
      let '(ok, s) := heap_expand size s in
      if negb ok then Some (fit, s) else
      match kfind_fit fuel (kh s) size with
      | None => None
      | Some fit => expand_loop k fuel size fit s
      end
  end.

Definition malloc (fuel : nat) (size : Z) (s : kheap) : option (Z * kheap) :=
  if size =? 0 then Some (0, s) else
  let size := align_up size in
  match kfind_fit fuel (kh s) size with
  | None => None
  | Some fit =>
      match expand_loop fuel fuel size fit s with
      | None => None
      | Some (fit, s) =>
          if fit =? 0 then Some (0, s) else
          let s := on_kheap (ksplit_block fit size) s in
          let s := on_kheap (on_mem (fun m => fset m fit Ffree 0)) s in
          Some (header_to_payload fit, s)
      end
  end.

(** The first loop of the in-place attempt: the bytes gathered from [cur] on. *)
Fixpoint gather (fuel : nat) (m : mem) (cur sum new_size : Z) : option Z :=
  match fuel with
  | O => None
  | S k =>
      if negb (cur =? 0) && negb (fget m cur Ffree =? 0) && (sum <? new_size) then
        gather k m (fget m cur Fnext) (u64 (sum + (SIZEOF_HDR + fget m cur Fsize))) new_size
      else Some sum
  end.

(** The second: [h->size] grows by each absorbed block; the block reached. *)
Fixpoint absorb (fuel : nat) (m : mem) (h to new_size : Z) : option (mem * Z) :=
  match fuel with
  | O => None
  | S k =>
      if negb (to =? 0) && negb (fget m to Ffree =? 0) && (fget m h Fsize <? new_size) then
        let m := fset m h Fsize (u64 (fget m h Fsize + SIZEOF_HDR + fget m to Fsize)) in
        absorb k m h (fget m to Fnext) new_size
      else Some (m, to)
  end.

(** [malloc], copy, [free]. *)
Definition realloc_move (fuel : nat) (ptr h new_size : Z) (s : kheap) : option (Z * kheap) :=
  match malloc fuel new_size s with
  | None => None
  | Some (newp, s) =>
      if newp =? 0 then Some (0, s) else
      let z := fget (kmem s) h Fsize in
      let copy := if z <? new_size then z else new_size in
      let s := on_kheap (on_mem (fun m => memcpy m newp ptr copy)) s in
      Some (newp, free ptr s)
  end.

Definition realloc (fuel : nat) (ptr new_size : Z) (s : kheap) : option (Z * kheap) :=
  if ptr =? 0 then malloc fuel new_size s else
  if new_size =? 0 then Some (0, free ptr s) else
  let h := payload_to_header ptr in
  let m := kmem s in
  if negb (fget m h Fmagic =? KMAGIC) then Some (0, s) else
  let new_size := align_up new_size in
  if new_size <=? fget m h Fsize then
    Some (ptr, on_kheap (ksplit_block h new_size) s)
  else
  let nx := fget m h Fnext in
  if negb (nx =? 0) && negb (fget m nx Ffree =? 0) then
    match gather fuel m nx (fget m h Fsize) new_size with
    | None => None
    | Some sum =>
        if new_size <=? sum then
          match absorb fuel m h nx new_size with
          | None => None
          | Some (m, to) =>
              let m := fset m h Fnext to in
              let m := if to =? 0 then m else fset m to Fprev h in
              let s := on_kheap (on_mem (fun _ => m)) s in
              let s := on_kheap (ksplit_block h new_size) s in
              Some (ptr, on_kheap (on_mem (fun m => fset m h Ffree 0)) s)
          end
        else realloc_move fuel ptr h new_size s
    end
  else realloc_move fuel ptr h new_size s.
End KMalloc.

Definition get_kmalloc_stats (fuel : nat) (s : kheap) : option stats :=
  stats_loop fuel (kmem s) (hhead (kh s)) stats0.

(** ** The block list under [malloc], [free] and [realloc] *)

Lemma kmagic_ok : 0 <= KMAGIC < 4294967296.
Proof. unfold KMAGIC. lia. Qed.

(** The free blocks [realloc] takes from the front of [r] to bring [z] bytes
    to [n], and what is left. *)
Fixpoint take_free (n z : Z) (r : list blk) : list blk * list blk :=
  match r with
  | c :: r' =>
      if bfr c && (z <? n)
      then let '(ms, r2) := take_free n (z + 40 + bsz c) r' in (c :: ms, r2)
      else ([], r)
  | [] => ([], [])
  end.

Lemma take_free_app n z r ms r2 :
  take_free n z r = (ms, r2) -> r = ms ++ r2 /\ Forall (fun c => bfr c = true) ms.
Proof.
  revert z ms. induction r as [|c r IH]; intros z ms; cbn [take_free].
  - intros [= <- <-]. by split.
  - destruct (bfr c) eqn:Ec; cbn [andb]; [|intros [= <- <-]; by split].
    destruct (z <? n); [|intros [= <- <-]; by split].
    destruct (take_free n (z + 40 + bsz c) r) as [ms' r'] eqn:E.
    intros [= <- <-]. destruct (IH _ _ E) as [-> Hf]. split; [done|by constructor].
Qed.

(** Both loops walk over [take_free]. *)
Lemma gather_ok fuel m p e z n r :
  seg KMAGIC m p e r 0 -> blks_wf r -> 0 <= z -> z < e -> (length r < fuel)%nat ->
  e + total r < 9223372036854775808 ->
  gather fuel m (hd_addr e 0 r) z n = Some (z + total (take_free n z r).1).
Proof.
  intros Hs Hw. revert fuel p e z Hs.
  induction Hw as [|c r Hc Hw IH]; intros fuel p e z Hs Hz Hze Hf Hlim;
    (destruct fuel as [|fuel]; [simpl in Hf; lia|]); cbn [gather hd_addr take_free].
  - simpl. f_equal. lia.
  - destruct Hs as [(_ & Hcz & Hcf & _ & Hcn) Hs]. rewrite Hcz, Hcf, Hcn. rw_test.
    pose proof (total_nonneg _ Hw). cbn [total] in Hlim. unfold SIZEOF_HDR.
    replace (negb (Z.b2z (bfr c) =? 0)) with (bfr c) by by destruct (bfr c).
    cbn [negb andb]. destruct (bfr c && (z <? n)); [|simpl; f_equal; lia].
    rewrite u64_small by lia. rewrite Z.add_assoc.
    rewrite (IH fuel e) by (done || simpl in Hf; lia).
    destruct (take_free n (z + 40 + bsz c) r) as [ms r2]. cbn [fst total]. f_equal. lia.
Qed.

Lemma absorb_ok fuel m h p e z n r :
  seg KMAGIC m p e r 0 -> blks_wf r -> 0 <= z -> 0 < h -> e = h + 40 + z ->
  fget m h Fsize = z -> (length r < fuel)%nat -> e + total r < 9223372036854775808 ->
  let '(ms, r2) := take_free n z r in
  exists m', absorb fuel m h (hd_addr e 0 r) n = Some (m', hd_addr (e + total ms) 0 r2) /\
    fget m' h Fsize = z + total ms /\
    (forall f, f <> Fsize -> fget m' h f = fget m h f) /\
    (forall x, x < h \/ h + 40 <= x -> rb m' x = rb m x).
Proof.
  intros Hs Hw. revert fuel m p e z Hs.
  induction Hw as [|c r Hc Hw IH]; intros fuel m p e z Hs Hz Hh He Hsz Hf Hlim;
    (destruct fuel as [|fuel]; [simpl in Hf; lia|]); cbn [absorb take_free].
  - exists m. simpl. split; [done|]. split; [lia|done].
  - destruct Hs as [(_ & Hcz & Hcf & _ & Hcn) Hs]. cbn [hd_addr]. rewrite Hcf, Hsz. rw_test.
    pose proof (total_nonneg _ Hw). cbn [total] in Hlim. unfold SIZEOF_HDR.
    replace (negb (Z.b2z (bfr c) =? 0)) with (bfr c) by by destruct (bfr c).
    cbn [negb andb]. destruct (bfr c && (z <? n)).
    2: { exists m. cbn [total hd_addr]. split; [do 2 f_equal; lia|]. split; [lia|done]. }
    rewrite Hcz. rewrite u64_small by lia. fsimp. rewrite Hcn.
    set (m1 := fset m h Fsize (z + 40 + bsz c)).
    assert (Hs1 : seg KMAGIC m1 e (e + 40 + bsz c) r 0).
    { eapply seg_same; [done| |done]. intros x Hx. symmetry. apply rb_fset. lia. }
    specialize (IH fuel m1 e (e + 40 + bsz c) (z + 40 + bsz c) Hs1).
    destruct (take_free n (z + 40 + bsz c) r) as [ms r2].
    destruct IH as (m' & E & H1 & H2 & H3); [lia|lia|lia| |simpl in Hf; lia|lia|].
    { apply fget_fset_eq. simpl. lia. }
    exists m'. cbn [total]. split; [|split; [|split]].
    + rewrite E. do 3 f_equal. lia.
    + lia.
    + intros f Hfn. rewrite H2 by done. by apply fget_fset_ne.
    + intros x Hx. rewrite H3 by done. apply rb_fset. lia.
Qed.

Lemma seg_drop m p e ms r nx :
  seg KMAGIC m p e (ms ++ r) nx -> exists p', seg KMAGIC m p' (e + total ms) r nx.
Proof.
  revert p e. induction ms as [|c ms IH]; intros p e; cbn [app HeapBlock.seg total].
  - exists p. by rewrite Z.add_0_r.
  - intros [_ Hs]. destruct (IH _ _ Hs) as [p' Hp']. exists p'.
    by replace (e + (40 + bsz c + total ms)) with (e + 40 + bsz c + total ms) by lia.
Qed.

(** The state after the loops and the relinking: one block of the gathered
    size in place of [b] and [ms]. *)
Definition absorb_blk (b : blk) (ms : list blk) : blk := Blk (bsz b + total ms) (bfr b).

Lemma absorb_rep base limit s m' l b ms r :
  let h := base + total l in
  let e' := h + 40 + bsz b + total ms in
  let to := hd_addr e' 0 r in
  let m2 := fset m' h Fnext to in
  let m3 := if to =? 0 then m2 else fset m2 to Fprev h in
  let bs' := l ++ absorb_blk b ms :: r in
  rep KMAGIC base limit s (l ++ b :: ms ++ r) ->
  fget m' h Fsize = bsz b + total ms ->
  (forall f, f <> Fsize -> fget m' h f = fget (hmem s) h f) ->
  (forall x, x < h \/ h + 40 <= x -> rb m' x = rb (hmem s) x) ->
  rep KMAGIC base limit (on_mem (fun _ => m3) s) bs' /\ keeps_rest base (hmem s) m3 bs'.
Proof.
  intros h e' to m2 m3 bs' Hrep Hz Hf Hrb.
  destruct (rep_zip _ _ _ _ _ _ _ Hrep) as
    (Hl & (Hmg & Hsz & Hfr & Hpv & Hnx) & Hr & Hwl & Hb & Hwr & Hend).
  destruct (seg_drop _ _ _ _ _ _ Hr) as [p' Hr'].
  assert (Hwms : blks_wf ms) by (apply Forall_app in Hwr; tauto).
  assert (Hwr' : blks_wf r) by (apply Forall_app in Hwr; tauto).
  pose proof (total_nonneg _ Hwl). pose proof (total_nonneg _ Hwms). pose proof (total_nonneg _ Hwr').
  rewrite total_app in Hend.
  destruct Hrep as [Hhd _ He _ Hb0 Hlim]. fold h e' in Hl, Hmg, Hsz, Hfr, Hpv, Hr', Hend |- *.
  assert (Hto : to = 0 /\ r = [] \/ to = e' /\ r <> []) by (subst to; destruct r; [by left|by right]).
  assert (Hh : 0 < h) by lia. assert (He' : e' = h + 40 + (bsz b + total ms)) by (subst e'; lia).
  assert (Hout : forall x, ~ (h <= x < h + 40) -> (r <> [] -> ~ (e' <= x < e' + 40)) ->
    rb m3 x = rb (hmem s) x).
  { intros x Hx1 Hx2. subst m3 m2. rewrite <- Hrb by lia.
    destruct Hto as [[-> ->]|[-> Hr0]]; rw_test; [bsimp_mem; done|]. specialize (Hx2 Hr0). by bsimp_mem. }
  assert (Hw' : blks_wf bs').
  { apply Forall_app; split; [done|]. apply Forall_cons_2; [simpl; lia|done]. }
  split.
  - split; cbn [on_mem hhead hmem]; [done| |subst bs'; rewrite total_app; simpl; lia|done..].
    apply seg_zip. fold h. cbn [absorb_blk bsz bfr].
    replace (h + 40 + (bsz b + total ms)) with e' by lia.
    split; [|split].
    + eapply seg_same; [done| |done]. intros x Hx. symmetry. apply Hout; lia.
    + subst m3 m2. destruct Hto as [[-> ->]|[-> Hr0]]; rw_test; cbn [hd_addr];
        repeat split; fsimp; rewrite ?Hf by congruence; try done.
      by destruct r.
    + eapply seg_relink; [done|exact Hr'| |].
      * intros Hr0. subst m3 m2. destruct Hto as [[_ ?]|[-> _]]; [done|]. rw_test.
        split; [fsimp; done|]. intros f Hfp. fsimp.
        apply fget_ext. intros x Hx. apply Hrb. lia.
      * intros x Hx. symmetry. apply Hout; lia.
  - intros x Hx. subst bs'. rewrite in_hdr_app in Hx. cbn [in_hdr absorb_blk bsz] in Hx.
    fold h in Hx. replace (h + 40 + (bsz b + total ms)) with e' in Hx by lia.
    apply Hout; [tauto|]. intros Hr0. destruct r; [done|]. simpl in Hx. tauto.
Qed.

(** Cutting a block adds header bytes only. *)
Lemma in_hdr_alloc a n b r x : in_hdr a (b :: r) x -> in_hdr a (spec_alloc n b ++ r) x.
Proof.
  unfold spec_alloc, SIZEOF_HDR. bcase; cbn [app in_hdr bsz]; intros [?|Hr]; try tauto.
  right. right. by replace (a + 40 + n + 40 + (bsz b - n - 40)) with (a + 40 + bsz b) by lia.
Qed.

Section Correctness.
Context (heap_start_sym base limit : Z).
Abbreviation krep s bs := (rep KMAGIC base limit (kh s) bs).
Abbreviation kmalloc := (malloc heap_start_sym).
Abbreviation krealloc := (realloc heap_start_sym).

(** What [heap_expand] asks [simple_morecore] for. *)
Definition expand_need (n : Z) : Z := align_up (u64 (n + SIZEOF_HDR)).

(** [simple_morecore] would hand memory out.  The heap is linked over the
    whole managed area from the start, so this memory is always inside it. *)
Definition would_expand (s : kheap) (n : Z) : bool :=
  negb (u64 (brk_ptr s - align_up (expand_need n)) <? heap_start_sym).

Lemma heap_expand_refused s n : would_expand s n = false -> heap_expand heap_start_sym n s = (false, s).
Proof.
  unfold would_expand, heap_expand, expand_need, simple_morecore. intros H.
  destruct (u64 (brk_ptr s - align_up (align_up (u64 (n + SIZEOF_HDR)))) <? heap_start_sym); done.
Qed.

Lemma kfind_fit_ok fuel s bs n :
  krep s bs -> (length bs < fuel)%nat -> bs <> [] ->
  kfind_fit fuel (kh s) n =
  Some (match first_fit n bs with None => 0 | Some (l, _, _) => base + total l end).
Proof.
  intros [Hh Hs He Hw Hb Hl] Hf Hne. unfold kfind_fit. rewrite Hh.
  rewrite <- (find_fit_ok KMAGIC fuel (hmem (kh s)) 0 base bs n) by done.
  by destruct bs.
Qed.

(** [malloc] as long as the list serves the request or [simple_morecore]
    refuses. *)
Lemma kmalloc_rep fuel size s bs :
  krep s bs -> bs <> [] -> (length bs < fuel)%nat -> 0 < size <= 18446744073709551608 ->
  match spec_malloc base (align_up size) bs with
  | None => would_expand s (align_up size) = false -> kmalloc fuel size s = Some (0, s)
  | Some (p, bs') =>
      exists s', kmalloc fuel size s = Some (p, s') /\ krep s' bs' /\
        keeps_rest base (kmem s) (kmem s') bs' /\ brk_ptr s' = brk_ptr s
  end.
Proof.
  intros Hrep Hne Hf Hsz. pose proof (align_up_bounds size ltac:(lia)) as [Hal _].
  unfold malloc. rw_test. rewrite kfind_fit_ok with (bs := bs) by done.
  destruct fuel as [|fuel]; [lia|]. unfold spec_malloc.
  destruct (first_fit (align_up size) bs) as [[[l b] r]|] eqn:Efit; cbn [expand_loop].
  - apply first_fit_app in Efit as (-> & Hb & Hn).
    destruct (payload_header KMAGIC _ _ _ _ _ _ Hrep) as (Hp1 & Hp2 & Hp3).
    destruct (alloc_rep KMAGIC kmagic_ok _ _ _ _ _ _ (align_up size) Hrep) as (H1 & H2 & _); [lia|].
    rw_test. cbn [negb]. rw_test. rewrite Hp1. unfold ksplit_block, on_kheap. rw_test.
    eexists. split; [reflexivity|]. split; [exact H1|]. split; [exact H2|done].
  - intros Hx. rw_test. cbn [negb]. rewrite heap_expand_refused by done. cbn [negb]. by rw_test.
Qed.

Lemma kfree_rep s l b r :
  krep s (l ++ b :: r) -> bfr b = false ->
  let s' := free (base + total l + 40) s in
  let bs' := spec_coalesce l (Blk (bsz b) true) r in
  krep s' bs' /\ keeps_used base (kmem s) (kmem s') bs'.
Proof.
  intros Hrep Hb s' bs'. destruct (payload_header KMAGIC _ _ _ _ _ _ Hrep) as (_ & Hp2 & Hp3).
  destruct (rep_header KMAGIC _ _ _ _ _ _ Hrep) as (Hm & _ & Hf & _).
  destruct (free_rep KMAGIC kmagic_ok _ _ _ _ _ _ Hrep) as (H1 & H2 & _).
  subst s'. unfold free. rw_test. rewrite Hp2. unfold kmem.
  rewrite Hm, Hf, Hb. cbn [Z.b2z]. do 2 rw_test. split; [exact H1|exact H2].
Qed.

Lemma kfree_twice s l b r :
  krep s (l ++ b :: r) -> bfr b = true -> free (base + total l + 40) s = s.
Proof.
  intros Hrep Hb. destruct (payload_header KMAGIC _ _ _ _ _ _ Hrep) as (_ & Hp2 & Hp3).
  destruct (rep_header KMAGIC _ _ _ _ _ _ Hrep) as (Hm & _ & Hf & _).
  unfold free. rw_test. rewrite Hp2. unfold kmem. rewrite Hm, Hf, Hb. cbn [Z.b2z]. by do 2 rw_test.
Qed.

(** The bytes [realloc] can gather behind the block [b]. *)
Definition gathered (n : Z) (b : blk) (r : list blk) : Z :=
  bsz b + total (take_free n (bsz b) r).1.

Lemma krealloc_shrink fuel s l b r size :
  krep s (l ++ b :: r) -> 0 < size <= 18446744073709551608 -> align_up size <= bsz b ->
  let p := base + total l + 40 in
  let bs' := l ++ spec_split (align_up size) b ++ r in
  exists s', krealloc fuel p size s = Some (p, s') /\ krep s' bs' /\
    keeps_rest base (kmem s) (kmem s') bs'.
Proof.
  intros Hrep Hsz Hle p bs'. destruct (payload_header KMAGIC _ _ _ _ _ _ Hrep) as (_ & Hp2 & Hp3).
  destruct (rep_header KMAGIC _ _ _ _ _ _ Hrep) as (Hm & Hz & _ & _).
  pose proof (align_up_bounds size ltac:(lia)) as [Hal _].
  destruct (split_block_rep KMAGIC kmagic_ok _ _ _ _ _ _ (align_up size) Hrep) as (H1 & H2 & _); [lia|].
  subst p. unfold realloc, ksplit_block. do 2 rw_test. rewrite Hp2. unfold kmem, on_kheap.
  rewrite Hm, Hz. rewrite Z.eqb_refl. cbn [negb]. do 2 rw_test.
  eexists. split; [reflexivity|]. split; [exact H1|exact H2].
Qed.

(** Growing in place over the free blocks behind. *)
Lemma krealloc_grow fuel s l b r size ms r2 :
  krep s (l ++ b :: r) -> 0 < size <= 18446744073709551608 -> (length r < fuel)%nat ->
  bsz b < align_up size <= gathered (align_up size) b r ->
  take_free (align_up size) (bsz b) r = (ms, r2) ->
  let p := base + total l + 40 in
  let bs' := l ++ spec_alloc (align_up size) (absorb_blk b ms) ++ r2 in
  exists s', krealloc fuel p size s = Some (p, s') /\ krep s' bs' /\
    keeps_rest base (kmem s) (kmem s') bs'.
Proof.
  intros Hrep Hsz Hf Hle Etf p bs'. set (n := align_up size) in *.
  destruct (take_free_app _ _ _ _ _ Etf) as [Er Hms].
  destruct (payload_header KMAGIC _ _ _ _ _ _ Hrep) as (_ & Hp2 & Hp3).
  destruct (rep_header KMAGIC _ _ _ _ _ _ Hrep) as (Hm & Hz & _ & Hn).
  destruct (rep_bounds KMAGIC _ _ _ _ _ _ Hrep) as (Hh & Hb & Hwr & Htr & Hlim).
  destruct (rep_zip _ _ _ _ _ _ _ Hrep) as (_ & _ & Hr & _).
  pose proof (gather_ok fuel _ _ _ (bsz b) n _ Hr Hwr ltac:(lia) ltac:(lia) Hf Hlim) as Hg.
  pose proof (absorb_ok fuel _ (base + total l) _ _ (bsz b) n _ Hr Hwr ltac:(lia) Hh ltac:(lia) Hz Hf Hlim) as Ha.
  rewrite Etf in Ha. destruct Ha as (m' & Ea & Hz' & Hf' & Hrb').
  assert (Hc : exists c r', r = c :: r' /\ bfr c = true).
  { unfold gathered in Hle. destruct r as [|c r']; [simpl in Hle; lia|]. exists c, r'. split; [done|].
    revert Hle. cbn [take_free]. destruct (bfr c); [done|]. simpl. lia. }
  destruct Hc as (c & r' & Erc & Hcf).
  assert (Hnx : fget (hmem (kh s)) (base + total l + 40 + bsz b) Ffree = 1).
  { rewrite Erc in Hrep. destruct (rep_header_next KMAGIC _ _ _ _ _ _ _ Hrep) as (_ & _ & -> & _).
    by rewrite Hcf. }
  rewrite Er in Hrep. destruct (absorb_rep _ _ _ m' _ _ _ _ Hrep Hz' Hf' Hrb') as [H1 H2].
  destruct (alloc_rep KMAGIC kmagic_ok _ _ _ _ _ _ n H1) as (H3 & H4 & _).
  { cbn [absorb_blk bsz]. unfold gathered in Hle. rewrite Etf in Hle. cbn [fst] in Hle.
    pose proof (align_up_bounds size ltac:(lia)). lia. }
  subst p. unfold realloc, ksplit_block. do 2 rw_test. rewrite Hp2. unfold kmem, on_kheap.
  rewrite Hm, Hz, Hn. rewrite Z.eqb_refl. cbn [negb]. fold n. rw_test.
  replace (hd_addr (base + total l + 40 + bsz b) 0 r) with (base + total l + 40 + bsz b) in *
    by by rewrite Erc.
  rewrite Hnx. rw_test. cbn [negb andb]. repeat rw_test. cbn [negb].
  rewrite Hg. fold (gathered n b r). rw_test. rewrite Ea. cbn [kh].
  eexists. split; [reflexivity|]. split; [exact H3|].
  intros x Hx. transitivity (rb (hmem (on_mem (fun _ => if hd_addr (base + total l + 40 + bsz b + total ms) 0 r2 =? 0
     then fset m' (base + total l) Fnext (hd_addr (base + total l + 40 + bsz b + total ms) 0 r2)
     else fset (fset m' (base + total l) Fnext (hd_addr (base + total l + 40 + bsz b + total ms) 0 r2))
            (hd_addr (base + total l + 40 + bsz b + total ms) 0 r2) Fprev (base + total l)) (kh s))) x);
    [by apply H4|]. apply H2. intros Hx'. apply Hx. subst bs'.
  rewrite in_hdr_app in Hx' |- *. destruct Hx' as [?|Hx']; [by left|right].
  by apply in_hdr_alloc.
Qed.

Lemma krealloc_falls fuel s l b r size :
  let n := align_up size in
  let p := base + total l + 40 in
  krep s (l ++ b :: r) -> 0 < size <= 18446744073709551608 -> (length r < fuel)%nat ->
  bsz b < n -> gathered n b r < n ->
  krealloc fuel p size s = realloc_move heap_start_sym fuel p (base + total l) n s.
Proof.
  intros n p Hrep Hsz Hf Hlt Hno.
  destruct (payload_header KMAGIC _ _ _ _ _ _ Hrep) as (_ & Hp2 & Hp3).
  destruct (rep_header KMAGIC _ _ _ _ _ _ Hrep) as (Hm & Hz & _ & Hn).
  destruct (rep_bounds KMAGIC _ _ _ _ _ _ Hrep) as (Hh & Hb & Hwr & Htr & Hlim).
  destruct (rep_zip _ _ _ _ _ _ _ Hrep) as (_ & _ & Hr & _).
  pose proof (gather_ok fuel _ _ _ (bsz b) n _ Hr Hwr ltac:(lia) ltac:(lia) Hf Hlim) as Hg.
  fold (gathered n b r) in Hg.
  subst p. unfold realloc. do 2 rw_test. rewrite Hp2. unfold kmem.
  rewrite Hm, Hz, Hn. rewrite Z.eqb_refl. cbn [negb]. fold n. rw_test. rewrite Hg.
  destruct (_ && _); [|done]. by rw_test.
Qed.

Lemma krealloc_move fuel s l b r size :
  let bs := l ++ b :: r in
  let n := align_up size in
  let p := base + total l + 40 in
  krep s bs -> 0 < size <= 18446744073709551608 -> (length bs < fuel)%nat ->
  bfr b = false -> bsz b < n -> gathered n b r < n ->
  match spec_malloc base n bs with
  | None => would_expand s n = false -> krealloc fuel p size s = Some (0, s)
  | Some (q, bs1) =>
      exists l1 r1 s', bs1 = l1 ++ b :: r1 /\ total l1 = total l /\
        krealloc fuel p size s = Some (q, s') /\
        let bs' := spec_coalesce l1 (Blk (bsz b) true) r1 in
        krep s' bs' /\
        (forall i, 0 <= i < bsz b -> rb (kmem s') (q + i) = rb (kmem s) (p + i)) /\
        (forall x, kept_at base bs' x -> ~ (q <= x < q + bsz b) ->
           rb (kmem s') x = rb (kmem s) x)
  end.
Proof.
  intros bs n p Hrep Hsz Hf Hb Hlt Hno.
  pose proof (align_up_bounds size ltac:(lia)) as [Hal _].
  destruct (align_up_twice size ltac:(lia)) as [Hal1 Hal2].
  assert (Hne : bs <> []) by (subst bs; by destruct l).
  pose proof (kmalloc_rep fuel n s bs Hrep Hne Hf ltac:(lia)) as Hmal.
  replace (align_up n) with n in Hmal by done.
  unfold p. rewrite krealloc_falls with (b := b) (r := r);
    [|done|done|subst bs; rewrite length_app in Hf; simpl in Hf; lia|done|done]. fold p n. unfold realloc_move.
  destruct (spec_malloc base n bs) as [[q bs1]|] eqn:Esp;
    [|intros Hw; rewrite Hmal by done; by rw_test].
  destruct Hmal as (s1 & -> & Hrep1 & Hk & _).
  destruct (move_rep KMAGIC _ _ (kh s) (kh s1) l b r q bs1 n kmagic_ok Hrep Hb ltac:(lia) Esp Hrep1 Hk)
    as (l1 & r1 & -> & Hl1 & Hq0 & Hz1 & Hm2 & Hf2 & H).
  destruct (payload_header KMAGIC _ _ _ _ _ _ Hrep) as (_ & Hpp & Hp1). rw_test.
  exists l1, r1. eexists. split; [done|]. split; [done|]. split; [reflexivity|].
  unfold p, free, kmem, on_kheap, on_mem in *. cbn [kh hmem hhead htail] in *.
  rewrite Hz1, Hpp. replace (bsz b <? n) with true by (symmetry; apply Z.ltb_lt; lia).
  rewrite Hm2, Hf2. repeat rw_test. cbn [negb orb kh hmem]. exact H.
Qed.

(** ** The contract, while the heap need not grow *)

Definition kcall (fuel : nat) (c : call) (s : kheap) : option (Z * kheap) :=
  match c with
  | CMalloc n => kmalloc fuel n s
  | CFree p => Some (0, free p s)
  | CRealloc p n => krealloc fuel p n s
  | CWrite x v => Some (0, on_kheap (on_mem (fun m => wb m x v)) s)
  end.

Definition krel (s : kheap) (A : regions) : Prop := hrel KMAGIC base limit (kh s) A.

(** A free block fits the request. *)
Definition kroom (s : kheap) (n : Z) : Prop :=
  exists bs, krep s bs /\ first_fit (align_up n) bs <> None.

(** The request does not make [heap_expand] hand out memory. *)
Definition ksafe (s : kheap) (n : Z) : Prop :=
  n = 0 \/ kroom s n \/ would_expand s (align_up n) = false.

Lemma krep_fuel fuel s bs :
  krep s bs -> limit - base < 40 * Z.of_nat fuel -> (length bs < fuel)%nat.
Proof. intros [_ _ He Hw _ _] Hf. pose proof (total_length _ Hw). lia. Qed.

(** When nothing fits, only a refusal is safe. *)
Lemma ksafe_none s bs n :
  krep s bs -> ksafe s n -> 0 < n -> spec_malloc base (align_up n) bs = None ->
  would_expand s (align_up n) = false.
Proof.
  intros Hrep [->|[(bs' & Hrep' & Hfit)|?]] Hn Hsp; [lia| |done].
  rewrite (rep_fun _ _ _ _ _ _ Hrep Hrep') in Hsp. unfold spec_malloc in Hsp.
  by destruct (first_fit (align_up n) bs') as [[[? ?] ?]|].
Qed.

Lemma k_sim_malloc fuel s A n :
  limit - base < 40 * Z.of_nat fuel -> krel s A -> 0 <= n <= MAX_REQ -> ksafe s n ->
  exists r s' A', kmalloc fuel n s = Some (r, s') /\ astep base limit A (CMalloc n) r A' /\
    krel s' A' /\ only_in base limit (kmem s) (kmem s').
Proof.
  intros Hf (bs & Hrep & Hne & HA) Hn Hsafe. pose proof (krep_fuel _ _ _ Hrep Hf) as Hfl.
  destruct (Z.eq_dec n 0) as [->|Hn0].
  { exists 0, s, A. split; [done|]. split; [constructor|split; [by exists bs|done]]. }
  pose proof (kmalloc_rep fuel n s bs Hrep Hne Hfl ltac:(unfold MAX_REQ in *; lia)) as H.
  destruct (spec_malloc base (align_up n) bs) as [[p bs']|] eqn:Esp.
  - destruct H as (s' & E & Hrep' & Hk & _).
    destruct (hrel_malloc _ _ _ _ (kh s') _ _ _ _ n Hrep HA ltac:(lia) Esp Hrep' Hk) as (? & ? & _).
    eexists _, s', _. do 3 (split; [done|]). exact (rest_only_in _ _ _ _ _ _ Hrep' Hk).
  - exists 0, s, A. split; [apply H; eapply ksafe_none; try done; lia|].
    split; [constructor|split; [by exists bs|done]].
Qed.

Lemma k_sim_free s A p c :
  krel s A -> A !! p = Some c ->
  krel (free p s) (delete p A) /\ only_in base limit (kmem s) (kmem (free p s)).
Proof.
  intros (bs & Hrep & Hne & HA) Hp.
  destruct (live_block _ _ _ _ _ _ _ _ Hrep HA Hp) as (l & b & r & -> & -> & Hbf & _).
  destruct (kfree_rep _ _ _ _ Hrep Hbf) as [H1 H2].
  split; [by eapply hrel_free|exact (used_only_in _ _ _ _ _ _ H1 H2)].
Qed.

Lemma k_sim_realloc fuel s A p c n :
  limit - base < 40 * Z.of_nat fuel -> krel s A -> A !! p = Some c -> 0 <= n <= MAX_REQ ->
  ksafe s n ->
  exists q s' A', krealloc fuel p n s = Some (q, s') /\
    astep base limit A (CRealloc p n) q A' /\ krel s' A' /\
    only_in base limit (kmem s) (kmem s').
Proof.
  intros Hf Hrel Hp Hn Hsafe. pose proof Hrel as (bs & Hrep & Hne & HA).
  pose proof (krep_fuel _ _ _ Hrep Hf) as Hfl.
  destruct (live_block _ _ _ _ _ _ _ _ Hrep HA Hp) as (l & b & r & -> & Ep & Hbf & Hcl & Hc & Hc0).
  assert (Hfr : (length r < fuel)%nat) by (rewrite length_app in Hfl; simpl in Hfl; lia).
  destruct (rep_bounds KMAGIC _ _ _ _ _ _ Hrep) as (Hlo & _).
  destruct (Z.eq_dec n 0) as [->|Hn0].
  { exists 0, (free p s), (delete p A). split; [|split].
    - unfold realloc. by do 2 rw_test.
    - by eapply as_realloc_zero.
    - by eapply k_sim_free. }
  pose proof (align_up_bounds n ltac:(unfold MAX_REQ in *; lia)) as [Hal _].
  destruct (Z.le_gt_cases (align_up n) (bsz b)) as [Hle|Hgt].
  { destruct (krealloc_shrink fuel _ _ _ _ n Hrep ltac:(unfold MAX_REQ in *; lia) Hle) as (s' & E & Hrep' & Hk).
    destruct (spec_split_head _ _ Hbf Hle) as (z & mid & Esp & Hz).
    pose proof (total_split (align_up n) b ltac:(lia)) as Ht. rewrite Esp in *. cbn [total bsz] in Ht.
    destruct (hrel_in_place KMAGIC base limit (kh s) (kh s') A p c l b [] z mid r n) as (A' & ? & ?); try done; [simpl; lia|lia|].
    subst p. exists (base + total l + 40), s', A'. do 3 (split; [done|]).
    exact (rest_only_in _ _ _ _ _ _ Hrep' Hk). }
  destruct (take_free (align_up n) (bsz b) r) as [ms r2] eqn:Etf.
  assert (Hga : gathered (align_up n) b r = bsz b + total ms) by (unfold gathered; by rewrite Etf).
  destruct (take_free_app _ _ _ _ _ Etf) as [Er Hms].
  destruct (Z.le_gt_cases (align_up n) (gathered (align_up n) b r)) as [Hle|Hgt2].
  { destruct (krealloc_grow fuel _ _ _ _ n ms r2 Hrep ltac:(unfold MAX_REQ in *; lia) Hfr ltac:(lia) Etf)
      as (s' & E & Hrep' & Hk).
    destruct (spec_alloc_head (align_up n) (absorb_blk b ms)) as (z & mid & Esp & Hz).
    { cbn [absorb_blk bsz]. lia. }
    pose proof (total_alloc (align_up n) (absorb_blk b ms)) as Ht. rewrite Esp in *.
    cbn [total bsz absorb_blk] in Ht. rewrite Er in HA.
    destruct (hrel_in_place KMAGIC base limit (kh s) (kh s') A p c l b ms z mid r2 n) as (A' & ? & ?); try done;
      [lia..|].
    subst p. exists (base + total l + 40), s', A'. do 3 (split; [done|]).
    exact (rest_only_in _ _ _ _ _ _ Hrep' Hk). }
  pose proof (krealloc_move fuel s l b r n Hrep ltac:(unfold MAX_REQ in *; lia) Hfl Hbf ltac:(lia) ltac:(lia)) as H.
  rewrite <- Ep in H.
  destruct (spec_malloc base (align_up n) (l ++ b :: r)) as [[q bs1]|] eqn:Esp.
  - destruct H as (l1 & r1 & s' & Hbs1 & Hl1 & E & Hrep' & Hcopy & Hkeep).
    destruct (hrel_move KMAGIC base limit (kh s) (kh s') A p c l b r n (bsz b) q bs1 l1 r1) as (A' & ? & ?); try done; try lia.
    exists q, s', A'. do 3 (split; [done|]). eapply moved_only_in; [exact Esp|exact Hrep|exact Hrep'| |exact Hkeep]; lia.
  - exists 0, s, A. split; [apply H; eapply ksafe_none; try done; lia|].
    split; [by eapply as_realloc_null; [|lia]|]. split; [by eexists|done].
Qed.

Lemma k_simulates fuel s A c :
  limit - base < 40 * Z.of_nat fuel -> krel s A -> client_ok A c ->
  (forall n, request c = Some n -> ksafe s n) ->
  exists r s' A', kcall fuel c s = Some (r, s') /\ astep base limit A c r A' /\ krel s' A' /\
    only_in base limit (kmem s) (kmem s').
Proof.
  intros Hf Hrel Hc Hsafe. destruct c as [n|p|p n|x v]; cbn [client_ok kcall request] in *.
  - apply k_sim_malloc; auto.
  - destruct Hc as [d Hd]. exists 0. eexists _, _. split; [done|].
    split; [by econstructor|by eapply k_sim_free].
  - destruct Hc as [[d Hd] Hn]. eapply k_sim_realloc; eauto.
  - destruct Hc as (p & d & Hd & Hx). exists 0. eexists _, _. split; [done|].
    split; [by econstructor|]. split; [by eapply hrel_write|].
    destruct (hrel_inside _ _ _ _ _ _ _ Hrel Hd) as (? & ? & _).
    intros y Hy. apply rb_wb_ne. intros ->. apply Hy. lia.
Qed.

Section Instance.
Context (fuel : nat) (Hfuel : limit - base < 40 * Z.of_nat fuel).

#[export] Instance kernel_allocator : Allocator kheap := {|
  al_lo := base; al_hi := limit;
  al_call := kcall fuel; al_rel := krel;
  al_safe := ksafe; al_room := kroom |}.

Lemma k_serves s A n r s' :
  krel s A -> 0 < n <= MAX_REQ -> kroom s n ->
  kcall fuel (CMalloc n) s = Some (r, s') -> r <> 0.
Proof.
  intros _ Hn (bs & Hrep & Hfit) E. cbn [kcall] in E.
  assert (Hne : bs <> []) by (intros ->; by apply Hfit).
  pose proof (kmalloc_rep fuel n s bs Hrep Hne (krep_fuel _ _ _ Hrep Hfuel) Hn) as H.
  unfold spec_malloc in H. destruct (first_fit (align_up n) bs) as [[[l b] r0]|] eqn:Ef; [|done].
  destruct H as (s2 & E2 & _). rewrite E in E2. injection E2 as -> _.
  apply first_fit_app in Ef as (-> & _). destruct (rep_bounds KMAGIC _ _ _ _ _ _ Hrep). lia.
Qed.

#[export] Instance kernel_allocator_ok : AllocatorOk kheap.
Proof using Hfuel.
  split; cbn [al_rel al_call al_safe al_room al_lo al_hi kernel_allocator].
  - intros s A c Hrel Hc Hs.
    destruct (k_simulates fuel s A c Hfuel Hrel Hc Hs) as (r & s' & A' & ? & ? & ? & _). by exists r, s', A'.
  - apply k_serves.
  - intros s n Hr. right. by left.
  - intros s A p c q d. apply hrel_disjoint.
  - intros s A p c. apply hrel_inside.
Qed.
End Instance.
End Correctness.

Lemma malloc_init_rep base size s :
  0 < base -> 40 <= size -> base + size < 9223372036854775808 ->
  rep KMAGIC base (base + size) (kh (malloc_init base size s)) [Blk (size - 40) true].
Proof.
  intros Hb Hs He. unfold malloc_init, SIZEOF_HDR, kmem. do 2 rw_test. cbn [orb kh].
  rewrite (u64_small (size - 40)) by lia.
  split; cbn [hmem hhead total bsz HeapBlock.seg]; try done; [|lia|constructor; simpl; [lia|done]].
  split; [|done]. pose proof kmagic_ok. repeat split; cbn [hd_addr bsz bfr Z.b2z]; fsimp; done.
Qed.

Lemma malloc_init_rel base size s :
  0 < base -> 40 <= size -> base + size < 9223372036854775808 ->
  krel base (base + size) (malloc_init base size s) ∅.
Proof.
  intros Hb Hs He. eexists. split; [by apply malloc_init_rep|]. split; [done|apply live_in_empty].
Qed.

(** ** When nothing fits: [heap_expand] *)

(** The block holding an address of the area. *)
Lemma blk_covering a bs x :
  blks_wf bs -> a <= x < a + total bs ->
  exists h b, blk_at a bs h b /\ h <= x < h + 40 + bsz b.
Proof.
  intros Hw. revert a. induction Hw as [|b r Hb Hw IH]; intros a Hx; cbn [total] in Hx; [lia|].
  destruct (Z.lt_ge_cases x (a + 40 + bsz b)) as [Hlt|Hge].
  - exists a, b. split; [by left|lia].
  - destruct (IH (a + 40 + bsz b)) as (h & c & Hc & ?); [lia|]. exists h, c. split; [by right|done].
Qed.

(** [align_up] wraps to 0 on the last seven sizes. *)
Lemma align_up_wraps n : MAX_REQ < n < 18446744073709551616 -> align_up n = 0.
Proof.
  unfold MAX_REQ. intros Hn. unfold align_up, ALIGN. change (8 - 1) with 7.
  replace (u64 (n + 7)) with (n + 7 - 18446744073709551616).
  2: { unfold u64. change (2 ^ 64) with 18446744073709551616.
       rewrite <- (Z.mod_add (n + 7) (-1)) by lia. rewrite Z.mod_small; lia. }
  set (d := n + 7 - 18446744073709551616). assert (Hd : 0 <= d < 7) by lia. clearbody d.
  assert (d = 0 \/ d = 1 \/ d = 2 \/ d = 3 \/ d = 4 \/ d = 5 \/ d = 6) as E by lia.
  by repeat destruct E as [->|E]; [..|subst d].
Qed.

(** ** Properties *)

(** A small heap for the witnesses: 4096 bytes at address 4096. *)
Definition k0 : kheap := malloc_init 4096 4096 (KHeap (Heap ∅ 0 0) 0 0).
Lemma k0_rep : rep KMAGIC 4096 8192 (kh k0) [Blk 4056 true].
Proof. by apply (malloc_init_rep 4096 4096). Qed.
Lemma k0_rel : krel 4096 8192 k0 ∅.
Proof. by apply (malloc_init_rel 4096 4096). Qed.

(** C5. The kernel allocator implements the allocator contract for every
    request that a free block serves or that [simple_morecore] refuses: the
    call returns within the fuel, its result is one the abstract machine
    allows, and the new state holds the new regions.  [realloc] keeps the
    data whether it shrinks, absorbs several free neighbours, or moves, and
    no call writes outside the managed area. *)
Theorem kernel_alloc_contract heap_start_sym base limit fuel s A c :
  limit - base < 40 * Z.of_nat fuel ->
  krel base limit s A -> client_ok A c ->
  (forall n, request c = Some n -> ksafe heap_start_sym base limit s n) ->
  exists r s' A', kcall heap_start_sym fuel c s = Some (r, s') /\
    astep base limit A c r A' /\ krel base limit s' A' /\
    only_in base limit (kmem s) (kmem s').
Proof. apply k_simulates. Qed.

Lemma kernel_alloc_contract_witness :
  exists r s' A', kcall 4096 200 (CMalloc 100) k0 = Some (r, s') /\
    astep 4096 8192 ∅ (CMalloc 100) r A' /\ krel 4096 8192 s' A' /\
    only_in 4096 8192 (kmem k0) (kmem s').
Proof.
  apply (kernel_alloc_contract 4096 4096 8192 200 k0 ∅ (CMalloc 100)).
  - simpl. lia.
  - apply k0_rel.
  - unfold client_ok, MAX_REQ. lia.
  - intros n [= <-]. right. left. exists [Blk 4056 true]. split; [apply k0_rep|done].
Defined.

(** C26. [malloc] is first fit with splitting when a block fits; when none
    fits and [simple_morecore] refuses, it returns NULL and changes nothing. *)
Theorem kmalloc_first_fit heap_start_sym base limit fuel size s bs :
  rep KMAGIC base limit (kh s) bs -> bs <> [] -> (length bs < fuel)%nat -> 0 < size <= MAX_REQ ->
  match first_fit (align_up size) bs with
  | None =>
      Forall (fun b => bfr b = false \/ bsz b < align_up size) bs /\
      (would_expand heap_start_sym s (align_up size) = false ->
       malloc heap_start_sym fuel size s = Some (0, s))
  | Some (l, b, r) =>
      bs = l ++ b :: r /\ Forall (fun c => bfr c = false \/ bsz c < align_up size) l /\
      bfr b = true /\ size <= align_up size <= bsz b /\
      exists s', malloc heap_start_sym fuel size s = Some (base + total l + 40, s') /\
        rep KMAGIC base limit (kh s') (l ++ spec_alloc (align_up size) b ++ r) /\
        keeps_rest base (kmem s) (kmem s') (l ++ spec_alloc (align_up size) b ++ r) /\
        brk_ptr s' = brk_ptr s
  end.
Proof.
  intros Hrep Hne Hf Hsz.
  pose proof (kmalloc_rep heap_start_sym base limit fuel size s bs Hrep Hne Hf Hsz) as H.
  pose proof (align_up_bounds size ltac:(unfold MAX_REQ in *; lia)) as [Hal _].
  unfold spec_malloc in H. destruct (first_fit (align_up size) bs) as [[[l b] r]|] eqn:Ef.
  - destruct (first_fit_app _ _ _ _ _ Ef) as (-> & Hb & Hn). split; [done|].
    split; [|split; [done|split; [lia|exact H]]].
    apply Forall_forall. intros c Hc%list_elem_of_In. by eapply first_fit_least.
  - split; [|exact H]. apply Forall_forall. intros c Hc%list_elem_of_In. by eapply first_fit_none.
Qed.

Lemma kmalloc_first_fit_witness :
  exists s', malloc 4096 5 100 k0 = Some (4136, s') /\
    rep KMAGIC 4096 8192 (kh s') [Blk 104 false; Blk 3912 true].
Proof.
  pose proof (kmalloc_first_fit 4096 4096 8192 5 100 k0 [Blk 4056 true] k0_rep) as H.
  destruct H as (_ & _ & _ & _ & s' & E & Hrep' & _).
  - done.
  - simpl. lia.
  - unfold MAX_REQ. lia.
  - by exists s'.
Defined.



(** The counters of [get_kmalloc_stats] are exact. *)
Theorem kmalloc_stats_exact base limit fuel s bs :
  rep KMAGIC base limit (kh s) bs -> bs <> [] -> (length bs < fuel)%nat ->
  exists st, get_kmalloc_stats fuel s = Some st /\
    num_blocks st = lenZ bs /\ num_used st = count_blk false bs /\ num_free st = count_blk true bs /\
    used_payload st = sum_sz false bs /\ free_payload st = sum_sz true bs /\
    largest_free st = max_free bs /\ total_managed st = limit - base.
Proof.
  intros Hrep Hne Hf. exists (stats_add stats0 bs).
  split; [by eapply stats_rep|]. pose proof (rep_end _ _ _ _ _ Hrep).
  unfold stats_add, stats0. cbn. assert (0 <= max_free bs) by (clear; induction bs; simpl; lia).
  repeat split; lia.
Qed.

Lemma kmalloc_stats_exact_witness :
  exists st, get_kmalloc_stats 5 k0 = Some st /\ total_managed st = 4096 /\ num_free st = 1.
Proof.
  destruct (kmalloc_stats_exact 4096 8192 5 k0 [Blk 4056 true] k0_rep)
    as (st & E & _ & _ & Hf & _ & _ & _ & Ht).
  - done.
  - simpl. lia.
  - exists st. split; [exact E|]. split; [exact Ht|exact Hf].
Defined.

(** Growing the heap breaks it: the list already covers the whole managed
    area, so when [heap_expand] succeeds the block it creates (of the [need]
    bytes below [brk_ptr], the area's end at first) starts inside a block the
    list holds. *)
Theorem heap_expand_overlaps base limit s bs n :
  let need := align_up (expand_need n) in
  rep KMAGIC base limit (kh s) bs -> brk_ptr s = limit ->
  0 < n <= MAX_REQ - 40 -> need <= limit - base ->
  exists s' h b, heap_expand base n s = (true, s') /\ htail (kh s') = limit - need /\
    blk_at base bs h b /\ h <= htail (kh s') < h + 40 + bsz b.
Proof.
  intros need Hrep Hbrk Hn Hneed. subst need. unfold MAX_REQ, expand_need, SIZEOF_HDR in *.
  rewrite (u64_small (n + 40)) in * by lia.
  destruct (align_up_twice (n + 40) ltac:(lia)) as [Hb Htw]. rewrite Htw in *.
  pose proof (align_up_bounds (n + 40) ltac:(lia)) as [Hal _].
  destruct Hrep as [Hh Hs He Hw Hb0 Hlim].
  destruct (blk_covering base bs (limit - align_up (n + 40)) Hw ltac:(lia)) as (h & b & Hat & Hin).
  destruct (kh s) as [m hd tl] eqn:Ek.
  eexists _, h, b. split; [|split; [|split; [exact Hat|]]].
  - unfold heap_expand, simple_morecore, SIZEOF_HDR. rewrite (u64_small (n + 40)) by lia.
    rewrite Htw, Hbrk, u64_small by lia. do 2 rw_test. rewrite Ek. reflexivity.
  - done.
  - exact Hin.
Qed.

Lemma heap_expand_overlaps_witness :
  exists s' h b, heap_expand 4096 3000 k0 = (true, s') /\ htail (kh s') = 5152 /\
    blk_at 4096 [Blk 4056 true] h b /\ h <= htail (kh s') < h + 40 + bsz b.
Proof.
  apply (heap_expand_overlaps 4096 8192 k0 [Blk 4056 true] 3000).
  - apply k0_rep.
  - done.
  - unfold MAX_REQ. lia.
  - vm_compute. congruence.
Defined.

(** A walk over blocks of which none fits. *)
Lemma find_fit_pass k m p a bs nx n :
  blks_wf bs -> seg KMAGIC m p a bs nx -> 0 < a -> first_fit n bs = None ->
  find_fit (length bs + k) m (hd_addr a nx bs) n = find_fit k m nx n.
Proof.
  intros Hw. revert p a. induction Hw as [|b r Hb Hw IH]; intros p a Hs Ha Hf; [done|].
  destruct Hs as [(_ & Hz & Hfr & _ & Hn) Hs]. cbn [length Nat.add find_fit hd_addr first_fit] in *. rw_test.
  rewrite Hfr, Hz, Hn. replace (negb (Z.b2z (bfr b) =? 0)) with (bfr b) by by destruct (bfr b).
  destruct (bfr b && (n <=? bsz b)); [done|]. destruct (first_fit n r) as [[[? ?] ?]|]; [done|].
  by apply (IH a); [|lia|].
Qed.

(** [heap_expand]'s new header, put into the payload of a live block, linked
    behind the last one. *)
Lemma expanded_seg base limit s l b r h v :
  let bs := l ++ b :: r in
  let tail := last_addr 0 base bs in
  let m1 := fset (fset (fset (fset (fset (kmem s) h Fmagic KMAGIC) h Ffree 1) h Fsize v) h Fprev tail) h Fnext 0 in
  let m2 := fset m1 tail Fnext h in
  rep KMAGIC base limit (kh s) bs -> bfr b = false -> 0 <= v < 9223372036854775808 ->
  base + total l + 40 <= h -> h + 40 <= base + total l + 40 + bsz b ->
  0 < tail /\ seg KMAGIC m2 0 base bs h /\ fget m2 h Ffree = 1 /\ fget m2 h Fsize = v /\
  fget m2 h Fmagic = KMAGIC.
Proof.
  intros bs tail m1 m2 [Hh Hs He Hw Hb0 Hlim] Hbf Hv H1 H2.
  assert (Hr0 : 0 <= h < 9223372036854775808).
  { subst bs. rewrite total_app in He. cbn [total] in He. apply Forall_app in Hw as [Hwl Hwr].
    apply Forall_cons_1 in Hwr as [_ Hwr]. pose proof (total_nonneg _ Hwl). pose proof (total_nonneg _ Hwr). lia. }
  assert (Hpay : forall x, h <= x < h + 40 -> ~ in_hdr base bs x).
  { intros x Hx. apply used_not_hdr; [done|]. apply used_at_app. right. left. split; [done|lia]. }
  assert (Hs1 : seg KMAGIC m1 0 base bs 0).
  { eapply seg_ext; [|exact Hs]. intros x Hx. assert (~ (h <= x < h + 40)) by (intros ?; by eapply Hpay).
    unfold m1. bsimp_mem. done. }
  assert (Hne : bs <> []) by (unfold bs; clear; destruct l; intros [=]).
  destruct (exists_last Hne) as (bs0 & e & Ebs).
  assert (Et : tail = base + total bs0) by (subst tail; rewrite Ebs, last_addr_app; done).
  assert (Hft : tail + 40 <= h \/ h + 40 <= tail).
  { destruct (Z.le_gt_cases (tail + 40) h); [by left|]. destruct (Z.le_gt_cases (h + 40) tail); [by right|].
    destruct (Hpay (Z.max tail h)); [lia|]. rewrite Ebs, in_hdr_app, <- Et. right. left. lia. }
  rewrite Ebs in Hw, Hs1 |- *. apply Forall_app in Hw as [Hw0 _]. pose proof (total_nonneg _ Hw0).
  apply seg_zip in Hs1 as (S1 & (M1 & M2 & M3 & M4 & _) & _). rewrite <- Et in *.
  split; [lia|]. split.
  - apply seg_zip. rewrite <- Et. split; [|split; [|done]].
    + eapply seg_same; [done| |exact S1]. intros x Hx. unfold m2. bsimp_mem. done.
    + unfold m2, hdr_ok. cbn [hd_addr]. fsimp. done.
  - unfold m2, m1, KMAGIC. repeat split; fsimp; done.
Qed.

Lemma heap_expand_into base limit s l b r n :
  let h := limit - n - 40 in
  rep KMAGIC base limit (kh s) (l ++ b :: r) -> tail_ok base (kh s) (l ++ b :: r) -> brk_ptr s = limit ->
  bfr b = false -> (8 | n) -> 0 < n <= MAX_REQ - 48 ->
  base + total l + 40 <= h -> h + 40 <= base + total l + 40 + bsz b ->
  exists s1, heap_expand base n s = (true, s1) /\ hhead (kh s1) = base /\ htail (kh s1) = h /\ base < h /\
    seg KMAGIC (kmem s1) 0 base (l ++ b :: r) h /\ fget (kmem s1) h Ffree = 1 /\
    fget (kmem s1) h Fsize = n /\ fget (kmem s1) h Fmagic = KMAGIC.
Proof.
  intros h Hrep Htl Hbrk Hb [k Hk] Hn H1 H2. unfold MAX_REQ, tail_ok in *.
  pose proof Hrep as [Hh _ _ Hw Hb0 Hlim].
  assert (Hpl : 0 <= total l) by (apply Forall_app in Hw as [? _]; by apply total_nonneg).
  destruct (expanded_seg base limit s l b r h n Hrep Hb) as (Ht0 & Hs & Hf & Hz & Hm); [lia..|].
  assert (Hal : align_up (n + 40) = n + 40).
  { rewrite align_up_eq by lia. rewrite Hk. replace (k * 8 + 40 + 7) with (7 + (k + 5) * 8) by lia.
    rewrite Z.div_add by lia. change (7 / 8) with 0. lia. }
  destruct s as [[m hd tl] me brk]. cbn [kh hhead htail hmem brk_ptr kmem] in *. subst hd tl brk.
  eexists. split.
  - unfold heap_expand, simple_morecore, SIZEOF_HDR, kh, brk_ptr.
    rewrite (u64_small (n + 40)), Hal, Hal, (u64_small (limit - (n + 40))), (u64_small (n + 40 - 40)) by lia.
    replace (limit - (n + 40)) with h by (subst h; lia). replace (n + 40 - 40) with n by lia.
    do 4 rw_test. reflexivity.
  - split; [done|]. split; [done|]. split; [lia|]. split; [exact Hs|done].
Qed.

(** C38. [malloc] hands out memory that is in use once the heap is exhausted:
    when no free block serves a request of [n] rounded bytes and the last
    [n + 40] bytes of the managed area begin inside the data of a live block
    [b], [heap_expand] writes a new header over that data, links it as the
    last block, and [malloc] returns a pointer into the live block. *)
Theorem kmalloc_overlap base limit fuel size s l b r :
  let n := align_up size in
  let p := base + total l + 40 in
  let q := limit - n in
  rep KMAGIC base limit (kh s) (l ++ b :: r) -> tail_ok base (kh s) (l ++ b :: r) ->
  brk_ptr s = limit -> (S (length (l ++ b :: r)) < fuel)%nat -> 0 < size <= MAX_REQ - 56 ->
  first_fit n (l ++ b :: r) = None -> bfr b = false -> p <= q - 40 -> q < p + bsz b ->
  exists s', malloc base fuel size s = Some (q, s') /\ fget (kmem s') (q - 40) Fmagic = KMAGIC /\
    htail (kh s') = q - 40 /\ p < q < p + bsz b.
Proof.
  intros n p q Hrep Htl Hbrk Hf Hsz Hfit Hb Hp Hq. unfold MAX_REQ in *.
  pose proof (align_up_bounds size ltac:(lia)) as [Hal Hdiv]. fold n in Hal, Hdiv.
  destruct (heap_expand_into base limit s l b r n Hrep Htl Hbrk Hb Hdiv) as (s1 & Ex & Hh & Ht & Hlt & Hs & Hfr & Hz & Hm);
    [unfold MAX_REQ; lia|lia|lia|]. replace (limit - n - 40) with (q - 40) in * by (subst q; lia).
  pose proof Hrep as [_ _ _ Hw Hb0 Hlim]. set (bs := l ++ b :: r) in *.
  assert (Hne : bs <> []) by (unfold bs; clear; destruct l; intros [=]).
  assert (Hwalk : kfind_fit fuel (kh s1) n = Some (q - 40)).
  { unfold kfind_fit. rewrite Hh. replace fuel with (length bs + (fuel - length bs))%nat by lia.
    replace base with (hd_addr base (q - 40) bs) at 1 by by destruct bs.
    rewrite (find_fit_pass _ _ 0 base bs (q - 40) n Hw Hs Hb0 Hfit).
    destruct (fuel - length bs)%nat as [|k] eqn:Ek; [lia|]. cbn [find_fit].
    unfold kmem in *. rewrite Hfr, Hz. by repeat rw_test. }
  unfold malloc. rw_test. fold n. rewrite (kfind_fit_ok base limit) with (bs := bs) by (done || lia). rewrite Hfit.
  destruct fuel as [|[|k]]; [lia|lia|]. set (fuel := S (S k)) in *.
  change (expand_loop base fuel) with (expand_loop base (S (S k))). cbn [expand_loop]. rw_test. cbn [negb].
  rewrite Ex. cbn [negb]. rewrite Hwalk. rw_test. cbn [negb]. rw_test.
  assert (Hsp : ksplit_block (q - 40) n (kh s1) = kh s1).
  { unfold ksplit_block. rw_test. unfold split_block, kmem, MIN_SPLIT_SIZE, SIZEOF_HDR, ALIGN in *.
    destruct (kh s1) as [m hd tl]. cbn [hmem] in Hz. rewrite Hz, u64_small by lia. by rw_test. }
  unfold on_kheap, header_to_payload, SIZEOF_HDR. cbn [kh]. rewrite Hsp.
  rewrite u64_small by lia. replace (q - 40 + 40) with q by lia.
  eexists. split; [reflexivity|]. unfold kmem in *. cbn [kh on_mem hmem htail].
  rewrite fget_fset_ne by done. split; [exact Hm|]. split; [exact Ht|lia].
Qed.

(** In a 4 KiB heap a second request of 2000 bytes lands inside the live
    region of 3000 bytes the first one returned. *)
Definition k3000 : kheap := (default (0, k0) (malloc 4096 9 3000 k0)).2.
Lemma kmalloc_overlap_witness :
  exists s', malloc 4096 9 2000 k3000 = Some (6192, s') /\ fget (kmem s') 6152 Fmagic = KMAGIC /\
    htail (kh s') = 6152 /\ 4136 < 6192 < 4136 + 3000.
Proof.
  destruct (kmalloc_rep 4096 4096 8192 9 3000 k0 _ k0_rep) as (s1 & E & Hrep & _);
    [done|simpl; lia|lia|].
  assert (k3000 = s1) as Es by (unfold k3000; by rewrite E).
  apply (kmalloc_overlap 4096 8192 9 2000 k3000 [] (Blk 3000 false) [Blk 1016 true]).
  - rewrite Es. exact Hrep.
  - by vm_compute.
  - by vm_compute.
  - simpl. lia.
  - unfold MAX_REQ. lia.
  - by vm_compute.
  - done.
  - vm_compute. congruence.
  - by vm_compute.
Defined.

(** A request within 7 bytes of [SIZE_MAX] does not fail: the rounding
    wraps to 0 and, if any block is free, [malloc] returns a block of it that
    holds no byte. *)
Theorem kmalloc_wraps heap_start_sym base limit fuel size s bs b :
  rep KMAGIC base limit (kh s) bs -> (length bs < fuel)%nat -> b ∈ bs -> bfr b = true ->
  MAX_REQ < size < 18446744073709551616 ->
  exists p s', malloc heap_start_sym fuel size s = Some (p, s') /\ p <> 0 /\
    (exists z, z < 48 /\ z < size /\ fget (kmem s') (p - 40) Fsize = z).
Proof.
  intros Hrep Hf Hin Hb Hsz. pose proof (align_up_wraps size Hsz) as Hal.
  pose proof (rep_wf _ _ _ _ _ Hrep) as Hw.
  assert (Hfit : exists l c r, first_fit 0 bs = Some (l, c, r)).
  { destruct (first_fit 0 bs) as [[[l c] r]|] eqn:E; [by eauto|].
    destruct (first_fit_none _ _ _ E Hin) as [?|Hlt]; [congruence|].
    apply list_elem_of_In in Hin. pose proof Hw as Hw0. unfold blks_wf in Hw0.
    rewrite Forall_forall in Hw0. specialize (Hw0 b Hin). lia. }
  destruct Hfit as (l & c & r & Efit).
  destruct (first_fit_app _ _ _ _ _ Efit) as (Ebs & Hc & Hc0).
  assert (Hne : bs <> []) by (subst bs; by destruct l).
  unfold malloc, MAX_REQ in *. rw_test. rewrite Hal.
  rewrite (kfind_fit_ok base limit fuel s bs) by done. rewrite Efit.
  destruct fuel as [|fuel]; [lia|]. cbn [expand_loop]. subst bs.
  destruct (payload_header KMAGIC _ _ _ _ _ _ Hrep) as (Hp1 & Hp2 & Hp3).
  destruct (alloc_rep KMAGIC kmagic_ok _ _ _ _ _ _ 0 Hrep) as (H1 & _ & _); [lia|].
  rw_test. cbn [negb]. rw_test. rewrite Hp1. unfold ksplit_block, on_kheap. rw_test.
  eexists _, _. split; [reflexivity|]. split; [lia|].
  replace (base + total l + 40 - 40) with (base + total l) by lia.
  unfold spec_alloc in H1. revert H1. unfold kmem. cbn [kh]. bcase; cbn [app]; intros H1;
    destruct (rep_header KMAGIC _ _ _ _ _ _ H1) as (_ & Hz & _); eexists; (split; [|split; [|exact Hz]]);
    cbn [bsz]; unfold MIN_SPLIT_SIZE, SIZEOF_HDR, ALIGN in *; lia.
Qed.

Lemma kmalloc_wraps_witness :
  exists p s', malloc 4096 5 18446744073709551615 k0 = Some (p, s') /\ p <> 0 /\
    (exists z, z < 48 /\ z < 18446744073709551615 /\ fget (kmem s') (p - 40) Fsize = z).
Proof.
  apply (kmalloc_wraps 4096 4096 8192 5 18446744073709551615 k0 [Blk 4056 true] (Blk 4056 true)).
  - apply k0_rep.
  - simpl. lia.
  - by left.
  - done.
  - unfold MAX_REQ. lia.
Defined.
