(* ===== verification/Heaps.v ===== *)
(** * The two heaps in one memory

    The kernel runs malloc.c on [_heap_start, _heap_end) and user_malloc.c on
    [_user_start, _user_end), both in the same memory.  [Heaps] is the
    interface the scheduler and the program loader use: two allocators and the
    memory behind them; a call to one leaves the other's regions alone.
    [heap_pair] is the kernel's pair, and [heap_pair_ok] proves that it
    implements the interface from the two allocator contracts and from the
    fact that neither writes outside its area. *)

From Stdlib Require Import ZArith Lia.
From S2P Require Import Prelude Memory AllocSpec HeapBlock HeapLive UserMalloc KMalloc.

Class Heaps (H : Type) := {
  k_lo : Z; k_hi : Z; u_lo : Z; u_hi : Z;
  k_call : call -> H -> option (Z * H);
  u_call : call -> H -> option (Z * H);
  hp_mem : H -> mem;
  with_mem : mem -> H -> H;
  (** [hp_rel h A B] : live kernel regions [A], live user regions [B] *)
  hp_rel : H -> regions -> regions -> Prop;
  (** the request does not make the kernel heap grow over itself *)
  k_safe : H -> Z -> Prop;
  (** free blocks serve the kernel requests, one after the other *)
  k_fits : H -> list Z -> Prop;
  (** the kernel requests, one after the other, are served from free blocks or
      refused; the heap does not grow for any of them *)
  k_tame : H -> list Z -> Prop;
  (** a free block serves the user request *)
  u_fits : H -> Z -> Prop;
  (** [get_kmalloc_stats] *)
  k_stats : H -> option stats
}.

Class HeapsOk (H : Type) `{!Heaps H} := {
  areas_apart : k_hi <= u_lo \/ u_hi <= k_lo;
  k_sim h A B c :
    hp_rel h A B -> client_ok A c -> (forall n, request c = Some n -> k_safe h n) ->
    exists r h' A', k_call c h = Some (r, h') /\ astep k_lo k_hi A c r A' /\ hp_rel h' A' B /\
      only_in k_lo k_hi (hp_mem h) (hp_mem h');
  u_sim h A B c :
    hp_rel h A B -> client_ok B c ->
    exists r h' B', u_call c h = Some (r, h') /\ astep u_lo u_hi B c r B' /\ hp_rel h' A B' /\
      only_in u_lo u_hi (hp_mem h) (hp_mem h');
  k_inside h A B p c :
    hp_rel h A B -> A !! p = Some c -> k_lo <= p /\ p + lenZ c <= k_hi /\ p <> 0;
  u_inside h A B p c :
    hp_rel h A B -> B !! p = Some c -> u_lo <= p /\ p + lenZ c <= u_hi /\ p <> 0;
  k_disjoint h A B : hp_rel h A B -> disjoint_regions A;
  u_disjoint h A B : hp_rel h A B -> disjoint_regions B;
  hp_agrees h A B : hp_rel h A B -> agrees (hp_mem h) A /\ agrees (hp_mem h) B;
  hp_mem_with m h : hp_mem (with_mem m h) = m;
  (** writes into a live user region *)
  u_fill h A B p c m :
    hp_rel h A B -> B !! p = Some c -> only_in p (p + lenZ c) (hp_mem h) m ->
    hp_rel (with_mem m h) A (<[p := rbs m p (length c)]> B);
  (** room is used up by the requests it serves, and by nothing the user heap
      or a write outside the kernel area does *)
  k_fits_serves h A B n ns :
    hp_rel h A B -> k_fits h (n :: ns) -> 0 < n <= MAX_REQ ->
    k_safe h n /\ forall r h', k_call (CMalloc n) h = Some (r, h') -> r <> 0 /\ k_fits h' ns;
  k_fits_app h ns ms : k_fits h (ns ++ ms) -> k_fits h ns;
  k_fits_user h A B c r h' ns :
    hp_rel h A B -> client_ok B c -> u_call c h = Some (r, h') -> k_fits h ns -> k_fits h' ns;
  k_fits_write h A B x v r h' ns :
    hp_rel h A B -> client_ok A (CWrite x v) -> k_call (CWrite x v) h = Some (r, h') ->
    k_fits h ns -> k_fits h' ns;
  k_fits_mem h m ns : same_on k_lo k_hi (hp_mem h) m -> k_fits h ns -> k_fits (with_mem m h) ns;
  k_fits_tame h ns : k_fits h ns -> k_tame h ns;
  k_tame_calls h A B n ns :
    hp_rel h A B -> k_tame h (n :: ns) -> 0 < n <= MAX_REQ ->
    k_safe h n /\ forall r h', k_call (CMalloc n) h = Some (r, h') -> k_tame h' ns;
  k_tame_user h A B c r h' ns :
    hp_rel h A B -> client_ok B c -> u_call c h = Some (r, h') -> k_tame h ns -> k_tame h' ns;
  k_tame_mem h m ns : same_on k_lo k_hi (hp_mem h) m -> k_tame h ns -> k_tame (with_mem m h) ns;
  u_fits_serves h A B n r h' :
    hp_rel h A B -> u_fits h n -> 0 < n <= MAX_REQ -> u_call (CMalloc n) h = Some (r, h') -> r <> 0;
  u_fits_mem h m n : same_on u_lo u_hi (hp_mem h) m -> u_fits h n -> u_fits (with_mem m h) n;
  u_fits_kernel h A B c r h' n :
    hp_rel h A B -> client_ok A c -> (forall n, request c = Some n -> k_safe h n) ->
    k_call c h = Some (r, h') -> u_fits h n -> u_fits h' n;
  (** writes into a live kernel region *)
  k_fill h A B p c m :
    hp_rel h A B -> A !! p = Some c -> only_in p (p + lenZ c) (hp_mem h) m ->
    hp_rel (with_mem m h) (<[p := rbs m p (length c)]> A) B;
  k_stats_total h A B : hp_rel h A B -> is_Some (k_stats h)
}.

(** The heaps depend on the bytes of their areas only. *)
Class HeapsFrame (H : Type) `{!Heaps H} := {
  hp_frame h A B m :
    hp_rel h A B -> same_on k_lo k_hi (hp_mem h) m -> same_on u_lo u_hi (hp_mem h) m ->
    hp_rel (with_mem m h) A B
}.

(** *** Memory outside the areas

    [framed_heaps m0] is the same pair of heaps, related to the regions only while
    the memory outside the two areas is that of [m0].  Whatever is proved for
    every implementation of the interface holds for it too, and then says that
    nothing outside the areas was written. *)
Definition off_areas {H} `{!Heaps H} (m m' : mem) : Prop :=
  forall x, ~ (k_lo <= x < k_hi) -> ~ (u_lo <= x < u_hi) -> rb m' x = rb m x.

Section Framed.
Context {H : Type} `{!Heaps H, !HeapsOk H} (m0 : mem).

#[local] Instance framed_heaps : Heaps H := {|
  k_lo := k_lo; k_hi := k_hi; u_lo := u_lo; u_hi := u_hi; k_call := k_call; u_call := u_call;
  hp_mem := hp_mem; with_mem := with_mem;
  hp_rel h A B := hp_rel h A B /\ off_areas m0 (hp_mem h);
  k_safe := k_safe; k_fits := k_fits; k_tame := k_tame; u_fits := u_fits; k_stats := k_stats |}.

#[local] Instance framed_heaps_ok : HeapsOk H.
Proof using HeapsOk0.
  split; cbn.
  - apply areas_apart.
  - intros h A B c [Hr Hm] Hc Hs. destruct (k_sim h A B c Hr Hc Hs) as (r & h' & A' & E & H1 & H2 & H3).
    exists r, h', A'. do 2 (split; [done|]). split; [|done]. split; [done|].
    intros x Hk Hu. rewrite H3 by done. by apply Hm.
  - intros h A B c [Hr Hm] Hc. destruct (u_sim h A B c Hr Hc) as (r & h' & A' & E & H1 & H2 & H3).
    exists r, h', A'. do 2 (split; [done|]). split; [|done]. split; [done|].
    intros x Hk Hu. rewrite H3 by done. by apply Hm.
  - intros h A B p c [Hr _]. by apply (k_inside h A B).
  - intros h A B p c [Hr _]. by apply (u_inside h A B).
  - intros h A B [Hr _]. by apply (k_disjoint h A B).
  - intros h A B [Hr _]. by apply (u_disjoint h A B).
  - intros h A B [Hr _]. by apply (hp_agrees h A B).
  - apply hp_mem_with.
  - intros h A B p c m [Hr Hm] Hp Ho. split; [by apply (u_fill h A B p c)|].
    destruct (u_inside h A B p c Hr Hp) as (? & ? & _).
    intros x Hk Hu. rewrite hp_mem_with, Ho by lia. by apply Hm.
  - intros h A B n ns [Hr _]. by apply (k_fits_serves h A B).
  - apply k_fits_app.
  - intros h A B c r h' ns [Hr _]. by apply (k_fits_user h A B).
  - intros h A B x v r h' ns [Hr _]. by apply (k_fits_write h A B).
  - apply k_fits_mem.
  - apply k_fits_tame.
  - intros h A B n ns [Hr _]. by apply (k_tame_calls h A B).
  - intros h A B c r h' ns [Hr _]. by apply (k_tame_user h A B).
  - apply k_tame_mem.
  - intros h A B n r h' [Hr _]. by apply (u_fits_serves h A B).
  - apply u_fits_mem.
  - intros h A B c r h' n [Hr _]. by apply (u_fits_kernel h A B).
  - intros h A B p c m [Hr Hm] Hp Ho. split; [by apply (k_fill h A B p c)|].
    destruct (k_inside h A B p c Hr Hp) as (? & ? & _).
    intros x Hk Hu. rewrite hp_mem_with, Ho by lia. by apply Hm.
  - intros h A B [Hr _]. by apply (k_stats_total h A B).
Qed.
End Framed.

(** ** The kernel's pair *)

Record heap_pair := HeapPair {
  pmem : mem; khead : Z; ktail : Z; kend : Z; kbrk : Z; uhead : Z; utail : Z; ubrk : Z }.

Definition kview (h : heap_pair) : kheap := KHeap (Heap (pmem h) (khead h) (ktail h)) (kend h) (kbrk h).
Definition uview (h : heap_pair) : uheap := UHeap (Heap (pmem h) (uhead h) (utail h)) (ubrk h).
Definition kput (k : kheap) (h : heap_pair) : heap_pair :=
  HeapPair (kmem k) (hhead (kh k)) (htail (kh k)) (managed_heap_end k) (brk_ptr k)
    (uhead h) (utail h) (ubrk h).
Definition uput (u : uheap) (h : heap_pair) : heap_pair :=
  HeapPair (umem u) (khead h) (ktail h) (kend h) (kbrk h) (hhead (uh u)) (htail (uh u)) (user_brk u).
Definition put_mem (m : mem) (h : heap_pair) : heap_pair :=
  HeapPair m (khead h) (ktail h) (kend h) (kbrk h) (uhead h) (utail h) (ubrk h).

Lemma kview_put k h : kview (kput k h) = k.
Proof. by destruct k as [[] ? ?]. Qed.
Lemma uview_put u h : uview (uput u h) = u.
Proof. by destruct u as [[] ?]. Qed.

(** *** What initialisation writes *)

Lemma fset_only_in m h f v : only_in h (h + 40) m (fset m h f v).
Proof. intros x Hx. apply rb_st_out. destruct f; cbn [foff fwid]; lia. Qed.

Lemma user_init_only_in user_start user_end s :
  only_in user_start (user_start + 40) (umem s) (umem (user_malloc_init user_start user_end s)).
Proof.
  unfold user_malloc_init. destruct (negb _); [reflexivity|]. unfold umem at 2. cbn [uh hmem].
  repeat (etransitivity; [|apply fset_only_in]). reflexivity.
Qed.

Lemma malloc_init_only_in heap_start heap_size s :
  only_in heap_start (heap_start + 40) (kmem s) (kmem (malloc_init heap_start heap_size s)).
Proof.
  unfold malloc_init. destruct (_ || _); [reflexivity|]. unfold kmem at 2. cbn [kh hmem].
  repeat (etransitivity; [|apply fset_only_in]). reflexivity.
Qed.

Section Pair.
Context (heap_start user_start user_end heap_end : Z) (fuel : nat).
Context (Hk : heap_end - heap_start < 40 * Z.of_nat fuel).
Context (Hu : user_end - user_start < 40 * Z.of_nat fuel).
Context (Hdis : heap_end <= user_start).

Definition pair_rel (h : heap_pair) (A B : regions) : Prop :=
  krel heap_start heap_end (kview h) A /\ urel user_start user_end (uview h) B.

(** First fit serves the requests [ns] from the blocks [bs]. *)
Fixpoint serves_all (ns : list Z) (bs : list blk) : Prop :=
  match ns with
  | [] => True
  | n :: ns =>
      match spec_malloc heap_start (align_up n) bs with
      | Some (_, bs) => serves_all ns bs
      | None => False
      end
  end.
Lemma serves_all_app ns ms bs : serves_all (ns ++ ms) bs -> serves_all ns bs.
Proof using.
  clear Hk Hu. revert bs. induction ns as [|n ns IH]; intros bs; cbn [serves_all app]; [done|].
  destruct (spec_malloc _ _ _) as [[? bs']|]; [apply IH|done].
Qed.
Definition pair_fits (h : heap_pair) (ns : list Z) : Prop :=
  exists bs, rep KMAGIC heap_start heap_end (kh (kview h)) bs /\ bs <> [] /\ serves_all ns bs.

(** The same requests, with those nothing fits refused by [simple_morecore]
    because of [brk_ptr] ([h] stands for it). *)
Fixpoint tame_all (h : heap_pair) (ns : list Z) (bs : list blk) : Prop :=
  match ns with
  | [] => True
  | n :: ns =>
      match spec_malloc heap_start (align_up n) bs with
      | Some (_, bs) => tame_all h ns bs
      | None => would_expand heap_start (kview h) (align_up n) = false /\ tame_all h ns bs
      end
  end.
Lemma serves_tame h ns bs : serves_all ns bs -> tame_all h ns bs.
Proof using.
  clear Hk Hu. revert bs. induction ns as [|n ns IH]; intros bs; cbn [serves_all tame_all]; [done|].
  destruct (spec_malloc _ _ _) as [[? bs']|]; [apply IH|done].
Qed.
Lemma tame_all_brk h h' ns bs : kbrk h' = kbrk h -> tame_all h ns bs -> tame_all h' ns bs.
Proof using.
  clear Hk Hu. intros Hb. revert bs. induction ns as [|n ns IH]; intros bs; cbn [tame_all]; [done|].
  destruct (spec_malloc _ _ _) as [[? bs']|]; [apply IH|]. unfold would_expand. cbn [kview brk_ptr].
  rewrite Hb. intros [H1 H2]. auto.
Qed.
Definition pair_tame (h : heap_pair) (ns : list Z) : Prop :=
  exists bs, rep KMAGIC heap_start heap_end (kh (kview h)) bs /\ bs <> [] /\ tame_all h ns bs.

#[export] Instance pair_heaps : Heaps heap_pair := {|
  k_lo := heap_start; k_hi := heap_end; u_lo := user_start; u_hi := user_end;
  k_call c h := match kcall heap_start fuel c (kview h) with
                | Some (r, k) => Some (r, kput k h) | None => None end;
  u_call c h := match ucall user_start user_end fuel c (uview h) with
                | Some (r, u) => Some (r, uput u h) | None => None end;
  hp_mem := pmem; with_mem := put_mem; hp_rel := pair_rel;
  k_safe h := ksafe heap_start heap_start heap_end (kview h);
  k_fits := pair_fits; k_tame := pair_tame; u_fits h := user_room user_start user_end (uview h);
  k_stats h := get_kmalloc_stats fuel (kview h) |}.

Lemma pair_fits_same h h' ns :
  khead h' = khead h -> same_on heap_start heap_end (pmem h) (pmem h') -> pair_fits h ns -> pair_fits h' ns.
Proof using.
  intros Hh Hs (bs & Hrep & Hne & Hf). exists bs. split; [|done].
  eapply rep_same; [| |exact Hrep]; done.
Qed.

Lemma pair_fits_serves h A B n ns :
  pair_rel h A B -> pair_fits h (n :: ns) -> 0 < n <= MAX_REQ ->
  k_safe h n /\ forall r h', k_call (CMalloc n) h = Some (r, h') -> r <> 0 /\ pair_fits h' ns.
Proof using Hk.
  intros _ (bs & Hrep & Hne & Hf) Hn. cbn [serves_all] in Hf.
  pose proof (kmalloc_rep heap_start heap_start heap_end fuel n (kview h) bs Hrep Hne
    (krep_fuel _ _ _ _ _ Hrep Hk) Hn) as H.
  destruct (spec_malloc heap_start (align_up n) bs) as [[p bs']|] eqn:Esp; [|done].
  split.
  - right. left. exists bs. split; [done|]. unfold spec_malloc in Esp. by destruct (first_fit (align_up n) bs).
  - intros r h' E. destruct H as (k & Ek & Hrep' & _). cbn in E. rewrite Ek in E. injection E as <- <-.
    split.
    + destruct (spec_malloc_range _ _ _ _ _ Esp (rep_wf _ _ _ _ _ Hrep)) as [Hp _].
      pose proof (rep_base _ _ _ _ _ Hrep). lia.
    + exists bs'. split; [by rewrite kview_put|]. split; [|done]. by eapply spec_malloc_ne.
Qed.

Lemma pair_tame_same h h' ns :
  khead h' = khead h -> kbrk h' = kbrk h -> same_on heap_start heap_end (pmem h) (pmem h') ->
  pair_tame h ns -> pair_tame h' ns.
Proof using.
  intros Hh Hb Hs (bs & Hrep & Hne & Hf). exists bs. split; [eapply rep_same; [| |exact Hrep]; done|].
  split; [done|]. by apply (tame_all_brk h).
Qed.

Lemma pair_tame_calls h A B n ns :
  pair_rel h A B -> pair_tame h (n :: ns) -> 0 < n <= MAX_REQ ->
  k_safe h n /\ forall r h', k_call (CMalloc n) h = Some (r, h') -> pair_tame h' ns.
Proof using Hk.
  intros _ (bs & Hrep & Hne & Hf) Hn. cbn [tame_all] in Hf.
  pose proof (kmalloc_rep heap_start heap_start heap_end fuel n (kview h) bs Hrep Hne
    (krep_fuel _ _ _ _ _ Hrep Hk) Hn) as H.
  destruct (spec_malloc heap_start (align_up n) bs) as [[p bs']|] eqn:Esp.
  - split.
    + right. left. exists bs. split; [done|]. unfold spec_malloc in Esp. by destruct (first_fit (align_up n) bs).
    + intros r h' E. destruct H as (k & Ek & Hrep' & _ & Hbrk). cbn in E. rewrite Ek in E. injection E as <- <-.
      exists bs'. split; [by rewrite kview_put|]. split; [by eapply spec_malloc_ne|]. by apply (tame_all_brk h).
  - destruct Hf as [Hw Hf]. split; [by right; right|].
    intros r h' E. cbn in E. rewrite (H Hw) in E. injection E as <- <-.
    exists bs. split; [by rewrite kview_put|]. split; [done|]. by apply (tame_all_brk h).
Qed.

Lemma pair_same h h' A B :
  khead h' = khead h -> uhead h' = uhead h ->
  same_on heap_start heap_end (pmem h) (pmem h') -> same_on user_start user_end (pmem h) (pmem h') ->
  pair_rel h A B -> pair_rel h' A B.
Proof using.
  intros E1 E2 S1 S2 [HA HB].
  split; [eapply hrel_same; [..|exact HA]|eapply hrel_same; [..|exact HB]]; done.
Qed.

(** A byte of a live region is no header. *)
Lemma pair_fits_write h A B x v ns :
  pair_rel h A B -> client_ok A (CWrite x v) -> pair_fits h ns ->
  pair_fits (put_mem (wb (pmem h) x v) h) ns.
Proof using.
  clear Hk Hu. intros [(bs0 & Hrep0 & _ & HA) _] (p & c & Hp & Hx) (bs & Hrep & Hne & Hf).
  destruct (HA p c Hp) as (_ & b & Hb & _ & Hl & _).
  rewrite (rep_fun _ _ _ _ _ _ Hrep0 Hrep) in Hb.
  exists bs. split; [|done].
  apply (rep_payload _ _ _ (kh (kview h)) (wb (pmem h) x v) bs Hrep). intros y Hy. apply rb_wb_ne. intros ->.
  eapply blk_at_not_hdr; [apply Hrep|exact Hb| |exact Hy]. lia.
Qed.

Lemma user_room_same h h' n :
  uhead h' = uhead h -> same_on user_start user_end (pmem h) (pmem h') ->
  user_room user_start user_end (uview h) n -> user_room user_start user_end (uview h') n.
Proof using.
  intros Hh Hs (bs & Hrep & Hf). exists bs. split; [|done].
  eapply rep_same; [| |exact Hrep]; done.
Qed.

#[export] Instance heap_pair_ok : HeapsOk heap_pair.
Proof using Hk Hu Hdis.
  split; cbn.
  - by left.
  - intros h A B c [HA HB] Hc Hs.
    destruct (k_simulates heap_start heap_start heap_end fuel _ _ _ Hk HA Hc Hs)
      as (r & k & A' & -> & Hstep & HA' & Hout).
    exists r, (kput k h), A'. split; [done|]. split; [done|]. split; [|exact Hout].
    split; [by rewrite kview_put|]. eapply hrel_same; [| |exact HB]; [done|].
    eapply only_in_same; [exact Hout|]. lia.
  - intros h A B c [HA HB] Hc.
    destruct (user_simulates user_start user_end fuel _ _ _ Hu HB Hc)
      as (r & u & B' & -> & Hstep & HB' & Hout).
    exists r, (uput u h), B'. split; [done|]. split; [done|]. split; [|exact Hout].
    split; [|by rewrite uview_put]. eapply hrel_same; [| |exact HA]; [done|].
    eapply only_in_same; [exact Hout|]. lia.
  - intros h A B p c [HA _] Hp. by apply (hrel_inside _ _ _ _ _ _ _ HA).
  - intros h A B p c [_ HB] Hp. by apply (hrel_inside _ _ _ _ _ _ _ HB).
  - intros h A B [HA _] p c q d. by apply (hrel_disjoint _ _ _ _ _ _ _ _ _ HA).
  - intros h A B [_ HB] p c q d. by apply (hrel_disjoint _ _ _ _ _ _ _ _ _ HB).
  - intros h A B [HA HB]. split; [|by apply (urel_agrees _ _ _ _ HB)].
    intros p d Hp. destruct HA as (bs & _ & _ & HA). by destruct (HA p d Hp) as (_ & b & _ & _ & _ & ?).
  - done.
  - intros h A B p c m Hrel Hp Hm. destruct Hrel as [HA HB].
    destruct (hrel_inside _ _ _ _ _ _ _ HB Hp) as (? & ? & _). split.
    + eapply hrel_same; [| |exact HA]; [done|]. eapply only_in_same; [exact Hm|]. lia.
    + exact (hrel_fill _ _ _ _ _ _ _ m HB Hp Hm).
  - apply pair_fits_serves.
  - intros h ns ms (bs & Hr & Hne & Hf). exists bs. do 2 (split; [done|]). by eapply serves_all_app.
  - intros h A B c r h' ns [HA HB] Hc E Hf.
    destruct (user_simulates user_start user_end fuel _ _ _ Hu HB Hc) as (r' & u & B' & Eu & _ & _ & Hout).
    rewrite Eu in E. injection E as <- <-. eapply pair_fits_same; [| |exact Hf]; [done|].
    eapply only_in_same; [exact Hout|]. lia.
  - intros h A B x v r h' ns Hr Hc [= _ <-] Hf. exact (pair_fits_write h A B x v ns Hr Hc Hf).
  - intros h m ns Hs. exact (pair_fits_same h (put_mem m h) ns eq_refl Hs).
  - intros h ns (bs & Hrep & Hne & Hf). exists bs. do 2 (split; [done|]). by apply serves_tame.
  - apply pair_tame_calls.
  - intros h A B c r h' ns [HA HB] Hc E Hf.
    destruct (user_simulates user_start user_end fuel _ _ _ Hu HB Hc) as (r' & u & B' & Eu & _ & _ & Hout).
    rewrite Eu in E. injection E as <- <-. eapply pair_tame_same; [| | |exact Hf]; [done|done|].
    eapply only_in_same; [exact Hout|]. lia.
  - intros h m ns Hs. exact (pair_tame_same h (put_mem m h) ns eq_refl eq_refl Hs).
  - intros h A B n r h' [HA HB] Hf Hn E.
    destruct (user_malloc user_start user_end fuel n (uview h)) as [[r' u]|] eqn:Eu; [|done].
    injection E as <- _. exact (user_serves _ _ _ Hu _ _ _ _ _ HB Hn Hf Eu).
  - intros h m n Hs. exact (user_room_same h (put_mem m h) n eq_refl Hs).
  - intros h A B c r h' n [HA HB] Hc Hs E Hf.
    destruct (k_simulates heap_start heap_start heap_end fuel _ _ _ Hk HA Hc Hs)
      as (r' & k & A' & Ek & _ & _ & Hout).
    rewrite Ek in E. injection E as <- <-. eapply user_room_same; [| |exact Hf]; [done|].
    eapply only_in_same; [exact Hout|]. lia.
  - intros h A B p c m [HA HB] Hp Hm.
    destruct (hrel_inside _ _ _ _ _ _ _ HA Hp) as (? & ? & _). split.
    + exact (hrel_fill _ _ _ _ _ _ _ m HA Hp Hm).
    + eapply hrel_same; [| |exact HB]; [done|]. eapply only_in_same; [exact Hm|]. lia.
  - intros h A B [(bs & Hrep & Hne & _) _]. eexists.
    eapply stats_rep; [exact Hrep|done|]. by apply (krep_fuel heap_start heap_end _ (kview h)).
Qed.

#[export] Instance heap_pair_frame : HeapsFrame heap_pair.
Proof using.
  split; cbn. intros h A B m Hrel S1 S2. exact (pair_same h (put_mem m h) A B eq_refl eq_refl S1 S2 Hrel).
Qed.

(** A free block serves a kernel request of [n] bytes, as [find_fit] sees it. *)
Definition fits_now (n : Z) (h : heap_pair) : bool :=
  match kfind_fit fuel (kh (kview h)) (align_up n) with Some p => negb (p =? 0) | None => false end.

Lemma fits_now_safe n h A B : pair_rel h A B -> fits_now n h = true -> k_safe h n.
Proof using Hk.
  intros [(bs & Hrep & Hne & _) _] Hf. right. left. exists bs. split; [done|]. unfold fits_now in Hf.
  rewrite (kfind_fit_ok _ _ fuel _ bs (align_up n) Hrep) in Hf; [|eapply krep_fuel; [exact Hrep|done]|done].
  intros E. by rewrite E in Hf.
Qed.

(** An executable test for [k_fits]: make the calls. *)
Fixpoint fits_all (ns : list Z) (h : heap_pair) : bool :=
  match ns with
  | [] => true
  | n :: ns => fits_now n h && match k_call (CMalloc n) h with Some (_, h) => fits_all ns h | None => false end
  end.

Lemma fits_all_ok h A B ns :
  pair_rel h A B -> Forall (fun n => 0 < n <= MAX_REQ) ns -> fits_all ns h = true -> k_fits h ns.
Proof using Hk.
  intros [(bs & Hrep & Hne & _) _] Hns Hf. exists bs. split; [exact Hrep|]. split; [exact Hne|].
  revert h bs Hrep Hne Hf. induction Hns as [|n ns Hn _ IH]; intros h bs Hrep Hne Hf; cbn [serves_all]; [done|].
  cbn [fits_all] in Hf. apply andb_true_iff in Hf as [Hnow Hf].
  unfold fits_now in Hnow. rewrite (kfind_fit_ok _ _ fuel _ bs (align_up n) Hrep) in Hnow;
    [|by eapply krep_fuel|done].
  pose proof (kmalloc_rep heap_start heap_start heap_end fuel n (kview h) bs Hrep Hne
    (krep_fuel _ _ _ _ _ Hrep Hk) Hn) as H.
  destruct (spec_malloc heap_start (align_up n) bs) as [[p bs']|] eqn:Esp.
  - destruct H as (k & Ek & Hrep' & _). cbn [k_call pair_heaps kcall] in Hf. rewrite Ek in Hf.
    apply (IH (kput k h)); [by rewrite kview_put|by eapply spec_malloc_ne|exact Hf].
  - unfold spec_malloc in Esp. by destruct (first_fit (align_up n) bs) as [[[? ?] ?]|].
Qed.

(** [malloc_init(&_heap_start, _heap_end - _heap_start); user_malloc_init();] *)
Definition boot_heaps (h : heap_pair) : heap_pair :=
  let h := kput (malloc_init heap_start (u64 (heap_end - heap_start)) (kview h)) h in
  uput (user_malloc_init user_start user_end (uview h)) h.

Lemma boot_heaps_rel h :
  0 < heap_start -> heap_start + 40 <= heap_end -> user_start + 40 <= user_end < 9223372036854775808 ->
  uhead h = 0 -> pair_rel (boot_heaps h) ∅ ∅.
Proof using Hdis.
  clear Hk Hu. intros H1 H2 H3 Hh. unfold boot_heaps. rewrite u64_small by lia. cbn zeta.
  set (h1 := kput (malloc_init heap_start (heap_end - heap_start) (kview h)) h).
  assert (HA : krel heap_start heap_end (kview h1) ∅).
  { unfold h1. rewrite kview_put.
    pose proof (malloc_init_rel heap_start (heap_end - heap_start) (kview h) H1 ltac:(lia) ltac:(lia)) as Hr.
    by replace (heap_start + (heap_end - heap_start)) with heap_end in Hr by lia. }
  assert (HB : urel user_start user_end (user_malloc_init user_start user_end (uview h1)) ∅).
  { apply user_init_rel; [done|lia|done]. }
  split; [|by rewrite uview_put]. eapply hrel_same; [| |exact HA]; [done|].
  eapply only_in_same; [apply (user_init_only_in _ _ (uview h1))|]. lia.
Qed.

(** One large free block at the end serves a sequence of requests. *)
Fixpoint room_for (ns : list Z) : Z :=
  match ns with [] => 0 | n :: ns => align_up n + SIZEOF_HDR + MIN_SPLIT_SIZE + room_for ns end.

Lemma room_for_pos ns : 0 <= room_for ns.
Proof using.
  clear. induction ns as [|n ns IH]; cbn [room_for]; [lia|]. unfold SIZEOF_HDR, MIN_SPLIT_SIZE, SIZEOF_HDR, ALIGN.
  assert (0 <= align_up n); [|lia]. apply Z.land_nonneg. left. apply u64_range.
Qed.

Lemma first_fit_last l z n : Forall (fun b => bfr b = false) l -> n <= z ->
  first_fit n (l ++ [Blk z true]) = Some (l, Blk z true, []).
Proof using.
  clear. intros Hl Hz. induction Hl as [|b l Hb _ IH]; cbn [first_fit app].
  - cbn [bfr bsz andb]. by rewrite (proj2 (Z.leb_le _ _) Hz).
  - rewrite Hb, IH. done.
Qed.

Lemma serves_room ns l z :
  Forall (fun b => bfr b = false) l -> room_for ns <= z -> serves_all ns (l ++ [Blk z true]).
Proof using.
  clear Hk Hu Hdis. revert l z. induction ns as [|n ns IH]; intros l z Hl Hz; cbn [serves_all room_for] in *; [done|].
  pose proof (room_for_pos ns). unfold MIN_SPLIT_SIZE, SIZEOF_HDR, ALIGN in Hz.
  unfold spec_malloc. rewrite first_fit_last by (done || lia). unfold spec_alloc. cbn [bsz].
  unfold MIN_SPLIT_SIZE, SIZEOF_HDR, ALIGN. rewrite (proj2 (Z.ltb_ge _ _)) by lia.
  cbn [app]. replace (l ++ [Blk (align_up n) false; Blk (z - align_up n - 40) true])
    with ((l ++ [Blk (align_up n) false]) ++ [Blk (z - align_up n - 40) true]) by by rewrite <- app_assoc.
  apply IH; [|lia]. apply Forall_app. split; [done|]. by constructor.
Qed.

(** All of both areas is free at boot. *)
Lemma boot_heaps_fits h ns n :
  0 < heap_start -> heap_start + 40 <= heap_end -> user_start + 40 <= user_end < 9223372036854775808 ->
  uhead h = 0 ->
  serves_all ns [Blk (heap_end - heap_start - 40) true] -> align_up n <= user_end - user_start - 40 ->
  k_fits (boot_heaps h) ns /\ u_fits (boot_heaps h) n.
Proof using Hdis.
  clear Hk Hu. intros H1 H2 H3 Hh Hs Hn. unfold boot_heaps. rewrite u64_small by lia. cbn zeta.
  set (h1 := kput (malloc_init heap_start (heap_end - heap_start) (kview h)) h).
  split; cbn [k_fits u_fits pair_heaps].
  - exists [Blk (heap_end - heap_start - 40) true]. split; [|split; [done|exact Hs]].
    pose proof (malloc_init_rep heap_start (heap_end - heap_start) (kview h) H1 ltac:(lia) ltac:(lia)) as Hr.
    replace (heap_start + (heap_end - heap_start)) with heap_end in Hr by lia.
    rewrite <- (kview_put (malloc_init heap_start (heap_end - heap_start) (kview h)) h) in Hr. fold h1 in Hr.
    eapply rep_same; [| |exact Hr]; [done|].
    eapply only_in_same; [apply (user_init_only_in _ _ (uview h1))|]. lia.
  - exists [Blk (user_end - user_start - 40) true]. rewrite uview_put. split; [by apply user_init_rep; [|lia|]|].
    cbn [first_fit bfr bsz]. by rewrite (proj2 (Z.leb_le _ _) Hn).
Qed.

(** Initialisation writes inside the areas only. *)
Lemma boot_heaps_frame h :
  heap_start + 40 <= heap_end -> user_start + 40 <= user_end -> off_areas (pmem h) (pmem (boot_heaps h)).
Proof using.
  clear Hk Hu Hdis. intros H1 H2 x Hkx Hux. cbn in Hkx, Hux. unfold boot_heaps. cbn zeta.
  etransitivity; [apply (user_init_only_in user_start user_end); lia|].
  apply (malloc_init_only_in heap_start _ (kview h)). lia.
Qed.
End Pair.
