(* ===== verification/HeapFill.v ===== *)
(** * What clients may write

    A client of the two heaps may write anything into the live regions at any
    time, and the allocators do not notice: their headers lie elsewhere.  This
    is the interface's law for a batch of such writes, together with writes
    outside the two areas, and its proof for the kernel's pair. *)

From Stdlib Require Import ZArith Lia.
From S2P Require Import Prelude Memory AllocSpec HeapBlock HeapLive UserMalloc KMalloc Heaps.

(** The regions with the contents the memory now has. *)
Definition refill (m : mem) (A : regions) : regions := map_imap (fun p d => Some (rbs m p (length d))) A.
Definition in_live (A : regions) (x : Z) : Prop := exists p d, A !! p = Some d /\ p <= x < p + lenZ d.

Lemma refill_lookup m A p : refill m A !! p = (fun d => rbs m p (length d)) <$> A !! p.
Proof. unfold refill. rewrite map_lookup_imap. by destruct (A !! p). Qed.
Lemma refill_some m A p d : refill m A !! p = Some d -> exists c, A !! p = Some c /\ d = rbs m p (length c).
Proof. rewrite refill_lookup. destruct (A !! p) as [c|]; intros [= <-]. by exists c. Qed.
Lemma refill_dom m A p : is_Some (refill m A !! p) <-> is_Some (A !! p).
Proof. rewrite refill_lookup. by rewrite fmap_is_Some. Qed.

Class HeapsFill (H : Type) `{!Heaps H} := {
  hp_refill h A B m :
    hp_rel h A B ->
    (forall x, k_lo <= x < k_hi \/ u_lo <= x < u_hi -> ~ in_live A x -> ~ in_live B x -> rb m x = rb (hp_mem h) x) ->
    hp_rel (with_mem m h) (refill m A) (refill m B)
}.

Lemma hrel_refill MAGIC base limit s A m :
  hrel MAGIC base limit s A ->
  (forall x, base <= x < limit -> ~ in_live A x -> rb m x = rb (hmem s) x) ->
  hrel MAGIC base limit (Heap m (hhead s) (htail s)) (refill m A).
Proof.
  intros (bs & Hrep & Hne & HA) Hm. pose proof (rep_wf _ _ _ _ _ Hrep) as Hw. exists bs. split; [|split; [done|]].
  - apply rep_payload; [done|]. intros y Hy. apply Hm.
    + rewrite <- (rep_end _ _ _ _ _ Hrep). by eapply in_hdr_range.
    + intros (p & d & Hp & Hin). destruct (HA p d Hp) as (_ & b & Hb & _ & Hl & _).
      eapply blk_at_not_hdr; [exact Hw|exact Hb| |exact Hy]. lia.
  - intros p d (c & Hc & ->)%refill_some. destruct (HA p c Hc) as (Hn & b & Hb & Hf & Hl & _).
    rewrite length_rbs. split.
    + intros E%(f_equal length). rewrite length_rbs in E. by apply nil_length_inv in E.
    + exists b. unfold lenZ in *. by rewrite length_rbs.
Qed.

Section Pair.
Context (heap_start user_start user_end heap_end : Z) (fuel : nat) (Hdis : heap_end <= user_start).

#[export] Instance heap_pair_fill :
  @HeapsFill heap_pair (pair_heaps heap_start user_start user_end heap_end fuel).
Proof using Hdis.
  split. intros h A B m [HA HB] Hm. cbn in *. split.
  - apply (hrel_refill KMAGIC _ _ _ _ m HA). intros x Hx Hn. apply Hm; [by left|done|].
    intros (p & d & Hp & Hin). destruct (hrel_inside _ _ _ _ _ _ _ HB Hp). lia.
  - apply (hrel_refill UMAGIC _ _ _ _ m HB). intros x Hx Hn. apply Hm; [by right| |done].
    intros (p & d & Hp & Hin). destruct (hrel_inside _ _ _ _ _ _ _ HA Hp). lia.
Qed.
End Pair.
