(* ===== verification/Multitask.v ===== *)
(** * multitask/multitask.c

    The task ring, the scheduler called from the timer interrupt, the zombie
    list and the operations behind the task system calls.

    A [task_t] is a record of the store [tasks] under its address; [malloc]
    gives the address and [free] takes the record out.  Dereferencing an
    address without a record is a [Fault], which is how the use of a freed
    task shows.  Stacks and the initial frames are bytes of the kernel heap,
    reached through the interface [Heaps].  [iflag] is the CPU's interrupt
    flag, which [cli] and [sti] write. *)

From Stdlib Require Import ZArith Lia.
From S2P Require Import Prelude Memory AllocSpec Heaps.

Inductive task_state := TASK_RUNNING | TASK_READY | TASK_BLOCKED | TASK_ZOMBIE.
#[export] Instance task_state_eq_dec : EqDecision task_state.
Proof. solve_decision. Defined.

Record task := Task {
  pid : Z; state : task_state; regs : Z; kstack : Z; kstack_size : Z; exit_code : Z;
  next : Z; znext : Z; user_mem : Z; user_mem_size : Z }.

Definition set_state (v : task_state) (t : task) : task :=
  Task (pid t) v (regs t) (kstack t) (kstack_size t) (exit_code t) (next t) (znext t) (user_mem t)
    (user_mem_size t).
Definition set_regs (v : Z) (t : task) : task :=
  Task (pid t) (state t) v (kstack t) (kstack_size t) (exit_code t) (next t) (znext t) (user_mem t)
    (user_mem_size t).
Definition set_stack (v n : Z) (t : task) : task :=
  Task (pid t) (state t) (regs t) v n (exit_code t) (next t) (znext t) (user_mem t)
    (user_mem_size t).
Definition set_exit (v : Z) (t : task) : task :=
  Task (pid t) (state t) (regs t) (kstack t) (kstack_size t) v (next t) (znext t) (user_mem t)
    (user_mem_size t).
Definition set_next (v : Z) (t : task) : task :=
  Task (pid t) (state t) (regs t) (kstack t) (kstack_size t) (exit_code t) v (znext t) (user_mem t)
    (user_mem_size t).
Definition set_znext (v : Z) (t : task) : task :=
  Task (pid t) (state t) (regs t) (kstack t) (kstack_size t) (exit_code t) (next t) v (user_mem t)
    (user_mem_size t).
Definition set_user (v n : Z) (t : task) : task :=
  Task (pid t) (state t) (regs t) (kstack t) (kstack_size t) (exit_code t) (next t) (znext t) v n.

Definition KSTACK_SIZE : Z := 8 * 1024.
(** [sizeof(task_t)]: two ints, two pointers, a [size_t], an int with its
    padding, three pointers, a [size_t]. *)
Definition SIZEOF_TASK : Z := 72.
Definition FRAME_QWORDS : Z := 22.

Record sched (H : Type) := Sched {
  tasks : gmap Z task; task_ring : Z; current : Z; next_pid : Z; zombie_list : Z;
  iflag : bool; kstack_top : Z; heaps : H }.
Arguments Sched {H}.
Arguments tasks {H}. Arguments task_ring {H}. Arguments current {H}. Arguments next_pid {H}.
Arguments zombie_list {H}. Arguments iflag {H}. Arguments kstack_top {H}. Arguments heaps {H}.

(** ** Computations that may fail

    [Fault]: a pointer to no object was followed.  [Stuck]: a loop did not
    end within its fuel. *)
Inductive res (A : Type) := Ok (a : A) | Fault | Stuck.
Arguments Ok {A}. Arguments Fault {A}. Arguments Stuck {A}.

Definition M (H A : Type) : Type := sched H -> res (A * sched H).
Definition ret {H A} (a : A) : M H A := fun s => Ok (a, s).
Definition bind {H A B} (c : M H A) (k : A -> M H B) : M H B :=
  fun s => match c s with Ok (a, s) => k a s | Fault => Fault | Stuck => Stuck end.
Definition gets {H A} (f : sched H -> A) : M H A := fun s => Ok (f s, s).
Definition modify {H} (f : sched H -> sched H) : M H unit := fun s => Ok (tt, f s).

Declare Scope sched_scope.
Delimit Scope sched_scope with sched.
Notation "'let!' x := c 'in' k" := (bind c (fun x => k))
  (at level 10, x name, c at level 100, k at level 200) : sched_scope.
Notation "'do!' c 'in' k" := (bind c (fun _ => k))
  (at level 10, c at level 100, k at level 200) : sched_scope.
Open Scope sched_scope.

Definition when {H} (b : bool) (c : M H unit) : M H unit := if b then c else ret tt.

(** Assignments to the static variables. *)
Definition set_tasks {H} (v : gmap Z task) (s : sched H) : sched H :=
  Sched v (task_ring s) (current s) (next_pid s) (zombie_list s) (iflag s) (kstack_top s) (heaps s).
Definition set_ring {H} (v : Z) (s : sched H) : sched H :=
  Sched (tasks s) v (current s) (next_pid s) (zombie_list s) (iflag s) (kstack_top s) (heaps s).
Definition set_current {H} (v : Z) (s : sched H) : sched H :=
  Sched (tasks s) (task_ring s) v (next_pid s) (zombie_list s) (iflag s) (kstack_top s) (heaps s).
Definition set_next_pid {H} (v : Z) (s : sched H) : sched H :=
  Sched (tasks s) (task_ring s) (current s) v (zombie_list s) (iflag s) (kstack_top s) (heaps s).
Definition set_zombies {H} (v : Z) (s : sched H) : sched H :=
  Sched (tasks s) (task_ring s) (current s) (next_pid s) v (iflag s) (kstack_top s) (heaps s).
Definition set_iflag {H} (v : bool) (s : sched H) : sched H :=
  Sched (tasks s) (task_ring s) (current s) (next_pid s) (zombie_list s) v (kstack_top s) (heaps s).
Definition set_top {H} (v : Z) (s : sched H) : sched H :=
  Sched (tasks s) (task_ring s) (current s) (next_pid s) (zombie_list s) (iflag s) v (heaps s).
Definition set_heaps {H} (v : H) (s : sched H) : sched H :=
  Sched (tasks s) (task_ring s) (current s) (next_pid s) (zombie_list s) (iflag s) (kstack_top s) v.

(** [*p] and [p->field = ...] *)
Definition deref {H} (p : Z) : M H task :=
  fun s => match tasks s !! p with Some t => Ok (t, s) | None => Fault end.
Definition store {H} (p : Z) (f : task -> task) : M H unit :=
  let! t := deref p in modify (fun s => set_tasks (<[p := f t]> (tasks s)) s).

Definition cli {H} : M H unit := modify (set_iflag false).
Definition sti {H} : M H unit := modify (set_iflag true).

Section Multitask.
Context {H : Type} `{!Heaps H}.
(** [&init_task] and [init_task_stack] *)
Context (INIT INIT_STACK : Z).

Definition kheap_do (c : call) : M H Z := fun s =>
  match k_call c (heaps s) with Some (r, h) => Ok (r, set_heaps h s) | None => Stuck end.
Definition uheap_do (c : call) : M H Z := fun s =>
  match u_call c (heaps s) with Some (r, h) => Ok (r, set_heaps h s) | None => Stuck end.

(** A store of [n] bytes, little-endian. *)
Fixpoint poke (n : nat) (a v : Z) : M H unit :=
  match n with
  | O => ret tt
  | S n => do! kheap_do (CWrite a v) in poke n (a + 1) (v / 256)
  end.
Fixpoint poke_all (ws : list (Z * Z)) (sp : Z) : M H unit :=
  match ws with
  | [] => ret tt
  | (i, v) :: ws => do! poke 8 (sp + 8 * i) v in poke_all ws sp
  end.

(** The assignments to [sp[i]] of [prepare_initial_stack], in their order. *)
Definition frame_words (entry kstack_top : Z) : list (Z * Z) :=
  [(0, 32); (1, 0); (2, 0); (3, 0); (4, 0); (5, 0); (6, 0); (7, 0); (8, 0); (9, 0); (10, 0); (11, 0);
   (12, 0); (13, 0); (14, 0); (15, 0); (16, 0); (17, entry); (19, 514); (18, 8); (20, kstack_top);
   (21, 16)].
Definition prepare_initial_stack (entry kstack_top : Z) : M H Z :=
  let sp := Z.land kstack_top (u64 (Z.lnot 15)) in
  let sp := u64 (sp - 8 * FRAME_QWORDS) in
  do! poke_all (frame_words entry kstack_top) sp in ret sp.

Definition scheduler_init : M H unit :=
  let t := Task 0 TASK_RUNNING 0 0 0 0 INIT 0 0 0 in
  modify (fun s => set_next_pid 1 (set_current 0 (set_ring INIT (set_tasks (<[INIT := t]> (tasks s)) s)))).

(** [t] becomes the new tail of the ring. *)
Definition ring_insert (t : Z) : M H unit :=
  let! ring := gets task_ring in
  if ring =? 0 then do! modify (set_ring t) in store t (set_next t)
  else
    let! r := deref ring in
    do! store t (set_next (next r)) in
    do! store ring (set_next t) in
    modify (set_ring t).

Definition take_pid : M H Z :=
  let! p := gets next_pid in do! modify (set_next_pid (s32 (p + 1))) in ret p.

(** The allocations both creating functions start with: the task and the
    stack, or [None]. *)
Definition alloc_task (stack_size : Z) : M H (option (Z * Z)) :=
  let! t := kheap_do (CMalloc SIZEOF_TASK) in
  if t =? 0 then ret None else
  let! kstack := kheap_do (CMalloc stack_size) in
  if kstack =? 0 then do! kheap_do (CFree t) in ret None
  else ret (Some (t, kstack)).

Definition task_create (entry stack_size : Z) : M H unit :=
  let stack_size := if stack_size =? 0 then KSTACK_SIZE else stack_size in
  let! a := alloc_task stack_size in
  match a with
  | None => ret tt
  | Some (t, kstack) =>
      let! p := take_pid in
      do! modify (fun s => set_tasks (<[t := Task p TASK_READY 0 kstack stack_size 0 0 0 0 0]> (tasks s)) s) in
      let! sp := prepare_initial_stack entry (u64 (kstack + stack_size)) in
      do! store t (set_regs sp) in
      ring_insert t
  end.

Definition utask_create (entry stack_size umem umem_size : Z) : M H Z :=
  let stack_size := if stack_size =? 0 then KSTACK_SIZE else stack_size in
  let! a := alloc_task stack_size in
  match a with
  | None => ret 0
  | Some (t, kstack) =>
      let! p := take_pid in
      do! modify (fun s => set_tasks (<[t := Task p TASK_READY 0 kstack stack_size 0 0 0 0 0]> (tasks s)) s) in
      let! sp := prepare_initial_stack entry (u64 (kstack + stack_size)) in
      do! store t (set_regs sp) in
      do! store t (set_user umem umem_size) in
      do! ring_insert t in
      ret (u64 p)
  end.

(** [do { if (p(it)) return it; it = it->next; } while (it != stop);] *)
Fixpoint ring_find (fuel : nat) (p : task -> bool) (it stop : Z) : M H Z :=
  match fuel with
  | O => fun _ => Stuck
  | S k =>
      let! t := deref it in
      if p t then ret it
      else if next t =? stop then ret 0 else ring_find k p (next t) stop
  end.

(** A walk around the ring visits each task once. *)
Definition ring_fuel (s : sched H) : nat := S (size (tasks s)).

Definition runnable (t : task) : bool :=
  bool_decide (state t = TASK_READY) || bool_decide (state t = TASK_RUNNING).

Definition pick_next : M H Z :=
  let! ring := gets task_ring in
  if ring =? 0 then ret 0 else
  let! cur := gets current in
  let! t := deref (if negb (cur =? 0) then cur else ring) in
  let! fuel := gets ring_fuel in
  ring_find fuel runnable (next t) (next t).

(** [g_syscall_kstack_top = current->kstack + current->kstack_size] *)
Definition update_top : M H unit :=
  let! cur := gets current in
  let! t := deref cur in
  modify (set_top (u64 (kstack t + kstack_size t))).

(** Returns [*out_regs_ptr]. *)
Definition schedule_from_isr (r : Z) : M H Z :=
  let! cur := gets current in
  do! (if cur =? 0 then
         do! store INIT (set_stack INIT_STACK (16 * 1024)) in
         do! store INIT (set_regs r) in
         do! store INIT (set_state TASK_RUNNING) in
         do! modify (set_current INIT) in
         update_top
       else
         do! store cur (set_regs r) in
         let! t := deref cur in
         when (bool_decide (state t = TASK_RUNNING)) (store cur (set_state TASK_READY))) in
  let! nx := pick_next in
  if nx =? 0 then ret r else
  let! cur := gets current in
  if nx =? cur then
    let! t := deref cur in
    do! store cur (set_state TASK_RUNNING) in
    do! update_top in
    ret (regs t)
  else
    do! modify (set_current nx) in
    do! store nx (set_state TASK_RUNNING) in
    let! t := deref nx in
    do! update_top in
    ret (regs t).

Definition get_current_task : M H Z := gets current.

Definition add_to_zombie_list (t : Z) : M H unit :=
  if t =? 0 then ret tt else
  let! z := gets zombie_list in
  do! store t (set_znext z) in
  modify (set_zombies t).

Fixpoint unlink_loop (fuel : nat) (t prev it : Z) : M H Z :=
  match fuel with
  | O => fun _ => Stuck
  | S k =>
      let! x := deref it in
      let! ring := gets task_ring in
      if it =? t then
        do! store prev (set_next (next x)) in
        do! when (ring =? it) (modify (set_ring prev)) in
        ret 0
      else
        let! r := deref ring in
        if next x =? next r then ret (-1) else unlink_loop k t it (next x)
  end.

Definition unlink_from_ring (t : Z) : M H Z :=
  let! ring := gets task_ring in
  if (ring =? 0) || (t =? 0) then ret (-1) else
  let! r := deref ring in
  if next r =? ring then
    if ring =? t then
      if INIT =? t then ret (-1)
      else do! modify (set_ring INIT) in do! store INIT (set_next INIT) in ret 0
    else ret (-1)
  else
    let! fuel := gets ring_fuel in
    unlink_loop fuel t ring (next r).

Definition free_task_resources (t : Z) : M H unit :=
  if (t =? 0) || (t =? INIT) then ret tt else
  let! x := deref t in
  do! when (negb (kstack x =? 0)) (do! kheap_do (CFree (kstack x)) in ret tt) in
  do! when (negb (user_mem x =? 0))
        (do! uheap_do (CFree (user_mem x)) in store t (set_user 0 0)) in
  do! kheap_do (CFree t) in
  modify (fun s => set_tasks (delete t (tasks s)) s).

(** [while (z) {...}]: the list is finite, each turn frees a task. *)
Fixpoint reap_loop (fuel : nat) (z : Z) : M H unit :=
  match fuel with
  | O => fun _ => Stuck
  | S k =>
      if z =? 0 then ret tt else
      let! x := deref z in
      do! cli in
      do! unlink_from_ring z in
      do! sti in
      do! free_task_resources z in
      reap_loop k (znext x)
  end.

(** The first critical section: the list is taken off. *)
Definition take_zombies : M H Z :=
  do! cli in
  let! z := gets zombie_list in
  do! modify (set_zombies 0) in
  do! sti in ret z.
Definition reap_zombies_internal : M H unit :=
  let! z := take_zombies in
  let! fuel := gets ring_fuel in
  reap_loop fuel z.
Definition reap_zombies : M H unit := reap_zombies_internal.

(** [count < (int)max] bounds what is stored in [buf]; the count returned is
    the number stored. *)
Fixpoint list_loop (fuel : nat) (it stop count max : Z) : M H (list (Z * task_state)) :=
  match fuel with
  | O => fun _ => Stuck
  | S k =>
      if max <=? count then ret [] else
      let! t := deref it in
      if next t =? stop then ret [(pid t, state t)]
      else let! r := list_loop k (next t) stop (count + 1) max in ret ((pid t, state t) :: r)
  end.
Definition task_list (max : Z) : M H (list (Z * task_state)) :=
  do! cli in
  let! ring := gets task_ring in
  if ring =? 0 then do! sti in ret [] else
  let! r := deref ring in
  let! fuel := gets ring_fuel in
  let! l := list_loop fuel (next r) (next r) 0 (s32 max) in
  do! sti in ret l.

(** [None]: the call does not return, the caller halts until the timer
    switches away from it. *)
Definition task_stop (p : Z) : M H (option Z) :=
  if p =? 0 then ret (Some (-1)) else
  do! cli in
  do! reap_zombies_internal in
  let! ring := gets task_ring in
  if ring =? 0 then do! sti in ret (Some (-1)) else
  let! r := deref ring in
  let! fuel := gets ring_fuel in
  let! found := ring_find fuel (fun t => pid t =? p) (next r) (next r) in
  if found =? 0 then do! sti in ret (Some (-1)) else
  let! cur := gets current in
  if found =? cur then
    do! store cur (set_state TASK_ZOMBIE) in
    do! add_to_zombie_list cur in
    do! unlink_from_ring cur in
    do! sti in
    ret None
  else
    do! unlink_from_ring found in
    do! sti in
    do! free_task_resources found in
    do! reap_zombies_internal in
    ret (Some 0).

Definition task_exit (code : Z) : M H unit :=
  do! cli in
  do! reap_zombies_internal in
  let! cur := gets current in
  if (cur =? 0) || (cur =? INIT) then ret tt else
  do! store cur (set_exit code) in
  do! store cur (set_state TASK_ZOMBIE) in
  do! add_to_zombie_list cur in
  sti.

Definition task_is_alive (p : Z) : M H Z :=
  do! cli in
  if p <=? 0 then ret (if p =? 0 then 1 else 0) else
  do! reap_zombies_internal in
  do! cli in
  let! ring := gets task_ring in
  if ring =? 0 then do! sti in ret 0 else
  let! r := deref ring in
  let! fuel := gets ring_fuel in
  let! it := ring_find fuel (fun t => pid t =? p) (next r) (next r) in
  if it =? 0 then do! sti in ret 0 else
  let! t := deref it in
  do! sti in
  ret (if bool_decide (state t = TASK_ZOMBIE) then 0 else 1).
End Multitask.
