(* ===== verification/TaskLogic.v ===== *)
(** * Reasoning about multitask.c

    A weakest precondition for the computations of Multitask.v (it includes
    that the computation returns), linked segments of the store, walks around
    the ring, and the bookkeeping of who owns which heap region. *)

From Stdlib Require Import ZArith Lia.
From S2P Require Import Prelude Memory AllocSpec Heaps Multitask.

Definition wp {H A} (c : M H A) (Q : A -> sched H -> Prop) (s : sched H) : Prop :=
  match c s with Ok (a, s') => Q a s' | _ => False end.

Section Wp.
Context {H : Type}.

Lemma wp_mono {A} (c : M H A) Q Q' s : wp c Q s -> (forall a s', Q a s' -> Q' a s') -> wp c Q' s.
Proof. unfold wp. destruct (c s) as [[a s']| |]; auto. Qed.
Lemma wp_ret {A} (a : A) (Q : A -> sched H -> Prop) s : Q a s -> wp (ret a) Q s.
Proof. done. Qed.
Lemma wp_bind {A B} (c : M H A) (k : A -> M H B) Q s :
  wp c (fun a s' => wp (k a) Q s') s -> wp (bind c k) Q s.
Proof. unfold wp, bind. by destruct (c s) as [[a s']| |]. Qed.
Lemma wp_gets {A} (f : sched H -> A) Q s : Q (f s) s -> wp (gets f) Q s.
Proof. done. Qed.
Lemma wp_modify (f : sched H -> sched H) (Q : unit -> sched H -> Prop) s : Q tt (f s) -> wp (modify f) Q s.
Proof. done. Qed.
Lemma wp_deref p t Q (s : sched H) : tasks s !! p = Some t -> Q t s -> wp (deref p) Q s.
Proof. unfold wp, deref. by intros ->. Qed.
Lemma wp_store p f t (Q : unit -> sched H -> Prop) s :
  tasks s !! p = Some t -> Q tt (set_tasks (<[p := f t]> (tasks s)) s) -> wp (store p f) Q s.
Proof. intros Ht HQ. unfold store. apply wp_bind. by apply (wp_deref p t). Qed.
Lemma wp_when (b : bool) (c : M H unit) Q s :
  (b = true -> wp c Q s) -> (b = false -> Q tt s) -> wp (when b c) Q s.
Proof. destruct b; intros Ht Hf; [by apply Ht|by apply wp_ret, Hf]. Qed.
Lemma wp_ok {A} (c : M H A) Q s : wp c Q s -> exists a s', c s = Ok (a, s') /\ Q a s'.
Proof. unfold wp. destruct (c s) as [[a s']| |]; [by exists a, s'|done..]. Qed.
Lemma wp_ok_unit (c : M H unit) (Q : sched H -> Prop) s :
  wp c (fun _ => Q) s -> exists s', c s = Ok (tt, s') /\ Q s'.
Proof. intros ([] & s' & ?)%wp_ok. by exists s'. Qed.

Context `{!Heaps H, !HeapsOk H}.

Lemma wp_kheap c A B (Q : Z -> sched H -> Prop) s :
  hp_rel (heaps s) A B -> client_ok A c -> (forall n, request c = Some n -> k_safe (heaps s) n) ->
  (forall r h A', k_call c (heaps s) = Some (r, h) -> astep k_lo k_hi A c r A' -> hp_rel h A' B ->
     only_in k_lo k_hi (hp_mem (heaps s)) (hp_mem h) -> Q r (set_heaps h s)) ->
  wp (kheap_do c) Q s.
Proof.
  intros Hr Hc Hs HQ. destruct (k_sim _ _ _ _ Hr Hc Hs) as (r & h & A' & E & H1 & H2 & H3).
  unfold wp, kheap_do. rewrite E. by eapply HQ.
Qed.
Lemma wp_uheap c A B (Q : Z -> sched H -> Prop) s :
  hp_rel (heaps s) A B -> client_ok B c ->
  (forall r h B', u_call c (heaps s) = Some (r, h) -> astep u_lo u_hi B c r B' -> hp_rel h A B' ->
     only_in u_lo u_hi (hp_mem (heaps s)) (hp_mem h) -> Q r (set_heaps h s)) ->
  wp (uheap_do c) Q s.
Proof.
  intros Hr Hc HQ. destruct (u_sim _ _ _ _ Hr Hc) as (r & h & B' & E & H1 & H2 & H3).
  unfold wp, uheap_do. rewrite E. by eapply HQ.
Qed.
End Wp.

(** Forward symbolic execution of the computations that cannot fail. *)
Ltac wstep :=
  match goal with
  | |- wp (bind _ _) _ _ => apply wp_bind
  | |- wp (ret _) _ _ => apply wp_ret
  | |- wp (gets _) _ _ => apply wp_gets
  | |- wp (modify _) _ _ => apply wp_modify
  | |- wp cli _ _ => apply wp_modify
  | |- wp sti _ _ => apply wp_modify
  end; cbn beta.
Ltac wsteps := repeat wstep.

(** ** Who owns the regions *)

(** The addresses [f] lists for the entries of a map. *)
Definition owned {V} (f : Z -> V -> list Z) (m : gmap Z V) : list Z :=
  flat_map (fun p => f p.1 p.2) (map_to_list m).
Definition keys {V} (m : gmap Z V) : list Z := owned (fun p _ => [p]) m.

Section Owned.
Context {V : Type} (f : Z -> V -> list Z).

Lemma owned_insert m a v : m !! a = None -> owned f (<[a := v]> m) ≡ₚ f a v ++ owned f m.
Proof.
  intros Ha. unfold owned. by rewrite (Permutation_flat_map _ (map_to_list_insert m a v Ha)).
Qed.
Lemma owned_delete m a v : m !! a = Some v -> owned f m ≡ₚ f a v ++ owned f (delete a m).
Proof.
  intros Ha. rewrite <- owned_insert by apply lookup_delete_eq. by rewrite insert_delete_id.
Qed.
Lemma owned_update m a v v' : m !! a = Some v -> f a v' = f a v -> owned f (<[a := v']> m) ≡ₚ owned f m.
Proof.
  intros Ha Hf. rewrite <- insert_delete_eq, owned_insert by apply lookup_delete_eq.
  by rewrite Hf, <- owned_delete.
Qed.
Lemma elem_of_owned m x : x ∈ owned f m <-> exists a v, m !! a = Some v /\ x ∈ f a v.
Proof.
  unfold owned. rewrite list_elem_of_In, in_flat_map. split.
  - intros ([a v] & Hin & Hx). exists a, v. split; [|by apply list_elem_of_In].
    by apply elem_of_map_to_list, list_elem_of_In.
  - intros (a & v & Ha & Hx). exists (a, v). split; [|by apply list_elem_of_In].
    by apply list_elem_of_In, elem_of_map_to_list.
Qed.
End Owned.

Lemma keys_update {V} (m : gmap Z V) a v v' : m !! a = Some v -> keys (<[a := v']> m) ≡ₚ keys m.
Proof. intros Ha. by apply (owned_update _ m a v). Qed.
Lemma elem_of_keys {V} (m : gmap Z V) x : x ∈ keys m <-> is_Some (m !! x).
Proof.
  unfold keys. rewrite elem_of_owned. split.
  - intros (a & v & Ha & ->%list_elem_of_singleton). by exists v.
  - intros [v Hv]. exists x, v. split; [done|]. by apply list_elem_of_singleton.
Qed.
Lemma keys_nodup {V} (m : gmap Z V) : base.NoDup (keys m).
Proof.
  unfold keys, owned. replace (flat_map _ _) with (map_to_list m).*1; [apply NoDup_fst_map_to_list|].
  induction (map_to_list m) as [|p l IH]; [done|]. cbn. by rewrite IH.
Qed.

(** ** Linked segments *)

(** The tasks [l] are linked by [next], the last one to [z]. *)
Fixpoint lseg (ts : gmap Z task) (l : list Z) (z : Z) : Prop :=
  match l with
  | [] => True
  | a :: r => (exists t, ts !! a = Some t /\ next t = hd z r) /\ lseg ts r z
  end.
(** The zombie list. *)
Fixpoint zseg (ts : gmap Z task) (l : list Z) : Prop :=
  match l with
  | [] => True
  | a :: r => (exists t, ts !! a = Some t /\ znext t = hd 0 r) /\ zseg ts r
  end.

Lemma hd_app {A} (d : A) l r : hd d (l ++ r) = hd (hd d r) l.
Proof. by destruct l. Qed.

Lemma lseg_app ts l r z : lseg ts (l ++ r) z <-> lseg ts l (hd z r) /\ lseg ts r z.
Proof.
  induction l as [|a l IH]; cbn [lseg app]; [tauto|]. rewrite IH, hd_app. tauto.
Qed.
Lemma lseg_in ts l z a : lseg ts l z -> a ∈ l -> is_Some (ts !! a).
Proof.
  induction l as [|b l IH]; [by intros _ ?%not_elem_of_nil|]. intros [(t & Ht & _) Hl].
  intros [->|Ha]%elem_of_cons; [by exists t|auto].
Qed.
(** Only the [next] fields matter. *)
Lemma lseg_same ts ts' l z :
  (forall a t, a ∈ l -> ts !! a = Some t -> exists t', ts' !! a = Some t' /\ next t' = next t) ->
  lseg ts l z -> lseg ts' l z.
Proof.
  induction l as [|a l IH]; intros Hs; [done|]. intros [(t & Ht & Hn) Hl]. split.
  - destruct (Hs a t ltac:(left) Ht) as (t' & Ht' & E). exists t'. split; [done|congruence].
  - apply IH; [|done]. intros b u Hb. apply Hs. by right.
Qed.
Lemma lseg_last ts l a z : lseg ts (l ++ [a]) z <-> lseg ts l a /\ exists t, ts !! a = Some t /\ next t = z.
Proof. rewrite lseg_app. cbn. tauto. Qed.
Lemma zseg_same ts ts' l :
  (forall a t, a ∈ l -> ts !! a = Some t -> exists t', ts' !! a = Some t' /\ znext t' = znext t) ->
  zseg ts l -> zseg ts' l.
Proof.
  induction l as [|a l IH]; intros Hs; [done|]. intros [(t & Ht & Hn) Hl]. split.
  - destruct (Hs a t ltac:(left) Ht) as (t' & Ht' & E). exists t'. split; [done|congruence].
  - apply IH; [|done]. intros b u Hb. apply Hs. by right.
Qed.

(** A ring can be entered at any task. *)
Lemma ring_rotate ts l r : lseg ts (l ++ r) (hd 0 (l ++ r)) -> lseg ts (r ++ l) (hd 0 (r ++ l)).
Proof.
  rewrite !lseg_app, !hd_app. destruct l as [|a l]; [cbn; tauto|]. destruct r as [|b r]; cbn; tauto.
Qed.

(** [do {...} while (it != stop)] from the first task finds the first match. *)
Fixpoint first_of (ts : gmap Z task) (p : task -> bool) (l : list Z) : Z :=
  match l with
  | [] => 0
  | a :: r => match ts !! a with Some t => if p t then a else first_of ts p r | None => 0 end
  end.

Lemma ring_find_ok {H} fuel p l stop (Q : Z -> sched H -> Prop) s :
  lseg (tasks s) l stop -> l <> [] -> stop ∉ tl l -> (length l < fuel)%nat ->
  Q (first_of (tasks s) p l) s -> wp (ring_find fuel p (hd 0 l) stop) Q s.
Proof.
  revert fuel. induction l as [|a l IH]; intros fuel; [done|]. intros [(t & Ht & Hn) Hl] _ Hst Hf HQ.
  destruct fuel as [|fuel]; [simpl in Hf; lia|]. cbn [ring_find hd first_of] in *. rewrite Ht in HQ.
  wsteps. apply (wp_deref a t); [done|]. destruct (p t); [by wsteps|].
  destruct l as [|b l]; cbn [hd tl] in *.
  - rewrite Hn, Z.eqb_refl. by wsteps.
  - rewrite Hn. destruct (Z.eqb_spec b stop) as [->|_]; [by exfalso; apply Hst; left|].
    apply IH; [done..| |simpl in *; lia|done]. intros Hin. apply Hst. by right.
Qed.
Lemma first_of_spec ts p l z :
  lseg ts l z -> (forall a, a ∈ l -> a <> 0) ->
  (first_of ts p l = 0 /\ (forall a t, a ∈ l -> ts !! a = Some t -> p t = false)) \/
  (exists l1 a t l2, l = l1 ++ a :: l2 /\ first_of ts p l = a /\ ts !! a = Some t /\ p t = true /\
     forall b u, b ∈ l1 -> ts !! b = Some u -> p u = false).
Proof.
  induction l as [|a l IH]; cbn [first_of]; intros Hl Hnz.
  { left. split; [done|]. by intros b u ?%not_elem_of_nil. }
  destruct Hl as [(t & Ht & _) Hl]. rewrite Ht. destruct (p t) eqn:Ep.
  - right. exists [], a, t, l. repeat split; try done. by intros b u ?%not_elem_of_nil.
  - destruct (IH Hl) as [[-> Hno]|(l1 & b & u & l2 & -> & -> & Hb & Hpb & Hno)].
    { intros b Hb. apply Hnz. by right. }
    + left. split; [done|]. intros b u [->|Hb]%elem_of_cons Hu; [congruence|by eapply Hno].
    + right. exists (a :: l1), b, u, l2. repeat split; try done.
      intros c v [->|Hc]%elem_of_cons Hv; [congruence|by eapply Hno].
Qed.

(** ** The ring *)

Record ring_ok (ts : gmap Z task) (ring : Z) (rs : list Z) : Prop := {
  r_last : List.last rs 0 = ring;
  r_seg : lseg ts rs (hd 0 rs);
  r_nodup : base.NoDup rs;
  r_nz : forall a, a ∈ rs -> a <> 0;
  r_ne : rs <> []
}.

Lemma last_snoc (l : list Z) a d : List.last (l ++ [a]) d = a.
Proof. apply List.last_last. Qed.
Lemma last_app_cons (l : list Z) a r d : List.last (l ++ a :: r) d = List.last (a :: r) a.
Proof.
  destruct (exists_last (l := a :: r) ltac:(done)) as (q & b & E). rewrite E.
  by rewrite app_assoc, !List.last_last.
Qed.
Lemma last_in (l : list Z) d : l <> [] -> List.last l d ∈ l.
Proof.
  intros Hl. destruct (exists_last Hl) as (q & b & ->). rewrite List.last_last.
  apply elem_of_app. right. by left.
Qed.

Lemma ring_tail ts ring rs :
  ring_ok ts ring rs -> exists q t, rs = q ++ [ring] /\ ts !! ring = Some t /\ next t = hd 0 rs.
Proof.
  intros [Hl Hs _ _ Hne]. destruct (exists_last Hne) as (q & b & ->).
  rewrite List.last_last in Hl. subst b. apply lseg_last in Hs as (_ & t & Ht & Hn). by exists q, t.
Qed.
Lemma ring_ok_same ts ts' ring rs :
  (forall a t, a ∈ rs -> ts !! a = Some t -> exists t', ts' !! a = Some t' /\ next t' = next t) ->
  ring_ok ts ring rs -> ring_ok ts' ring rs.
Proof. intros Hs [? Hl ? ? ?]. split; try done. by eapply lseg_same. Qed.
Lemma ring_ok_update ts ring rs a t f :
  ts !! a = Some t -> next (f t) = next t -> ring_ok ts ring rs -> ring_ok (<[a := f t]> ts) ring rs.
Proof.
  intros Ha Hf. apply ring_ok_same. intros b u _ Hb. destruct (decide (a = b)) as [->|Hne].
  - rewrite lookup_insert_eq. exists (f t). split; [done|congruence].
  - rewrite lookup_insert_ne by done. by exists u.
Qed.
Lemma ring_ok_ne ts ring rs a t :
  a ∉ rs -> ring_ok ts ring rs -> ring_ok (<[a := t]> ts) ring rs.
Proof.
  intros Ha. apply ring_ok_same. intros b u Hb Hu. exists u. split; [|done].
  rewrite lookup_insert_ne; [done|]. by intros ->.
Qed.
Lemma ring_ok_delete ts ring rs a :
  a ∉ rs -> ring_ok ts ring rs -> ring_ok (delete a ts) ring rs.
Proof.
  intros Ha. apply ring_ok_same. intros b u Hb Hu. exists u. split; [|done].
  rewrite lookup_delete_ne; [done|]. by intros ->.
Qed.
Lemma ring_in ts ring rs a : ring_ok ts ring rs -> a ∈ rs -> is_Some (ts !! a).
Proof. intros [_ Hs _ _ _]. by apply (lseg_in _ _ _ _ Hs). Qed.
Lemma ring_length ts ring rs : ring_ok ts ring rs -> (length rs < S (size ts))%nat.
Proof.
  intros Hr. rewrite <- (size_dom (D := gset Z)). rewrite <- (size_list_to_set (C := gset Z) rs) by apply Hr.
  apply le_n_S, subseteq_size. intros a Ha%elem_of_list_to_set.
  by apply elem_of_dom, (ring_in _ _ _ _ Hr).
Qed.

(** Taking a task out of the middle, the front or the end. *)
Lemma ring_cut ts l1 t l2 x p tp :
  ring_ok ts (List.last (l1 ++ t :: l2) 0) (l1 ++ t :: l2) -> l1 ++ l2 <> [] ->
  ts !! t = Some x -> p = List.last l1 (List.last (t :: l2) 0) -> ts !! p = Some tp ->
  ring_ok (<[p := set_next (next x) tp]> ts) (List.last (l1 ++ l2) 0) (l1 ++ l2).
Proof.
  intros [_ Hs Hn Hz _] Hne Hx Ep Hp. split; [done| | | |done].
  2: { apply list.NoDup_app in Hn as (H1 & H2 & H3). apply list.NoDup_cons in H3 as [H4 H5].
       apply list.NoDup_app. split; [done|]. split; [|done]. intros a Ha1 Ha2. apply (H2 a Ha1). by right. }
  2: { intros a Ha. apply Hz. apply elem_of_app in Ha. apply elem_of_app. destruct Ha; [by left|right; by right]. }
  apply list.NoDup_app in Hn as (Hn1 & Hdis & [Ht2 Hn2]%list.NoDup_cons).
  apply lseg_app in Hs as [H1 [(x' & Hx' & Hnx) H2]]. rewrite Hx in Hx'. injection Hx' as <-.
  cbn [hd] in H1.
  destruct l1 as [|a l1 _] using rev_ind.
  - assert (Ep2 : p = List.last (t :: l2) 0) by exact Ep. clear Ep. cbn [app hd] in *. destruct l2 as [|b l2 _] using rev_ind; [done|].
    assert (Ep' : p = b).
    { rewrite Ep2, (app_comm_cons l2 [b] t). apply List.last_last. }
    clear Ep2. subst p. apply lseg_last in H2 as [H2 _]. apply lseg_last. split.
    + eapply lseg_same; [|exact H2]. intros c u Hc Hu. exists u. split; [|done].
      rewrite lookup_insert_ne; [done|]. intros ->. apply list.NoDup_app in Hn2 as (_ & Hd & _).
      apply (Hd c Hc). by left.
    + eexists. split; [apply lookup_insert_eq|]. cbn [set_next next]. rewrite Hnx.
      rewrite hd_app. cbn [hd]. by rewrite hd_app.
  - rewrite List.last_last in Ep. subst p.
    apply lseg_last in H1 as [H1 _]. 
    assert (Hh : forall d, hd d ((l1 ++ [a]) ++ t :: l2) = hd d ((l1 ++ [a]) ++ l2)).
    { intros d. rewrite <- !app_assoc. destruct l1; done. }
    apply lseg_app. split; [apply lseg_last; split|].
    + eapply lseg_same; [|exact H1]. intros c u Hc Hu. exists u. split; [|done].
      rewrite lookup_insert_ne; [done|]. intros ->. apply list.NoDup_app in Hn1 as (_ & Hd & _).
      apply (Hd c Hc). by left.
    + eexists. split; [apply lookup_insert_eq|]. cbn [set_next next]. rewrite Hnx.
      by rewrite Hh.
    + rewrite Hh in H2. eapply lseg_same; [|exact H2]. intros c u Hc Hu. exists u. split; [|done].
      rewrite lookup_insert_ne; [done|]. intros ->.
      apply (Hdis c); [apply elem_of_app; right; by left|by right].
Qed.

Lemma set_ring_same {H} (s : sched H) v : task_ring s = v -> set_ring v s = s.
Proof. by destruct s; simpl; intros ->. Qed.

Section Unlink.
Context {H : Type} (t : Z) (rs : list Z) (s : sched H).
Context (Hring : ring_ok (tasks s) (task_ring s) rs).

(** What [unlink_from_ring t] leaves. *)
Definition unlinked (Q : Z -> sched H -> Prop) : Prop :=
  (t ∉ rs -> Q (-1) s) /\
  (forall l1 l2 p tp n, rs = l1 ++ t :: l2 -> p ∈ l1 ++ l2 -> tasks s !! p = Some tp ->
     let ts' := <[p := set_next n tp]> (tasks s) in
     ring_ok ts' (List.last (l1 ++ l2) 0) (l1 ++ l2) ->
     Q 0 (set_ring (List.last (l1 ++ l2) 0) (set_tasks ts' s))).

Lemma unlink_loop_ok fuel l1 l2 Q :
  rs = l1 ++ l2 -> l2 <> [] -> t ∉ l1 -> (length l2 < fuel)%nat -> rs <> [t] ->
  unlinked Q ->
  wp (unlink_loop fuel t (List.last l1 (task_ring s)) (hd 0 l2)) Q s.
Proof.
  intros Ers Hne Ht Hf H1 [Hno Hyes]. revert fuel l1 Ers Ht Hf.
  induction l2 as [|a l2 IH]; [done|]; intros fuel l1 Ers Ht Hf.
  destruct fuel as [|fuel]; [simpl in Hf; lia|]. cbn [unlink_loop hd].
  destruct (ring_tail _ _ _ Hring) as (q & tr & Eq & Htr & Hnr).
  assert (Ha : exists x, tasks s !! a = Some x).
  { destruct (ring_in _ _ _ a Hring) as [x Hx]; [|by exists x].
    rewrite Ers. apply elem_of_app. right. by left. }
  destruct Ha as (x & Hx). wsteps. apply (wp_deref a x); [done|]. wsteps.
  assert (Hnx : next x = hd (hd 0 rs) l2).
  { destruct Hring as [_ Hs _ _ _]. rewrite Ers in Hs. apply lseg_app in Hs as [_ [(x' & Hx' & E) _]].
    rewrite Hx in Hx'. injection Hx' as <-. by rewrite Ers. }
  assert (Hlast : List.last rs 0 = task_ring s) by apply Hring.
  destruct (Z.eqb_spec a t) as [->|Hat].
  - assert (Hl12 : l1 ++ l2 <> []).
    { intros [-> ->]%app_eq_nil. by apply H1. }
    set (p := List.last l1 (task_ring s)).
    assert (Hp : p ∈ rs /\ p ∈ l1 ++ l2 /\ p = List.last l1 (List.last (t :: l2) 0)).
    { subst p. rewrite <- Hlast. destruct l1 as [|b l1 _] using rev_ind.
      - rewrite Ers. cbn [app] in *. destruct l2 as [|c l2 _] using rev_ind; [done|].
        change (List.last [] ?d) with d. rewrite (app_comm_cons l2 [c] t), List.last_last.
        split; [|split; [|done]]; apply elem_of_app; right; by left.
      - rewrite !List.last_last. rewrite Ers.
        assert (b ∈ l1 ++ [b]) by (apply elem_of_app; right; by left).
        split; [|split; [|done]]; apply elem_of_app; by left. }
    destruct Hp as (Hp1 & Hp2 & Hp3). destruct (ring_in _ _ _ _ Hring Hp1) as [tp Htp].
    wsteps. apply (wp_store p _ tp); [done|]. wsteps.
    assert (Hcut : ring_ok (<[p := set_next (next x) tp]> (tasks s)) (List.last (l1 ++ l2) 0) (l1 ++ l2)).
    { apply (ring_cut _ l1 t l2); try done. rewrite <- Ers, Hlast. exact Hring. }
    assert (Hend : (if task_ring s =? t then p else task_ring s) = List.last (l1 ++ l2) 0).
    { destruct (Z.eqb_spec (task_ring s) t) as [E|E].
      - assert (l2 = []) as ->.
        { destruct l2 as [|c l2 _] using rev_ind; [done|]. exfalso.
          rewrite Ers in Hlast. replace (l1 ++ t :: l2 ++ [c]) with ((l1 ++ t :: l2) ++ [c]) in Hlast
            by by rewrite <- app_assoc. rewrite List.last_last in Hlast.
          destruct Hring as [_ _ Hnd _ _]. rewrite Ers in Hnd.
          apply list.NoDup_app in Hnd as (_ & _ & [Hd _]%list.NoDup_cons). apply Hd.
          rewrite <- E, <- Hlast. apply elem_of_app. right. by left. }
        subst p. rewrite app_nil_r in *. destruct l1 as [|b l1 _] using rev_ind; [done|].
        by rewrite !List.last_last.
      - destruct l2 as [|c l2 _] using rev_ind.
        + rewrite Ers in Hlast. rewrite List.last_last in Hlast. by destruct E.
        + rewrite Ers in Hlast. replace (l1 ++ t :: l2 ++ [c]) with ((l1 ++ t :: l2) ++ [c]) in Hlast
            by by rewrite <- app_assoc. rewrite List.last_last in Hlast. rewrite (app_assoc l1 l2 [c]), List.last_last. congruence. }
    specialize (Hyes l1 l2 p tp (next x) Ers Hp2 Htp Hcut).
    apply wp_when; intros Eb; wsteps; rewrite Eb in Hend; [rewrite <- Hend in Hyes; exact Hyes|].
    rewrite set_ring_same in Hyes; [exact Hyes|]. exact Hend.
  - wsteps. apply (wp_deref (task_ring s) tr); [done|]. rewrite Hnx, Hnr.
    destruct l2 as [|b l2]; cbn [hd].
    + rewrite Z.eqb_refl. wsteps. apply Hno. rewrite Ers. intros [?|Hin]%elem_of_app; [done|].
      by apply list_elem_of_singleton in Hin.
    + destruct (Z.eqb_spec b (hd 0 rs)) as [E|_].
      * exfalso. destruct Hring as [_ _ Hnd _ _]. rewrite Ers in Hnd.
        replace (l1 ++ a :: b :: l2) with ((l1 ++ [a]) ++ b :: l2) in Hnd by by rewrite <- app_assoc.
        apply list.NoDup_app in Hnd as (_ & Hd & _). apply (Hd b); [|by left].
        rewrite E, Ers. destruct l1; by left.
      * change b with (hd 0 (b :: l2)) at 1.
        replace a with (List.last (l1 ++ [a]) (task_ring s)) at 1 by apply List.last_last.
        apply IH; [done| |..].
        -- by rewrite <- app_assoc.
        -- intros [?|Hin%list_elem_of_singleton]%elem_of_app; [done|congruence].
        -- simpl in *. lia.
Qed.

Lemma wp_unlink INIT Q :
  INIT ∈ rs -> t <> INIT -> t <> 0 -> unlinked Q -> wp (unlink_from_ring INIT t) Q s.
Proof.
  intros HI HtI Ht0 HQ. destruct (ring_tail _ _ _ Hring) as (q & tr & Eq & Htr & Hnr).
  assert (Hr0 : task_ring s <> 0).
  { apply (r_nz _ _ _ Hring). rewrite Eq. apply elem_of_app. right. by left. }
  unfold unlink_from_ring. wsteps. do 2 rw_test. cbn [orb]. wsteps.
  apply (wp_deref _ tr); [done|]. rewrite Hnr.
  pose proof (ring_length _ _ _ Hring) as Hlen.
  destruct (Z.eqb_spec (hd 0 rs) (task_ring s)) as [E|E].
  - assert (q = []) as ->.
    { destruct q as [|a q]; [done|]. exfalso. destruct Hring as [_ _ Hnd _ _]. rewrite Eq in *.
      cbn in E. apply list.NoDup_cons in Hnd as [Hd _]. apply Hd. subst a. apply elem_of_app. right. by left. }
    cbn [app] in Eq. rewrite Eq in HI. apply list_elem_of_singleton in HI.
    destruct (Z.eqb_spec (task_ring s) t) as [Et|Et]; [congruence|]. wsteps.
    apply HQ. rewrite Eq. by intros ?%list_elem_of_singleton.
  - wsteps. change (task_ring s) with (List.last [] (task_ring s)).
    apply (unlink_loop_ok _ [] rs); try done.
    + apply Hring.
    + apply not_elem_of_nil.
    + intros E1. rewrite E1 in HI. apply list_elem_of_singleton in HI. congruence.
Qed.
End Unlink.

Lemma wp_ring_insert {H} t x rs (Q : unit -> sched H -> Prop) s :
  ring_ok (tasks s) (task_ring s) rs -> t ∉ rs -> t <> 0 -> tasks s !! t = Some x ->
  (forall ts', ring_ok ts' t (rs ++ [t]) ->
     (exists tr, tasks s !! task_ring s = Some tr /\ task_ring s <> t /\
        ts' = <[task_ring s := set_next t tr]> (<[t := set_next (next tr) x]> (tasks s))) ->
     Q tt (set_ring t (set_tasks ts' s))) ->
  wp (ring_insert t) Q s.
Proof.
  intros Hring Ht Ht0 Hx HQ. destruct (ring_tail _ _ _ Hring) as (q & tr & Eq & Htr & Hnr).
  assert (Hin : task_ring s ∈ rs) by (rewrite Eq; apply elem_of_app; right; by left).
  pose proof (r_nz _ _ _ Hring _ Hin) as Hr0. assert (Hrt : task_ring s <> t) by (intros <-; done).
  unfold ring_insert. wsteps. rw_test. wsteps. apply (wp_deref _ tr); [done|]. wsteps.
  apply (wp_store t _ x); [done|]. wsteps.
  apply (wp_store (task_ring s) _ tr); [by cbn; rewrite lookup_insert_ne|]. wsteps.
  cbn [set_tasks tasks]. apply HQ; [|by exists tr].
  set (ts1 := <[t := set_next (next tr) x]> (tasks s)).
  destruct Hring as [Hl Hs Hn Hz Hne]. split.
  - apply List.last_last.
  - apply lseg_last. rewrite hd_app. replace (hd (hd 0 [t]) rs) with (hd 0 rs) by by destruct rs. split.
    + rewrite Eq in Hs, Ht, Hn |- *. apply lseg_last in Hs as [Hs _]. apply lseg_last. split.
      * eapply lseg_same; [|exact Hs]. intros a u Ha Hu. exists u. split; [|done].
        apply list.NoDup_app in Hn as (_ & Hd & _).
        rewrite lookup_insert_ne by (intros <-; apply (Hd _ Ha); by left). unfold ts1.
        rewrite lookup_insert_ne; [done|]. intros <-. apply Ht. apply elem_of_app. by left.
      * eexists. split; [apply lookup_insert_eq|done].
    + eexists. rewrite lookup_insert_ne by done. unfold ts1. split; [apply lookup_insert_eq|done].
  - apply list.NoDup_app. split; [done|]. split; [|apply NoDup_singleton].
    intros a Ha ->%list_elem_of_singleton. done.
  - intros a [Ha| ->%list_elem_of_singleton]%elem_of_app; [by apply Hz|done].
  - by destruct rs.
Qed.
