(* ===== verification/TaskStack.v ===== *)
(** * The initial frame

    [prepare_initial_stack] writes the frame the timer interrupt pops when it
    first switches to a task: what the 22 words hold afterwards, and that the
    stores stay inside the stack. *)

From Stdlib Require Import ZArith Lia.
From S2P Require Import Prelude Memory AllocSpec Heaps Multitask TaskLogic.

(** The bytes of the word [v] sit at address [a] of the region [d] at [p]. *)
Definition word_at (n : nat) (p : Z) (d : list Z) (a v : Z) : Prop :=
  forall k, 0 <= k < Z.of_nat n -> d !! Z.to_nat (a - p + k) = Some (v / 256 ^ k mod 256).

Lemma word_at_ld n m p d a v :
  rbs m p (length d) = d -> p <= a -> a + Z.of_nat n <= p + lenZ d -> word_at n p d a v ->
  ld n m a = v mod 256 ^ Z.of_nat n.
Proof.
  intros Hd. revert a v. induction n as [|n IH]; intros a v Hp Ha Hw; cbn [ld].
  { by rewrite Z.mod_1_r. }
  rewrite (IH (a + 1) (v / 256)); [|lia..|].
  - assert (E : rb m a = v mod 256).
    { specialize (Hw 0 ltac:(lia)). rewrite <- Hd in Hw.
      rewrite lookup_rbs in Hw by (unfold lenZ in *; lia). injection Hw as Hw.
      rewrite Z.pow_0_r, Z.div_1_r in Hw. rewrite <- Hw. f_equal. lia. }
    rewrite E, Nat2Z.inj_succ, Z.pow_succ_r, Z.rem_mul_r by lia. lia.
  - intros k Hk. replace (a + 1 - p + k) with (a - p + (k + 1)) by lia.
    rewrite Hw by lia. rewrite Z.pow_add_r, Z.mul_comm, <- Z.div_div by lia. done.
Qed.

Section Stack.
Context {H : Type} `{!Heaps H, !HeapsOk H}.

(** What stores into a kernel region leave as it was: the room in both
    heaps, and everything outside the kernel area. *)
Record stores_only (h h' : H) : Prop := {
  so_mem : only_in k_lo k_hi (hp_mem h) (hp_mem h');
  so_room ns : k_fits h ns -> k_fits h' ns;
  so_user n : u_fits h n -> u_fits h' n
}.
#[export] Instance stores_only_refl : Reflexive stores_only.
Proof. by split. Qed.
#[export] Instance stores_only_trans : Transitive stores_only.
Proof. intros ? ? ? [? ? ?] [? ? ?]. split; [by etransitivity|eauto..]. Qed.

Lemma wp_poke n a v p d A B (Q : unit -> sched H -> Prop) s :
  hp_rel (heaps s) A B -> A !! p = Some d -> p <= a -> a + Z.of_nat n <= p + lenZ d ->
  (forall h d', hp_rel h (<[p := d']> A) B -> length d' = length d -> word_at n p d' a v ->
     (forall j, ~ (a <= p + Z.of_nat j < a + Z.of_nat n) -> d' !! j = d !! j) ->
     stores_only (heaps s) h -> Q tt (set_heaps h s)) ->
  wp (poke n a v) Q s.
Proof.
  revert a v d A s. induction n as [|n IH]; intros a v d A s Hrel Hp Ha He HQ; cbn [poke].
  { wsteps. replace s with (set_heaps (heaps s) s) by by destruct s. apply (HQ _ d); try done.
    - by rewrite insert_id.
    - intros k Hk. lia. }
  wsteps. apply (wp_kheap (CWrite a v) A B); [done| |done|].
  { exists p, d. split; [done|lia]. }
  intros r h A' E Hstep Hrel' Hout.
  assert (Hso : stores_only (heaps s) h).
  { assert (Hc : client_ok A (CWrite a v)) by (exists p, d; split; [done|lia]).
    split; [done|by intros ns; eapply (k_fits_write _ _ _ _ _ _ _ ns Hrel Hc E)|].
    intros m. by eapply (u_fits_kernel _ _ _ _ _ _ m Hrel Hc). }
  clear E Hout. inversion Hstep; subst.
  match goal with Hq : A !! ?q = Some ?c |- _ => assert (q = p) as -> end.
  { destruct (decide (p0 = p)) as [|Hne]; [done|].
    destruct (k_disjoint _ _ _ Hrel _ _ _ _ H2 Hp Hne); lia. }
  rewrite Hp in H2. injection H2 as <-. wsteps.
  eapply (IH (a + 1) (v / 256) _ _ (set_heaps h s)); [exact Hrel'|apply lookup_insert_eq|lia| |].
  { unfold lenZ in *. rewrite length_insert. lia. }
  intros h2 d2 Hrel2 Hlen Hw Hrest Hout2. rewrite insert_insert_eq in Hrel2.
  rewrite length_insert in Hlen. apply (HQ h2 d2); [done|done| | |].
  - intros k Hk. destruct (Z.eq_dec k 0) as [->|Hk0].
    + rewrite Hrest by lia. replace (a - p + 0) with (a - p) by lia.
      rewrite list_lookup_insert_eq by (unfold lenZ in *; lia). unfold u8. by rewrite Z.div_1_r.
    + replace (a - p + k) with (a + 1 - p + (k - 1)) by lia. rewrite Hw by lia. do 2 f_equal.
      rewrite Z.div_div by lia. f_equal. replace k with (1 + (k - 1)) at 2 by lia.
      by rewrite Z.pow_add_r by lia.
  - intros j Hj. rewrite Hrest by lia. apply list_lookup_insert_ne. lia.
  - cbn in Hout2. by etransitivity.
Qed.

Lemma wp_poke_all ws sp p d A B (Q : unit -> sched H -> Prop) s :
  hp_rel (heaps s) A B -> A !! p = Some d -> base.NoDup ws.*1 ->
  (forall i v, (i, v) ∈ ws -> p <= sp + 8 * i /\ sp + 8 * i + 8 <= p + lenZ d) ->
  (forall h d', hp_rel h (<[p := d']> A) B -> length d' = length d ->
     (forall i v, (i, v) ∈ ws -> word_at 8 p d' (sp + 8 * i) v) ->
     (forall i, i ∉ ws.*1 -> forall k, 0 <= k < 8 -> p <= sp + 8 * i ->
        d' !! Z.to_nat (sp + 8 * i - p + k) = d !! Z.to_nat (sp + 8 * i - p + k)) ->
     stores_only (heaps s) h -> Q tt (set_heaps h s)) ->
  wp (poke_all ws sp) Q s.
Proof.
  revert d A s. induction ws as [|[i v] ws IH]; intros d A s Hrel Hp Hnd Hin HQ; cbn [poke_all].
  { wsteps. replace s with (set_heaps (heaps s) s) by by destruct s.
    apply (HQ _ d); try done; [by rewrite insert_id|by intros ? ? ?%not_elem_of_nil]. }
  cbn [fmap list_fmap fst] in Hnd. apply list.NoDup_cons in Hnd as [Hi Hnd]. cbn [fst] in Hi.
  destruct (Hin i v) as [H1 H2]; [by left|].
  wsteps. apply (wp_poke 8 (sp + 8 * i) v p d A B); [done|done|done|lia|].
  intros h d1 Hrel1 Hl1 Hw1 Hr1 Ho1.
  apply (IH d1 (<[p := d1]> A)); [done|apply lookup_insert_eq|done| |].
  { intros i' v' Hi'. unfold lenZ in *. rewrite Hl1. apply (Hin i' v'). by right. }
  cbn. intros h2 d2 Hrel2 Hl2 Hw2 Hr2 Ho2. rewrite insert_insert_eq in Hrel2.
  apply (HQ h2 d2); [done|congruence| | |by etransitivity].
  - intros i' v' [[= -> ->]|Hi']%elem_of_cons; [|by apply Hw2].
    intros k Hk. rewrite Hr2 by (try done; lia). apply Hw1. lia.
  - intros i' [Hne Hi']%not_elem_of_cons k Hk Hge. cbn in Hne. rewrite Hr2 by done.
    apply Hr1. lia.
Qed.

(** A stack that holds the frame whatever its alignment. *)
Definition stack_ok (size : Z) : Prop := 8 * FRAME_QWORDS + 15 <= size <= MAX_REQ.

(** The address [prepare_initial_stack] returns. *)
Definition frame_base (top : Z) : Z := top / 16 * 16 - 176.

Lemma align_down top : 0 <= top < 18446744073709551616 -> Z.land top (u64 (Z.lnot 15)) = top / 16 * 16.
Proof.
  intros Ht. change (u64 (Z.lnot 15)) with (Z.ldiff (Z.ones 64) (Z.ones 4)).
  replace (Z.land top (Z.ldiff (Z.ones 64) (Z.ones 4))) with (Z.ldiff (Z.land top (Z.ones 64)) (Z.ones 4)).
  2: { apply Z.bits_inj'. intros i Hi. rewrite ?Z.land_spec, ?Z.ldiff_spec, ?Z.land_spec.
       by destruct (Z.testbit top i), (Z.testbit (Z.ones 64) i), (Z.testbit (Z.ones 4) i). }
  rewrite Z.land_ones, Z.mod_small by (simpl; lia). rewrite Z.ldiff_ones_r by lia.
  by rewrite Z.shiftl_mul_pow2, Z.shiftr_div_pow2 by lia.
Qed.

Lemma frame_words_range entry top i v : (i, v) ∈ frame_words entry top -> 0 <= i < 22.
Proof. rewrite list_elem_of_In. cbn. intros Hi. repeat destruct Hi as [[= <- <-]|Hi]; lia || done. Qed.

Lemma wp_prepare entry p d A B (Q : Z -> sched H -> Prop) s :
  hp_rel (heaps s) A B -> A !! p = Some d -> stack_ok (lenZ d) -> 0 <= p ->
  p + lenZ d < 18446744073709551616 ->
  (forall h d', let sp := frame_base (p + lenZ d) in
     hp_rel h (<[p := d']> A) B -> length d' = length d -> p <= sp ->
     (forall i v, (i, v) ∈ frame_words entry (p + lenZ d) -> word_at 8 p d' (sp + 8 * i) v) ->
     stores_only (heaps s) h -> Q sp (set_heaps h s)) ->
  wp (prepare_initial_stack entry (p + lenZ d)) Q s.
Proof.
  intros Hrel Hp [Hlo Hhi] H0 Hend HQ. unfold prepare_initial_stack, FRAME_QWORDS in *. wsteps.
  pose proof (Z.div_mod (p + lenZ d) 16 ltac:(lia)).
  pose proof (Z.mod_pos_bound (p + lenZ d) 16 ltac:(lia)).
  rewrite align_down, u64_small by lia. change (8 * 22) with 176 in *.
  fold (frame_base (p + lenZ d)). unfold frame_base in *.
  apply (wp_poke_all _ _ p d A B); [done|done| | |].
  - cbn. apply (bool_decide_unpack _). by vm_compute.
  - intros i v Hi%frame_words_range. lia.
  - intros h d' Hr Hl Hw _ Ho. wsteps. apply (HQ h d'); try done. lia.
Qed.
End Stack.
