(* ===== verification/TaskInv.v ===== *)
(** * The invariant of the scheduler

    [core_ok] ties the static variables of multitask.c to a ring of tasks
    [rs], the zombie list [zs], the tasks [ps] a reaper has taken off that
    list, and the heap regions the tasks own.  Each operation is proved to
    keep it, and to return. *)

From Stdlib Require Import ZArith Lia.
From S2P Require Import Prelude Memory AllocSpec Heaps Multitask TaskLogic TaskStack.

Section Inv.
Context {H : Type} `{!Heaps H, !HeapsOk H} (INIT : Z).

(** The kernel regions a task owns: itself and its stack.  [init_task] is a
    static object. *)
Definition kown (a : Z) (t : task) : list Z := if a =? INIT then [] else [a; kstack t].
(** The user region: the program image. *)
Definition uown (a : Z) (t : task) : list Z := if user_mem t =? 0 then [] else [user_mem t].

Record core_ok (h : H) (ts : gmap Z task) (ring cur np zl : Z)
    (A B : regions) (X Y rs zs ps : list Z) : Prop := {
  ok_heaps : hp_rel h A B;
  (** no leak: the kernel regions are the tasks' and the foreign ones [X] *)
  ok_k : owned kown ts ++ X ≡ₚ keys A;
  ok_u : owned uown ts ++ Y ≡ₚ keys B;
  ok_ring : ring_ok ts ring rs;
  ok_zhead : zl = hd 0 zs;
  ok_zseg : zseg ts zs;
  ok_znodup : base.NoDup (zs ++ ps);
  ok_dom a : is_Some (ts !! a) <-> a ∈ rs \/ a ∈ zs ++ ps;
  ok_nz a : is_Some (ts !! a) -> a <> 0;
  ok_zombie a t : a ∈ zs -> ts !! a = Some t -> state t = TASK_ZOMBIE;
  ok_listed a t : a ∈ rs -> ts !! a = Some t -> state t = TASK_ZOMBIE -> a ∈ zs ++ ps;
  ok_blocked a t : ts !! a = Some t -> state t <> TASK_BLOCKED;
  ok_init : INIT ∈ rs /\ INIT ∉ zs ++ ps;
  ok_init_pid t : ts !! INIT = Some t -> pid t = 0;
  ok_pid a t : a <> INIT -> ts !! a = Some t -> 0 < pid t < np;
  ok_pid_inj a b t u : ts !! a = Some t -> ts !! b = Some u -> pid t = pid u -> a = b;
  ok_np : 1 <= np <= 2147483647;
  ok_cur : cur = 0 \/ cur ∈ rs \/ (cur ∈ zs ++ ps /\ exists t, ts !! cur = Some t /\ next t ∈ rs);
  ok_stack a t : a <> INIT -> ts !! a = Some t ->
    exists d, A !! kstack t = Some d /\ lenZ d = kstack_size t
}.
End Inv.
#[global] Arguments ok_heaps {_ _ _ _ _ _ _ _ _ _ _ _ _ _ _ _}.
#[global] Arguments ok_k {_ _ _ _ _ _ _ _ _ _ _ _ _ _ _ _}.
#[global] Arguments ok_u {_ _ _ _ _ _ _ _ _ _ _ _ _ _ _ _}.
#[global] Arguments ok_ring {_ _ _ _ _ _ _ _ _ _ _ _ _ _ _ _}.
#[global] Arguments ok_zhead {_ _ _ _ _ _ _ _ _ _ _ _ _ _ _ _}.
#[global] Arguments ok_zseg {_ _ _ _ _ _ _ _ _ _ _ _ _ _ _ _}.
#[global] Arguments ok_znodup {_ _ _ _ _ _ _ _ _ _ _ _ _ _ _ _}.
#[global] Arguments ok_dom {_ _ _ _ _ _ _ _ _ _ _ _ _ _ _ _}.
#[global] Arguments ok_nz {_ _ _ _ _ _ _ _ _ _ _ _ _ _ _ _}.
#[global] Arguments ok_zombie {_ _ _ _ _ _ _ _ _ _ _ _ _ _ _ _}.
#[global] Arguments ok_listed {_ _ _ _ _ _ _ _ _ _ _ _ _ _ _ _}.
#[global] Arguments ok_blocked {_ _ _ _ _ _ _ _ _ _ _ _ _ _ _ _}.
#[global] Arguments ok_init {_ _ _ _ _ _ _ _ _ _ _ _ _ _ _ _}.
#[global] Arguments ok_init_pid {_ _ _ _ _ _ _ _ _ _ _ _ _ _ _ _}.
#[global] Arguments ok_pid {_ _ _ _ _ _ _ _ _ _ _ _ _ _ _ _}.
#[global] Arguments ok_pid_inj {_ _ _ _ _ _ _ _ _ _ _ _ _ _ _ _}.
#[global] Arguments ok_np {_ _ _ _ _ _ _ _ _ _ _ _ _ _ _ _}.
#[global] Arguments ok_cur {_ _ _ _ _ _ _ _ _ _ _ _ _ _ _ _}.
#[global] Arguments ok_stack {_ _ _ _ _ _ _ _ _ _ _ _ _ _ _ _}.

Abbreviation mt_ok I s := (core_ok I (heaps s) (tasks s) (task_ring s) (current s) (next_pid s) (zombie_list s)).

Section Facts.
Context {H : Type} `{!Heaps H, !HeapsOk H} (INIT : Z).
Context (h : H) (ts : gmap Z task) (ring cur np zl : Z) (A B : regions) (X Y rs zs ps : list Z).
Context (Hok : core_ok INIT h ts ring cur np zl A B X Y rs zs ps).

Lemma core_own a t : a <> INIT -> ts !! a = Some t -> a ∈ keys A /\ kstack t ∈ keys A.
Proof.
  intros Ha Ht. rewrite <- (ok_k Hok).
  split; apply elem_of_app; left; apply elem_of_owned; exists a, t; (split; [done|]);
    unfold kown; destruct (Z.eqb_spec a INIT); try done; [by left|right; by left].
Qed.
Lemma core_user a t : ts !! a = Some t -> user_mem t <> 0 -> user_mem t ∈ keys B.
Proof.
  intros Ht Hu. rewrite <- (ok_u Hok).
  apply elem_of_app. left. apply elem_of_owned. exists a, t. split; [done|].
  unfold uown. destruct (Z.eqb_spec (user_mem t) 0); [done|by left].
Qed.

(** Changing fields of a task that neither link the ring nor own anything;
    the task may move to the zombie list. *)
Lemma core_relist a t t' zl' zs' :
  ts !! a = Some t -> next t' = next t -> kown INIT a t' = kown INIT a t -> uown a t' = uown a t ->
  pid t' = pid t -> (a <> INIT -> kstack_size t' = kstack_size t) -> state t' <> TASK_BLOCKED ->
  zl' = hd 0 zs' -> zseg (<[a := t']> ts) zs' -> base.NoDup (zs' ++ ps) -> INIT ∉ zs' ++ ps ->
  (forall b, b ∈ zs' <-> b ∈ zs \/ (b = a /\ b ∈ zs')) ->
  (a ∈ zs' -> state t' = TASK_ZOMBIE) -> (a ∈ rs -> state t' = TASK_ZOMBIE -> a ∈ zs' ++ ps) ->
  core_ok INIT h (<[a := t']> ts) ring cur np zl' A B X Y rs zs' ps.
Proof.
  intros Ha Hn Hk Hu Hp Hks Hs3 Hzl Hz Hnd HI Hzs Hs1 Hs2.
  assert (Hback : forall b u, <[a := t']> ts !! b = Some u ->
    (b = a /\ u = t') \/ (b <> a /\ ts !! b = Some u)).
  { intros b u [[<- <-]|[? ?]]%lookup_insert_Some; [by left|by right]. }
  assert (Hpid : forall b u, <[a := t']> ts !! b = Some u -> exists v, ts !! b = Some v /\ pid v = pid u).
  { intros b u [[-> ->]|[_ Hb]]%Hback; [by exists t|by exists u]. }
  assert (Hdom : forall b, is_Some (<[a := t']> ts !! b) <-> is_Some (ts !! b)).
  { intros b. destruct (decide (a = b)) as [<-|Hne].
    - rewrite lookup_insert_eq, Ha. split; by eexists.
    - by rewrite lookup_insert_ne. }
  assert (Hin : forall b, b ∈ zs ++ ps -> b ∈ zs' ++ ps).
  { intros b. rewrite !elem_of_app, (Hzs b). tauto. }
  assert (Haa : a ∈ rs \/ a ∈ zs ++ ps) by (apply (ok_dom Hok); by exists t).
  destruct Hok. split; try done.
  - by rewrite owned_update.
  - by rewrite owned_update.
  - by apply (ring_ok_update _ _ _ a t (fun _ => t')).
  - intros b. rewrite Hdom, ok_dom0, !elem_of_app, (Hzs b). rewrite elem_of_app in Haa.
    split; [tauto|]. intros [?|[[?|[-> _]]|?]]; tauto.
  - intros b. rewrite Hdom. apply ok_nz0.
  - intros b u Hb [[-> ->]|[Hne Hu']]%Hback; [auto|].
    apply Hzs in Hb as [Hb|[? _]]; [eauto|done].
  - intros b u Hb [[-> ->]|[_ Hu']]%Hback; eauto.
  - intros b u [[-> ->]|[_ Hu']]%Hback; eauto.
  - split; [apply ok_init0|done].
  - intros u Hi. destruct (Hpid _ _ Hi) as (v & Hv & <-). auto.
  - intros b u Hne Hi. destruct (Hpid _ _ Hi) as (v & Hv & <-). eauto.
  - intros b c u v Hb Hc E. destruct (Hpid _ _ Hb) as (u' & Hu' & E1), (Hpid _ _ Hc) as (v' & Hv' & E2).
    eapply ok_pid_inj0; [done..|congruence].
  - destruct ok_cur0 as [?|[?|(Hc & u & Hu' & ?)]]; [by left|right; by left|right; right].
    split; [auto|]. destruct (decide (a = cur)) as [->|Hne].
    + exists t'. rewrite lookup_insert_eq. split; [done|]. rewrite Hn. congruence.
    + exists u. by rewrite lookup_insert_ne.
  - intros b u Hne [[-> ->]|[_ Hu']]%Hback; [|eauto]. destruct (ok_stack0 a t Hne Ha) as (d & Hd & El).
    exists d. unfold kown in Hk. destruct (Z.eqb_spec a INIT); [done|]. injection Hk as ->.
    split; [done|]. rewrite El, Hks; done.
Qed.

Lemma core_update a t t' :
  ts !! a = Some t -> next t' = next t -> (a ∈ zs -> znext t' = znext t) ->
  kown INIT a t' = kown INIT a t -> uown a t' = uown a t -> pid t' = pid t ->
  (a <> INIT -> kstack_size t' = kstack_size t) ->
  (a ∈ zs -> state t' = TASK_ZOMBIE) -> (a ∈ rs -> state t' = TASK_ZOMBIE -> a ∈ zs ++ ps) ->
  state t' <> TASK_BLOCKED ->
  core_ok INIT h (<[a := t']> ts) ring cur np zl A B X Y rs zs ps.
Proof.
  intros Ha Hn Hz Hk Hu Hp Hks Hs1 Hs2 Hs3. apply (core_relist a t); try done; try apply Hok.
  - eapply zseg_same; [|apply Hok]. intros b u Hb Hbu. destruct (decide (a = b)) as [<-|Hne].
    + rewrite lookup_insert_eq. exists t'. split; [done|]. rewrite Ha in Hbu. injection Hbu as <-. auto.
    + rewrite lookup_insert_ne by done. by exists u.
  - intros b. tauto.
Qed.

(** A task of the ring joins the zombie list. *)
Lemma core_zombie a t t' :
  ts !! a = Some t -> a ∈ rs -> a ∉ zs ++ ps -> a <> INIT -> next t' = next t -> znext t' = zl ->
  kstack t' = kstack t -> user_mem t' = user_mem t -> pid t' = pid t ->
  kstack_size t' = kstack_size t -> state t' = TASK_ZOMBIE ->
  core_ok INIT h (<[a := t']> ts) ring cur np a A B X Y rs (a :: zs) ps.
Proof.
  intros Ha Har Hna HaI Hn Hz Hk Hu Hp Hks Hs.
  assert (Haz : a ∉ zs) by (intros ?; apply Hna, elem_of_app; by left).
  apply (core_relist a t); try done.
  - unfold kown. by rewrite Hk.
  - unfold uown. by rewrite Hu.
  - by rewrite Hs.
  - split; [exists t'; rewrite lookup_insert_eq; split; [done|by rewrite Hz, (ok_zhead Hok)]|].
    eapply zseg_same; [|apply Hok]. intros b u Hb Hbu. exists u.
    rewrite lookup_insert_ne; [done|]. by intros ->.
  - apply list.NoDup_cons. split; [done|apply Hok].
  - intros [?|?]%elem_of_cons; [congruence|]. by apply (ok_init Hok).
  - intros b. rewrite !elem_of_cons. tauto.
  - intros _ _. by left.
Qed.

(** A heap step that leaves the regions' addresses alone. *)
Lemma core_heaps h' A' :
  hp_rel h' A' B -> keys A' ≡ₚ keys A ->
  (forall p d, A !! p = Some d -> exists d', A' !! p = Some d' /\ lenZ d' = lenZ d) ->
  core_ok INIT h' ts ring cur np zl A' B X Y rs zs ps.
Proof.
  intros Hr Hk Hl. destruct Hok. split; try done.
  - by rewrite Hk.
  - intros a t Ha Ht. destruct (ok_stack0 a t Ha Ht) as (d & Hd & E).
    destruct (Hl _ _ Hd) as (d' & ? & ?). exists d'. split; [done|congruence].
Qed.

(** The tasks of the ring other than the zombies are runnable. *)
Lemma core_runnable a t : a ∈ rs -> a ∉ zs ++ ps -> ts !! a = Some t -> runnable t = true.
Proof.
  intros Ha Hz Ht. pose proof (ok_listed Hok a t Ha Ht) as H1.
  pose proof (ok_blocked Hok a t Ht) as H2.
  unfold runnable. destruct (state t); try done. exfalso. by apply Hz, H1.
Qed.

(** A task leaves the ring: its [next] neighbour's predecessor was relinked. *)
Lemma core_cut t l1 l2 p tp n :
  rs = l1 ++ t :: l2 -> t ∈ zs ++ ps -> p ∈ l1 ++ l2 -> ts !! p = Some tp -> t <> INIT ->
  cur = 0 \/ cur ∈ l1 ++ l2 \/ (cur = t /\ exists x, ts !! t = Some x /\ next x ∈ l1 ++ l2) ->
  ring_ok (<[p := set_next n tp]> ts) (List.last (l1 ++ l2) 0) (l1 ++ l2) ->
  core_ok INIT h (<[p := set_next n tp]> ts) (List.last (l1 ++ l2) 0) cur np zl A B X Y (l1 ++ l2) zs ps.
Proof.
  intros Ers Ht Hp Htp HtI Hcur Hring.
  assert (Hpt : p <> t).
  { intros ->. pose proof (ok_ring Hok) as [_ _ Hnd _ _].
    rewrite Ers in Hnd. apply list.NoDup_app in Hnd as (_ & Hd & [Hd2 _]%list.NoDup_cons).
    apply elem_of_app in Hp as [Hp|Hp]; [|done]. apply (Hd _ Hp). by left. }
  assert (Hsub : forall a, a ∈ rs <-> a ∈ l1 ++ l2 \/ a = t).
  { intros a. rewrite Ers, !elem_of_app, elem_of_cons. tauto. }
  set (ts' := <[p := set_next n tp]> ts) in *.
  assert (Hts : forall a u, ts' !! a = Some u -> exists v, ts !! a = Some v /\ set_next 0 u = set_next 0 v).
  { intros a u [[<- <-]|[_ ?]]%lookup_insert_Some; [by exists tp|by exists u]. }
  assert (Hdom : forall a, is_Some (ts' !! a) <-> is_Some (ts !! a)).
  { intros b. unfold ts'. destruct (decide (p = b)) as [<-|Hne].
    - rewrite lookup_insert_eq, Htp. split; by eexists.
    - by rewrite lookup_insert_ne. }
  assert (Hf : forall u v, set_next 0 u = set_next 0 v -> pid u = pid v /\ state u = state v /\
            kstack u = kstack v /\ kstack_size u = kstack_size v).
  { intros [] []. by intros [= -> -> -> -> -> -> -> -> ->]. }
  destruct Hok. split; try done.
  - unfold ts'. by rewrite owned_update.
  - unfold ts'. by rewrite owned_update.
  - eapply zseg_same; [|done]. intros b u Hb Hbu. unfold ts'. destruct (decide (p = b)) as [<-|Hne].
    + rewrite lookup_insert_eq. eexists. split; [done|]. cbn. congruence.
    + rewrite lookup_insert_ne by done. by exists u.
  - intros a. rewrite Hdom, ok_dom0, Hsub. split; [|tauto]. intros [[?|Ea]|?]; [tauto| |tauto].
    right. by rewrite Ea.
  - intros a. rewrite Hdom. apply ok_nz0.
  - intros a u Ha (v & Hv & (_ & -> & _)%Hf)%Hts. eauto.
  - intros a u Ha (v & Hv & (_ & -> & _)%Hf)%Hts. apply ok_listed0; [|done]. apply Hsub. by left.
  - intros a u (v & Hv & (_ & -> & _)%Hf)%Hts. eauto.
  - destruct ok_init0 as [Hi ?]. split; [|done]. by apply Hsub in Hi as [?| ->].
  - intros u (v & Hv & (-> & _)%Hf)%Hts. eauto.
  - intros a u Hne (v & Hv & (-> & _)%Hf)%Hts. eauto.
  - intros a b u v (u' & Hu' & (-> & _)%Hf)%Hts (v' & Hv' & (-> & _)%Hf)%Hts. eauto.
  - destruct Hcur as [?|[?|(-> & x & Hx & Hnx)]]; [by left|right; by left|].
    right. right. split; [done|]. exists x. unfold ts'. by rewrite lookup_insert_ne.
  - intros a u Hne (v & Hv & (_ & _ & -> & ->)%Hf)%Hts. eauto.
Qed.
End Facts.

(** Tasks that differ in their place in the ring only. *)
Definition sim_tasks (P : Z -> Prop) (ts ts' : gmap Z task) : Prop :=
  forall a, P a -> set_next 0 <$> ts' !! a = set_next 0 <$> ts !! a.
Lemma sim_refl P ts : sim_tasks P ts ts.
Proof. done. Qed.
Lemma sim_trans (P : Z -> Prop) ts1 ts2 ts3 :
  sim_tasks P ts1 ts2 -> sim_tasks P ts2 ts3 -> sim_tasks P ts1 ts3.
Proof. intros H1 H2 a Ha. rewrite H2 by done. by apply H1. Qed.
Lemma sim_get P ts ts' a t :
  sim_tasks P ts ts' -> P a -> ts !! a = Some t ->
  exists t', ts' !! a = Some t' /\ set_next 0 t' = set_next 0 t.
Proof.
  intros Hs Ha Ht. specialize (Hs a Ha). rewrite Ht in Hs. cbn in Hs.
  destruct (ts' !! a) as [t'|]; [|done]. exists t'. split; [done|]. exact (inj Some _ _ Hs).
Qed.
Lemma sim_next P ts p n tp : ts !! p = Some tp -> sim_tasks P ts (<[p := set_next n tp]> ts).
Proof.
  intros Hp a _. destruct (decide (p = a)) as [<-|Hne].
  - by rewrite lookup_insert_eq, Hp.
  - by rewrite lookup_insert_ne.
Qed.

(** The static variables the ring operations do not assign. *)
Definition stays {H} (s s' : sched H) : Prop :=
  current s' = current s /\ next_pid s' = next_pid s /\ kstack_top s' = kstack_top s.

(** The ring without the tasks [ps]. *)
Definition without (ps l : list Z) : list Z := base.filter (fun a => a ∉ ps) l.

Lemma without_none ps l : (forall a, a ∈ l -> a ∉ ps) -> without ps l = l.
Proof.
  unfold without. induction l as [|a l IH]; intros Hl; [done|].
  rewrite filter_cons_True by (apply Hl; by left).
  rewrite IH; [done|]. intros b Hb. apply Hl. by right.
Qed.
Lemma without_cut (t : Z) l1 l2 :
  base.NoDup (l1 ++ t :: l2) -> without [t] (l1 ++ t :: l2) = l1 ++ l2.
Proof.
  intros (_ & H1 & [H2 _]%list.NoDup_cons)%list.NoDup_app.
  assert (E : forall l, t ∉ l -> without [t] l = l).
  { intros l Hl. apply without_none. intros a Ha Hat%list_elem_of_singleton. by subst. }
  unfold without in *. rewrite list.filter_app, filter_cons_False, !E; [done|done| |].
  - intros Ht. apply (H1 t Ht). by left.
  - intros Hn. apply Hn. by left.
Qed.
Lemma without_cons (l : list Z) z ps : without ps (without [z] l) = without (z :: ps) l.
Proof.
  unfold without. rewrite list_filter_filter. apply list_filter_iff. intros a.
  rewrite !not_elem_of_cons. pose proof (not_elem_of_nil a). tauto.
Qed.
Lemma elem_of_without a ps l : a ∈ without ps l <-> a ∈ l /\ a ∉ ps.
Proof. unfold without. rewrite list_elem_of_filter. tauto. Qed.
