(* ===== verification/TaskOps.v ===== *)
(** * The operations of multitask.c keep the invariant

    One lemma per operation: from [mt_ok] the computation returns, and the
    state it leaves satisfies [mt_ok] for the ring, zombie list and regions
    the operation is meant to produce. *)

From Stdlib Require Import ZArith Lia.
From S2P Require Import Prelude Memory AllocSpec Heaps Multitask TaskLogic TaskStack TaskInv.

Section Ops.
Context {H : Type} `{!Heaps H, !HeapsOk H} (INIT : Z).

(** A task that is in no list any more and whose regions are freed. *)
Lemma core_delete h h' ts ring cur np zl A A' B B' X Y rs zs ps z x :
  core_ok INIT h ts ring cur np zl A B X Y rs zs (z :: ps) ->
  ts !! z = Some x -> z ∉ rs -> cur <> z -> hp_rel h' A' B' ->
  A' = delete z (delete (kstack x) A) ->
  (B' = if user_mem x =? 0 then B else delete (user_mem x) B) ->
  core_ok INIT h' (delete z ts) ring cur np zl A' B' X Y rs zs ps.
Proof.
  intros Hok Hx Hz Hcur Hr -> ->.
  assert (HzI : z <> INIT).
  { intros ->. destruct (ok_init Hok) as [_ Hn]. apply Hn, elem_of_app. right. by left. }
  assert (Hnd : base.NoDup (zs ++ ps) /\ z ∉ zs ++ ps).
  { pose proof (ok_znodup Hok) as Hn. rewrite <- Permutation_middle in Hn.
    by apply list.NoDup_cons in Hn as [? ?]. }
  destruct Hnd as [Hnd Hzp].
  destruct (core_own _ _ _ _ _ _ _ _ _ _ _ _ _ _ Hok z x HzI Hx) as [Hz1 Hz2].
  apply elem_of_keys in Hz1 as [dz Hdz], Hz2 as [dk Hdk].
  assert (Hown : z :: kstack x :: owned (kown INIT) (delete z ts) ++ X ≡ₚ keys A).
  { rewrite <- (ok_k Hok), (owned_delete _ ts z x Hx). unfold kown. by destruct (Z.eqb_spec z INIT). }
  assert (Hzk : z <> kstack x).
  { intros E. pose proof (keys_nodup A) as Hn. rewrite <- Hown in Hn.
    apply list.NoDup_cons in Hn as [Hn _]. apply Hn. rewrite E. by left. }
  assert (HkA : owned (kown INIT) (delete z ts) ++ X ≡ₚ keys (delete z (delete (kstack x) A))).
  { apply (Permutation_cons_inv (a := kstack x)), (Permutation_cons_inv (a := z)).
    rewrite Hown. unfold keys. rewrite (owned_delete _ A _ _ Hdk).
    rewrite (owned_delete _ (delete (kstack x) A) z dz) by by rewrite lookup_delete_ne.
    apply perm_swap. }
  assert (HuB : owned uown (delete z ts) ++ Y ≡ₚ keys (if user_mem x =? 0 then B else delete (user_mem x) B)).
  { pose proof (ok_u Hok) as Hu. rewrite (owned_delete _ ts z x Hx) in Hu. unfold uown at 1 in Hu.
    destruct (Z.eqb_spec (user_mem x) 0) as [E|E]; [exact Hu|].
    pose proof (core_user _ _ _ _ _ _ _ _ _ _ _ _ _ _ Hok z x Hx E) as [d Hd]%elem_of_keys.
    apply (Permutation_cons_inv (a := user_mem x)). unfold keys in *.
    rewrite (owned_delete _ B _ _ Hd) in Hu. exact Hu. }
  assert (Hback : forall a u, delete z ts !! a = Some u -> a <> z /\ ts !! a = Some u).
  { intros a u [? ?]%lookup_delete_Some. done. }
  assert (Hdom : forall a, is_Some (delete z ts !! a) <-> a <> z /\ is_Some (ts !! a)).
  { intros a. destruct (decide (a = z)) as [->|Hne].
    - rewrite lookup_delete_eq. split; [by intros [? ?]|tauto].
    - rewrite lookup_delete_ne by done. tauto. }
  split.
  - done.
  - done.
  - done.
  - apply ring_ok_delete; [done|apply Hok].
  - apply Hok.
  - eapply zseg_same; [|apply Hok]. intros a u Ha Hu. exists u. split; [|done].
    rewrite lookup_delete_ne; [done|]. intros <-. apply Hzp, elem_of_app. by left.
  - done.
  - intros a. rewrite Hdom, (ok_dom Hok), !elem_of_app, elem_of_cons.
    rewrite elem_of_app in Hzp. split; [tauto|]. intros [Ha|[Ha|Ha]];
      (split; [intros ->; tauto|tauto]).
  - intros a Ha. apply (ok_nz Hok). by apply Hdom.
  - intros a u Ha [_ Hu]%Hback. by apply (ok_zombie Hok a).
  - intros a u Ha [Hne Hu]%Hback Es. pose proof (ok_listed Hok a u Ha Hu Es) as Hl.
    rewrite elem_of_app, elem_of_cons in Hl. apply elem_of_app. tauto.
  - intros a u [_ Hu]%Hback. by apply (ok_blocked Hok a).
  - destruct (ok_init Hok) as [? Hn]. split; [done|]. intros Hi. apply Hn.
    rewrite elem_of_app, elem_of_cons. rewrite elem_of_app in Hi. tauto.
  - intros u [_ Hu]%Hback. by apply (ok_init_pid Hok).
  - intros a u Ha [_ Hu]%Hback. by apply (ok_pid Hok a).
  - intros a b u v [_ Hu]%Hback [_ Hv]%Hback. by apply (ok_pid_inj Hok).
  - apply Hok.
  - destruct (ok_cur Hok) as [?|[?|(Hc & u & Hu & ?)]]; [by left|right; by left|right; right].
    split; [|exists u; by rewrite lookup_delete_ne].
    rewrite elem_of_app, elem_of_cons in Hc. apply elem_of_app. destruct Hc as [?|[?|?]]; [tauto|done|tauto].
  - intros a u Ha Hu0. destruct (Hback _ _ Hu0) as [Hne Hu].
    destruct (ok_stack Hok a u Ha Hu) as (d & Hd & E).
    exists d. split; [|done].
    assert (Hin : kstack u ∈ keys (delete z (delete (kstack x) A))).
    { rewrite <- HkA. apply elem_of_app. left. apply elem_of_owned. exists a, u. split; [done|].
      unfold kown. destruct (Z.eqb_spec a INIT); [done|]. right. by left. }
    apply elem_of_keys in Hin as [d' Hd']. rewrite Hd'.
    apply lookup_delete_Some in Hd' as [_ [_ Hd']%lookup_delete_Some]. congruence.
Qed.

Lemma astep_free lo hi A p r A' : astep lo hi A (CFree p) r A' -> A' = delete p A.
Proof. by inversion 1. Qed.

Lemma wp_free_task z A B X Y rs zs ps (Q : unit -> sched H -> Prop) s :
  mt_ok INIT s A B X Y rs zs (z :: ps) -> z ∉ rs -> current s <> z ->
  (forall h A' B', let s' := set_heaps h (set_tasks (delete z (tasks s)) s) in
     mt_ok INIT s' A' B' X Y rs zs ps -> A' ⊆ A -> B' ⊆ B -> Q tt s') ->
  wp (free_task_resources INIT z) Q s.
Proof.
  intros Hok Hz Hcur HQ.
  assert (HzI : z <> INIT).
  { intros ->. destruct (ok_init Hok) as [_ Hn]. apply Hn, elem_of_app. right. by left. }
  destruct (proj2 (ok_dom Hok z)) as [x Hx]; [right; apply elem_of_app; right; by left|].
  pose proof (ok_nz Hok z (ex_intro _ x Hx)) as Hz0.
  destruct (core_own _ _ _ _ _ _ _ _ _ _ _ _ _ _ Hok z x HzI Hx) as [[dz Hdz]%elem_of_keys [dk Hdk]%elem_of_keys].
  assert (Hkz : kstack x <> z).
  { intros E. pose proof (keys_nodup A) as Hn. rewrite <- (ok_k Hok), (owned_delete _ _ z x Hx) in Hn.
    unfold kown in Hn at 1. destruct (Z.eqb_spec z INIT); [done|]. rewrite E in Hn.
    apply list.NoDup_cons in Hn as [Hn _]. apply Hn. by left. }
  pose proof (k_inside _ _ _ _ _ (ok_heaps Hok) Hdk) as (_ & _ & Hk0).
  unfold free_task_resources. do 2 rw_test. cbn [orb]. wsteps. apply (wp_deref z x); [done|]. wsteps.
  apply wp_when; [intros _|by rewrite (proj2 (Z.eqb_neq _ _) Hk0)]. wsteps.
  apply (wp_kheap _ A B); [apply Hok|by eexists|done|].
  intros r1 h1 A1 _ ->%astep_free Hrel1 _. wsteps.
  assert (Hend : forall ts1 h2 B1, hp_rel h2 (delete (kstack x) A) B1 ->
    delete z ts1 = delete z (tasks s) ->
    B1 = (if user_mem x =? 0 then B else delete (user_mem x) B) ->
    wp (bind (kheap_do (CFree z)) (fun _ => modify (fun s => set_tasks (delete z (tasks s)) s))) Q
      (set_heaps h2 (set_tasks ts1 s))).
  { intros ts1 h2 B1 Hrel2 Ets EB. wsteps. apply (wp_kheap _ (delete (kstack x) A) B1); [done| |done|].
    { exists dz. by rewrite lookup_delete_ne. }
    intros r3 h3 A3 _ ->%astep_free Hrel3 _. wsteps. cbn. rewrite Ets.
    apply (HQ h3 (delete z (delete (kstack x) A)) B1).
    - cbn. eapply (core_delete (heaps s)); [exact Hok|done..].
    - etransitivity; apply delete_subseteq.
    - rewrite EB. destruct (user_mem x =? 0); [done|apply delete_subseteq]. }
  apply wp_when; intros Hu.
  - apply negb_true_iff in Hu. pose proof Hu as Hu'. apply Z.eqb_neq in Hu'.
    pose proof (core_user _ _ _ _ _ _ _ _ _ _ _ _ _ _ Hok z x Hx Hu') as [du Hdu]%elem_of_keys.
    wsteps. apply (wp_uheap _ (delete (kstack x) A) B); [done|by eexists|].
    intros r2 h2 B2 _ ->%astep_free Hrel2 _. wsteps. apply (wp_store z _ x); [done|].
    apply (Hend (<[z := set_user 0 0 x]> (tasks s)) h2 (delete (user_mem x) B)); [done|by rewrite delete_insert_eq|by rewrite Hu].
  - apply negb_false_iff in Hu. apply (Hend (tasks s) h1 B); [done|done|by rewrite Hu].
Qed.

(** Unlinking a task on the zombie list, whether or not it is in the ring. *)
Lemma wp_unlink_listed z A B X Y rs zs ps (Q : Z -> sched H -> Prop) s :
  mt_ok INIT s A B X Y rs zs ps -> z ∈ zs ++ ps ->
  current s = 0 \/ current s ∈ rs -> current s <> z ->
  (forall r s', mt_ok INIT s' A B X Y (without [z] rs) zs ps ->
     sim_tasks (fun _ => True) (tasks s) (tasks s') -> stays s s' -> heaps s' = heaps s ->
     zombie_list s' = zombie_list s -> iflag s' = iflag s -> Q r s') ->
  wp (unlink_from_ring INIT z) Q s.
Proof.
  intros Hok Hz Hcur Hcz HQ.
  assert (HzI : z <> INIT) by (intros ->; by destruct (ok_init Hok)).
  assert (Hz0 : z <> 0).
  { apply (ok_nz Hok), (ok_dom Hok). by right. }
  apply (wp_unlink z rs); [apply Hok|apply (ok_init Hok)|done|done|]. split.
  - intros Hn. apply HQ; try done. rewrite without_none; [done|].
    intros a Ha Haz%list_elem_of_singleton. by subst.
  - intros l1 l2 p tp n Ers Hp Htp ts' Hring.
    pose proof (r_nodup _ _ _ (ok_ring Hok)) as Hnd. rewrite Ers in Hnd.
    apply HQ; [|by apply sim_next|done..].
    rewrite Ers, without_cut by done. cbn.
    apply (core_cut _ _ _ _ _ _ _ _ _ _ _ _ _ _ Hok z l1 l2 p tp n); try done.
    destruct Hcur as [?|Hcur]; [by left|right; left].
    rewrite Ers, elem_of_app, elem_of_cons in Hcur. apply elem_of_app. tauto.
Qed.

(** ** Reaping *)

Lemma reap_loop_ok fuel A B X Y rs ps (Q : unit -> sched H -> Prop) s :
  mt_ok INIT s A B X Y rs [] ps -> zseg (tasks s) ps ->
  current s = 0 \/ current s ∈ rs -> current s ∉ ps -> (length ps < fuel)%nat ->
  (forall s' A' B', mt_ok INIT s' A' B' X Y (without ps rs) [] [] -> A' ⊆ A -> B' ⊆ B ->
     sim_tasks (fun a => a ∉ ps) (tasks s) (tasks s') -> stays s s' ->
     (iflag s = true -> iflag s' = true) -> Q tt s') ->
  wp (reap_loop INIT fuel (hd 0 ps)) Q s.
Proof.
  revert A B rs ps s. induction fuel as [|fuel IH]; [lia|].
  intros A B rs ps s Hok Hzs Hcur Hcp Hf HQ. cbn [reap_loop]. destruct ps as [|z ps].
  { cbn [hd]. wsteps. apply (HQ s A B); try done. rewrite without_none; [done|].
    by intros a _ ?%not_elem_of_nil. }
  destruct Hzs as [(x & Hx & Hn) Hzs]. cbn [hd].
  pose proof (ok_nz Hok z (ex_intro _ x Hx)) as Hz0. rw_test. wsteps.
  apply (wp_deref z x); [done|]. wsteps.
  apply not_elem_of_cons in Hcp as [Hcz Hcp].
  apply (wp_unlink_listed z A B X Y rs [] (z :: ps)); [exact Hok|by left|done|done|].
  intros r s1 Hok1 Hsim1 Hst1 Hh1 Hz1 _. wsteps. destruct Hst1 as (Hc1 & Hn1 & Ht1). cbn in Hc1, Hn1, Ht1, Hsim1.
  assert (Hzp : z ∉ ps).
  { pose proof (ok_znodup Hok) as Hnd. by apply list.NoDup_cons in Hnd as [? _]. }
  apply (wp_free_task z A B X Y (without [z] rs) [] ps); [exact Hok1| |cbn; congruence|].
  { rewrite elem_of_without. intros [_ Hn']. apply Hn'. by left. }
  cbn. intros h2 A2 B2 Hok2 HA2 HB2. rewrite Hn.
  eapply (IH A2 B2 (without [z] rs) ps); [exact Hok2| | | | |]; cbn.
  - eapply zseg_same; [|exact Hzs]. intros a u Ha Hu.
    assert (Hne : a <> z) by (intros ->; done).
    destruct (sim_get _ _ _ a u Hsim1 I Hu) as (u' & Hu' & E).
    exists u'. rewrite lookup_delete_ne by done. split; [done|]. destruct u, u'. by injection E.
  - rewrite Hc1. destruct Hcur as [?|Hcur]; [by left|right]. apply elem_of_without. split; [done|].
    intros Hc%list_elem_of_singleton. done.
  - by rewrite Hc1.
  - simpl in Hf. lia.
  - intros s' A' B' Hok' HA' HB' Hsim' (Hc' & Hn' & Ht') Hi'. apply (HQ s' A' B').
    + by rewrite <- without_cons.
    + by etransitivity.
    + by etransitivity.
    + intros a [Hne Ha]%not_elem_of_cons. rewrite Hsim' by done. cbn.
      rewrite lookup_delete_ne by done. by apply Hsim1.
    + split; [|split]; cbn in *; congruence.
    + intros _. by apply Hi'.
Qed.

Lemma zombies_length h ts ring cur np zl A B X Y rs zs ps :
  core_ok INIT h ts ring cur np zl A B X Y rs zs ps -> (length zs < S (size ts))%nat.
Proof.
  intros Hok. pose proof (ok_znodup Hok) as Hnd. apply list.NoDup_app in Hnd as [Hnd _].
  rewrite <- (size_dom (D := gset Z)), <- (size_list_to_set (C := gset Z) zs) by done.
  apply le_n_S, subseteq_size. intros a Ha%elem_of_list_to_set.
  apply elem_of_dom, (ok_dom Hok). right. apply elem_of_app. by left.
Qed.

(** The zombies become the reaper's. *)
Lemma core_take h ts ring cur np zl A B X Y rs zs :
  core_ok INIT h ts ring cur np zl A B X Y rs zs [] -> core_ok INIT h ts ring cur np 0 A B X Y rs [] zs.
Proof.
  intros Hok. pose proof (ok_znodup Hok) as Hnd. pose proof (ok_dom Hok) as Hdom.
  pose proof (ok_listed Hok) as Hl. pose proof (ok_init Hok) as Hi. pose proof (ok_cur Hok) as Hc.
  rewrite app_nil_r in Hnd. destruct Hok. split; try done.
  - intros a. rewrite Hdom. by rewrite app_nil_r.
  - by intros a t ?%not_elem_of_nil.
  - intros a t. cbn. specialize (Hl a t). by rewrite app_nil_r in Hl.
  - by rewrite app_nil_r in Hi.
  - by rewrite app_nil_r in Hc.
Qed.

(** The running task is not a zombie. *)
Definition cur_live (cur : Z) (rs zs : list Z) : Prop := cur = 0 \/ (cur ∈ rs /\ cur ∉ zs).

Lemma reap_ok A B X Y rs zs (Q : unit -> sched H -> Prop) s :
  mt_ok INIT s A B X Y rs zs [] -> cur_live (current s) rs zs ->
  (forall s' A' B', mt_ok INIT s' A' B' X Y (without zs rs) [] [] -> A' ⊆ A -> B' ⊆ B ->
     sim_tasks (fun a => a ∉ zs) (tasks s) (tasks s') -> stays s s' -> iflag s' = true ->
     cur_live (current s') (without zs rs) [] -> Q tt s') ->
  wp (reap_zombies_internal INIT) Q s.
Proof.
  intros Hok Hlive HQ. unfold reap_zombies_internal, take_zombies. wsteps.
  cbn [zombie_list set_iflag set_zombies]. rewrite (ok_zhead Hok).
  assert (H0 : 0 ∉ zs).
  { intros H0. destruct (ok_nz Hok 0); [|done]. apply (ok_dom Hok). right. by rewrite app_nil_r. }
  apply (reap_loop_ok _ A B X Y rs zs); cbn.
  - by apply (core_take _ _ _ _ _ (zombie_list s)).
  - apply Hok.
  - destruct Hlive as [?|[? _]]; [by left|by right].
  - by destruct Hlive as [->|[_ ?]].
  - unfold ring_fuel. cbn. by eapply zombies_length.
  - intros s' A' B' Hok' HA' HB' Hsim Hst Hi. apply (HQ s' A' B'); auto.
    destruct Hst as (-> & _). cbn. destruct Hlive as [?|[? ?]]; [by left|right].
    split; [by apply elem_of_without|apply not_elem_of_nil].
Qed.
End Ops.
