(* ===== verification/TaskCalls.v ===== *)
(** * Creating, stopping and ending tasks

    The operations that change which tasks exist, each from [mt_ok] to
    [mt_ok]. *)

From Stdlib Require Import ZArith Lia.
From S2P Require Import Prelude Memory AllocSpec Heaps Multitask TaskLogic TaskStack TaskInv TaskOps.

Section Calls.
Context {H : Type} `{!Heaps H, !HeapsOk H} (INIT : Z).

(** ** Ending *)

Lemma core_claim a h ts ring cur np zl A B X Y rs zs ps :
  core_ok INIT h ts ring cur np zl A B X Y rs zs ps -> a ∈ rs -> a ∉ zs ++ ps -> a <> INIT ->
  core_ok INIT h ts ring cur np zl A B X Y rs zs (a :: ps).
Proof.
  intros Hok Ha Hna HaI.
  assert (Hin : forall b, b ∈ zs ++ a :: ps <-> b = a \/ b ∈ zs ++ ps).
  { intros b. rewrite !elem_of_app, elem_of_cons. tauto. }
  destruct Hok. split; try done.
  - rewrite <- Permutation_middle. by apply list.NoDup_cons.
  - intros b. rewrite Hin, ok_dom. split; [tauto|]. intros [?|[->|?]]; tauto.
  - intros b t Hb Ht Hs. rewrite Hin. right. eauto.
  - destruct ok_init as [? Hn]. split; [done|]. rewrite Hin. by intros [->|?].
  - rewrite Hin. tauto.
Qed.

Lemma cur_live_same cur cur' rs zs : cur' = cur -> cur_live cur rs zs -> cur_live cur' rs zs.
Proof. by intros ->. Qed.

(** [t] with its exit recorded. *)
Definition exited (code : Z) (t : task) : task := set_state TASK_ZOMBIE (set_exit code t).

Lemma wp_add_zombie a t t' A B X Y rs zs (Q : unit -> sched H -> Prop) s s0 :
  mt_ok INIT s0 A B X Y rs zs [] -> tasks s0 !! a = Some t -> a ∈ rs -> a ∉ zs -> a <> INIT ->
  next t' = next t -> kstack t' = kstack t -> user_mem t' = user_mem t -> pid t' = pid t ->
  kstack_size t' = kstack_size t -> state t' = TASK_ZOMBIE ->
  s = set_tasks (<[a := t']> (tasks s0)) s0 ->
  (let t'' := set_znext (zombie_list s0) t' in
   let s' := set_zombies a (set_tasks (<[a := t'']> (tasks s0)) s0) in
   mt_ok INIT s' A B X Y rs (a :: zs) [] -> Q tt s') ->
  wp (add_to_zombie_list a) Q s.
Proof.
  intros Hok Ha Har Haz HaI Hn Hk Hu Hp Hks Hst -> HQ.
  pose proof (ok_nz Hok a (ex_intro _ t Ha)) as Ha0.
  unfold add_to_zombie_list. rw_test. wsteps. apply (wp_store a _ t').
  { cbn. apply lookup_insert_eq. }
  wsteps. cbn [tasks set_tasks zombie_list]. rewrite insert_insert_eq.
  apply HQ. cbn. apply (core_zombie _ _ _ _ _ _ _ _ _ _ _ _ _ _ Hok a t); try done.
  by rewrite app_nil_r.
Qed.

Lemma exit_ok code A B X Y rs zs (Q : unit -> sched H -> Prop) s :
  mt_ok INIT s A B X Y rs zs [] -> cur_live (current s) rs zs ->
  (forall s' A' B' zs', mt_ok INIT s' A' B' X Y (without zs rs) zs' [] -> A' ⊆ A -> B' ⊆ B -> stays s s' -> iflag s' = true ->
     (if (current s =? 0) || (current s =? INIT) then zs' = [] else
        (zs' = [current s] /\ exists t t', tasks s !! current s = Some t /\
          tasks s' !! current s = Some t' /\ set_next 0 t' = set_znext 0 (set_next 0 (exited code t)))) ->
     sim_tasks (fun a => (a ∉ zs) /\ a <> current s) (tasks s) (tasks s') -> Q tt s') ->
  wp (task_exit INIT code) Q s.
Proof.
  intros Hok Hlive HQ. unfold task_exit. wsteps.
  apply (reap_ok INIT A B X Y rs zs); [exact Hok|done|].
  intros s1 A1 B1 Hok1 HA1 HB1 Hsim1 Hst1 Hi1 Hlive1. wsteps. cbn in Hsim1.
  assert (Hsim : sim_tasks (fun a => (a ∉ zs) /\ a <> current s) (tasks s) (tasks s1)).
  { intros a [Ha _]. by apply Hsim1. }
  assert (Hst : stays s s1) by exact Hst1.
  destruct Hst1 as (Hc & Hn & Ht). cbn in Hc, Hn, Ht. rewrite Hc in Hlive1 |- *.
  destruct ((current s =? 0) || (current s =? INIT)) eqn:E.
  { wsteps. apply (HQ s1 A1 B1 []); try done. }
  apply orb_false_iff in E as [E0 EI]. apply Z.eqb_neq in E0, EI.
  destruct Hlive as [?|[_ Hcz]]; [done|]. destruct Hlive1 as [?|[Hcr _]]; [done|].
  destruct (ring_in _ _ _ _ (ok_ring Hok1) Hcr) as [t Htc].
  destruct (tasks s !! current s) as [t0|] eqn:Et0.
  2: { exfalso. specialize (Hsim1 (current s) Hcz). rewrite Et0, Htc in Hsim1. done. }
  assert (Hsame : set_next 0 t = set_next 0 t0).
  { specialize (Hsim1 (current s) Hcz). rewrite Et0, Htc in Hsim1. exact (inj Some _ _ Hsim1). }
  wsteps. apply (wp_store _ _ t); [done|]. wsteps.
  apply (wp_store _ _ (set_exit code t)); [apply lookup_insert_eq|]. wsteps.
  cbn [tasks set_tasks]. rewrite insert_insert_eq.
  apply (wp_add_zombie (current s) t (exited code t) A1 B1 X Y (without zs rs) [] _ _ s1); try done.
  { apply not_elem_of_nil. }
  cbn zeta. intros Hok2. wsteps.
  apply (HQ _ A1 B1 [current s]); [exact Hok2|done|done|done|done| |].
  - split; [done|]. exists t0. eexists. split; [done|]. cbn. split; [apply lookup_insert_eq|].
    rewrite (ok_zhead Hok1). destruct t, t0. cbn in *. by injection Hsame as -> -> -> -> -> -> -> -> ->.
  - intros a Ha. cbn. rewrite lookup_insert_ne by (intros <-; by destruct Ha). by apply Hsim.
Qed.

(** ** Stopping *)

(** The loop both [task_stop] and [task_is_alive] look a pid up with. *)
Lemma wp_find_pid p A B X Y rs zs ps (Q : Z -> sched H -> Prop) s :
  mt_ok INIT s A B X Y rs zs ps ->
  Q (first_of (tasks s) (fun t => pid t =? p) rs) s ->
  wp (ring_find (ring_fuel s) (fun t => pid t =? p) (hd 0 rs) (hd 0 rs)) Q s.
Proof.
  intros Hok HQ. destruct (ok_ring Hok) as [_ Hs Hn _ Hne].
  apply (ring_find_ok _ _ rs); try done; [|apply (ring_length _ _ _ (ok_ring Hok))].
  destruct rs as [|a rs]; [done|]. by apply list.NoDup_cons in Hn as [? _].
Qed.
Lemma ring_first {A B X Y rs zs ps} {s : sched H} p :
  mt_ok INIT s A B X Y rs zs ps ->
  (first_of (tasks s) p rs = 0 /\ (forall a t, a ∈ rs -> tasks s !! a = Some t -> p t = false)) \/
  (exists a t, first_of (tasks s) p rs = a /\ a <> 0 /\ a ∈ rs /\ tasks s !! a = Some t /\ p t = true).
Proof.
  intros Hok. pose proof (ok_ring Hok) as Hr.
  destruct (first_of_spec (tasks s) p rs _ (r_seg _ _ _ Hr) (r_nz _ _ _ Hr))
    as [?|(l1 & a & t & l2 & E & Ef & Ha & Hp & _)]; [by left|right].
  assert (a ∈ rs) by (rewrite E; apply elem_of_app; right; by left).
  exists a, t. split; [done|]. split; [by apply (r_nz _ _ _ Hr)|done].
Qed.

(** What [task_stop] may return: -1 (no such task), 0 (it is gone), or not
    at all (the caller stopped itself). *)
Inductive stop_result (p cur : Z) (ts : gmap Z task) (rs : list Z) : option Z -> list Z -> list Z -> Prop :=
  | stop_none :
      (forall a t, a ∈ rs -> ts !! a = Some t -> pid t <> p) ->
      stop_result p cur ts rs (Some (-1)) rs []
  | stop_other a t :
      a ∈ rs -> ts !! a = Some t -> pid t = p -> a <> cur ->
      stop_result p cur ts rs (Some 0) (without [a] rs) []
  | stop_self t :
      cur ∈ rs -> ts !! cur = Some t -> pid t = p ->
      stop_result p cur ts rs None (without [cur] rs) [cur].

Lemma without_last (a b : Z) l1 l2 : base.NoDup (l1 ++ a :: l2) -> b ∈ l1 ++ a :: l2 -> b <> a -> l1 ++ l2 <> [].
Proof. intros _ Hb Hne [-> ->]%app_eq_nil. by apply list_elem_of_singleton in Hb. Qed.

(** The running task leaves the ring: its [next] still leads back in. *)
Lemma wp_unlink_self A B X Y rs zs ps (Q : Z -> sched H -> Prop) s :
  mt_ok INIT s A B X Y rs zs ps -> current s ∈ zs ++ ps -> current s ∈ rs ->
  (forall r s', mt_ok INIT s' A B X Y (without [current s] rs) zs ps ->
     sim_tasks (fun _ => True) (tasks s) (tasks s') -> stays s s' -> iflag s' = iflag s -> Q r s') ->
  wp (unlink_from_ring INIT (current s)) Q s.
Proof.
  intros Hok Hz Hr HQ.
  assert (HzI : current s <> INIT) by (intros E; rewrite E in Hz; by destruct (ok_init Hok)).
  pose proof (r_nz _ _ _ (ok_ring Hok) _ Hr) as Hz0.
  apply (wp_unlink (current s) rs); [apply Hok|apply (ok_init Hok)|done|done|]. split; [done|].
  intros l1 l2 p tp n Ers Hp Htp ts' Hring.
  pose proof (r_nodup _ _ _ (ok_ring Hok)) as Hnd. pose proof (r_seg _ _ _ (ok_ring Hok)) as Hseg.
  rewrite Ers in Hnd, Hseg. apply HQ; [|by apply sim_next|done..].
  rewrite Ers, without_cut by done. cbn.
  apply (core_cut _ _ _ _ _ _ _ _ _ _ _ _ _ _ Hok (current s) l1 l2 p tp n); try done.
  right. right. split; [done|]. apply lseg_app in Hseg as [_ [(x & Hx & Hn) _]].
  exists x. split; [done|]. rewrite Hn. destruct l2 as [|b l2]; [|apply elem_of_app; right; by left].
  destruct l1 as [|b l1]; [by apply not_elem_of_nil in Hp|by left].
Qed.

Lemma stop_ok p A B X Y rs zs (Q : option Z -> sched H -> Prop) s :
  mt_ok INIT s A B X Y rs zs [] -> cur_live (current s) rs zs ->
  (p = 0 -> Q (Some (-1)) s) ->
  (forall r s' A' B' rs' zs', p <> 0 -> mt_ok INIT s' A' B' X Y rs' zs' [] -> A' ⊆ A -> B' ⊆ B -> stays s s' -> iflag s' = true ->
     stop_result p (current s) (tasks s) (without zs rs) r rs' zs' ->
     sim_tasks (fun b => b ∈ rs') (tasks s) (tasks s') -> Q r s') ->
  wp (task_stop INIT p) Q s.
Proof.
  intros Hok Hlive HQ0 HQ. unfold task_stop. destruct (Z.eqb_spec p 0) as [->|Hp0]; [wsteps; auto|].
  wsteps. apply (reap_ok INIT A B X Y rs zs); [exact Hok|done|].
  intros s1 A1 B1 Hok1 HA1 HB1 Hsim1 Hst1 Hi1 Hlive1. cbn in Hsim1.
  destruct (ring_tail _ _ _ (ok_ring Hok1)) as (q & tr & Eq & Htr & Hnr).
  assert (Hr0 : task_ring s1 <> 0).
  { apply (r_nz _ _ _ (ok_ring Hok1)). rewrite Eq. apply elem_of_app. right. by left. }
  assert (Hback : forall a t, a ∈ without zs rs -> tasks s1 !! a = Some t ->
    exists t0, tasks s !! a = Some t0 /\ pid t0 = pid t).
  { intros a t [_ Ha]%elem_of_without Ht. specialize (Hsim1 a Ha). rewrite Ht in Hsim1.
    destruct (tasks s !! a) as [t0|]; [|done]. exists t0. split; [done|].
    apply (inj Some) in Hsim1. destruct t, t0. by injection Hsim1. }
  assert (Hst : stays s s1) by exact Hst1. destruct Hst as (Hc & _).
  assert (Hsimr : sim_tasks (fun b => b ∈ without zs rs) (tasks s) (tasks s1)).
  { intros b [_ Hb]%elem_of_without. by apply Hsim1. }
  wsteps. rw_test. wsteps. apply (wp_deref _ tr); [done|]. wsteps. rewrite Hnr.
  apply (wp_find_pid p A1 B1 X Y (without zs rs) [] []); [exact Hok1|].
  destruct (ring_first (fun t => pid t =? p) Hok1) as [[-> Hno]|(a & t & -> & Ha0 & Har & Ha & Hpa)].
  { rewrite Z.eqb_refl. wsteps. apply (HQ _ _ A1 B1 (without zs rs) []); try done.
    apply stop_none. intros a t Ha Ht Ep.
    assert (Ha' : exists t1, tasks s1 !! a = Some t1).
    { destruct (ring_in _ _ _ _ (ok_ring Hok1) Ha) as [t1 ?]. by exists t1. }
    destruct Ha' as (t1 & Ht1). specialize (Hno a t1 Ha Ht1). apply Z.eqb_neq in Hno.
    destruct (Hback a t1 Ha Ht1) as (t0 & Ht0 & E). congruence. }
  apply Z.eqb_eq in Hpa. destruct (Hback a t Har Ha) as (t0 & Ht0 & Ept).
  assert (HaI : a <> INIT).
  { intros ->. pose proof (ok_init_pid Hok1 t Ha). congruence. }
  rw_test. wsteps. destruct (Z.eqb_spec a (current s1)) as [Eac|Hac].
  - subst a. wsteps. apply (wp_store _ _ t); [done|]. wsteps.
    apply (wp_add_zombie (current s1) t (set_state TASK_ZOMBIE t) A1 B1 X Y (without zs rs) [] _ _ s1); try done.
    { apply not_elem_of_nil. }
    cbn zeta. intros Hok2. wsteps.
    match goal with |- wp _ _ ?st =>
      apply (wp_unlink_self A1 B1 X Y (without zs rs) [current s1] [] _ st); [exact Hok2|by left|done|] end.
    intros r s3 Hok3 Hsim3 Hst3 Hi3. wsteps. cbn in Hst3, Hok3.
    apply (HQ None _ A1 B1 (without [current s1] (without zs rs)) [current s1]); [done|exact Hok3|done|done| |done| |].
    + destruct Hst1 as (? & ? & ?), Hst3 as (? & ? & ?). split; [|split]; cbn in *; congruence.
    + rewrite Hc in *. eapply stop_self; [done|exact Ht0|congruence].
    + intros b [Hb Hne]%elem_of_without. cbn. rewrite Hsim3 by done. cbn.
      rewrite lookup_insert_ne; [by apply Hsimr|]. intros <-. apply Hne. by left.
  - wsteps.
    pose proof (core_claim a _ _ _ _ _ _ _ _ _ _ _ _ _ Hok1 Har ltac:(apply not_elem_of_nil) HaI) as Hok2.
    apply (wp_unlink_listed INIT a A1 B1 X Y (without zs rs) [] [a]); [exact Hok2|by left| |done|].
    { destruct Hlive1 as [?|[? _]]; [by left|by right]. }
    intros r s3 Hok3 Hsim3 Hst3 _ _ Hi3. wsteps.
    apply (wp_free_task INIT a A1 B1 X Y (without [a] (without zs rs)) [] []); [exact Hok3| | |].
    { rewrite elem_of_without. intros [_ Hn']. apply Hn'. by left. }
    { destruct Hst3 as (E3 & _). cbn. rewrite E3. congruence. }
    cbn. intros h4 A4 B4 Hok4 HA4 HB4. wsteps.
    assert (Hc3 : current s3 = current s1) by apply Hst3.
    assert (Hin4 : cur_live (current s3) (without [a] (without zs rs)) []).
    { rewrite Hc3. destruct Hlive1 as [?|[Hl _]]; [by left|right].
      split; [|apply not_elem_of_nil]. apply elem_of_without. split; [done|].
      intros ?%list_elem_of_singleton. congruence. }
    apply (reap_ok INIT A4 B4 X Y (without [a] (without zs rs)) []); [exact Hok4|done|].
    intros s5 A5 B5 Hok5 HA5 HB5 Hsim5 Hst5 Hi5 _. wsteps.
    rewrite without_none in Hok5 by (intros; apply not_elem_of_nil).
    apply (HQ (Some 0) _ A5 B5 (without [a] (without zs rs)) []); [done|exact Hok5| | | |done| |].
    + etransitivity; [exact HA5|]. by etransitivity.
    + etransitivity; [exact HB5|]. by etransitivity.
    + destruct Hst1 as (? & ? & ?), Hst3 as (? & ? & ?), Hst5 as (? & ? & ?). split; [|split]; cbn in *; congruence.
    + rewrite Hc in *. eapply stop_other; [exact Har|exact Ht0|congruence|congruence].
    + intros b [Hb Hne]%elem_of_without. rewrite Hsim5 by apply not_elem_of_nil. cbn.
      rewrite lookup_delete_ne by (intros <-; apply Hne; by left). rewrite Hsim3 by done. by apply Hsimr.
Qed.
End Calls.
