(* ===== verification/TaskCreate.v ===== *)
(** * Creating tasks

    [task_create] and [utask_create] from [mt_ok] to [mt_ok]: a new task at
    the end of the ring that owns two fresh regions, or nothing changed when
    [malloc] fails. *)

From Stdlib Require Import ZArith Lia.
From S2P Require Import Prelude Memory AllocSpec Heaps Multitask TaskLogic TaskStack TaskInv TaskOps.

Section Create.
Context {H : Type} `{!Heaps H, !HeapsOk H} (INIT : Z).
Context (HIk : ~ (k_lo <= INIT < k_hi)).
Context (Hklo : 0 <= k_lo) (Hkhi : k_hi < 18446744073709551616).

(** The size passed to [malloc]. *)
Definition stack_bytes (sz : Z) : Z := if sz =? 0 then KSTACK_SIZE else sz.

(** Neither allocation makes the kernel heap grow. *)
Definition alloc_safe (sz : Z) (h : H) : Prop :=
  k_safe h SIZEOF_TASK /\
  forall r h', k_call (CMalloc SIZEOF_TASK) h = Some (r, h') -> k_safe h' sz.

Lemma tame_alloc_safe sz h A B :
  hp_rel h A B -> 0 < sz <= MAX_REQ -> k_tame h [SIZEOF_TASK; sz] -> alloc_safe sz h.
Proof using HeapsOk0.
  intros Hr Hsz Hf. destruct (k_tame_calls _ _ _ _ _ Hr Hf) as [Hs Hno].
  { unfold SIZEOF_TASK, MAX_REQ. lia. }
  split; [done|]. intros r h' E. pose proof (Hno _ _ E) as Hf'.
  destruct (k_sim h A B (CMalloc SIZEOF_TASK) Hr) as (r' & h2 & A' & E' & _ & Hr' & _).
  - cbn. unfold SIZEOF_TASK, MAX_REQ. lia.
  - by intros n [= <-].
  - rewrite E in E'. injection E' as _ <-. by destruct (k_tame_calls _ _ _ _ _ Hr' Hf').
Qed.

(** Room is safe. *)
Lemma fits_alloc_safe sz h A B :
  hp_rel h A B -> 0 < sz <= MAX_REQ -> k_fits h [SIZEOF_TASK; sz] -> alloc_safe sz h.
Proof using HeapsOk0. intros Hr Hsz Hf. by eapply tame_alloc_safe, k_fits_tame. Qed.

(** What the two allocations give. *)
Record fresh (A : regions) (sz t k : Z) (d1 d2 : list Z) : Prop := {
  fr_t : A !! t = None; fr_k : <[t := d1]> A !! k = None;
  fr_t0 : t <> 0; fr_k0 : k <> 0; fr_tI : t <> INIT;
  fr_len : lenZ d2 = sz; fr_lo : 0 <= k; fr_hi : k + sz < 18446744073709551616
}.

(** The room for later requests is still there. *)
Record leaves_room (sz : Z) (h h' : H) : Prop := {
  lr_kernel ns : k_fits h (SIZEOF_TASK :: sz :: ns) -> k_fits h' ns;
  lr_user n : u_fits h n -> u_fits h' n
}.
Lemma leaves_room_stores sz h h' h'' : leaves_room sz h h' -> stores_only h' h'' -> leaves_room sz h h''.
Proof. intros [H1 H2] [_ H3 H4]. split; eauto. Qed.

Lemma alloc_task_ok sz A B (Q : option (Z * Z) -> sched H -> Prop) s :
  hp_rel (heaps s) A B -> 0 < sz <= MAX_REQ -> alloc_safe sz (heaps s) ->
  (forall h, hp_rel h A B -> ~ k_fits (heaps s) [SIZEOF_TASK; sz] -> Q None (set_heaps h s)) ->
  (forall h t k d1 d2, fresh A sz t k d1 d2 -> hp_rel h (<[k := d2]> (<[t := d1]> A)) B ->
     leaves_room sz (heaps s) h -> Q (Some (t, k)) (set_heaps h s)) ->
  wp (alloc_task sz) Q s.
Proof.
  intros Hr Hsz [Hs1 Hs2] HN HS. unfold alloc_task, SIZEOF_TASK in *. wsteps.
  apply (wp_kheap (CMalloc 72) A B); [done|cbn; unfold MAX_REQ; lia| |].
  { by intros n [= <-]. }
  intros t h1 A1 E1 Hstep1 Hr1 _. inversion Hstep1; subst.
  2: { rw_test. wsteps. apply HN; [done|]. intros Hf.
       destruct (k_fits_serves _ _ _ _ _ Hr Hf) as [_ Hno]; [unfold MAX_REQ; lia|]. by destruct (Hno _ _ E1). }
  rw_test. wsteps.
  apply (wp_kheap (CMalloc sz) (<[t := d]> A) B); [done|cbn; lia| |].
  { intros n [= <-]. cbn. by eapply Hs2. }
  intros k h2 A2 E2 Hstep2 Hr2 _. cbn in E2. inversion Hstep2; subst.
  - rw_test. wsteps. apply (HS h2 t k d d0); [|done|].
    2: { split.
         - intros ns Hf. destruct (k_fits_serves _ _ _ _ _ Hr Hf) as [_ Hn1]; [unfold SIZEOF_TASK, MAX_REQ; lia|].
           destruct (Hn1 _ _ E1) as [_ Hf1].
           destruct (k_fits_serves _ _ _ _ _ Hr1 Hf1) as [_ Hn2]; [done|]. by destruct (Hn2 _ _ E2).
         - intros m Hf. eapply (u_fits_kernel _ _ _ (CMalloc (lenZ d0)) _ _ m Hr1); [cbn; lia| |exact E2|].
           { intros n [= <-]. by eapply Hs2. }
           eapply (u_fits_kernel _ _ _ (CMalloc 72) _ _ m Hr); [cbn; unfold MAX_REQ; lia| |exact E1|exact Hf].
           by intros n [= <-]. }
    pose proof (k_inside _ _ _ _ _ Hr1 (lookup_insert_eq _ _ _)) as (? & ? & _).
    assert (Hk2 : <[k:=d0]> (<[t:=d]> A) !! k = Some d0) by apply lookup_insert_eq.
    pose proof (k_inside _ _ _ _ _ Hr2 Hk2) as (? & ? & _).
    unfold lenZ in *. split; try done; try lia.
  - rw_test. wsteps. apply (wp_kheap _ (<[t := d]> A) B); [done| |done|].
    { exists d. apply lookup_insert_eq. }
    intros r h3 A3 _ ->%astep_free Hr3 _. wsteps.
    rewrite delete_insert_id in Hr3 by done. apply HN; [done|]. intros Hf.
    destruct (k_fits_serves _ _ _ _ _ Hr Hf) as [_ Hno]; [unfold MAX_REQ; lia|].
    destruct (Hno _ _ E1) as [_ Hf1].
    destruct (k_fits_serves _ _ _ _ _ Hr1 Hf1) as [_ Hno1]; [done|]. by destruct (Hno1 _ _ E2).
Qed.

(** The new task, with every field set, before it enters the ring. *)
Definition new_task (p k sz sp um un : Z) : task := Task p TASK_READY sp k sz 0 0 0 um un.

Lemma core_insert h h' ts ring cur np zl A B X Y Y' rs zs ps sz t k d1 d2 d2' T ts' :
  core_ok INIT h ts ring cur np zl A B X Y rs zs ps ->
  fresh A sz t k d1 d2 -> lenZ d2' = lenZ d2 -> hp_rel h' (<[k := d2']> (<[t := d1]> A)) B ->
  np < 2147483647 ->
  pid T = np -> state T = TASK_READY -> kstack T = k -> kstack_size T = sz ->
  (if user_mem T =? 0 then Y' = Y else Y ≡ₚ user_mem T :: Y') ->
  ring_ok ts' t (rs ++ [t]) ->
  (exists tr, ts !! ring = Some tr /\ ring <> t /\
     ts' = <[ring := set_next t tr]> (<[t := set_next (next tr) T]> ts)) ->
  core_ok INIT h' ts' t cur (np + 1) zl (<[k := d2']> (<[t := d1]> A)) B X Y' (rs ++ [t]) zs ps.
Proof using HeapsOk0 HIk.
  intros Hok [Ht Hk Ht0 Hk0 HtI Hlen _ _] Hlen' Hr Hnp Hp Hst HkT HsT HY Hring (tr & Htr & Hrt & Ets).
  assert (Hdomt : ts !! t = None).
  { destruct (ts !! t) as [u|] eqn:E; [|done]. exfalso.
    destruct (core_own _ _ _ _ _ _ _ _ _ _ _ _ _ _ Hok t u HtI E) as [[d Hd]%elem_of_keys _]. congruence. }
  assert (Htr' : <[t := set_next (next tr) T]> ts !! ring = Some tr) by by rewrite lookup_insert_ne.
  assert (Hget : forall a u, ts' !! a = Some u ->
    (a = t /\ u = set_next (next tr) T) \/
    (a <> t /\ exists v, ts !! a = Some v /\ set_next 0 u = set_next 0 v)).
  { intros a u. rewrite Ets. intros [[<- <-]|[Hne Hu]]%lookup_insert_Some.
    - right. split; [done|]. exists tr. done.
    - apply lookup_insert_Some in Hu as [[<- <-]|[Hne' Hu]]; [by left|right; eauto]. }
  assert (Hdom : forall a, is_Some (ts' !! a) <-> a = t \/ is_Some (ts !! a)).
  { intros a. rewrite Ets. destruct (decide (ring = a)) as [<-|Hra].
    - rewrite lookup_insert_eq, Htr. split; [by right; eexists|by eexists].
    - rewrite lookup_insert_ne by done. destruct (decide (t = a)) as [<-|Hta].
      + rewrite lookup_insert_eq. split; [by left|by eexists].
      + rewrite lookup_insert_ne by done. split; [by right|]. intros [->|?]; done. }
  assert (Hf : forall u v, set_next 0 u = set_next 0 v -> pid u = pid v /\ state u = state v /\
            kstack u = kstack v /\ kstack_size u = kstack_size v).
  { intros [] []. by intros [= -> -> -> -> -> -> -> -> ->]. }
  assert (Hnot : t ∉ zs ++ ps).
  { intros Hin. assert (is_Some (ts !! t)) as [? ?] by (apply (ok_dom Hok); by right). congruence. }
  pose proof (ok_np Hok) as Hnp1.
  split.
  - done.
  - rewrite Ets, (owned_update _ _ ring tr) by done. rewrite owned_insert by done.
    unfold kown at 1. destruct (Z.eqb_spec t INIT); [done|]. cbn [kstack set_next]. rewrite HkT.
    unfold keys. rewrite !owned_insert by done. cbn [app].
    rewrite (perm_swap k t). by rewrite <- (ok_k Hok).
  - rewrite Ets, (owned_update _ _ ring tr) by done. rewrite owned_insert by done.
    rewrite <- (ok_u Hok). unfold uown at 1. cbn [user_mem set_next].
    destruct (user_mem T =? 0); [by rewrite HY|]. rewrite HY. cbn [app]. apply Permutation_middle.
  - done.
  - apply Hok.
  - eapply zseg_same; [|apply Hok]. intros a u Ha Hu. rewrite Ets.
    destruct (decide (ring = a)) as [<-|Hra].
    + rewrite lookup_insert_eq. eexists. split; [done|]. cbn. congruence.
    + exists u. rewrite !lookup_insert_ne; [done| |done]. intros <-. congruence.
  - apply Hok.
  - intros a. rewrite Hdom, (ok_dom Hok), !elem_of_app, list_elem_of_singleton. tauto.
  - intros a [->|?]%Hdom; [done|by apply (ok_nz Hok)].
  - intros a u Ha [[-> _]|(_ & v & Hv & (_ & -> & _)%Hf)]%Hget.
    + exfalso. apply Hnot, elem_of_app. by left.
    + by apply (ok_zombie Hok a).
  - intros a u Ha [[-> ->]|(Hne & v & Hv & (_ & -> & _)%Hf)]%Hget; [cbn; by rewrite Hst|].
    apply (ok_listed Hok); [|done]. apply elem_of_app in Ha as [?|?%list_elem_of_singleton]; [done|congruence].
  - intros a u [[-> ->]|(_ & v & Hv & (_ & -> & _)%Hf)]%Hget; [cbn; by rewrite Hst|].
    by apply (ok_blocked Hok a).
  - destruct (ok_init Hok) as [? ?]. split; [apply elem_of_app; by left|done].
  - intros u [[? _]|(_ & v & Hv & (-> & _)%Hf)]%Hget; [congruence|by apply (ok_init_pid Hok)].
  - intros a u Ha [[-> ->]|(_ & v & Hv & (-> & _)%Hf)]%Hget; [cbn; lia|].
    pose proof (ok_pid Hok a v Ha Hv). lia.
  - assert (Hlt : forall a v, ts !! a = Some v -> pid v < np).
    { intros a v Hv. destruct (decide (a = INIT)) as [->|Ha]; [rewrite (ok_init_pid Hok v Hv); lia|].
      apply (ok_pid Hok a v Ha Hv). }
    intros a b u v [[-> ->]|(_ & u' & Hu' & (-> & _)%Hf)]%Hget [[-> ->]|(_ & v' & Hv' & (-> & _)%Hf)]%Hget;
      cbn [pid set_next]; intros E; [done| | |].
    + specialize (Hlt _ _ Hv'). lia.
    + specialize (Hlt _ _ Hu'). lia.
    + by apply (ok_pid_inj Hok a b u' v').
  - lia.
  - destruct (ok_cur Hok) as [?|[?|(? & u & Hu & ?)]]; [by left|right; left; apply elem_of_app; by left|].
    right. right. split; [done|]. rewrite Ets. destruct (decide (ring = cur)) as [->|Hra].
    + eexists. rewrite lookup_insert_eq. split; [done|]. cbn. apply elem_of_app. right. by left.
    + exists u. rewrite !lookup_insert_ne; [|intros ->; congruence|done].
      split; [done|]. apply elem_of_app. by left.
  - intros a u Ha [[-> ->]|(Hne & v & Hv & (_ & _ & -> & ->)%Hf)]%Hget; cbn [kstack kstack_size set_next].
    + rewrite HkT, HsT. exists d2'. rewrite lookup_insert_eq. split; [done|lia].
    + destruct (ok_stack Hok a v Ha Hv) as (d & Hd & E). exists d. split; [|done].
      assert (t <> kstack v) by congruence.
      assert (k <> kstack v) by (intros ->; rewrite lookup_insert_ne in Hk; congruence).
      by rewrite !lookup_insert_ne.
Qed.

(** What a successful creation adds: the task [t], ready, with the next pid
    and a frame on its own stack that starts it at [entry]. *)
Record created (entry sz um un : Z) (s s' : sched H) (A A' : regions) (t : Z) : Prop := {
  cr_new : tasks s !! t = None;
  cr_pid : next_pid s' = next_pid s + 1;
  cr_cur : current s' = current s;
  cr_iflag : iflag s' = iflag s;
  cr_rest : sim_tasks (fun a => a <> t) (tasks s) (tasks s');
  cr_room : leaves_room sz (heaps s) (heaps s');
  cr_keeps : A ⊆ A';
  cr_task : exists k n d, let top := k + sz in let sp := frame_base top in
    tasks s' !! t = Some (set_next n (new_task (next_pid s) k sz sp um un)) /\
    A' !! k = Some d /\ lenZ d = sz /\ k <= sp /\
    (forall i v, (i, v) ∈ frame_words entry top -> word_at 8 k d (sp + 8 * i) v)
}.

Section Start.
Context (entry sz um un : Z) (A B : regions) (X Y Y' rs zs ps : list Z) (s : sched H).
Context (Hok : mt_ok INIT s A B X Y rs zs ps) (Hst : stack_ok sz) (Hnp : next_pid s < 2147483647).
Context (HY : if um =? 0 then Y' = Y else Y ≡ₚ um :: Y').

(** The frame is on the stack, the task not yet in the ring. *)
Definition framed (h : H) (t k : Z) (d1 d2 d2' : list Z) : Prop :=
  hp_rel h (<[k := d2']> (<[t := d1]> A)) B /\ length d2' = length d2 /\
  k <= frame_base (k + sz) /\
  (forall i v, (i, v) ∈ frame_words entry (k + sz) ->
     word_at 8 k d2' (frame_base (k + sz) + 8 * i) v) /\
  leaves_room sz (heaps s) h.

Lemma start_ok {R} h t k d1 d2 (K : Z -> M H R) (Q : R -> sched H -> Prop) :
  fresh A sz t k d1 d2 -> hp_rel h (<[k := d2]> (<[t := d1]> A)) B -> leaves_room sz (heaps s) h ->
  (forall h' d2', framed h' t k d1 d2 d2' ->
     wp (K (next_pid s)) Q (set_heaps h' (set_tasks
       (<[t := new_task (next_pid s) k sz (frame_base (k + sz)) 0 0]> (tasks s))
       (set_next_pid (next_pid s + 1) s)))) ->
  wp (let! p := take_pid in
      do! modify (fun s => set_tasks (<[t := Task p TASK_READY 0 k sz 0 0 0 0 0]> (tasks s)) s) in
      let! sp := prepare_initial_stack entry (u64 (k + sz)) in
      do! store t (set_regs sp) in K p) Q (set_heaps h s).
Proof using HeapsOk0 Hok Hst Hnp.
  intros Hf Hr Hlr HK. pose proof (ok_np Hok) as Hnp1. destruct Hf as [_ _ _ _ _ Hlen Hk0 Hk1].
  unfold take_pid. wsteps. cbn [next_pid set_heaps set_next_pid].
  rewrite (s32_small (next_pid s + 1)) by lia. rewrite u64_small by (unfold stack_ok, FRAME_QWORDS in Hst; lia).
  rewrite <- Hlen. match goal with |- wp _ _ ?st => apply (wp_prepare entry k d2 (<[k := d2]> (<[t := d1]> A)) B _ st) end.
  - exact Hr.
  - apply lookup_insert_eq.
  - by rewrite Hlen.
  - done.
  - by rewrite Hlen.
  - rewrite Hlen. cbn zeta. intros h' d2' Hr' Hl Hk Hw Hso. rewrite insert_insert_eq in Hr'. wsteps.
    apply (wp_store t _ (Task (next_pid s) TASK_READY 0 k (lenZ d2) 0 0 0 0 0)).
    { cbn. by rewrite Hlen, lookup_insert_eq. }
    cbn [tasks set_heaps set_tasks set_next_pid]. rewrite Hlen, insert_insert_eq.
    apply (HK h' d2'). do 4 (split; [done|]). by eapply leaves_room_stores.
Qed.

(** Entering the ring. *)
Lemma enter_ok h t k d1 d2 d2' (Q : unit -> sched H -> Prop) :
  fresh A sz t k d1 d2 -> framed h t k d1 d2 d2' ->
  (forall s' A', mt_ok INIT s' A' B X Y' (rs ++ [t]) zs ps -> created entry sz um un s s' A A' t -> Q tt s') ->
  wp (ring_insert t) Q (set_heaps h (set_tasks
       (<[t := new_task (next_pid s) k sz (frame_base (k + sz)) um un]> (tasks s))
       (set_next_pid (next_pid s + 1) s))).
Proof using HeapsOk0 HIk Hok Hnp HY.
  intros Hf (Hr & Hl & Hk & Hw & Hlr) HQ.
  assert (Hnew : tasks s !! t = None).
  { destruct (tasks s !! t) as [u|] eqn:E; [|done]. exfalso.
    destruct (core_own _ _ _ _ _ _ _ _ _ _ _ _ _ _ Hok t u (fr_tI _ _ _ _ _ _ Hf) E)
      as [[d Hd]%elem_of_keys _]. pose proof (fr_t _ _ _ _ _ _ Hf). congruence. }
  assert (Htr : t ∉ rs).
  { intros Hin. destruct (ring_in _ _ _ _ (ok_ring Hok) Hin). congruence. }
  match goal with |- wp _ _ ?st => apply (wp_ring_insert t (new_task (next_pid s) k sz (frame_base (k + sz)) um un) rs _ st) end.
  - cbn. apply ring_ok_ne; [done|apply Hok].
  - done.
  - apply Hf.
  - apply lookup_insert_eq.
  - cbn [tasks task_ring set_heaps set_tasks set_next_pid]. intros ts' Hring (tr & Htr' & Hne & Ets).
    rewrite lookup_insert_ne in Htr' by done. rewrite insert_insert_eq in Ets.
    apply (HQ _ (<[k := d2']> (<[t := d1]> A))).
    + cbn. apply (core_insert (heaps s) h (tasks s) (task_ring s) _ _ _ A B X Y Y' rs zs ps sz t k d1 d2 d2'
        (new_task (next_pid s) k sz (frame_base (k + sz)) um un)); try done; [|by exists tr].
      unfold lenZ. by rewrite Hl.
    + assert (Hlen : lenZ d2' = sz) by (unfold lenZ; rewrite Hl; apply Hf).
      split; try done.
      2: { etransitivity; [apply insert_subseteq, Hf|]. apply insert_subseteq, Hf. }
      * cbn. intros a Ha. rewrite Ets. destruct (decide (task_ring s = a)) as [<-|Hra].
        -- by rewrite lookup_insert_eq, Htr'.
        -- by rewrite !lookup_insert_ne.
      * exists k, (next tr), d2'. cbn. rewrite Ets, lookup_insert_ne by done.
        rewrite !lookup_insert_eq. done.
Qed.
End Start.

(** Out of memory: nothing but the allocator's own state may have changed. *)
Definition untouched (s s' : sched H) : Prop := exists h, s' = set_heaps h s.

Lemma core_same_heaps h' h ts ring cur np zl A B X Y rs zs ps :
  core_ok INIT h ts ring cur np zl A B X Y rs zs ps -> hp_rel h' A B ->
  core_ok INIT h' ts ring cur np zl A B X Y rs zs ps.
Proof. intros Hok Hr. by destruct Hok. Qed.

Lemma create_ok entry n A B X Y rs zs ps (Q : unit -> sched H -> Prop) s :
  mt_ok INIT s A B X Y rs zs ps -> stack_ok (stack_bytes n) -> alloc_safe (stack_bytes n) (heaps s) ->
  next_pid s < 2147483647 ->
  (forall s', mt_ok INIT s' A B X Y rs zs ps -> untouched s s' ->
     ~ k_fits (heaps s) [SIZEOF_TASK; stack_bytes n] -> Q tt s') ->
  (forall s' A' t, mt_ok INIT s' A' B X Y (rs ++ [t]) zs ps ->
     created entry (stack_bytes n) 0 0 s s' A A' t -> Q tt s') ->
  wp (task_create entry n) Q s.
Proof.
  intros Hok Hst Hs Hnp HN HS. unfold task_create. fold (stack_bytes n). wsteps.
  apply (alloc_task_ok _ A B); [apply Hok|destruct Hst; unfold FRAME_QWORDS in *; lia|done|..].
  - intros h Hr Hf. wsteps. apply HN; [|by exists h|done]. eapply core_same_heaps; [exact Hok|done].
  - intros h t k d1 d2 Hf Hr Hlr.
    apply (start_ok _ _ _ _ _ _ _ _ _ _ Hok Hst Hnp h t k d1 d2); [done|done|done|].
    intros h' d2' Hfr. apply (enter_ok entry _ 0 0 _ _ _ _ Y _ _ _ _ Hok Hnp eq_refl h' t k d1 d2 d2'); [done|done|].
    intros s' A' Hok' Hc. by apply (HS s' A' t).
Qed.

Lemma ucreate_ok entry n um un A B X Y Y' rs zs ps (Q : Z -> sched H -> Prop) s :
  mt_ok INIT s A B X Y rs zs ps -> stack_ok (stack_bytes n) -> alloc_safe (stack_bytes n) (heaps s) ->
  next_pid s < 2147483647 -> (if um =? 0 then Y' = Y else Y ≡ₚ um :: Y') ->
  (forall s', mt_ok INIT s' A B X Y rs zs ps -> untouched s s' ->
     ~ k_fits (heaps s) [SIZEOF_TASK; stack_bytes n] -> Q 0 s') ->
  (forall s' A' t, mt_ok INIT s' A' B X Y' (rs ++ [t]) zs ps ->
     created entry (stack_bytes n) um un s s' A A' t -> Q (next_pid s) s') ->
  wp (utask_create entry n um un) Q s.
Proof.
  intros Hok Hst Hs Hnp HY HN HS. unfold utask_create. fold (stack_bytes n). wsteps.
  apply (alloc_task_ok _ A B); [apply Hok|destruct Hst; unfold FRAME_QWORDS in *; lia|done|..].
  - intros h Hr Hf. wsteps. apply HN; [|by exists h|done]. eapply core_same_heaps; [exact Hok|done].
  - intros h t k d1 d2 Hf Hr Hlr.
    apply (start_ok _ _ _ _ _ _ _ _ _ _ Hok Hst Hnp h t k d1 d2); [done|done|done|].
    intros h' d2' Hfr. wsteps.
    apply (wp_store t _ (new_task (next_pid s) k (stack_bytes n) (frame_base (k + stack_bytes n)) 0 0)).
    { apply lookup_insert_eq. }
    wsteps. cbn [tasks set_heaps set_tasks set_next_pid]. rewrite insert_insert_eq.
    apply (enter_ok entry _ um un _ _ _ _ Y' _ _ _ _ Hok Hnp HY h' t k d1 d2 d2'); [done|done|].
    intros s' A' Hok' Hc. wsteps. pose proof (ok_np Hok). rewrite u64_small by lia. by apply (HS s' A' t).
Qed.
End Create.
