(* ===== verification/TaskSched.v ===== *)
(** * The timer's switch, the queries and the start of the scheduler

    [schedule_from_isr] picks the next runnable task of the ring, [task_list]
    and [task_is_alive] read it, [scheduler_init] makes it. *)

From Stdlib Require Import ZArith Lia.
From S2P Require Import Prelude Memory AllocSpec Heaps Multitask TaskLogic TaskStack TaskInv TaskOps TaskCalls.

(** The ring [rs] in the order in which a search from [cur] visits it. *)
Record visits (ts : gmap Z task) (cur : Z) (rs order : list Z) : Prop := {
  v_seg : lseg ts order (hd 0 order);
  v_perm : order ≡ₚ rs;
  v_from : exists t, ts !! cur = Some t /\ next t = hd 0 order
}.

(** Writing fields other than [next] leaves the order. *)
Definition same_next (ts ts' : gmap Z task) : Prop :=
  forall a t, ts !! a = Some t -> exists t', ts' !! a = Some t' /\ next t' = next t.

Lemma same_next_update ts a t f : ts !! a = Some t -> next (f t) = next t -> same_next ts (<[a := f t]> ts).
Proof.
  intros Ha Hf b u Hb. destruct (decide (a = b)) as [<-|Hne].
  - rewrite lookup_insert_eq. exists (f t). split; [done|congruence].
  - rewrite lookup_insert_ne by done. by exists u.
Qed.
Lemma visits_same ts ts' cur rs order : same_next ts ts' -> visits ts cur rs order -> visits ts' cur rs order.
Proof.
  intros Hs [H1 H2 (t & Ht & Hn)]. split; [|done|].
  - eapply lseg_same; [|done]. intros a u _. apply Hs.
  - destruct (Hs _ _ Ht) as (t' & Ht' & E). exists t'. split; [done|congruence].
Qed.
(** The order from a task of the ring: the rest first, itself last. *)
Lemma visits_next ts cur rs o1 a o2 :
  visits ts cur rs (o1 ++ a :: o2) -> visits ts a rs (o2 ++ o1 ++ [a]).
Proof.
  intros [H1 H2 _]. replace (o1 ++ a :: o2) with ((o1 ++ [a]) ++ o2) in * by by rewrite <- app_assoc.
  apply ring_rotate in H1. split.
  - exact H1.
  - rewrite <- H2. apply Permutation_app_comm.
  - rewrite app_assoc in H1. apply lseg_last in H1 as (_ & t & Ht & Hn). exists t. split; [done|].
    by rewrite app_assoc.
Qed.

Section Sched.
Context {H : Type} `{!Heaps H, !HeapsOk H} (INIT INIT_STACK : Z).

(** The task the interrupt arrived in. *)
Definition running (s : sched H) : Z := if current s =? 0 then INIT else current s.

Lemma task_ring_succ ts ring rs a :
  ring_ok ts ring rs -> a ∈ rs -> exists t, ts !! a = Some t /\ next t ∈ rs.
Proof.
  intros Hr Ha. destruct (list_elem_of_split _ _ Ha) as (l1 & l2 & E).
  pose proof (r_seg _ _ _ Hr) as Hs. rewrite E in Hs at 1.
  apply lseg_app in Hs as [_ [(t & Ht & Hn) _]]. exists t. split; [done|]. rewrite Hn.
  destruct l2 as [|b l2]; cbn [hd].
  - pose proof (r_ne _ _ _ Hr). destruct rs; [done|by left].
  - rewrite E. apply elem_of_app. right. right. by left.
Qed.

Lemma visits_exist A B X Y rs zs ps (s : sched H) :
  mt_ok INIT s A B X Y rs zs ps -> exists order, visits (tasks s) (running s) rs order.
Proof.
  intros Hok.
  assert (Hn : exists t, tasks s !! running s = Some t /\ next t ∈ rs).
  { unfold running. destruct (Z.eqb_spec (current s) 0) as [E|E].
    - apply (task_ring_succ _ _ _ _ (ok_ring Hok)), (ok_init Hok).
    - destruct (ok_cur Hok) as [?|[?|(_ & ?)]]; [done| |done].
      by apply (task_ring_succ _ _ _ _ (ok_ring Hok)). }
  destruct Hn as (t & Ht & (l1 & l2 & E)%list_elem_of_split).
  exists ((next t :: l2) ++ l1). split; [| |by exists t].
  - pose proof (r_seg _ _ _ (ok_ring Hok)) as Hs. rewrite E in Hs.
    exact (ring_rotate _ _ _ Hs).
  - rewrite E. apply Permutation_app_comm.
Qed.

(** The interrupted task's record after its registers are saved. *)
Definition leave (first : bool) (r : Z) (t : task) : task :=
  if first then set_state TASK_RUNNING (set_regs r (set_stack INIT_STACK (16 * 1024) t))
  else let t := set_regs r t in
       if bool_decide (state t = TASK_RUNNING) then set_state TASK_READY t else t.

Lemma leave_same first r t :
  next (leave first r t) = next t /\ znext (leave first r t) = znext t /\ pid (leave first r t) = pid t /\
  user_mem (leave first r t) = user_mem t /\ regs (leave first r t) = r /\
  (first = false -> kstack (leave first r t) = kstack t /\ kstack_size (leave first r t) = kstack_size t).
Proof. unfold leave. destruct first; [done|]. cbn zeta. by case_bool_decide. Qed.
Lemma leave_state r t :
  (state (leave false r t) = TASK_ZOMBIE <-> state t = TASK_ZOMBIE) /\
  (state (leave false r t) = TASK_BLOCKED <-> state t = TASK_BLOCKED).
Proof.
  unfold leave. cbn zeta. case_bool_decide as E; [|done]. cbn in *. by rewrite E.
Qed.

(** The switch: the saved task, then the one that runs. *)
Definition switched (r : Z) (s s' : sched H) (nx : Z) : Prop :=
  exists tc tn, let first := current s =? 0 in
    tasks s !! running s = Some tc /\
    let ts1 := <[running s := leave first r tc]> (tasks s) in
    ts1 !! nx = Some tn /\
    tasks s' = <[nx := set_state TASK_RUNNING tn]> ts1 /\
    task_ring s' = task_ring s /\ next_pid s' = next_pid s /\ zombie_list s' = zombie_list s /\
    iflag s' = iflag s /\ heaps s' = heaps s /\
    current s' = nx /\ kstack_top s' = u64 (kstack tn + kstack_size tn).

(** Saving the registers keeps the invariant. *)
Lemma core_leave r tc A B X Y rs zs ps (s : sched H) :
  mt_ok INIT s A B X Y rs zs ps -> tasks s !! running s = Some tc ->
  core_ok INIT (heaps s) (<[running s := leave (current s =? 0) r tc]> (tasks s)) (task_ring s)
    (running s) (next_pid s) (zombie_list s) A B X Y rs zs ps.
Proof.
  intros Hok Htc. unfold running in *.
  destruct (leave_same (current s =? 0) r tc) as (L1 & L2 & L3 & L4 & _ & L5).
  assert (Hok' : core_ok INIT (heaps s) (tasks s) (task_ring s)
    (if current s =? 0 then INIT else current s) (next_pid s) (zombie_list s) A B X Y rs zs ps).
  { destruct (Z.eqb_spec (current s) 0) as [E|E]; [|exact Hok].
    pose proof (ok_init Hok) as [HI _]. destruct Hok. split; try done. right. by left. }
  apply (core_update _ _ _ _ _ _ _ _ _ _ _ _ _ _ Hok' _ tc); try done.
  - unfold kown. destruct (Z.eqb_spec (current s) 0) as [E|E]; [by rewrite Z.eqb_refl|].
    by destruct L5 as [-> _].
  - unfold uown. by rewrite L4.
  - destruct (Z.eqb_spec (current s) 0) as [E|E]; [done|]. intros _. by apply L5.
  - destruct (Z.eqb_spec (current s) 0) as [E|E]; intros Hin.
    + exfalso. apply (ok_init Hok), elem_of_app. by left.
    + apply leave_state. by apply (ok_zombie Hok (current s)).
  - destruct (Z.eqb_spec (current s) 0) as [E|E]; intros Hin; [done|].
    intros Hz%leave_state. by apply (ok_listed Hok (current s) tc).
  - destruct (Z.eqb_spec (current s) 0) as [E|E]; [done|].
    intros Hz%leave_state. by apply (ok_blocked Hok (current s) tc).
Qed.

(** The task switched to. *)
Lemma core_enter nx tn ts cur h ring np zl A B X Y rs zs ps :
  core_ok INIT h ts ring cur np zl A B X Y rs zs ps -> nx ∈ rs -> nx ∉ zs ++ ps -> ts !! nx = Some tn ->
  core_ok INIT h (<[nx := set_state TASK_RUNNING tn]> ts) ring nx np zl A B X Y rs zs ps.
Proof.
  intros Hok Hin Hnz Hn.
  assert (Hok' : core_ok INIT h ts ring nx np zl A B X Y rs zs ps).
  { destruct Hok. split; try done. right. by left. }
  apply (core_update _ _ _ _ _ _ _ _ _ _ _ _ _ _ Hok' nx tn); try done.
  intros ?. exfalso. apply Hnz, elem_of_app. by left.
Qed.

(** [pick_next] finds the first task of the visiting order that runs. *)
Lemma pick_ok A B X Y rs zs order (Q : Z -> sched H -> Prop) (s : sched H) :
  mt_ok INIT s A B X Y rs zs [] -> current s <> 0 -> visits (tasks s) (current s) rs order ->
  (forall nx o1 o2, order = o1 ++ nx :: o2 -> nx ∈ rs -> nx ∉ zs ->
     (forall b, b ∈ o1 -> b ∈ zs) -> Q nx s) ->
  wp pick_next Q s.
Proof.
  intros Hok Hc [Hseg Hperm (t & Ht & Hn)] HQ. unfold pick_next.
  destruct (ring_tail _ _ _ (ok_ring Hok)) as (q & tr & Eq & Htr & _).
  assert (Hr0 : task_ring s <> 0).
  { apply (ok_nz Hok). by exists tr. }
  wsteps. rw_test. wsteps. rw_test. cbn [negb]. apply (wp_deref _ t); [done|]. wsteps. rewrite Hn.
  assert (Hin : forall a, a ∈ order <-> a ∈ rs) by (intros a; by rewrite Hperm).
  assert (Hnd : base.NoDup order) by (rewrite Hperm; apply Hok).
  apply (ring_find_ok _ _ order); try done.
  - intros ->. apply Permutation_nil in Hperm. by apply (r_ne _ _ _ (ok_ring Hok)).
  - destruct order as [|a o]; [apply not_elem_of_nil|]. by apply list.NoDup_cons in Hnd as [? _].
  - rewrite Hperm. apply (ring_length _ _ _ (ok_ring Hok)).
  - destruct (first_of_spec (tasks s) runnable order _ Hseg) as [[_ Hno]|(l1 & a & u & l2 & E & -> & Hu & Hr & Hl1)].
    + intros a Ha%Hin. by apply (r_nz _ _ _ (ok_ring Hok)).
    + exfalso. destruct (ok_init Hok) as [HI HIz].
      destruct (ring_in _ _ _ _ (ok_ring Hok) HI) as [ti Hti].
      pose proof (core_runnable _ _ _ _ _ _ _ _ _ _ _ _ _ _ Hok INIT ti HI HIz Hti) as Hr.
      rewrite (Hno INIT ti) in Hr; [done|by apply Hin|done].
    + assert (Har : a ∈ rs) by (apply Hin; rewrite E; apply elem_of_app; right; by left).
      apply (HQ a l1 l2 E Har).
      * intros Hz. pose proof (ok_zombie Hok a u Hz Hu) as Ez. unfold runnable in Hr. by rewrite Ez in Hr.
      * intros b Hb. assert (Hbr : b ∈ rs) by (apply Hin; rewrite E; apply elem_of_app; by left).
        destruct (ring_in _ _ _ _ (ok_ring Hok) Hbr) as [v Hv].
        destruct (decide (b ∈ zs)) as [|Hbz]; [done|].
        assert (Hbz2 : b ∉ zs ++ []) by by rewrite app_nil_r.
        pose proof (core_runnable _ _ _ _ _ _ _ _ _ _ _ _ _ _ Hok b v Hbr Hbz2 Hv) as Hrb.
        by rewrite (Hl1 b v Hb Hv) in Hrb.
Qed.

Lemma set_current_id (s : sched H) c : current s = c -> set_current c s = s.
Proof. by destruct s; cbn; intros <-. Qed.

(** The first half: the interrupted task is saved. *)
Lemma save_ok r tc (Q : unit -> sched H -> Prop) (s : sched H) :
  tasks s !! running s = Some tc ->
  (forall top, let ts1 := <[running s := leave (current s =? 0) r tc]> (tasks s) in
     Q tt (set_top top (set_current (running s) (set_tasks ts1 s)))) ->
  wp (if current s =? 0 then
        do! store INIT (set_stack INIT_STACK (16 * 1024)) in
        do! store INIT (set_regs r) in
        do! store INIT (set_state TASK_RUNNING) in
        do! modify (set_current INIT) in
        update_top
      else
        do! store (current s) (set_regs r) in
        let! t := deref (current s) in
        when (bool_decide (state t = TASK_RUNNING)) (store (current s) (set_state TASK_READY))) Q s.
Proof.
  unfold running. intros Htc HQ. destruct (current s =? 0).
  - wsteps. apply (wp_store INIT _ tc); [done|]. wsteps.
    apply (wp_store INIT _ (set_stack INIT_STACK (16 * 1024) tc)); [apply lookup_insert_eq|]. wsteps.
    apply (wp_store INIT _ (set_regs r (set_stack INIT_STACK (16 * 1024) tc))); [apply lookup_insert_eq|].
    wsteps. unfold update_top. wsteps. cbn [tasks set_tasks]. rewrite !insert_insert_eq.
    match goal with |- wp _ _ ?st => apply (wp_deref INIT (leave true r tc)) end; [apply lookup_insert_eq|].
    wsteps. apply HQ.
  - specialize (HQ (kstack_top s)). unfold leave in HQ. cbn zeta in HQ.
    wsteps. apply (wp_store _ _ tc); [done|]. wsteps.
    apply (wp_deref _ (set_regs r tc)); [apply lookup_insert_eq|].
    apply wp_when; intros Es; rewrite Es in HQ.
    + apply (wp_store _ _ (set_regs r tc)); [apply lookup_insert_eq|]. cbn [tasks set_tasks].
      rewrite insert_insert_eq. by destruct s.
    + by destruct s.
Qed.

Lemma schedule_ok r A B X Y rs zs order (Q : Z -> sched H -> Prop) (s : sched H) :
  mt_ok INIT s A B X Y rs zs [] -> visits (tasks s) (running s) rs order ->
  (forall s' nx t' o1 o2, mt_ok INIT s' A B X Y rs zs [] -> switched r s s' nx ->
     order = o1 ++ nx :: o2 -> nx ∈ rs -> nx ∉ zs -> (forall b, b ∈ o1 -> b ∈ zs) ->
     visits (tasks s') nx rs (o2 ++ o1 ++ [nx]) ->
     tasks s' !! nx = Some t' -> Q (regs t') s') ->
  wp (schedule_from_isr INIT INIT_STACK r) Q s.
Proof.
  intros Hok Hv HQ. destruct (v_from _ _ _ _ Hv) as (tc & Htc & Hnc).
  unfold schedule_from_isr. wsteps. apply (save_ok r tc); [done|]. cbn zeta. intros top.
  pose proof (core_leave r tc _ _ _ _ _ _ _ _ Hok Htc) as Hok1.
  set (ts1 := <[running s := leave (current s =? 0) r tc]> (tasks s)) in *.
  assert (Hc0 : running s <> 0) by (apply (ok_nz Hok); by exists tc).
  assert (Hsn : same_next (tasks s) ts1).
  { apply (same_next_update (tasks s) (running s) tc (leave (current s =? 0) r)); [done|apply leave_same]. }
  pose proof (visits_same _ ts1 _ _ _ Hsn Hv) as Hv1.
  wsteps. match goal with |- wp _ _ ?st => apply (pick_ok A B X Y rs zs order _ st) end; [exact Hok1|done|exact Hv1|].
  intros nx o1 o2 E Hin Hnz Hbefore. cbn [current set_top set_current].
  destruct (ring_in _ _ _ _ (ok_ring Hok1) Hin) as [tn Htn].
  assert (Hn0 : nx <> 0) by (apply (ok_nz Hok1); by exists tn).
  assert (Hend : Q (regs tn) (set_top (u64 (kstack tn + kstack_size tn))
      (set_current nx (set_tasks (<[nx := set_state TASK_RUNNING tn]> ts1) s)))).
  { change (regs tn) with (regs (set_state TASK_RUNNING tn)). apply (HQ _ nx _ o1 o2); try done.
    - cbn. apply (core_enter nx tn ts1 (running s)); try done. by rewrite app_nil_r.
    - by exists tc, tn.
    - apply (visits_same ts1); [by apply (same_next_update ts1 nx tn (set_state TASK_RUNNING))|].
      apply (visits_next _ (running s)). by rewrite <- E.
    - apply lookup_insert_eq. }
  rw_test. wsteps. cbn [current set_top set_current]. destruct (Z.eqb_spec nx (running s)) as [->|Hne].
  - wsteps. apply (wp_deref _ tn); [done|]. wsteps. apply (wp_store _ _ tn); [done|]. unfold update_top. wsteps.
    cbn [current set_top set_current set_tasks tasks].
    apply (wp_deref _ (set_state TASK_RUNNING tn)); [apply lookup_insert_eq|]. by wsteps.
  - wsteps. apply (wp_store _ _ tn); [done|]. wsteps.
    apply (wp_deref _ (set_state TASK_RUNNING tn)); [apply lookup_insert_eq|]. unfold update_top. wsteps.
    apply (wp_deref _ (set_state TASK_RUNNING tn)); [apply lookup_insert_eq|]. by wsteps.
Qed.

(** ** Queries *)

(** The entry of a task in the list. *)
Definition info (ts : gmap Z task) (a : Z) : Z * task_state :=
  match ts !! a with Some t => (pid t, state t) | None => (0, TASK_BLOCKED) end.

Lemma list_loop_ok fuel l stop count max (Q : list (Z * task_state) -> sched H -> Prop) s :
  lseg (tasks s) l stop -> l <> [] -> stop ∉ tl l -> (length l < fuel)%nat ->
  Q (take (Z.to_nat (max - count)) (map (info (tasks s)) l)) s ->
  wp (list_loop fuel (hd 0 l) stop count max) Q s.
Proof.
  revert fuel count Q. induction l as [|a l IH]; intros fuel count Q; [done|].
  intros [(t & Ht & Hn) Hl] _ Hst Hf HQ.
  destruct fuel as [|fuel]; [simpl in Hf; lia|]. cbn [list_loop hd map] in *.
  destruct (Z.leb_spec max count) as [Hle|Hlt].
  { wsteps. by replace (Z.to_nat (max - count)) with O in HQ by lia. }
  assert (Ha : info (tasks s) a = (pid t, state t)) by (unfold info; by rewrite Ht).
  replace (Z.to_nat (max - count)) with (S (Z.to_nat (max - (count + 1)))) in HQ by lia.
  cbn [take] in HQ. rewrite Ha in HQ. wsteps. apply (wp_deref a t); [done|].
  destruct l as [|b l]; cbn [hd tl] in *.
  - rewrite Hn, Z.eqb_refl. wsteps. by rewrite firstn_nil in HQ.
  - rewrite Hn. destruct (Z.eqb_spec b stop) as [->|_]; [by exfalso; apply Hst; left|].
    wsteps. apply (IH fuel (count + 1)); [done..| |simpl in *; lia|].
    { intros Hin. apply Hst. by right. }
    by wsteps.
Qed.

Lemma ring_first_deref A B X Y rs zs ps (s : sched H) :
  mt_ok INIT s A B X Y rs zs ps ->
  task_ring s <> 0 /\ exists tr, tasks s !! task_ring s = Some tr /\ next tr = hd 0 rs.
Proof.
  intros Hok. destruct (ring_tail _ _ _ (ok_ring Hok)) as (q & tr & _ & Htr & Hn).
  split; [|by exists tr]. apply (ok_nz Hok). by exists tr.
Qed.

Lemma list_ok max A B X Y rs zs ps (Q : list (Z * task_state) -> sched H -> Prop) s :
  mt_ok INIT s A B X Y rs zs ps ->
  Q (take (Z.to_nat (s32 max)) (map (info (tasks s)) rs)) (set_iflag true s) ->
  wp (task_list max) Q s.
Proof.
  intros Hok HQ. destruct (ring_first_deref _ _ _ _ _ _ _ _ Hok) as (Hr0 & tr & Htr & Hn).
  unfold task_list. wsteps. cbn [task_ring set_iflag]. rw_test. wsteps.
  apply (wp_deref _ tr); [done|]. wsteps. rewrite Hn.
  destruct (ok_ring Hok) as [_ Hs Hnd _ Hne].
  apply (list_loop_ok _ rs); try done.
  - destruct rs as [|a rs]; [done|]. by apply list.NoDup_cons in Hnd as [? _].
  - apply (ring_length _ _ _ (ok_ring Hok)).
  - wsteps. by rewrite Z.sub_0_r.
Qed.

(** Of the tasks the reaper leaves, none is a zombie. *)
Lemma alive_ok p A B X Y rs zs (Q : Z -> sched H -> Prop) s :
  mt_ok INIT s A B X Y rs zs [] -> cur_live (current s) rs zs ->
  (p <= 0 -> Q (if p =? 0 then 1 else 0) (set_iflag false s)) ->
  (forall r s' A' B', 0 < p -> mt_ok INIT s' A' B' X Y (without zs rs) [] [] -> A' ⊆ A -> B' ⊆ B -> stays s s' -> iflag s' = true ->
     sim_tasks (fun a => a ∉ zs) (tasks s) (tasks s') ->
     (r = 1 /\ (exists a t, a ∈ rs /\ (a ∉ zs) /\ tasks s !! a = Some t /\ pid t = p) \/
      r = 0 /\ forall a t, a ∈ rs -> a ∉ zs -> tasks s !! a = Some t -> pid t <> p) ->
     Q r s') ->
  wp (task_is_alive INIT p) Q s.
Proof.
  intros Hok Hlive HQ0 HQ. unfold task_is_alive. wsteps.
  destruct (Z.leb_spec p 0) as [Hp|Hp]; [wsteps; auto|]. wsteps.
  apply (reap_ok INIT A B X Y rs zs); [exact Hok|done|].
  intros s1 A1 B1 Hok1 HA1 HB1 Hsim Hst Hi _. cbn in Hsim.
  destruct (ring_first_deref _ _ _ _ _ _ _ _ Hok1) as (Hr0 & tr & Htr & Hn).
  wsteps. cbn [task_ring set_iflag]. rw_test. wsteps. apply (wp_deref _ tr); [done|]. wsteps. rewrite Hn.
  match goal with |- wp _ _ ?st => apply (wp_find_pid INIT p A1 B1 X Y (without zs rs) [] [] _ st) end; [exact Hok1|].
  cbn [tasks set_iflag].
  destruct (ring_first INIT (fun t => pid t =? p) Hok1) as [[-> Hno]|(a & t & -> & Ha0 & Har & Ha & Hpa)].
  - rewrite Z.eqb_refl. wsteps. apply (HQ 0 _ A1 B1); try done. right. split; [done|].
    intros a t Hin Hz Ht. destruct (sim_get _ _ _ a t Hsim Hz Ht) as (t' & Ht' & E).
    specialize (Hno a t' ltac:(by apply elem_of_without) Ht'). apply Z.eqb_neq in Hno.
    intros Ep. apply Hno. destruct t, t'. by injection E as ->.
  - rw_test. wsteps. apply (wp_deref a t); [done|]. wsteps.
    apply elem_of_without in Har as [Har Haz].
    assert (Hs : bool_decide (state t = TASK_ZOMBIE) = false).
    { apply bool_decide_eq_false. intros Es.
      assert (Hin : a ∈ [] ++ []).
      { apply (ok_listed Hok1 a t); [by apply elem_of_without|done|done]. }
      by apply not_elem_of_nil in Hin. }
    rewrite Hs. apply (HQ 1 _ A1 B1); try done. left. split; [done|]. exists a.
    destruct (tasks s !! a) as [t0|] eqn:E0.
    2: { specialize (Hsim a Haz). rewrite E0, Ha in Hsim. done. }
    exists t0. repeat split; try done. specialize (Hsim a Haz). rewrite E0, Ha in Hsim.
    apply (inj Some) in Hsim. destruct t, t0. injection Hsim as ->. by apply Z.eqb_eq.
Qed.

(** ** The start *)

Lemma init_ok A B (Q : unit -> sched H -> Prop) s :
  hp_rel (heaps s) A B -> tasks s = ∅ -> zombie_list s = 0 -> INIT <> 0 ->
  (forall s', mt_ok INIT s' A B (keys A) (keys B) [INIT] [] [] -> current s' = 0 -> iflag s' = iflag s ->
     heaps s' = heaps s -> next_pid s' = 1 -> Q tt s') ->
  wp (scheduler_init INIT) Q s.
Proof.
  intros Hr Hts Hz HI HQ. unfold scheduler_init. wsteps. apply HQ; [|done..]. cbn. rewrite Hts.
  set (t := Task 0 TASK_RUNNING 0 0 0 0 INIT 0 0 0).
  assert (Hone : forall a u, (<[INIT := t]> ∅ : gmap Z task) !! a = Some u -> a = INIT /\ u = t).
  { intros a u [[<- <-]|[_ Hn]]%lookup_insert_Some; done. }
  assert (Hin : forall a, a ∈ [INIT] <-> a = INIT) by (intros; apply list_elem_of_singleton).
  assert (Hnil : forall a : Z, ~ a ∈ [] ++ []) by (intros; apply not_elem_of_nil).
  split; try done.
  - rewrite owned_insert by done. unfold kown. by rewrite Z.eqb_refl.
  - by rewrite owned_insert.
  - split; try done.
    + cbn. split; [|done]. exists t. by rewrite lookup_insert_eq.
    + apply NoDup_singleton.
    + by intros a ->%Hin.
  - constructor.
  - intros a. rewrite Hin. split.
    + intros [u [-> _]%Hone]. by left.
    + intros [->|?%Hnil]; [|done]. exists t. apply lookup_insert_eq.
  - by intros a [u [-> _]%Hone].
  - by intros a u ?%not_elem_of_nil.
  - by intros a u _ [-> ->]%Hone.
  - by intros a u [-> ->]%Hone.
  - split; [by apply Hin|apply Hnil].
  - by intros u [_ ->]%Hone.
  - by intros a u Hne [-> _]%Hone.
  - by intros a b u v [-> _]%Hone [-> _]%Hone.
  - by left.
  - by intros a u Hne [-> _]%Hone.
Qed.
End Sched.
