(* ===== verification/TaskSys.v ===== *)
(** * The scheduler as a whole

    The calls the rest of the kernel makes, timer interrupts included, as a
    step relation, and the proof that every legal call returns and keeps the
    invariant.  A call is legal when the running task has not ended (it is
    between its exit and the next timer interrupt), when new tasks find a
    kernel heap that need not grow, and when regions are freed by their
    owners; [X] and [Y] are the kernel and user regions owned outside the
    scheduler. *)

From Stdlib Require Import ZArith Lia.
From S2P Require Import Prelude Memory AllocSpec Heaps Multitask TaskLogic TaskStack TaskInv TaskOps.
From S2P Require Import TaskCalls TaskCreate TaskSched.

Inductive op :=
  | Tick (r : Z) | Create (entry n : Z) | Ucreate (entry n um un : Z)
  | Exit (code : Z) | Stop (p : Z) | Reap | TaskList (max : Z) | Alive (p : Z)
  | Kheap (c : call) | Uheap (c : call).

(** What a heap call does to the regions its caller owns. *)
Definition owned_after (c : call) (r : Z) (X X' : list Z) : Prop :=
  match c with
  | CMalloc _ => if r =? 0 then X' = X else X' = r :: X
  | CFree p => X ≡ₚ p :: X'
  | CRealloc p n =>
      if r =? 0 then (if n =? 0 then X ≡ₚ p :: X' else X' = X)
      else exists R, X ≡ₚ p :: R /\ X' = r :: R
  | CWrite _ _ => False
  end.
(** The caller names regions of its own. *)
Definition own_call (c : call) (X : list Z) : Prop :=
  match c with
  | CMalloc n => 0 <= n <= MAX_REQ
  | CFree p => p ∈ X
  | CRealloc p n => p ∈ X /\ 0 <= n <= MAX_REQ
  | CWrite _ _ => False
  end.

Section System.
Context {H : Type} `{!Heaps H, !HeapsOk H} (INIT INIT_STACK : Z).

Definition exec (o : op) : M H (option Z) :=
  match o with
  | Tick r => let! x := schedule_from_isr INIT INIT_STACK r in ret (Some x)
  | Create e n => do! task_create e n in ret (Some 0)
  | Ucreate e n um un => let! p := utask_create e n um un in ret (Some p)
  | Exit c => do! task_exit INIT c in ret (Some 0)
  | Stop p => task_stop INIT p
  | Reap => do! reap_zombies INIT in ret (Some 0)
  | TaskList max => let! l := task_list max in ret (Some (lenZ l))
  | Alive p => let! b := task_is_alive INIT p in ret (Some b)
  | Kheap c => let! x := kheap_do c in ret (Some x)
  | Uheap c => let! x := uheap_do c in ret (Some x)
  end.

(** The running task has not ended. *)
Definition live (s : sched H) : Prop :=
  current s = 0 \/ forall t, tasks s !! current s = Some t -> state t <> TASK_ZOMBIE.

Definition can_create (n : Z) (s : sched H) : Prop :=
  stack_ok (stack_bytes n) /\ alloc_safe (stack_bytes n) (heaps s) /\ next_pid s < 2147483647.

Definition legal (o : op) (s : sched H) (X Y : list Z) : Prop :=
  match o with
  | Tick _ => True
  | Create _ n => live s /\ can_create n s
  | Ucreate _ n um _ => live s /\ can_create n s /\ (um = 0 \/ um ∈ Y)
  | Kheap c => live s /\ own_call c X /\ (forall n, request c = Some n -> k_safe (heaps s) n)
  | Uheap c => live s /\ own_call c Y
  | _ => live s
  end.

(** The regions owned outside, after the call. *)
Definition after (o : op) (r : option Z) (X Y X' Y' : list Z) : Prop :=
  match o, r with
  | Ucreate _ _ um _, Some p =>
      X' = X /\ if (p =? 0) || (um =? 0) then Y' = Y else Y ≡ₚ um :: Y'
  | Kheap c, Some x => owned_after c x X X' /\ Y' = Y
  | Uheap c, Some x => owned_after c x Y Y' /\ X' = X
  | _, _ => X' = X /\ Y' = Y
  end.

Inductive reach : sched H -> list Z -> list Z -> sched H -> list Z -> list Z -> Prop :=
  | reach_refl s X Y : reach s X Y s X Y
  | reach_step s X Y s1 X1 Y1 o r s2 X2 Y2 :
      reach s X Y s1 X1 Y1 -> legal o s1 X1 Y1 -> exec o s1 = Ok (r, s2) -> after o r X1 Y1 X2 Y2 ->
      reach s X Y s2 X2 Y2.

(** The invariant without its witnesses. *)
Definition consistent (s : sched H) (X Y : list Z) : Prop :=
  exists A B rs zs, mt_ok INIT s A B X Y rs zs [].

(** A zombie is in the list, so the caller is in the ring. *)
Lemma live_cur A B X Y rs zs s : mt_ok INIT s A B X Y rs zs [] -> live s -> cur_live (current s) rs zs.
Proof.
  intros Hok [E|Hl]; [by left|]. destruct (decide (current s = 0)) as [E|E]; [by left|].
  destruct (decide (current s ∈ zs)) as [Hz|Hz].
  - exfalso. assert (Hd : is_Some (tasks s !! current s)).
    { apply (ok_dom Hok). right. apply elem_of_app. by left. }
    destruct Hd as [t Ht]. apply (Hl t Ht). by apply (ok_zombie Hok (current s)).
  - right. split; [|done]. destruct (ok_cur Hok) as [?|[?|(Hc & _)]]; [done|done|].
    by rewrite app_nil_r in Hc.
Qed.

(** ** Heap calls of the other components *)

Lemma owned_split (f : Z -> task -> list Z) ts X (A : regions) p :
  owned f ts ++ X ≡ₚ keys A -> p ∈ X -> is_Some (A !! p) /\ p ∉ owned f ts.
Proof.
  intros HA Hp. split.
  - apply elem_of_keys. rewrite <- HA. apply elem_of_app. by right.
  - intros Hin. pose proof (keys_nodup A) as Hnd. rewrite <- HA in Hnd.
    apply list.NoDup_app in Hnd as (_ & Hd & _). by apply (Hd p).
Qed.

Lemma keys_delete (A : regions) p d : A !! p = Some d -> keys A ≡ₚ p :: keys (delete p A).
Proof. intros Hp. unfold keys. by rewrite (owned_delete _ A p d Hp). Qed.
Lemma keys_insert (A : regions) p d : A !! p = None -> keys (<[p := d]> A) ≡ₚ p :: keys A.
Proof. intros Hp. unfold keys. by rewrite owned_insert. Qed.

(** Regions that are not the caller's keep their contents, and the caller's
    are the ones its call leaves it. *)
Lemma foreign_step lo hi (O X X' : list Z) A c r A' :
  O ++ X ≡ₚ keys A -> own_call c X -> astep lo hi A c r A' -> owned_after c r X X' ->
  O ++ X' ≡ₚ keys A' /\ (forall p, p ∈ O -> A' !! p = A !! p).
Proof.
  intros HA Hc Hstep Hafter.
  assert (Hfr : forall q, q ∈ O -> q ∉ X).
  { intros q Hq HX. pose proof (keys_nodup A) as Hnd. rewrite <- HA in Hnd.
    apply list.NoDup_app in Hnd as (_ & Hd & _). by apply (Hd q). }
  assert (Hin : forall q, q ∈ O -> is_Some (A !! q)).
  { intros q Hq. apply elem_of_keys. rewrite <- HA. apply elem_of_app. by left. }
  assert (Hdel : forall p Z, is_Some (A !! p) -> X ≡ₚ p :: Z -> O ++ Z ≡ₚ keys (delete p A)).
  { intros p Z [d Hd] HX. apply (Permutation_cons_inv (a := p)).
    rewrite <- (keys_delete A p d Hd), <- HA, HX. apply Permutation_middle. }
  inversion Hstep; subst; cbn in Hc, Hafter.
  - revert Hafter. rw_test. intros ->. split.
    + rewrite keys_insert by done. rewrite <- HA. symmetry. apply Permutation_middle.
    + intros q Hq. rewrite lookup_insert_ne; [done|]. intros ->. destruct (Hin _ Hq). congruence.
  - by subst X'.
  - split; [apply Hdel; [by eexists|done]|]. intros q Hq. rewrite lookup_delete_ne; [done|].
    intros ->. by apply (Hfr q).
  - revert Hafter. rw_test. intros (R & HX & ->). destruct Hc as [Hc _].
    split.
    + rewrite keys_insert by done. rewrite <- (Hdel p R) by (done || by eexists). symmetry. apply Permutation_middle.
    + intros q Hq. assert (Hqp : q <> p) by (intros ->; by apply (Hfr p)).
      assert (Hqr : q <> r).
      { intros ->. match goal with Hn : delete p A !! r = None |- _ => rewrite lookup_delete_ne in Hn by done end.
        destruct (Hin _ Hq). congruence. }
      by rewrite lookup_insert_ne, lookup_delete_ne.
  - revert Hafter. rw_test. by intros ->.
  - split; [apply Hdel; [by eexists|done]|]. intros q Hq. rewrite lookup_delete_ne; [done|].
    intros ->. destruct Hc as [Hc _]. by apply (Hfr q).
  - done.
Qed.

Lemma owned_after_ex c r X : own_call c X -> exists X', owned_after c r X X'.
Proof.
  assert (Hout : forall p, p ∈ X -> exists R, X ≡ₚ p :: R).
  { intros p (l1 & l2 & ->)%list_elem_of_split. exists (l1 ++ l2). symmetry. apply Permutation_middle. }
  destruct c as [n|p|p n|x v]; cbn; [|apply Hout| |done].
  - intros _. exists (if r =? 0 then X else r :: X). by destruct (r =? 0).
  - intros [[R HR]%Hout _]. destruct (r =? 0); [destruct (n =? 0)|].
    + by exists R.
    + by exists X.
    + exists (r :: R), R. done.
Qed.

Lemma client_own O X (A : regions) c :
  O ++ X ≡ₚ keys A -> own_call c X -> client_ok A c.
Proof.
  intros HA. assert (Hin : forall p, p ∈ X -> is_Some (A !! p)).
  { intros p Hp. apply elem_of_keys. rewrite <- HA. apply elem_of_app. by right. }
  destruct c; cbn; try done; [apply Hin|]. intros [? ?]. split; [by apply Hin|done].
Qed.

(** A heap call of another component keeps the invariant. *)
Lemma core_kheap h' A' X' h ts ring cur np zl A B X Y rs zs ps c r :
  core_ok INIT h ts ring cur np zl A B X Y rs zs ps -> hp_rel h' A' B ->
  own_call c X -> astep k_lo k_hi A c r A' -> owned_after c r X X' ->
  core_ok INIT h' ts ring cur np zl A' B X' Y rs zs ps.
Proof.
  intros Hok Hr Hc Hs Ha. destruct (foreign_step _ _ _ _ _ _ _ _ _ (ok_k Hok) Hc Hs Ha) as [Hk Hsame].
  pose proof (ok_stack Hok) as Hst. destruct Hok. split; try done.
  intros a t Hne Ht. destruct (Hst a t Hne Ht) as (d & Hd & E). exists d. split; [|done].
  rewrite Hsame; [done|]. apply elem_of_owned. exists a, t. split; [done|]. unfold kown.
  destruct (Z.eqb_spec a INIT); [done|]. right. by left.
Qed.
Lemma core_uheap h' B' Y' h ts ring cur np zl A B X Y rs zs ps c r :
  core_ok INIT h ts ring cur np zl A B X Y rs zs ps -> hp_rel h' A B' ->
  own_call c Y -> astep u_lo u_hi B c r B' -> owned_after c r Y Y' ->
  core_ok INIT h' ts ring cur np zl A B' X Y' rs zs ps.
Proof.
  intros Hok Hr Hc Hs Ha. destruct (foreign_step _ _ _ _ _ _ _ _ _ (ok_u Hok) Hc Hs Ha) as [Hk _].
  by destruct Hok.
Qed.

(** ** Every legal call *)

Context (HIk : ~ (k_lo <= INIT < k_hi)) (Hklo : 0 <= k_lo) (Hkhi : k_hi < 18446744073709551616).

(** The call returns, and what it leaves is consistent. *)
Definition served (o : op) (s : sched H) (X Y : list Z) : Prop :=
  wp (exec o) (fun r s' => forall X' Y', after o r X Y X' Y' -> consistent s' X' Y') s.

Lemma exec_create e n s X Y : consistent s X Y -> can_create n s -> served (Create e n) s X Y.
Proof.
  intros (A & B & rs & zs & Hok) (Hst & Hs & Hnp). unfold served. cbn [exec]. wsteps.
  apply (create_ok INIT HIk Hklo Hkhi e n A B X Y rs zs []); [exact Hok|done..| |].
  - intros s' Hok' _ _. wsteps. intros X' Y' [-> ->]. by exists A, B, rs, zs.
  - intros s' A' t Hok' _. wsteps. intros X' Y' [-> ->]. by exists A', B, (rs ++ [t]), zs.
Qed.

Lemma exec_ucreate e n um un s X Y :
  consistent s X Y -> can_create n s -> um = 0 \/ um ∈ Y -> served (Ucreate e n um un) s X Y.
Proof.
  intros (A & B & rs & zs & Hok) (Hst & Hs & Hnp) Hum. unfold served. cbn [exec]. wsteps.
  assert (HY : exists Y', if um =? 0 then Y' = Y else Y ≡ₚ um :: Y').
  { destruct (Z.eqb_spec um 0) as [->|Hu]; [by exists Y|]. destruct Hum as [?|(l1 & l2 & ->)%list_elem_of_split]; [done|].
    exists (l1 ++ l2). symmetry. apply Permutation_middle. }
  destruct HY as [Y0 HY]. pose proof (ok_np Hok) as Hnp1.
  apply (ucreate_ok INIT HIk Hklo Hkhi e n um un A B X Y Y0 rs zs []); [exact Hok|done..| |].
  - intros s' Hok' _ _. wsteps. intros X' Y' [-> ->]. by exists A, B, rs, zs.
  - intros s' A' t Hok' _. wsteps. cbn [after]. rw_test. cbn [orb]. intros X' Y' [-> HY'].
    exists A', B, (rs ++ [t]), zs.
    assert (HP : Y0 ≡ₚ Y').
    { destruct (um =? 0); [by subst|]. rewrite HY' in HY. by apply Permutation_cons_inv in HY. }
    destruct Hok'. split; try done. by rewrite <- HP.
Qed.

Lemma exec_tick r s X Y : consistent s X Y -> served (Tick r) s X Y.
Proof.
  intros (A & B & rs & zs & Hok). unfold served. cbn [exec]. wsteps.
  destruct (visits_exist INIT _ _ _ _ _ _ _ _ Hok) as (order & Hv).
  apply (schedule_ok INIT INIT_STACK r A B X Y rs zs order); [exact Hok|done|].
  intros s' nx t' o1 o2 Hok' _ _ _ _ _ _ _. wsteps. intros X' Y' [-> ->]. by exists A, B, rs, zs.
Qed.

Lemma exec_ends o s X Y :
  consistent s X Y -> live s -> match o with Exit _ | Stop _ | Reap | Alive _ | TaskList _ => True | _ => False end ->
  served o s X Y.
Proof.
  intros (A & B & rs & zs & Hok) Hl Ho. pose proof (live_cur _ _ _ _ _ _ _ Hok Hl) as Hlive.
  unfold served. destruct o; try done; cbn [exec]; wsteps.
  - apply (exit_ok INIT code A B X Y rs zs); [exact Hok|done|].
    intros s' A' B' zs' Hok' _ _ _ _ _ _. wsteps. intros X' Y' [-> ->]. by eexists A', B', _, zs'.
  - apply (stop_ok INIT p A B X Y rs zs); [exact Hok|done| |].
    + intros _ X' Y' [-> ->]. by exists A, B, rs, zs.
    + intros r s' A' B' rs' zs' _ Hok' _ _ _ _ _ _ X' Y'. destruct r; cbn; intros [-> ->]; by exists A', B', rs', zs'.
  - apply (reap_ok INIT A B X Y rs zs); [exact Hok|done|].
    intros s' A' B' Hok' _ _ _ _ _ _. wsteps. intros X' Y' [-> ->]. by eexists A', B', _, [].
  - apply (list_ok INIT max A B X Y rs zs []); [exact Hok|]. wsteps.
    intros X' Y' [-> ->]. by exists A, B, rs, zs.
  - apply (alive_ok INIT p A B X Y rs zs); [exact Hok|done| |].
    + intros _. wsteps. intros X' Y' [-> ->]. by exists A, B, rs, zs.
    + intros r s' A' B' _ Hok' _ _ _ _ _ _. wsteps. intros X' Y' [-> ->]. by eexists A', B', _, [].
Qed.

Lemma exec_heap o s X Y :
  consistent s X Y -> legal o s X Y -> match o with Kheap _ | Uheap _ => True | _ => False end ->
  served o s X Y.
Proof.
  intros (A & B & rs & zs & Hok) Hl Ho. unfold served. destruct o; try done; cbn [exec]; wsteps.
  - destruct Hl as (_ & Hc & Hs). apply (wp_kheap c A B).
    + apply Hok.
    + exact (client_own _ _ _ _ (ok_k Hok) Hc).
    + exact Hs.
    + intros r h A' _ Hstep Hr _. wsteps. intros X' Y' [Ha ->]. exists A', B, rs, zs.
      exact (core_kheap _ _ _ _ _ _ _ _ _ _ _ _ _ _ _ _ _ _ Hok Hr Hc Hstep Ha).
  - destruct Hl as (_ & Hc). apply (wp_uheap c A B).
    + apply Hok.
    + exact (client_own _ _ _ _ (ok_u Hok) Hc).
    + intros r h B' _ Hstep Hr _. wsteps. intros X' Y' [Ha ->]. exists A, B', rs, zs.
      exact (core_uheap _ _ _ _ _ _ _ _ _ _ _ _ _ _ _ _ _ _ Hok Hr Hc Hstep Ha).
Qed.

Lemma exec_ok o s X Y : consistent s X Y -> legal o s X Y -> served o s X Y.
Proof.
  intros Hc Hl. destruct o; try (by apply exec_ends).
  - by apply exec_tick.
  - by apply exec_create; [|apply Hl].
  - by apply exec_ucreate; [|apply Hl..].
  - by apply exec_heap.
  - by apply exec_heap.
Qed.

(** The regions owned outside follow every call. *)
Lemma after_ex o r s X Y : legal o s X Y -> exists X' Y', after o r X Y X' Y'.
Proof using.
  intros Hl. destruct o; destruct r as [r|]; try (by exists X, Y); cbn [legal] in Hl.
  - destruct Hl as (_ & _ & Hum). unfold after.
    destruct (Z.eqb_spec r 0); [by exists X, Y|]. destruct (Z.eqb_spec um 0); [by exists X, Y|].
    destruct Hum as [?|(l1 & l2 & ->)%list_elem_of_split]; [done|].
    exists X, (l1 ++ l2). split; [done|]. cbn [orb]. symmetry. apply Permutation_middle.
  - destruct Hl as (_ & Hc & _). destruct (owned_after_ex c r X Hc) as [X' ?]. by exists X', Y.
  - destruct Hl as (_ & Hc). destruct (owned_after_ex c r Y Hc) as [Y' ?]. by exists X, Y'.
Qed.

Lemma reach_ok s X Y s' X' Y' : reach s X Y s' X' Y' -> consistent s X Y -> consistent s' X' Y'.
Proof.
  induction 1 as [|s X Y s1 X1 Y1 o r s2 X2 Y2 _ IH Hl E Ha]; [done|]. intros Hc.
  pose proof (exec_ok o s1 X1 Y1 (IH Hc) Hl) as Hs. unfold served, wp in Hs. rewrite E in Hs. by apply Hs.
Qed.
End System.
