(* ===== verification/TaskFrames.v ===== *)
(** * What the calls leave of the other tasks

    No scheduler or heap call of one task touches another task's record (but
    for its place in the ring) or any byte of its stack: the frame saved there
    survives.  A task that was not there before is a new one, with its initial
    frame in place. *)

From Stdlib Require Import ZArith Lia.
From S2P Require Import Prelude Memory AllocSpec Heaps Multitask TaskLogic TaskStack TaskInv TaskOps.
From S2P Require Import TaskCalls TaskCreate TaskSched TaskSys.

Section Frames.
Context {H : Type} `{!Heaps H, !HeapsOk H} (INIT INIT_STACK : Z).

(** ** The new task's frame *)

Definition has_frame (entry : Z) (T : task) (m : mem) : Prop :=
  kstack T <= regs T /\ regs T + 176 <= kstack T + kstack_size T /\ regs T mod 16 = 0 /\
  forall i v, (i, v) ∈ frame_words entry (kstack T + kstack_size T) -> ld 8 m (regs T + 8 * i) = v.

Lemma frame_words_word entry top i v :
  (i, v) ∈ frame_words entry top -> 0 <= entry < 18446744073709551616 -> 0 <= top < 18446744073709551616 ->
  0 <= v < 18446744073709551616.
Proof. rewrite list_elem_of_In. cbn. intros Hi ? ?. repeat destruct Hi as [[= <- <-]|Hi]; lia || done. Qed.

Lemma created_frame entry sz um un s s' A A' B X Y rs zs ps a :
  0 <= k_lo -> k_hi < 18446744073709551616 -> 0 <= entry < 18446744073709551616 -> stack_ok sz ->
  mt_ok INIT s' A' B X Y rs zs ps -> created entry sz um un s s' A A' a ->
  exists T, tasks s' !! a = Some T /\ pid T = next_pid s /\ state T = TASK_READY /\ kstack_size T = sz /\
    user_mem T = um /\ user_mem_size T = un /\ has_frame entry T (hp_mem (heaps s')).
Proof.
  intros Hklo Hkhi He Hst Hok' [_ _ _ _ _ _ _ (k & nx & d & HT & HA & Hd & Hk & Hw)]. cbn zeta in *.
  eexists. split; [exact HT|]. unfold has_frame. cbn [pid state kstack_size user_mem user_mem_size regs kstack set_next new_task].
  pose proof (k_inside _ _ _ _ _ (ok_heaps Hok') HA) as (Hin1 & Hin2 & _).
  unfold stack_ok, FRAME_QWORDS in Hst. unfold frame_base in *.
  pose proof (Z.div_mod (k + sz) 16 ltac:(lia)) as Hdm.
  pose proof (Z.mod_pos_bound (k + sz) 16 ltac:(lia)) as Hmb.
  do 5 (split; [done|]). split; [done|]. split; [lia|]. split.
  { replace (_ - 176) with (((k + sz) / 16 - 11) * 16) by lia. apply Z.mod_mul. lia. }
  intros i v Hi. specialize (Hw i v Hi). pose proof (frame_words_range _ _ _ _ Hi) as Hr.
  destruct (hp_agrees _ _ _ (ok_heaps Hok')) as [Hag _].
  rewrite (word_at_ld 8 _ k d _ v); [|by apply Hag|lia|lia|exact Hw].
  change (256 ^ Z.of_nat 8) with 18446744073709551616. apply Z.mod_small.
  eapply frame_words_word; [exact Hi|done|lia].
Qed.

(** The frame's 22 words in memory order: interrupt number 32 and no error
    code, the fifteen general registers 0, then what [iretq] pops: the
    instruction pointer, the code segment 8, the flags with only the interrupt
    flag (and the bit that is always set), the stack pointer, the stack
    segment 16. *)
Definition first_frame (entry top : Z) : list Z :=
  [32; 0] ++ replicate 15 0 ++ [entry; 8; 514; top; 16].
Definition frame_at_regs (m : mem) (p : Z) : list Z := (fun i => ld 8 m (p + 8 * i)) <$> seqZ 0 22.

Lemma has_frame_words entry T m :
  has_frame entry T m -> frame_at_regs m (regs T) = first_frame entry (kstack T + kstack_size T).
Proof using.
  intros (_ & _ & _ & Hw). unfold frame_at_regs, first_frame.
  assert (Hin : forall i v, List.In (i, v) (frame_words entry (kstack T + kstack_size T)) ->
    ld 8 m (regs T + 8 * i) = v) by (intros i v Hi; by apply Hw, list_elem_of_In).
  clear Hw. set (g := fun i => ld 8 m (regs T + 8 * i)). 
  change (forall i v, List.In (i, v) (frame_words entry (kstack T + kstack_size T)) -> g i = v) in Hin. clearbody g.
  change (seqZ 0 22) with [0; 1; 2; 3; 4; 5; 6; 7; 8; 9; 10; 11; 12; 13; 14; 15; 16; 17; 18; 19; 20; 21].
  cbn [fmap list_fmap app replicate]. cbn [List.In frame_words] in Hin. repeat f_equal; apply Hin; tauto.
Qed.

(** ** The others *)

(** [t'], the task [a] of [s'], is as it was in [s], stack included. *)
Definition keeps (s s' : sched H) (a : Z) (t' : task) : Prop :=
  exists t, tasks s !! a = Some t /\ set_next 0 t' = set_next 0 t /\
    (a <> INIT -> same_on (kstack t) (kstack t + kstack_size t) (hp_mem (heaps s)) (hp_mem (heaps s'))).

Lemma keeps_refl s a t : tasks s !! a = Some t -> keeps s s a t.
Proof. intros Ht. exists t. by repeat split. Qed.

Lemma region_same m m' (A A' : regions) p d :
  agrees m A -> agrees m' A' -> A !! p = Some d -> A' !! p = Some d -> same_on p (p + lenZ d) m m'.
Proof.
  intros Hm Hm' Hp Hp' x Hx. specialize (Hm p d Hp). specialize (Hm' p d Hp').
  assert (E : rbs m p (length d) = rbs m' p (length d)) by congruence.
  apply (f_equal (fun l => l !! Z.to_nat (x - p))) in E. unfold lenZ in Hx.
  rewrite !lookup_rbs in E by lia. injection E as E. by replace (p + Z.of_nat (Z.to_nat (x - p))) with x in E by lia.
Qed.

Section Two.
Context (s s' : sched H) (A A' B B' : regions) (X X' Y Y' rs rs' zs zs' ps ps' : list Z).
Context (Hok : mt_ok INIT s A B X Y rs zs ps) (Hok' : mt_ok INIT s' A' B' X' Y' rs' zs' ps').

Lemma keeps_by a t' :
  set_next 0 <$> tasks s' !! a = set_next 0 <$> tasks s !! a -> tasks s' !! a = Some t' ->
  (a <> INIT -> A' !! kstack t' = A !! kstack t') -> keeps s s' a t'.
Proof using All.
  intros Hs Ht' HA. rewrite Ht' in Hs. destruct (tasks s !! a) as [t|] eqn:Ht; [|done].
  apply (inj Some) in Hs. exists t. split; [done|]. split; [done|]. intros Ha.
  destruct (ok_stack Hok a t Ha Ht) as (d & Hd & <-). assert (E : kstack t' = kstack t) by (destruct t, t'; by injection Hs).
  rewrite E in HA. apply (region_same _ _ A A'); [apply (hp_agrees _ _ _ (ok_heaps Hok))|apply (hp_agrees _ _ _ (ok_heaps Hok'))|done|].
  by rewrite HA.
Qed.

(** Calls that only free ... *)
Lemma keeps_sub P : A' ⊆ A -> sim_tasks P (tasks s) (tasks s') ->
  forall a t', P a -> tasks s' !! a = Some t' -> keeps s s' a t'.
Proof using All.
  intros HA Hs a t' Ha Ht'. apply keeps_by; [by apply Hs|done|]. intros HI.
  destruct (ok_stack Hok' a t' HI Ht') as (d & Hd & _). rewrite Hd. symmetry. by eapply lookup_weaken.
Qed.
(** ... or only allocate. *)
Lemma keeps_sup P : A ⊆ A' -> sim_tasks P (tasks s) (tasks s') ->
  forall a t', P a -> tasks s' !! a = Some t' -> keeps s s' a t'.
Proof using All.
  intros HA Hs a t' Ha Ht'. apply keeps_by; [by apply Hs|done|]. intros HI.
  specialize (Hs a Ha). rewrite Ht' in Hs. destruct (tasks s !! a) as [t|] eqn:Ht; [|done]. apply (inj Some) in Hs.
  destruct (ok_stack Hok a t HI Ht) as (d & Hd & _).
  assert (Ek : kstack t = kstack t') by (destruct t, t'; by injection Hs).
  rewrite <- Ek, Hd. by eapply lookup_weaken.
Qed.
End Two.

(** ** Every call *)

Definition entry_of (o : op) : option Z :=
  match o with Create e _ | Ucreate e _ _ _ => Some e | _ => None end.
(** [a] is the task the call created. *)
Definition starts (o : op) (s s' : sched H) (a : Z) (t' : task) : Prop :=
  tasks s !! a = None /\ a = task_ring s' /\ exists e, entry_of o = Some e /\ has_frame e t' (hp_mem (heaps s')).

Definition others_kept (o : op) (s s' : sched H) : Prop :=
  current s' = current s /\
  forall a t', a <> running INIT s -> tasks s' !! a = Some t' -> keeps s s' a t' \/ starts o s s' a t'.

Lemma running_cur (s : sched H) a : a <> running INIT s -> a <> 0 -> a <> current s.
Proof. unfold running. by destruct (Z.eqb_spec (current s) 0) as [->|]. Qed.

Context (HIk : ~ (k_lo <= INIT < k_hi)) (Hklo : 0 <= k_lo) (Hkhi : k_hi < 18446744073709551616).

Definition kept_by (o : op) (s : sched H) : Prop := wp (exec INIT INIT_STACK o) (fun _ s' => others_kept o s s') s.

Lemma created_others entry sz um un o s s' A A' B X Y Y' rs rs' zs a :
  0 <= entry < 18446744073709551616 -> stack_ok sz -> entry_of o = Some entry ->
  mt_ok INIT s A B X Y rs zs [] -> mt_ok INIT s' A' B X Y' rs' zs [] -> task_ring s' = a ->
  created entry sz um un s s' A A' a -> others_kept o s s'.
Proof using All.
  intros He Hst Ho Hok Hok' Hr Hc. pose proof Hc as [C1 _ C3 _ C5 _ C7 _]. split; [done|]. intros b t' Hb Ht'.
  destruct (decide (b = a)) as [->|Hne].
  - right. split; [done|]. split; [done|]. exists entry. split; [done|].
    destruct (created_frame _ _ _ _ _ _ _ _ _ _ _ _ _ _ a Hklo Hkhi He Hst Hok' Hc) as (T & HT & _ & _ & _ & _ & _ & Hf).
    congruence.
  - left. by apply (keeps_sup _ _ _ _ _ _ _ _ _ _ _ _ _ _ _ _ Hok Hok' _ C7 C5).
Qed.

Lemma untouched_others o s s' A B X Y rs zs :
  mt_ok INIT s A B X Y rs zs [] -> mt_ok INIT s' A B X Y rs zs [] -> untouched s s' -> others_kept o s s'.
Proof using All.
  intros Hok Hok' [h ->]. split; [done|]. intros a t' _ Ht'. left.
  by apply (keeps_sub _ _ _ _ _ _ _ _ _ _ _ _ _ _ _ _ Hok Hok' (fun _ => True)).
Qed.

Lemma ring_tail_last ts ring rs a : ring_ok ts ring (rs ++ [a]) -> ring = a.
Proof using. intros Hr. rewrite <- (r_last _ _ _ Hr). apply List.last_last. Qed.

Lemma create_kept e n s X Y :
  consistent INIT s X Y -> can_create n s -> 0 <= e < 18446744073709551616 -> kept_by (Create e n) s.
Proof using All.
  intros (A & B & rs & zs & Hok) (Hst & Hs & Hnp) He. unfold kept_by. cbn [exec]. wsteps.
  apply (create_ok INIT HIk Hklo Hkhi e n A B X Y rs zs []); [exact Hok|done..| |].
  - intros s' Hok' Hun _. wsteps. eapply untouched_others; done.
  - intros s' A' t Hok' Hc. wsteps.
    eapply (created_others e); [done|exact Hst|done|exact Hok|exact Hok'|eapply ring_tail_last, Hok'|exact Hc].
Qed.

Lemma ucreate_kept e n um un s X Y :
  consistent INIT s X Y -> can_create n s -> um = 0 \/ um ∈ Y -> 0 <= e < 18446744073709551616 ->
  kept_by (Ucreate e n um un) s.
Proof using All.
  intros (A & B & rs & zs & Hok) (Hst & Hs & Hnp) Hum He. unfold kept_by. cbn [exec]. wsteps.
  assert (HY : exists Y', if um =? 0 then Y' = Y else Y ≡ₚ um :: Y').
  { destruct (Z.eqb_spec um 0) as [->|Hu]; [by exists Y|]. destruct Hum as [?|(l1 & l2 & ->)%list_elem_of_split]; [done|].
    exists (l1 ++ l2). symmetry. apply Permutation_middle. }
  destruct HY as [Y0 HY].
  apply (ucreate_ok INIT HIk Hklo Hkhi e n um un A B X Y Y0 rs zs []); [exact Hok|done..| |].
  - intros s' Hok' Hun _. wsteps. eapply untouched_others; done.
  - intros s' A' t Hok' Hc. wsteps.
    eapply (created_others e); [done|exact Hst|done|exact Hok|exact Hok'|eapply ring_tail_last, Hok'|exact Hc].
Qed.

(** The dead tasks are not in the ring, so what is left of the others is. *)
Lemma ends_kept o s X Y :
  consistent INIT s X Y -> live s -> match o with Exit _ | Stop _ | Reap | Alive _ | TaskList _ => True | _ => False end ->
  kept_by o s.
Proof using All.
  intros (A & B & rs & zs & Hok) Hl Ho. pose proof (live_cur INIT _ _ _ _ _ _ _ Hok Hl) as Hlive.
  assert (Hin : forall s' A' B' rs' zs' a t', mt_ok INIT s' A' B' X Y rs' zs' [] -> tasks s' !! a = Some t' -> a ∈ rs' \/ a ∈ zs').
  { intros s' A' B' rs' zs' a t' Hok' Ht'. destruct (proj1 (ok_dom Hok' a)) as [?|Hz]; [by exists t'|by left|].
    right. by rewrite app_nil_r in Hz. }
  assert (Hnz : forall s' A' B' rs' zs' a t', mt_ok INIT s' A' B' X Y rs' zs' [] -> tasks s' !! a = Some t' ->
    a <> running INIT s -> a <> current s).
  { intros s' A' B' rs' zs' a t' Hok' Ht' Ha. apply running_cur; [done|]. apply (ok_nz Hok'). by exists t'. }
  unfold kept_by. destruct o; try done; cbn [exec]; wsteps.
  - apply (exit_ok INIT code A B X Y rs zs); [exact Hok|done|].
    intros s' A' B' zs' Hok' HA _ Hst _ Hz Hsim. wsteps. split; [apply Hst|]. intros a t' Ha Ht'. left.
    pose proof (Hnz _ _ _ _ _ _ _ Hok' Ht' Ha) as Hc.
    apply (keeps_sub _ _ _ _ _ _ _ _ _ _ _ _ _ _ _ _ Hok Hok' _ HA Hsim); [|done]. split; [|done].
    destruct (Hin _ _ _ _ _ _ _ Hok' Ht') as [[_ ?]%elem_of_without|Hz']; [done|]. exfalso.
    destruct (_ || _); [subst; by apply not_elem_of_nil in Hz'|]. destruct Hz as [-> _].
    by apply list_elem_of_singleton in Hz'.
  - apply (stop_ok INIT p A B X Y rs zs); [exact Hok|done| |].
    { intros _. split; [done|]. intros a t' _ Ht'. left. by apply keeps_refl. }
    intros r s' A' B' rs' zs' _ Hok' HA _ Hst _ Hres Hsim. split; [apply Hst|]. intros a t' Ha Ht'. left.
    pose proof (Hnz _ _ _ _ _ _ _ Hok' Ht' Ha) as Hc.
    apply (keeps_sub _ _ _ _ _ _ _ _ _ _ _ _ _ _ _ _ Hok Hok' _ HA Hsim); [|done].
    destruct (Hin _ _ _ _ _ _ _ Hok' Ht') as [?|Hz]; [done|]. exfalso.
    destruct Hres; try (by apply not_elem_of_nil in Hz). by apply list_elem_of_singleton in Hz.
  - apply (reap_ok INIT A B X Y rs zs); [exact Hok|done|].
    intros s' A' B' Hok' HA _ Hsim Hst _ _. wsteps. split; [apply Hst|]. intros a t' Ha Ht'. left.
    apply (keeps_sub _ _ _ _ _ _ _ _ _ _ _ _ _ _ _ _ Hok Hok' _ HA Hsim); [|done].
    destruct (Hin _ _ _ _ _ _ _ Hok' Ht') as [[_ ?]%elem_of_without|Hz]; [done|by apply not_elem_of_nil in Hz].
  - apply (list_ok INIT max A B X Y rs zs []); [exact Hok|]. wsteps. split; [done|]. intros a t' _ Ht'. left.
    exists t'. by repeat split.
  - apply (alive_ok INIT p A B X Y rs zs); [exact Hok|done| |].
    + intros _. wsteps. split; [done|]. intros a t' _ Ht'. left. exists t'. by repeat split.
    + intros r s' A' B' _ Hok' HA _ Hst _ Hsim _. wsteps. split; [apply Hst|]. intros a t' Ha Ht'. left.
      apply (keeps_sub _ _ _ _ _ _ _ _ _ _ _ _ _ _ _ _ Hok Hok' _ HA Hsim); [|done].
      destruct (Hin _ _ _ _ _ _ _ Hok' Ht') as [[_ ?]%elem_of_without|Hz]; [done|by apply not_elem_of_nil in Hz].
Qed.

Lemma heap_kept o s X Y :
  consistent INIT s X Y -> legal o s X Y -> match o with Kheap _ | Uheap _ => True | _ => False end -> kept_by o s.
Proof using All.
  intros (A & B & rs & zs & Hok) Hl Ho. unfold kept_by. destruct o; try done; cbn [exec]; wsteps.
  - destruct Hl as (_ & Hc & Hs). apply (wp_kheap c A B).
    + apply Hok.
    + exact (client_own _ _ _ _ (ok_k Hok) Hc).
    + exact Hs.
    + intros r h A' _ Hstep Hr _. wsteps. split; [done|]. intros a t' _ Ht'. left. exists t'.
      split; [done|]. split; [done|]. intros HI. destruct (ok_stack Hok a t' HI Ht') as (d & Hd & <-).
      destruct (owned_after_ex c r X Hc) as [X' Ha].
      destruct (foreign_step _ _ _ _ _ _ _ _ _ (ok_k Hok) Hc Hstep Ha) as [_ Hsame].
      apply (region_same _ _ A A'); [apply (hp_agrees _ _ _ (ok_heaps Hok))|apply (hp_agrees _ _ _ Hr)|done|].
      rewrite Hsame; [done|]. apply elem_of_owned. exists a, t'. split; [done|]. unfold kown.
      rewrite (proj2 (Z.eqb_neq _ _) HI). right. by left.
  - destruct Hl as (_ & Hc). apply (wp_uheap c A B).
    + apply Hok.
    + exact (client_own _ _ _ _ (ok_u Hok) Hc).
    + intros r h B' _ Hstep Hr _. wsteps. split; [done|]. intros a t' _ Ht'. left. exists t'.
      split; [done|]. split; [done|]. intros HI. destruct (ok_stack Hok a t' HI Ht') as (d & Hd & <-).
      apply (region_same _ _ A A); [apply (hp_agrees _ _ _ (ok_heaps Hok))|apply (hp_agrees _ _ _ Hr)|done|done].
Qed.

(** ** Outside the heaps *)

Lemma core_framed m0 h ts ring cur np zl A B X Y rs zs ps :
  @core_ok H (framed_heaps m0) INIT h ts ring cur np zl A B X Y rs zs ps <->
  core_ok INIT h ts ring cur np zl A B X Y rs zs ps /\ off_areas m0 (hp_mem h).
Proof.
  split.
  - intros [[Hr Ho] ? ? ? ? ? ? ? ? ? ? ? ? ? ? ? ? ? ?]. split; [|done]. by split.
  - intros [[Hr ? ? ? ? ? ? ? ? ? ? ? ? ? ? ? ? ? ?] Ho]. by split.
Qed.
Lemma consistent_framed v s X Y :
  @consistent H (framed_heaps v) INIT s X Y <-> consistent INIT s X Y /\ off_areas v (hp_mem (heaps s)).
Proof.
  split.
  - intros (A & B & rs & zs & [Hok Ho]%core_framed). split; [by exists A, B, rs, zs|done].
  - intros [(A & B & rs & zs & Hok) Ho]. exists A, B, rs, zs. by apply core_framed.
Qed.

(** Legal calls write inside the heaps only. *)
Lemma exec_framed o s X Y :
  consistent INIT s X Y -> legal o s X Y ->
  wp (exec INIT INIT_STACK o) (fun r s' => (forall X' Y', after o r X Y X' Y' -> consistent INIT s' X' Y') /\
    off_areas (hp_mem (heaps s)) (hp_mem (heaps s'))) s.
Proof using HIk Hklo Hkhi HeapsOk0.
  intros Hc Hl. set (v := hp_mem (heaps s)).
  assert (Hc0 : @consistent H (framed_heaps v) INIT s X Y) by by apply consistent_framed.
  pose proof (@exec_ok H (framed_heaps v) (framed_heaps_ok v) INIT INIT_STACK HIk Hklo Hkhi o s X Y Hc0 Hl) as Hs.
  unfold served in Hs. eapply wp_mono; [exact Hs|]. intros r s' HQ. split.
  - intros X' Y' Ha. by apply (consistent_framed v), HQ.
  - destruct (after_ex o r s X Y Hl) as (X' & Y' & Ha). by apply (consistent_framed v s' X' Y'), HQ.
Qed.

(** Every call of the running task keeps the others. *)
Lemma exec_keeps o s X Y :
  consistent INIT s X Y -> legal o s X Y -> (forall r, o <> Tick r) ->
  (forall e, entry_of o = Some e -> 0 <= e < 18446744073709551616) -> kept_by o s.
Proof using All.
  intros Hc Hl Ht He. destruct o; try (by eapply ends_kept).
  - by destruct (Ht r).
  - eapply create_kept; [exact Hc|apply Hl|by apply He].
  - eapply ucreate_kept; [exact Hc|apply Hl|apply Hl|by apply He].
  - by eapply heap_kept.
  - by eapply heap_kept.
Qed.
End Frames.
