(* ===== verification/TaskProps.v ===== *)
(** * What the scheduler guarantees

    The properties of multitask.c, for any pair of heaps that implements
    [Heaps], with their witnesses on a small [heap_pair]; and runs that show
    where the code's own locking does not hold. *)

From Stdlib Require Import ZArith Lia.
From S2P Require Import Prelude Memory AllocSpec Heaps Multitask TaskLogic TaskStack TaskInv TaskOps.
From S2P Require Import TaskCalls TaskCreate TaskSched TaskSys TaskFrames.

Section Lemmas.
Context {H : Type} `{!Heaps H, !HeapsOk H} (INIT INIT_STACK : Z).

(** Timer interrupts that find the frames [fs] on the stack. *)
Fixpoint ticks (fs : list Z) : M H unit :=
  match fs with
  | [] => ret tt
  | f :: fs => do! schedule_from_isr INIT INIT_STACK f in ticks fs
  end.

Lemma fair_loop k A B X Y rs zs a o1 o2 fs (s : sched H) :
  (length o1 < k)%nat -> mt_ok INIT s A B X Y rs zs [] -> a ∉ zs ->
  visits (tasks s) (running INIT s) rs (o1 ++ a :: o2) -> (length o1 < length fs)%nat ->
  exists n, (0 < n <= S (length o1))%nat /\ wp (ticks (take n fs)) (fun _ s' => current s' = a) s.
Proof.
  revert o1 o2 fs s. induction k as [|k IH]; [lia|]. intros o1 o2 [|f fs] s Hk Hok Ha Hv Hf; [simpl in Hf; lia|].
  pose proof (schedule_ok INIT INIT_STACK f A B X Y rs zs _
    (fun _ s' => exists n, (n <= length o1)%nat /\ wp (ticks (take n fs)) (fun _ s' => current s' = a) s')
    s Hok Hv) as Hs.
  apply wp_ok in Hs as (r & s' & E & n & Hn & Hw).
  - exists (S n). split; [lia|]. cbn [take ticks]. apply wp_bind. unfold wp at 1. by rewrite E.
  - intros s' nx t' p1 p2 Hok' (tc & tn & _ & _ & _ & _ & _ & _ & _ & _ & Hc & _) Eo _ Hz Hp Hv' _.
    assert (Hcase : nx = a \/ exists q, o1 = p1 ++ nx :: q /\ p2 = q ++ a :: o2).
    { apply app_eq_inv in Eo as [(q & -> & Eq)|(q & -> & Eq)].
      - destruct q as [|b q]; injection Eq as -> ->; [by left|right; by exists q].
      - destruct q as [|b q]; injection Eq as -> ?; [by left|]. exfalso. apply Ha, Hp.
        apply elem_of_app. right. by left. }
    destruct Hcase as [->|(q & -> & ->)].
    + exists O. split; [lia|]. by apply wp_ret.
    + rewrite <- app_assoc in Hv'. cbn in Hv'. rewrite length_app in Hk, Hf. cbn [length] in Hk, Hf.
      rewrite length_app. cbn [length].
      assert (Hrun : running INIT s' = nx).
      { unfold running. rewrite Hc. destruct (Z.eqb_spec nx 0) as [E0|]; [|done].
        exfalso. pose proof (ok_nz Hok' nx) as Hnz. destruct (v_from _ _ _ _ Hv') as (t & Ht & _).
        apply Hnz; [by exists t|done]. }
      destruct (IH q (o2 ++ p1 ++ [nx]) fs s') as (n & Hn & Hw); [lia|exact Hok'|done| |lia|].
      { rewrite Hrun. exact Hv'. }
      exists n. split; [lia|done].
Qed.

(** A task of the store that is no zombie is in the ring. *)
Lemma live_in_ring A B X Y rs zs a t (s : sched H) :
  mt_ok INIT s A B X Y rs zs [] -> tasks s !! a = Some t -> state t <> TASK_ZOMBIE -> a ∈ rs /\ a ∉ zs.
Proof.
  intros Hok Ht Hs. assert (Hz : a ∉ zs).
  { intros Hz. by apply Hs, (ok_zombie Hok a). }
  split; [|done]. destruct (proj1 (ok_dom Hok a)) as [?|Hin]; [by exists t|done|].
  by rewrite app_nil_r in Hin.
Qed.

(** The task at [a] has pid [p] and has not ended. *)
Definition live_task (s : sched H) (p a : Z) : Prop :=
  exists t, tasks s !! a = Some t /\ state t <> TASK_ZOMBIE /\ pid t = p.

Lemma ring_live A B X Y rs zs a t (s : sched H) :
  mt_ok INIT s A B X Y rs zs [] -> a ∈ rs -> a ∉ zs -> tasks s !! a = Some t -> state t <> TASK_ZOMBIE.
Proof.
  intros Hok Ha Hz Ht Es. pose proof (ok_listed Hok a t Ha Ht Es) as Hin. by rewrite app_nil_r in Hin.
Qed.
End Lemmas.

Section Properties.
Context {H : Type} `{!Heaps H, !HeapsOk H} (INIT INIT_STACK : Z).

(** C7. The scheduler never follows a pointer to a freed task, never loops and
    never leaks: from [scheduler_init] on a booted kernel, whatever legal
    calls and timer interrupts follow, the invariant holds (one ring through
    every runnable task, each zombie listed once, unique pids, every live
    kernel and user region owned by exactly one task or by the outside), and
    the next legal call returns and keeps it. *)
Theorem scheduler_safe (s0 : sched H) A B :
  ~ (k_lo <= INIT < k_hi) -> 0 <= k_lo -> k_hi < 18446744073709551616 -> INIT <> 0 ->
  hp_rel (heaps s0) A B -> tasks s0 = ∅ -> zombie_list s0 = 0 ->
  exists s1, scheduler_init INIT s0 = Ok (tt, s1) /\
    forall s X Y, reach INIT INIT_STACK s1 (keys A) (keys B) s X Y ->
      consistent INIT s X Y /\
      forall o, legal o s X Y -> exists r s' X' Y',
        exec INIT INIT_STACK o s = Ok (r, s') /\ after o r X Y X' Y' /\ consistent INIT s' X' Y'.
Proof.
  intros HIk Hklo Hkhi HI Hr Hts Hz.
  assert (Hi : wp (scheduler_init INIT) (fun _ s1 => consistent INIT s1 (keys A) (keys B)) s0).
  { apply (init_ok INIT A B); [done..|]. intros s' Hok _ _ _ _. by exists A, B, [INIT], []. }
  apply wp_ok in Hi as ([] & s1 & E & Hc).
  exists s1. split; [done|]. intros s X Y Hreach.
  assert (Hs : consistent INIT s X Y) by (eapply reach_ok; [..|exact Hreach|exact Hc]; done).
  split; [done|]. intros o Hl.
  destruct (wp_ok _ _ _ (exec_ok INIT INIT_STACK HIk Hklo Hkhi o s X Y Hs Hl)) as (r & s' & E' & Hpost).
  destruct (after_ex o r s X Y Hl) as (X' & Y' & Ha). exists r, s', X', Y'. auto.
Qed.

(** C8. Round robin is fair: a task that has not ended runs within as many timer
    interrupts as there are tasks. *)
Theorem round_robin_fair (s : sched H) X Y a t fs :
  consistent INIT s X Y -> tasks s !! a = Some t -> state t <> TASK_ZOMBIE ->
  (size (tasks s) <= length fs)%nat ->
  exists n s', (0 < n <= size (tasks s))%nat /\
    ticks INIT INIT_STACK (take n fs) s = Ok (tt, s') /\ current s' = a.
Proof.
  intros (A & B & rs & zs & Hok) Ht Hs Hf.
  destruct (live_in_ring INIT _ _ _ _ _ _ _ _ _ Hok Ht Hs) as [Har Haz].
  destruct (visits_exist INIT _ _ _ _ _ _ _ _ Hok) as (order & Hv).
  pose proof (ring_length _ _ _ (ok_ring Hok)) as Hlen. rewrite <- (v_perm _ _ _ _ Hv) in Har, Hlen.
  apply list_elem_of_split in Har as (o1 & o2 & ->). rewrite length_app in Hlen. cbn [length] in Hlen.
  destruct (fair_loop INIT INIT_STACK (S (length o1)) A B X Y rs zs a o1 o2 fs s) as (n & Hn & Hw);
    [lia|exact Hok|done|exact Hv|lia|].
  destruct (wp_ok _ _ _ Hw) as ([] & s' & E & Hc). exists n, s'. split; [lia|done].
Qed.

(** C10. [task_stop]: -1 and nothing stopped for init's pid or a pid no live task
    has; 0 when another task had it, and then no task has it any more; and
    for the caller's own pid it does not return, the caller being a zombie.
    Pending zombies are freed on the way. *)
Theorem task_stop_result (s : sched H) X Y p :
  consistent INIT s X Y -> live s ->
  exists r s', task_stop INIT p s = Ok (r, s') /\ consistent INIT s' X Y /\ current s' = current s /\
    (r = Some (-1) /\ (p = 0 \/ forall a, ~ live_task s p a) \/
     r = Some 0 /\ (exists a, live_task s p a /\ a <> current s) /\
       (forall a t, tasks s' !! a = Some t -> pid t <> p) \/
     r = None /\ live_task s p (current s) /\ ~ live s').
Proof.
  intros (A & B & rs & zs & Hok) Hl. pose proof (live_cur INIT _ _ _ _ _ _ _ Hok Hl) as Hlive.
  apply wp_ok, (stop_ok INIT p A B X Y rs zs); [exact Hok|done| |].
  { intros ->. split; [by exists A, B, rs, zs|]. split; [done|]. left. split; [done|by left]. }
  intros r s' A' B' rs' zs' Hp Hok' _ _ Hst Hi Hres Hsim.
  split; [by exists A', B', rs', zs'|]. split; [apply Hst|].
  assert (Hlt : forall a t, a ∈ without zs rs -> tasks s !! a = Some t -> pid t = p -> live_task s p a).
  { intros a t [Ha Hz]%elem_of_without Ht E. exists t. split; [done|]. split; [|done].
    exact (ring_live INIT _ _ _ _ _ _ _ _ _ Hok Ha Hz Ht). }
  destruct Hres as [Hno|a t Ha Ht E Hne|t Ha Ht E].
  - left. split; [done|]. right. intros a (t & Ht & Hs & E). apply (Hno a t); [|done|done].
    apply elem_of_without. exact (live_in_ring INIT _ _ _ _ _ _ _ _ _ Hok Ht Hs).
  - right. left. split; [done|]. split; [exists a; split; [by apply (Hlt a t)|done]|].
    intros b u Hu Eu. destruct (proj1 (ok_dom Hok' b)) as [Hb|Hb]; [by exists u| |by apply not_elem_of_nil in Hb].
    specialize (Hsim b Hb). rewrite Hu in Hsim.
    destruct (tasks s !! b) as [u0|] eqn:E0; [|done]. apply (inj Some) in Hsim.
    assert (Ep : pid u0 = p) by (destruct u, u0; injection Hsim; cbn in *; congruence).
    assert (b = a) as -> by (apply (ok_pid_inj Hok b a u0 t); congruence).
    apply elem_of_without in Hb as [_ Hb]. apply Hb. by left.
  - right. right. split; [done|]. split; [by apply (Hlt (current s) t)|].
    assert (Hc : current s' = current s) by apply Hst.
    destruct (proj2 (ok_dom Hok' (current s'))) as [u Hu].
    { right. rewrite Hc. by left. }
    intros [Hl'|Hl'].
    + by apply (ok_nz Hok' (current s') (ex_intro _ u Hu)).
    + apply (Hl' u Hu). apply (ok_zombie Hok' (current s')); [|done]. rewrite Hc. by left.
Qed.

(** C9. A program starts in a well-formed task: [utask_create] returns 0 and
    changes no task when the kernel heap has no room, or returns a pid no task
    had, with a ready task of that pid at the end of the ring that owns the
    image and whose saved context, inside its own stack and 16-byte aligned,
    is these 22 words: interrupt number 32 and no error code, zero for all
    fifteen general registers, [entry] as the instruction pointer, code
    segment 8, flags 0x202 (interrupts enabled), the top of the stack as the
    stack pointer, stack segment 16. *)
Theorem utask_create_starts (s : sched H) X Y entry n um un :
  ~ (k_lo <= INIT < k_hi) -> 0 <= k_lo -> k_hi < 18446744073709551616 ->
  consistent INIT s X Y -> can_create n s -> um = 0 \/ um ∈ Y -> 0 <= entry < 18446744073709551616 ->
  exists p s', utask_create entry n um un s = Ok (p, s') /\
    (p = 0 /\ tasks s' = tasks s /\ task_ring s' = task_ring s /\
       ~ k_fits (heaps s) [SIZEOF_TASK; stack_bytes n] \/
     p = next_pid s /\ next_pid s' = p + 1 /\ (forall a t, tasks s !! a = Some t -> pid t <> p) /\
     exists t T, tasks s !! t = None /\ tasks s' !! t = Some T /\ task_ring s' = t /\
       (forall a, a <> t -> set_next 0 <$> tasks s' !! a = set_next 0 <$> tasks s !! a) /\
       pid T = p /\ state T = TASK_READY /\ kstack_size T = stack_bytes n /\
       user_mem T = um /\ user_mem_size T = un /\
       kstack T <= regs T /\ regs T + 176 <= kstack T + kstack_size T /\ regs T mod 16 = 0 /\
       (fun i => ld 8 (hp_mem (heaps s')) (regs T + 8 * i)) <$> seqZ 0 22 =
         [32; 0] ++ replicate 15 0 ++ [entry; 8; 514; kstack T + kstack_size T; 16]).
Proof.
  intros HIk Hklo Hkhi (A & B & rs & zs & Hok) (Hst & Hs & Hnp) Hum He.
  assert (HY : exists Y', if um =? 0 then Y' = Y else Y ≡ₚ um :: Y').
  { destruct (Z.eqb_spec um 0) as [->|Hu]; [by exists Y|].
    destruct Hum as [?|(l1 & l2 & ->)%list_elem_of_split]; [done|].
    exists (l1 ++ l2). symmetry. apply Permutation_middle. }
  destruct HY as [Y' HY].
  apply wp_ok, (ucreate_ok INIT HIk Hklo Hkhi entry n um un A B X Y Y' rs zs []); [exact Hok|done..| |].
  { intros s' _ [h ->] Hf. left. done. }
  intros s' A' t Hok' Hc. pose proof Hc as [Hnew Hpid _ _ Hrest _ _ _].
  right. split; [done|]. split; [done|]. split.
  { intros a u Hu Eu. pose proof (ok_np Hok) as Hnp1. destruct (decide (a = INIT)) as [->|Ha].
    - pose proof (ok_init_pid Hok u Hu). lia.
    - pose proof (ok_pid Hok a u Ha Hu). lia. }
  destruct (created_frame INIT _ _ _ _ _ _ _ _ _ _ _ _ _ _ t Hklo Hkhi He Hst Hok' Hc)
    as (T & HT & E1 & E2 & E3 & E4 & E5 & HF). pose proof (has_frame_words _ _ _ HF) as F4.
  destruct HF as (F1 & F2 & F3 & _).
  exists t, T. do 2 (split; [done|]).
  split; [rewrite <- (r_last _ _ _ (ok_ring Hok')); apply List.last_last|]. done.
Qed.

(** C11. A task that ends is gone by the time another task reaps: after
    [task_exit], a timer interrupt and [reap_zombies] no task is a zombie, the
    ended task is out of the store, every other live task is still there
    with its pid, and the live regions are the remaining tasks' and the
    outside's: task, stack and image of the ended one were freed. *)
Theorem exited_task_reclaimed (s : sched H) X Y code r :
  consistent INIT s X Y -> live s -> current s <> 0 -> current s <> INIT ->
  exists s', (do! task_exit INIT code in do! schedule_from_isr INIT INIT_STACK r in reap_zombies INIT) s =
      Ok (tt, s') /\
    consistent INIT s' X Y /\ tasks s' !! current s = None /\
    (forall a t, tasks s' !! a = Some t -> state t <> TASK_ZOMBIE) /\
    (forall p a, live_task s p a -> a <> current s -> live_task s' p a) /\
    exists A' B', hp_rel (heaps s') A' B' /\
      keys A' ≡ₚ owned (kown INIT) (tasks s') ++ X /\ keys B' ≡ₚ owned uown (tasks s') ++ Y.
Proof.
  intros (A & B & rs & zs & Hok) Hl Hc0 HcI. pose proof (live_cur INIT _ _ _ _ _ _ _ Hok Hl) as Hlive.
  apply wp_ok_unit.
  wsteps. apply (exit_ok INIT code A B X Y rs zs); [exact Hok|done|].
  intros s1 A1 B1 zs1 Hok1 _ _ (Hcur1 & _) _ Hzs Hsim1. revert Hzs. do 2 rw_test. cbn [orb]. intros [-> _].
  wsteps. destruct (visits_exist INIT _ _ _ _ _ _ _ _ Hok1) as (order & Hv).
  apply (schedule_ok INIT INIT_STACK r A1 B1 X Y (without zs rs) [current s] order); [exact Hok1|exact Hv|].
  intros s2 nx t' o1 o2 Hok2 (tc & tn & Htc & Htn & Ets2 & _ & _ & _ & _ & _ & Hcur2 & _) _ Hin Hnz _ _ _.
  assert (Hrun : running INIT s1 = current s).
  { unfold running. rewrite Hcur1. by rw_test. }
  rewrite Hrun in *. wsteps.
  apply (reap_ok INIT A1 B1 X Y (without zs rs) [current s]); [exact Hok2| |].
  { right. rewrite Hcur2. done. }
  intros s3 A3 B3 Hok3 _ _ Hsim3 _ _ _.
  assert (Hdom : forall a, is_Some (tasks s3 !! a) -> a ∈ rs /\ a <> current s).
  { intros a [Ha|Ha]%(ok_dom Hok3); [|by apply not_elem_of_nil in Ha].
    apply elem_of_without in Ha as [[Ha _]%elem_of_without Hne]. split; [done|].
    intros ->. apply Hne. by left. }
  split; [by eexists A3, B3, _, []|]. split; [|split; [|split]].
  - destruct (tasks s3 !! current s) eqn:E; [|done]. destruct (Hdom (current s)) as [_ ?]; [by eexists|done].
  - intros a t Ht. destruct (proj1 (ok_dom Hok3 a)) as [Ha|Ha]; [by exists t| |by apply not_elem_of_nil in Ha].
    by apply (ring_live INIT _ _ _ _ _ _ _ _ _ Hok3 Ha (not_elem_of_nil a) Ht).
  - intros p a (t & Ht & Hs & Hp) Hne.
    destruct (live_in_ring INIT _ _ _ _ _ _ _ _ _ Hok Ht Hs) as [Har Haz].
    assert (Ha3 : a ∈ without [current s] (without zs rs)).
    { apply elem_of_without. split; [by apply elem_of_without|]. intros ?%list_elem_of_singleton. done. }
    destruct (ring_in _ _ _ _ (ok_ring Hok3) Ha3) as [t3 Ht3]. exists t3. split; [done|].
    split; [exact (ring_live INIT _ _ _ _ _ _ _ _ _ Hok3 Ha3 (not_elem_of_nil a) Ht3)|].
    assert (Hne' : a ∉ [current s]) by (intros ?%list_elem_of_singleton; done).
    specialize (Hsim3 a Hne'). rewrite Ht3, Ets2 in Hsim3.
    destruct (sim_get _ _ _ a t Hsim1 (conj Haz Hne) Ht) as (t1 & Ht1 & E1).
    assert (Hp1 : pid t1 = p) by (rewrite <- Hp; by destruct t1, t; injection E1).
    assert (Hp2 : forall u, (<[nx := set_state TASK_RUNNING tn]> (<[current s := leave INIT_STACK (current s1 =? 0) r tc]> (tasks s1))) !! a = Some u -> pid u = p).
    { intros u [[<- <-]|[_ Hu]]%lookup_insert_Some.
      - cbn. rewrite lookup_insert_ne in Htn by congruence. congruence.
      - rewrite lookup_insert_ne in Hu by congruence. congruence. }
    destruct (_ !! a) as [u|]; [|done]. specialize (Hp2 u eq_refl). apply (inj Some) in Hsim3.
    destruct t3, u. cbn in *. injection Hsim3. congruence.
  - exists A3, B3. split; [apply Hok3|]. split; symmetry; apply Hok3.
Qed.
End Properties.

(** ** A concrete kernel

    32 KiB of kernel heap at 4096, 4 KiB of user heap at 40960, [init_task]
    at 64 with its stack at 128. *)
Section Demo.
#[local] Instance demo_heaps : Heaps heap_pair := pair_heaps 4096 40960 45056 36864 900.
#[local] Instance demo_heaps_ok : HeapsOk heap_pair.
Proof. apply heap_pair_ok; vm_compute; congruence. Defined.

Definition demo_boot : sched heap_pair :=
  Sched ∅ 0 0 1 0 false 0 (boot_heaps 4096 40960 45056 36864 (HeapPair ∅ 0 0 0 0 0 0 0)).
Definition after_run {A} (c : M heap_pair A) (s : sched heap_pair) : sched heap_pair :=
  match c s with Ok (_, s') => s' | _ => s end.
Definition demo_init : sched heap_pair := after_run (scheduler_init 64) demo_boot.
Definition demo_exec (o : op) (s : sched heap_pair) : sched heap_pair := after_run (exec 64 128 o) s.

Lemma demo_boot_rel : hp_rel (heaps demo_boot) ∅ ∅.
Proof. apply (boot_heaps_rel 4096 40960 45056 36864); [vm_compute; congruence|lia..|done]. Qed.
Lemma demo_init_ok : consistent 64 demo_init [] [].
Proof.
  assert (Hi : wp (scheduler_init 64) (fun _ s' => mt_ok 64 s' ∅ ∅ [] [] [64] [] []) demo_boot).
  { apply (init_ok 64 ∅ ∅); [apply demo_boot_rel|done..|]. by intros s' Hok _ _ _ _. }
  exists ∅, ∅, [64], []. exact Hi.
Qed.

Lemma demo_create_safe n s X Y :
  consistent 64 s X Y -> stack_ok (stack_bytes n) -> next_pid s < 2147483647 ->
  fits_now 900 72 (heaps s) = true ->
  match k_call (CMalloc 72) (heaps s) with
  | Some (_, h) => fits_now 900 (stack_bytes n) h = true | None => False end ->
  can_create n s.
Proof.
  intros (A & B & rs & zs & Hok) Hst Hnp H1 H2. split; [done|]. split; [|done].
  assert (Hsafe : k_safe (heaps s) SIZEOF_TASK).
  { apply (fits_now_safe 4096 40960 45056 36864 900 ltac:(vm_compute; congruence) _ _ A B); [apply Hok|done]. }
  split; [done|]. intros r h E. unfold SIZEOF_TASK in E. rewrite E in H2.
  destruct (k_sim (heaps s) A B (CMalloc 72)) as (r' & h' & A' & E' & _ & Hr & _).
  - apply Hok.
  - cbn. unfold MAX_REQ. lia.
  - by intros m [= <-].
  - rewrite E in E'. injection E' as <- <-.
    by apply (fits_now_safe 4096 40960 45056 36864 900 ltac:(vm_compute; congruence) _ _ A' B).
Qed.

Lemma demo_step o s X Y X' Y' :
  consistent 64 s X Y -> legal o s X Y ->
  match exec 64 128 o s with Ok (r, _) => after o r X Y X' Y' | _ => False end ->
  consistent 64 (demo_exec o s) X' Y'.
Proof.
  intros Hc Hl Ha. pose proof (exec_ok 64 128 ltac:(vm_compute; intuition congruence) ltac:(vm_compute; congruence)
    ltac:(vm_compute; congruence) o s X Y Hc Hl) as Hs.
  unfold served, wp, demo_exec, after_run in *. destruct (exec 64 128 o s) as [[r s']| |]; [by apply Hs|done..].
Qed.

(** Two tasks; the first of them runs. *)
Definition demo_one : sched heap_pair := demo_exec (Create 1000 4096) demo_init.
Definition demo_two : sched heap_pair := demo_exec (Create 2000 4096) demo_one.
Definition demo_run : sched heap_pair := demo_exec (Tick 500) demo_two.
(** A program image at 41000. *)
Definition demo_user : sched heap_pair := demo_exec (Uheap (CMalloc 100)) demo_init.

Lemma demo_run_ok : consistent 64 demo_run [] [].
Proof.
  assert (H1 : consistent 64 demo_one [] []).
  { apply (demo_step _ _ [] []); [apply demo_init_ok| |by vm_compute]. split; [by left|].
    apply (demo_create_safe _ _ [] []); [apply demo_init_ok|by vm_compute..]. }
  assert (H2 : consistent 64 demo_two [] []).
  { apply (demo_step _ _ [] []); [exact H1| |by vm_compute]. split; [by left|].
    apply (demo_create_safe _ _ [] []); [exact H1|by vm_compute..]. }
  apply (demo_step _ _ [] []); [exact H2|done|by vm_compute].
Qed.
Lemma demo_user_ok : consistent 64 demo_user [] [41000].
Proof.
  apply (demo_step _ _ [] []); [apply demo_init_ok| |by vm_compute]. split; [by left|by vm_compute].
Qed.

(** *** Witnesses *)

Lemma scheduler_safe_witness :
  exists s1, scheduler_init 64 demo_boot = Ok (tt, s1) /\
    forall s X Y, reach 64 128 s1 (keys (∅ : regions)) (keys (∅ : regions)) s X Y ->
      consistent 64 s X Y /\
      forall o, legal o s X Y -> exists r s' X' Y',
        exec 64 128 o s = Ok (r, s') /\ after o r X Y X' Y' /\ consistent 64 s' X' Y'.
Proof.
  apply (scheduler_safe 64 128 demo_boot ∅ ∅);
    [cbn; lia..|apply demo_boot_rel|reflexivity|reflexivity].
Defined.

Lemma round_robin_fair_witness :
  exists n s', (0 < n <= 3)%nat /\ ticks 64 128 (take n [1; 2; 3]) demo_run = Ok (tt, s') /\ current s' = 8384.
Proof.
  apply (round_robin_fair 64 128 demo_run [] [] 8384 (Task 2 TASK_READY 12416 8496 4096 0 64 0 0 0) [1; 2; 3]);
    [apply demo_run_ok|vm_compute; reflexivity|discriminate|vm_compute; lia].
Defined.

Lemma demo_run_live : live demo_run.
Proof. right. intros t E. vm_compute in E. injection E as <-. discriminate. Qed.

Lemma task_stop_result_witness :
  exists r s', task_stop 64 2 demo_run = Ok (r, s') /\ consistent 64 s' [] [] /\ current s' = current demo_run /\
    (r = Some (-1) /\ (2 = 0 \/ forall a, ~ live_task demo_run 2 a) \/
     r = Some 0 /\ (exists a, live_task demo_run 2 a /\ a <> current demo_run) /\
       (forall a t, tasks s' !! a = Some t -> pid t <> 2) \/
     r = None /\ live_task demo_run 2 (current demo_run) /\ ~ live s').
Proof. apply (task_stop_result 64 demo_run [] [] 2); [apply demo_run_ok|apply demo_run_live]. Defined.

Lemma utask_create_starts_witness :
  exists p s', utask_create 5000 4096 41000 100 demo_user = Ok (p, s') /\
    (p = 0 /\ tasks s' = tasks demo_user /\ task_ring s' = task_ring demo_user /\
       ~ k_fits (heaps demo_user) [SIZEOF_TASK; stack_bytes 4096] \/
     p = next_pid demo_user /\ next_pid s' = p + 1 /\
     (forall a t, tasks demo_user !! a = Some t -> pid t <> p) /\
     exists t T, tasks demo_user !! t = None /\ tasks s' !! t = Some T /\ task_ring s' = t /\
       (forall a, a <> t -> set_next 0 <$> tasks s' !! a = set_next 0 <$> tasks demo_user !! a) /\
       pid T = p /\ state T = TASK_READY /\ kstack_size T = stack_bytes 4096 /\
       user_mem T = 41000 /\ user_mem_size T = 100 /\
       kstack T <= regs T /\ regs T + 176 <= kstack T + kstack_size T /\ regs T mod 16 = 0 /\
       (fun i => ld 8 (hp_mem (heaps s')) (regs T + 8 * i)) <$> seqZ 0 22 =
         [32; 0] ++ replicate 15 0 ++ [5000; 8; 514; kstack T + kstack_size T; 16]).
Proof.
  apply (utask_create_starts 64 demo_user [] [41000] 5000 4096 41000 100);
    [cbn; lia..|apply demo_user_ok| |right; by left|lia].
  apply (demo_create_safe _ _ [] [41000]); [apply demo_user_ok|by vm_compute..].
Defined.

Lemma exited_task_reclaimed_witness :
  exists s', (do! task_exit 64 7 in do! schedule_from_isr 64 128 600 in reap_zombies 64) demo_run = Ok (tt, s') /\
    consistent 64 s' [] [] /\ tasks s' !! current demo_run = None /\
    (forall a t, tasks s' !! a = Some t -> state t <> TASK_ZOMBIE) /\
    (forall p a, live_task demo_run p a -> a <> current demo_run -> live_task s' p a) /\
    exists A' B', hp_rel (heaps s') A' B' /\
      keys A' ≡ₚ owned (kown 64) (tasks s') ++ [] /\ keys B' ≡ₚ owned uown (tasks s') ++ [].
Proof.
  apply (exited_task_reclaimed 64 128 demo_run [] [] 7 600);
    [apply demo_run_ok|apply demo_run_live|by vm_compute..].
Defined.

(** ** Where the locking does not hold

    [reap_zombies_internal] ends its first critical section with [sti], so a
    timer interrupt may come before it walks the list it took.  Here the
    first task has exited, the second one is interrupted at that point, init
    stops the first task by its pid (it is still in the ring), and the second
    task goes on with a freed task. *)
Definition interrupted_reaper : M heap_pair unit :=
  do! task_exit 64 0 in
  do! schedule_from_isr 64 128 600 in
  let! z := take_zombies in
  do! schedule_from_isr 64 128 700 in
  let! r := task_stop 64 1 in
  do! schedule_from_isr 64 128 800 in
  reap_loop 64 10 z.
Theorem interrupted_reaper_faults : interrupted_reaper demo_run = Fault.
Proof. by vm_compute. Qed.

(** A task that ends and calls again before the timer switches away from it
    frees itself: the second [task_exit] dereferences freed memory. *)
Theorem exit_twice_faults : (do! task_exit 64 0 in task_exit 64 0) demo_run = Fault.
Proof. by vm_compute. Qed.

(** For [pid <= 0] the query returns between [cli] and [sti]. *)
Theorem alive_masks_interrupts (s : sched heap_pair) p :
  p <= 0 -> exists r, task_is_alive 64 p s = Ok (r, set_iflag false s).
Proof. intros Hp. unfold task_is_alive. exists (if p =? 0 then 1 else 0). unfold bind, cli, modify. by rw_test. Qed.
End Demo.
