(* ===== verification/Fs.v ===== *)
(** * fat16/fs.c and ramdisk/ramdisk.c

    The RAM-disk file system: a table of 512 entries that form a tree through
    their [parent] indices, a FAT of 16384 cells that links clusters into
    chains, and the clusters themselves, 512 bytes each, inside the 64 MiB
    array of ramdisk.c at the address [disk].

    [entries] and [fat] are the two static arrays, as maps whose absent keys
    read as the zeroes [fs_init] writes.  A string argument is the list of its
    characters before the NUL; [nameeq] and [strncpy] read no byte behind the
    NUL, so nothing is lost.  A pointer that may be NULL is an [option].  The
    clusters and the callers' buffers live in the byte memory. *)

From Stdlib Require Import ZArith Lia.
From S2P Require Import Prelude Memory LibC.

Definition FS_NAME_MAX : Z := 64.
Definition FS_EXT_MAX : Z := 64.
Definition FS_MAX_ENTRIES : Z := 512.
Definition FS_ROOT_IDX : Z := 0.
Definition BYTES_PER_SECTOR : Z := 512.
Definition SECTORS_PER_CLUSTER : Z := 1.
Definition RESERVED_SECTORS : Z := 1.
Definition NUM_FATS : Z := 2.
Definition SECTORS_PER_FAT : Z := 32.
Definition FAT_ENTRIES : Z := BYTES_PER_SECTOR * SECTORS_PER_FAT.
Definition RAMDISK_SIZE : Z := 64 * 1024 * 1024.
Definition CLUSTER : Z := BYTES_PER_SECTOR * SECTORS_PER_CLUSTER.
Definition EOF : Z := 65535.

Record fs_entry := Entry {
  name : list Z; ext : list Z; parent : Z; first_cluster : Z; size : Z;
  used : bool; is_dir : bool }.

(** [memset(&entries[i], 0, sizeof(fs_entry_t))] *)
Definition entry0 : fs_entry := Entry (replicate 64 0) (replicate 64 0) 0 0 0 false false.

Record fs := Fs { entries : gmap Z fs_entry; fat : gmap Z Z; fmem : mem }.

Definition ent (s : fs) (i : Z) : fs_entry := default entry0 (entries s !! i).
Definition cell (s : fs) (c : Z) : Z := default 0 (fat s !! c).
Definition set_ent (i : Z) (e : fs_entry) (s : fs) : fs := Fs (<[i := e]> (entries s)) (fat s) (fmem s).
Definition set_cell (c v : Z) (s : fs) : fs := Fs (entries s) (<[c := v]> (fat s)) (fmem s).
Definition set_fmem (m : mem) (s : fs) : fs := Fs (entries s) (fat s) m.

(** The field assignments the operations make on an existing entry. *)
Definition set_used (b : bool) (e : fs_entry) : fs_entry :=
  Entry (name e) (ext e) (parent e) (first_cluster e) (size e) b (is_dir e).
Definition set_first (c : Z) (e : fs_entry) : fs_entry :=
  Entry (name e) (ext e) (parent e) c (size e) (used e) (is_dir e).
Definition set_size (z : Z) (e : fs_entry) : fs_entry :=
  Entry (name e) (ext e) (parent e) (first_cluster e) z (used e) (is_dir e).

(** [for (i = ...; i < i + k; ++i) if (p(i)) return i;] *)
Fixpoint scan (k : nat) (i : Z) (p : Z -> bool) : option Z :=
  match k with
  | O => None
  | S k => if p i then Some i else scan k (i + 1) p
  end.
Definition scan_entries (from : Z) (p : Z -> bool) : option Z :=
  scan (Z.to_nat (FS_MAX_ENTRIES - from)) from p.

(** [strncpy(arr, s, n)] on a char array. *)
Definition strncpy_arr (arr s : list Z) (n : nat) : list Z :=
  take n (s ++ replicate n 0) ++ drop n arr.

(** [nameeq] walks both strings; a read past the end of the array of an entry
    would be past its last NUL and does not happen. *)
Fixpoint nameeq (n : nat) (a b : list Z) : bool :=
  match n with
  | O => true
  | S n =>
      let ca := hd 0 a in
      let cb := hd 0 b in
      if (ca =? 0) && (cb =? 0) then true
      else if negb (ca =? cb) then false
      else nameeq n (tl a) (tl b)
  end.
Definition name_is (e : fs_entry) (nm : list Z) : bool := nameeq (Z.to_nat FS_NAME_MAX) (name e) nm.
Definition ext_is (e : fs_entry) (ex : list Z) : bool := nameeq (Z.to_nat FS_EXT_MAX) (ext e) ex.

(** The name and extension fields the two creating operations write. *)
Definition mkname (s : list Z) : list Z := updZ (strncpy_arr (replicate 64 0) s 63) 63 0.

(** [parent < 0 || parent >= FS_MAX_ENTRIES] *)
Definition bad_idx (i : Z) : bool := (i <? 0) || (FS_MAX_ENTRIES <=? i).

Section Fs.
(** [ramdisk_base()] *)
Context (disk : Z).

Definition get_cluster (cluster : Z) : Z :=
  let first_data_sector := RESERVED_SECTORS + NUM_FATS * SECTORS_PER_FAT in
  disk + first_data_sector * BYTES_PER_SECTOR +
  (cluster - 2) * SECTORS_PER_CLUSTER * BYTES_PER_SECTOR.

(** 0: no free cluster. *)
Definition alloc_cluster (s : fs) : Z * fs :=
  match scan (Z.to_nat (FAT_ENTRIES - 2)) 2 (fun i => cell s i =? 0) with
  | Some i => (i, set_cell i EOF s)
  | None => (0, s)
  end.

(** Every turn zeroes a cell that was not zero, so [FAT_ENTRIES] turns and a
    last test are enough on any table ([free_loop_total]). *)
Fixpoint free_loop (fuel : nat) (cur : Z) (s : fs) : option fs :=
  match fuel with
  | O => None
  | S k =>
      if negb (cur =? 0) && (cur <? FAT_ENTRIES) && negb (cell s cur =? 0) then
        let next := cell s cur in
        let s := set_cell cur 0 s in
        if next =? EOF then Some s else free_loop k next s
      else Some s
  end.
Definition free_fuel : nat := Z.to_nat (FAT_ENTRIES + 1).
Definition free_cluster_chain (first : Z) (s : fs) : fs :=
  if (first <? 2) || (FAT_ENTRIES <=? first) then s
  else default s (free_loop free_fuel first s).

Definition fs_init (s : fs) : fs :=
  let root := Entry (mkname [47]) (replicate 64 0) (-1) 0 0 true true in
  Fs {[ FS_ROOT_IDX := root ]} ∅ (fmem s).

Definition find_free_entry (s : fs) : Z :=
  match scan_entries 1 (fun i => negb (used (ent s i))) with Some i => i | None => -1 end.

Definition has_children (idx : Z) (s : fs) : bool :=
  if bad_idx idx then false else
  match scan_entries 0 (fun i => used (ent s i) && (parent (ent s i) =? idx)) with
  | Some _ => true
  | None => false
  end.

Definition fs_mkdir (nm : option (list Z)) (par : Z) (s : fs) : Z * fs :=
  match nm with
  | None => (-1, s)
  | Some nm =>
      if bad_idx par then (-1, s)
      else if negb (used (ent s par)) || negb (is_dir (ent s par)) then (-2, s)
      else match scan_entries 0 (fun i => used (ent s i) && (parent (ent s i) =? par) &&
                   is_dir (ent s i) && name_is (ent s i) nm) with
      | Some _ => (-3, s)
      | None =>
          let idx := find_free_entry s in
          if idx <? 0 then (-4, s)
          else (idx, set_ent idx (Entry (mkname nm) (replicate 64 0) (s16 par) 0 0 true true) s)
      end
  end.

Definition fs_rmdir (dir_idx : Z) (s : fs) : Z * fs :=
  if (dir_idx <=? 0) || (FS_MAX_ENTRIES <=? dir_idx) then (-1, s)
  else if negb (used (ent s dir_idx)) || negb (is_dir (ent s dir_idx)) then (-2, s)
  else if has_children dir_idx s then (-3, s)
  else (0, set_ent dir_idx (set_used false (ent s dir_idx)) s).

(** The duplicate test: [None] when it passes the NULL [ext] to [nameeq],
    which reads through it. *)
Definition create_dup (nm : list Z) (ex : option (list Z)) (par : Z) (s : fs) : option bool :=
  let same i := used (ent s i) && (parent (ent s i) =? par) && negb (is_dir (ent s i)) &&
                name_is (ent s i) nm in
  match ex with
  | Some ex =>
      match scan_entries 0 (fun i => same i && ext_is (ent s i) ex) with
      | Some _ => Some true
      | None => Some false
      end
  | None =>
      match scan_entries 0 same with
      | Some _ => None
      | None => Some false
      end
  end.

(** Returns the index and the start cluster ([*out_cluster]). *)
Definition fs_create_file (nm ex : option (list Z)) (par : Z) (s : fs) : option (Z * Z * fs) :=
  match nm with
  | None => Some (-1, 0, s)
  | Some nm =>
      if bad_idx par then Some (-1, 0, s)
      else if negb (used (ent s par)) || negb (is_dir (ent s par)) then Some (-2, 0, s)
      else match create_dup nm ex par s with
      | None => None
      | Some true => Some (-3, 0, s)
      | Some false =>
          let idx := find_free_entry s in
          if idx <? 0 then Some (-4, 0, s) else
          let '(c, s) := alloc_cluster s in
          if c =? 0 then Some (-5, 0, s) else
          let ex := match ex with Some ex => mkname ex | None => replicate 64 0 end in
          let s := set_ent idx (Entry (mkname nm) ex (s16 par) c 0 true false) s in
          Some (idx, c, set_cell c EOF s)
      end
  end.

Definition fs_remove_entry (idx : Z) (s : fs) : Z * fs :=
  if (idx <=? 0) || (FS_MAX_ENTRIES <=? idx) then (-1, s)
  else if negb (used (ent s idx)) then (-2, s)
  else if is_dir (ent s idx) then
    if has_children idx s then (-3, s)
    else (0, set_ent idx (set_used false (ent s idx)) s)
  else
    let s := free_cluster_chain (first_cluster (ent s idx)) s in
    (0, set_ent idx (set_used false (ent s idx)) s).

(** [ext && ext[0] != '\0'] *)
Definition has_ext (ex : option (list Z)) : bool :=
  match ex with Some (_ :: _) => true | _ => false end.

(** The test of [fs_find_in_dir] on one entry. *)
Definition found (nm : list Z) (ex : option (list Z)) (par : Z) (e : fs_entry) : bool :=
  used e && (parent e =? par) &&
  (if is_dir e then negb (has_ext ex) && name_is e nm
   else name_is e nm && ext_is e (default [] ex)).

(** The copy to [*out] is [ent s i] for the index returned. *)
Definition fs_find_in_dir (nm ex : option (list Z)) (par : Z) (s : fs) : Z :=
  match nm with
  | None => -1
  | Some nm =>
      if bad_idx par then -1 else
      match scan_entries 0 (fun i => found nm ex par (ent s i)) with Some i => i | None => -1 end
  end.

(** [strlen] of a char array. *)
Fixpoint arr_len (a : list Z) : nat :=
  match a with
  | [] => O
  | c :: r => if c =? 0 then O else S (arr_len r)
  end.

(** Directories are listed with a slash, if it fits. *)
Definition listed (e : fs_entry) : fs_entry :=
  if is_dir e then
    let len := Z.of_nat (arr_len (name e)) in
    if len <? FS_NAME_MAX - 1
    then Entry (updZ (updZ (name e) len 47) (len + 1) 0) (ext e) (parent e) (first_cluster e)
           (size e) (used e) (is_dir e)
    else e
  else e.

Fixpoint get_all_loop (k : nat) (i count max_files par : Z) (s : fs) : list fs_entry :=
  match k with
  | O => []
  | S k =>
      if count <? max_files then
        if used (ent s i) && (parent (ent s i) =? par)
        then listed (ent s i) :: get_all_loop k (i + 1) (count + 1) max_files par s
        else get_all_loop k (i + 1) count max_files par s
      else []
  end.

(** What is stored in [out_files], from its start; the count returned is the
    number stored. *)
Definition fs_get_all_in_dir (max_files par : Z) (s : fs) : list fs_entry :=
  if bad_idx par then [] else get_all_loop (Z.to_nat FS_MAX_ENTRIES) 0 0 max_files par s.

(** ** Clusters *)

(** [read] never exceeds [size], so the additions do not wrap. *)
Fixpoint fs_read_loop (fuel : nat) (cur rd buf size : Z) (s : fs) : option (Z * fs) :=
  match fuel with
  | O => None
  | S k =>
      if negb (cur =? 0) && (cur <? FAT_ENTRIES) && (rd <? size) then
        let clptr := get_cluster cur in
        let to_copy := size - rd in
        let to_copy := if CLUSTER <? to_copy then CLUSTER else to_copy in
        let s := set_fmem (memcpy (fmem s) (buf + rd) clptr to_copy) s in
        let rd := rd + to_copy in
        if cell s cur =? EOF then Some (rd, s)
        else fs_read_loop k (cell s cur) rd buf size s
      else Some (rd, s)
  end.
(** Every turn copies a cluster or the rest. *)
Definition rw_fuel (size : Z) : nat := Z.to_nat (size / CLUSTER + 2).
Definition fs_read (first buf size : Z) (s : fs) : option (Z * fs) :=
  if (first <? 2) || (FAT_ENTRIES <=? first) then Some (0, s)
  else fs_read_loop (rw_fuel size) first 0 buf size s.

(** [None] also where the loop would index the FAT out of its bounds. *)
Fixpoint fs_write_loop (fuel : nat) (cur written buf size : Z) (s : fs) : option (Z * fs) :=
  match fuel with
  | O => None
  | S k =>
      if written <? size then
        if FAT_ENTRIES <=? cur then None else
        let clptr := get_cluster cur in
        let to_write := size - written in
        let to_write := if CLUSTER <? to_write then CLUSTER else to_write in
        let s := set_fmem (memcpy (fmem s) clptr (buf + written) to_write) s in
        let written := written + to_write in
        if written <? size then
          if cell s cur =? EOF then
            let '(nc, s) := alloc_cluster s in
            if nc =? 0 then Some (written, set_cell cur EOF s)
            else fs_write_loop k nc written buf size (set_cell cur nc s)
          else fs_write_loop k (cell s cur) written buf size s
        else Some (written, set_cell cur EOF s)
      else Some (written, s)
  end.
Definition fs_write (first buf size : Z) (s : fs) : option (Z * fs) :=
  if (first <? 2) || (FAT_ENTRIES <=? first) then Some (0, s)
  else fs_write_loop (rw_fuel size) first 0 buf size s.

(** The part of [fs_write_file_in_dir] behind the choice of the entry. *)
Definition write_data (idx data sz : Z) (s : fs) : option (Z * fs) :=
  if sz =? 0 then
    let s := set_ent idx (set_size 0 (ent s idx)) s in
    Some (0, set_cell (first_cluster (ent s idx)) EOF s)
  else
    match fs_write (first_cluster (ent s idx)) data sz s with
    | None => None
    | Some (written, s) =>
        if negb (written =? sz) then
          Some (-6, set_ent idx (set_size (u32 written) (ent s idx)) s)
        else Some (0, set_ent idx (set_size (u32 sz) (ent s idx)) s)
    end.

Definition fs_write_file_in_dir (nm ex : option (list Z)) (par data sz : Z) (s : fs)
    : option (Z * fs) :=
  match nm with
  | None => Some (-1, s)
  | Some _ =>
      if bad_idx par then Some (-2, s)
      else if negb (used (ent s par)) || negb (is_dir (ent s par)) then Some (-3, s)
      else
        let idx := fs_find_in_dir nm ex par s in
        if idx <? 0 then
          match fs_create_file nm ex par s with
          | None => None
          | Some (cidx, _, s) =>
              if cidx <? 0 then Some (-4, s) else write_data cidx data sz s
          end
        else
          let s := free_cluster_chain (first_cluster (ent s idx)) s in
          let '(cluster, s) := alloc_cluster s in
          if cluster =? 0 then Some (-5, s) else
          let s := set_ent idx (set_first cluster (ent s idx)) s in
          write_data idx data sz (set_cell cluster EOF s)
  end.

(** Returns the code, [*out_size] and the state. *)
Definition fs_read_file_in_dir (nm ex : option (list Z)) (par buf bufsize : Z) (s : fs)
    : option (Z * Z * fs) :=
  let idx := fs_find_in_dir nm ex par s in
  if idx <? 0 then Some (-1, 0, s)
  else if bufsize <? size (ent s idx) then Some (-2, 0, s)
  else
    match fs_read (first_cluster (ent s idx)) buf (size (ent s idx)) s with
    | None => None
    | Some (r, s) => Some (0, r, s)
    end.
End Fs.
