(* ===== verification/FsChain.v ===== *)
(** * Cluster chains of fat16/fs.c

    [chain g cs]: the cells [g] of the FAT link the clusters [cs] one after
    the other up to an EOF mark.  This file shows what the loops of [fs.c] do
    on chains: [free_cluster_chain] zeroes exactly the chain, [fs_read] copies
    the bytes stored along it, [fs_write] lays the data out along it and
    extends it with free clusters. *)

From Stdlib Require Import ZArith Lia.
From S2P Require Import Prelude Memory LibC Fs.

(** ** Search loops *)

Lemma scan_some k i p j :
  scan k i p = Some j -> i <= j < i + Z.of_nat k /\ p j = true /\ forall x, i <= x < j -> p x = false.
Proof.
  revert i. induction k as [|k IH]; intros i; cbn [scan]; [done|].
  destruct (p i) eqn:E.
  - intros [= <-]. split; [lia|]. split; [done|]. lia.
  - intros H. destruct (IH _ H) as (H1 & H2 & H3). split; [lia|]. split; [done|].
    intros x Hx. destruct (Z.eq_dec x i) as [->|]; [done|]. apply H3. lia.
Qed.

Lemma scan_none k i p :
  scan k i p = None <-> forall x, i <= x < i + Z.of_nat k -> p x = false.
Proof.
  revert i. induction k as [|k IH]; intros i; cbn [scan].
  - split; [intros _ x Hx; lia|done].
  - destruct (p i) eqn:E.
    + split; [done|]. intros H. rewrite H in E by lia. done.
    + rewrite IH. split; intros H x Hx.
      * destruct (Z.eq_dec x i) as [->|]; [done|]. apply H. lia.
      * apply H. lia.
Qed.

Lemma scan_ext k i p q :
  (forall x, i <= x < i + Z.of_nat k -> p x = q x) -> scan k i p = scan k i q.
Proof.
  revert i. induction k as [|k IH]; intros i H; [done|]. cbn [scan]. rewrite H by lia.
  destruct (q i); [done|]. apply IH. intros x Hx. apply H. lia.
Qed.

(** The first index with [p] is found. *)
Lemma scan_is k i p j :
  i <= j < i + Z.of_nat k -> p j = true -> (forall x, i <= x < j -> p x = false) ->
  scan k i p = Some j.
Proof.
  revert i. induction k as [|k IH]; intros i Hj Hp Hlt; [lia|]. cbn [scan].
  destruct (p i) eqn:E.
  - f_equal. destruct (Z.eq_dec i j); [done|]. rewrite Hlt in E by lia. done.
  - destruct (Z.eq_dec i j) as [->|]; [congruence|]. apply IH; [lia|done|]. intros x Hx. apply Hlt. lia.
Qed.

Definition in_fat (c : Z) : Prop := 2 <= c < FAT_ENTRIES.
Ltac fat_lia :=
  unfold in_fat, EOF, FAT_ENTRIES, CLUSTER, BYTES_PER_SECTOR, SECTORS_PER_FAT, SECTORS_PER_CLUSTER in *;
  lia.

Fixpoint chain (g : Z -> Z) (cs : list Z) : Prop :=
  match cs with
  | [] => True
  | c :: r => in_fat c /\ g c = match r with [] => EOF | d :: _ => d end /\ chain g r
  end.

Lemma chain_ext g g' cs : (forall c, c ∈ cs -> g c = g' c) -> chain g cs -> chain g' cs.
Proof.
  induction cs as [|c r IH]; intros H; [done|]. cbn [chain]. intros (H1 & H2 & H3).
  split; [done|]. rewrite <- H by (by left). split; [done|]. apply IH; [|done].
  intros d Hd. apply H. by right.
Qed.

Lemma chain_tail g c r : chain g (c :: r) -> chain g r.
Proof. by intros (_ & _ & ?). Qed.

Lemma chain_in g cs c : chain g cs -> c ∈ cs -> in_fat c /\ g c <> 0.
Proof.
  induction cs as [|d r IH]; intros Hc Hin; [by apply not_elem_of_nil in Hin|].
  destruct Hc as (H1 & H2 & H3). apply elem_of_cons in Hin as [->|Hin]; [|by apply IH].
  split; [done|]. rewrite H2. destruct r as [|e r]; [done|]. destruct H3 as [H3 _].
  unfold in_fat in H3. lia.
Qed.

Lemma chain_det g c r r' : chain g (c :: r) -> chain g (c :: r') -> r = r'.
Proof.
  revert c r'. induction r as [|d r IH]; intros c r' (H1 & H2 & H3) (_ & H2' & H3').
  - destruct r' as [|d' r']; [done|]. destruct H3' as [H3' _]. rewrite H2 in H2'. subst d'. fat_lia.
  - destruct r' as [|d' r'].
    + destruct H3 as [H3 _]. rewrite H2 in H2'. subst d. fat_lia.
    + assert (d = d') as <- by congruence. f_equal. by eapply IH.
Qed.

Lemma chain_app g l r : chain g (l ++ r) -> chain g r.
Proof. induction l as [|c l IH]; [done|]. cbn [app chain]. tauto. Qed.

(** A chain that ends has no cycle. *)
Lemma chain_nodup g cs : chain g cs -> NoDup cs.
Proof.
  induction cs as [|c r IH]; intros Hc; [constructor|]. constructor.
  - intros Hin. apply list_elem_of_split in Hin as (l & r' & ->).
    pose proof Hc as Hc'. change (c :: l ++ c :: r') with ((c :: l) ++ c :: r') in Hc'.
    apply chain_app in Hc'. pose proof (chain_det _ _ _ _ Hc Hc') as E.
    apply (f_equal length) in E. rewrite length_app in E. simpl in E. lia.
  - apply IH. by destruct Hc as (_ & _ & ?).
Qed.

Lemma chain_length g cs : chain g cs -> Z.of_nat (length cs) <= FAT_ENTRIES - 2.
Proof.
  intros Hc. assert (Hsub : cs ⊆+ seqZ 2 (FAT_ENTRIES - 2)).
  { apply NoDup_submseteq; [by eapply chain_nodup|]. intros c Hin.
    apply (chain_in _ _ _ Hc) in Hin as [Hin _]. apply elem_of_seqZ.
    unfold in_fat, FAT_ENTRIES, BYTES_PER_SECTOR, SECTORS_PER_FAT in *. lia. }
  apply submseteq_length in Hsub. rewrite length_seqZ in Hsub.
  unfold FAT_ENTRIES, BYTES_PER_SECTOR, SECTORS_PER_FAT in *. lia.
Qed.

(** ** Cells *)

Lemma cell_set s c v x : cell (set_cell c v s) x = if c =? x then v else cell s x.
Proof. unfold cell, set_cell. cbn [fat]. bcase; [subst; by rewrite lookup_insert_eq|by rewrite lookup_insert_ne]. Qed.
Lemma cell_set_eq s c v : cell (set_cell c v s) c = v.
Proof. rewrite cell_set. by rw_test. Qed.
Lemma cell_set_ne s c v x : c <> x -> cell (set_cell c v s) x = cell s x.
Proof. intros. rewrite cell_set. by rw_test. Qed.
Lemma ent_set s i e x : ent (set_ent i e s) x = if i =? x then e else ent s x.
Proof. unfold ent, set_ent. cbn [entries]. bcase; [subst; by rewrite lookup_insert_eq|by rewrite lookup_insert_ne]. Qed.
Lemma ent_set_eq s i e : ent (set_ent i e s) i = e.
Proof. rewrite ent_set. by rw_test. Qed.
Lemma ent_set_ne s i e x : i <> x -> ent (set_ent i e s) x = ent s x.
Proof. intros. rewrite ent_set. by rw_test. Qed.

(** *** [alloc_cluster] *)

Lemma alloc_ok s c s' :
  alloc_cluster s = (c, s') ->
  (c = 0 /\ s' = s /\ forall x, in_fat x -> cell s x <> 0) \/
  (in_fat c /\ cell s c = 0 /\ s' = set_cell c EOF s /\ forall x, in_fat x -> x < c -> cell s x <> 0).
Proof.
  unfold alloc_cluster, in_fat. destruct (scan _ _ _) as [i|] eqn:E; intros [= <- <-].
  - right. apply scan_some in E as (H1 & H2 & H3). bsimp.
    unfold FAT_ENTRIES, BYTES_PER_SECTOR, SECTORS_PER_FAT in *.
    split; [lia|]. split; [done|]. split; [done|]. intros x Hx Hlt. specialize (H3 x). bsimp.
    rewrite <- Z.eqb_neq. apply H3. lia.
  - left. split; [done|]. split; [done|]. intros x Hx. rewrite scan_none in E.
    rewrite <- Z.eqb_neq. apply E. unfold FAT_ENTRIES, BYTES_PER_SECTOR, SECTORS_PER_FAT in *. lia.
Qed.

(** ** [free_cluster_chain] *)

Lemma free_loop_chain fuel s c r :
  chain (cell s) (c :: r) -> (length r < fuel)%nat ->
  exists s', free_loop fuel c s = Some s' /\ entries s' = entries s /\ fmem s' = fmem s /\
    forall x, cell s' x = if decide (x ∈ c :: r) then 0 else cell s x.
Proof.
  revert fuel s c. induction r as [|d r IH]; intros fuel s c Hc Hf;
    (destruct fuel as [|fuel]; [simpl in Hf; lia|]); cbn [free_loop];
    pose proof Hc as (Hin & Hcell & Hr); pose proof (proj2 (chain_in _ _ c Hc ltac:(by left))) as Hnz;
    unfold in_fat in Hin;
    assert (Hg : negb (c =? 0) && (c <? FAT_ENTRIES) && negb (cell s c =? 0) = true)
      by (repeat rw_test; done); rewrite Hg, Hcell.
  - rewrite Z.eqb_refl. eexists. split; [done|].
    split; [done|]. split; [done|]. intros x. rewrite cell_set.
    case_decide as Hx; rewrite list_elem_of_singleton in Hx; by rw_test.
  - destruct (Hr) as [Hd _].
    assert (d <> EOF) by fat_lia. rw_test.
    pose proof (chain_nodup _ _ Hc) as Hnd. apply list.NoDup_cons in Hnd as [Hnc _].
    destruct (IH fuel (set_cell c 0 s) d) as (s' & E & H1 & H2 & H3).
    + apply (chain_ext (cell s)); [|by destruct Hc as (_ & _ & ?)]. intros x Hx.
      rewrite cell_set_ne; [done|congruence].
    + simpl in Hf. lia.
    + exists s'. split; [done|]. split; [done|]. split; [done|]. intros x. rewrite H3, cell_set.
      destruct (decide (x ∈ d :: r)) as [Hx|Hx], (decide (x ∈ c :: d :: r)) as [Hx'|Hx'].
      * done.
      * exfalso. apply Hx'. by right.
      * apply elem_of_cons in Hx' as [->|?]; [by rw_test|done].
      * rewrite elem_of_cons in Hx'. by rw_test.
Qed.

Lemma free_chain_ok s c r :
  chain (cell s) (c :: r) ->
  let s' := free_cluster_chain c s in
  entries s' = entries s /\ fmem s' = fmem s /\
  forall x, cell s' x = if decide (x ∈ c :: r) then 0 else cell s x.
Proof.
  intros Hc s'. pose proof (proj1 Hc) as Hin. unfold in_fat in Hin.
  pose proof (chain_length _ _ Hc) as Hl.
  destruct (free_loop_chain free_fuel s c r Hc) as (s2 & E & H).
  { unfold free_fuel. simpl in Hl. lia. }
  subst s'. unfold free_cluster_chain. rewrite E. do 2 rw_test. exact H.
Qed.

(** On any table, even one with cycles, the loop ends: a turn zeroes a cell
    that was not zero. *)
Fixpoint nonzero (k : nat) (g : Z -> Z) : nat :=
  match k with
  | O => O
  | S k => ((if Z.eqb (g (Z.of_nat k)) 0 then O else 1) + nonzero k g)%nat
  end.

Lemma nonzero_le k g : (nonzero k g <= k)%nat.
Proof. induction k as [|k IH]; cbn [nonzero]; [lia|]. destruct (g (Z.of_nat k) =? 0); lia. Qed.

Lemma nonzero_ext k g g' :
  (forall x, 0 <= x < Z.of_nat k -> g x = g' x) -> nonzero k g = nonzero k g'.
Proof.
  induction k as [|k IH]; intros H; [done|]. cbn [nonzero]. rewrite H by lia. f_equal.
  apply IH. intros x Hx. apply H. lia.
Qed.

Lemma nonzero_clear k s c :
  0 <= c < Z.of_nat k -> cell s c <> 0 ->
  S (nonzero k (cell (set_cell c 0 s))) = nonzero k (cell s).
Proof.
  induction k as [|k IH]; intros Hc Hz; [lia|]. cbn [nonzero]. rewrite cell_set.
  destruct (Z.eqb_spec c (Z.of_nat k)) as [->|Hne].
  - rewrite (proj2 (Z.eqb_neq _ _) Hz). cbn [Z.eqb plus].
    cbn [Nat.add]. f_equal. apply nonzero_ext. intros x Hx. apply cell_set_ne. lia.
  - rewrite <- (IH ltac:(lia) Hz). lia.
Qed.

Lemma free_loop_total fuel cur s :
  0 <= cur -> (forall x, 0 <= cell s x) -> (nonzero (Z.to_nat FAT_ENTRIES) (cell s) < fuel)%nat ->
  is_Some (free_loop fuel cur s).
Proof.
  revert cur s. induction fuel as [|fuel IH]; intros cur s Hcur Hpos Hf; [lia|]. cbn [free_loop].
  destruct (negb (cur =? 0) && (cur <? FAT_ENTRIES) && negb (cell s cur =? 0)) eqn:E; [|by eexists].
  bsimp. destruct (cell s cur =? EOF); [by eexists|]. apply IH; [done| |].
  - intros x. rewrite cell_set. bcase; [lia|done].
  - pose proof (nonzero_clear (Z.to_nat FAT_ENTRIES) s cur).
    unfold FAT_ENTRIES, BYTES_PER_SECTOR, SECTORS_PER_FAT in *. lia.
Qed.

(** ** The bytes of a chain *)

Section Data.
Context (disk : Z).
Abbreviation get_cluster := (get_cluster disk).

(** The data area is inside the RAM disk. *)
Lemma get_cluster_bounds c :
  in_fat c -> disk <= get_cluster c /\ get_cluster c + CLUSTER <= disk + RAMDISK_SIZE.
Proof.
  unfold get_cluster, RESERVED_SECTORS, NUM_FATS, RAMDISK_SIZE. fat_lia.
Qed.

Lemma get_cluster_disjoint c d :
  c <> d -> get_cluster c + CLUSTER <= get_cluster d \/ get_cluster d + CLUSTER <= get_cluster c.
Proof. unfold get_cluster, RESERVED_SECTORS, NUM_FATS. fat_lia. Qed.

Definition off_disk (buf n : Z) : Prop := buf + n <= disk \/ disk + RAMDISK_SIZE <= buf.

(** Byte [i] of the file stored along [cs]. *)
Definition fbyte (m : mem) (cs : list Z) (i : Z) : Z :=
  rb m (get_cluster (nth (Z.to_nat (i / CLUSTER)) cs 0) + i mod CLUSTER).

Lemma fbyte_here m c r i : 0 <= i < CLUSTER -> fbyte m (c :: r) i = rb m (get_cluster c + i).
Proof. intros Hi. unfold fbyte. rewrite Z.div_small, Z.mod_small by done. done. Qed.

Lemma fbyte_next m c r i : CLUSTER <= i -> fbyte m (c :: r) i = fbyte m r (i - CLUSTER).
Proof.
  unfold CLUSTER, BYTES_PER_SECTOR, SECTORS_PER_CLUSTER. intros Hi. unfold fbyte.
  change CLUSTER with 512. replace i with (i - 512 + 1 * 512) at 1 2 by lia.
  rewrite Z.div_add, Z.mod_add by lia.
  assert (0 <= (i - 512) / 512) by (apply Z.div_pos; lia).
  rewrite Z2Nat.inj_add by lia. by rewrite Nat.add_comm.
Qed.

Lemma fbyte_cluster cs i :
  0 <= i < CLUSTER * lenZ cs -> nth (Z.to_nat (i / CLUSTER)) cs 0 ∈ cs.
Proof.
  unfold lenZ. change CLUSTER with 512. intros Hi. apply list_elem_of_In, nth_In.
  assert (i / 512 < Z.of_nat (length cs)) by (apply Z.div_lt_upper_bound; lia).
  assert (0 <= i / 512) by (apply Z.div_pos; lia). lia.
Qed.

(** Bytes of clusters outside the chain do not matter. *)
Lemma fbyte_ext m m' cs i :
  0 <= i < CLUSTER * lenZ cs ->
  (forall c, c ∈ cs -> same_on (get_cluster c) (get_cluster c + CLUSTER) m m') ->
  fbyte m cs i = fbyte m' cs i.
Proof.
  intros Hi H. apply (H _ (fbyte_cluster cs i Hi)).
  pose proof (Z.mod_pos_bound i CLUSTER ltac:(done)). lia.
Qed.

(** *** [fs_read] *)

Definition fs_fuel_ok (fuel : nat) (n : Z) : Prop := n <= CLUSTER * (Z.of_nat fuel - 1) /\ (0 < fuel)%nat.

Lemma rw_fuel_ok n : 0 <= n -> fs_fuel_ok (rw_fuel n) n.
Proof.
  intros Hn. unfold fs_fuel_ok, rw_fuel. change CLUSTER with 512.
  pose proof (Z.div_mod n 512 ltac:(lia)). pose proof (Z.mod_pos_bound n 512 ltac:(lia)).
  assert (0 <= n / 512) by (apply Z.div_pos; lia). lia.
Qed.

(** The test [if (to_copy > cluster_size) to_copy = cluster_size]. *)
Lemma clamp_min n : (if CLUSTER <? n then CLUSTER else n) = Z.min n CLUSTER.
Proof. bcase; lia. Qed.

Lemma fs_read_loop_ok fuel cur r rd buf size s :
  chain (cell s) (cur :: r) -> 0 <= rd < size -> fs_fuel_ok fuel (size - rd) ->
  off_disk buf size ->
  let n := Z.min (size - rd) (CLUSTER * lenZ (cur :: r)) in
  exists s', fs_read_loop disk fuel cur rd buf size s = Some (rd + n, s') /\
    entries s' = entries s /\ fat s' = fat s /\
    (forall i, 0 <= i < n -> rb (fmem s') (buf + rd + i) = fbyte (fmem s) (cur :: r) i) /\
    (forall x, ~ (buf + rd <= x < buf + rd + n) -> rb (fmem s') x = rb (fmem s) x).
Proof.
  revert fuel cur rd s. induction r as [|d r IH];
    intros fuel cur rd s Hc Hrd [Hf1 Hf2] Hoff n; pose proof Hoff as Hoff'; unfold off_disk in Hoff'; (destruct fuel as [|fuel]; [lia|]);
    cbn [fs_read_loop]; destruct (Hc) as (Hin & Hcell & Hr);
    destruct (get_cluster_bounds cur Hin) as [Hb1 Hb2];
    assert (Hg : negb (cur =? 0) && (cur <? FAT_ENTRIES) && (rd <? size) = true)
      by (unfold in_fat in Hin; repeat rw_test; done); rewrite Hg, clamp_min;
    set (m1 := memcpy _ _ _ _);
    assert (Hm1 : forall x, ~ (buf + rd <= x < buf + rd + Z.min (size - rd) CLUSTER) ->
      rb m1 x = rb (fmem s) x) by (intros x Hx; apply memcpy_out; lia);
    assert (Hm2 : forall i, 0 <= i < Z.min (size - rd) CLUSTER ->
      rb m1 (buf + rd + i) = rb (fmem s) (get_cluster cur + i))
      by (intros i Hi; apply memcpy_in; change CLUSTER with 512 in *; lia);
    change (cell (set_fmem m1 s)) with (cell s); rewrite Hcell.
  - rewrite Z.eqb_refl. subst n. replace (CLUSTER * lenZ [cur]) with CLUSTER by (by unfold lenZ).
    eexists. split; [done|]. split; [done|]. split; [done|]. split; [|exact Hm1].
    intros i Hi. cbn [fmem set_fmem]. rewrite Hm2 by done. rewrite fbyte_here by lia. done.
  - assert (d <> EOF) by (destruct Hr as [Hd _]; fat_lia). rw_test.
    assert (Hl : lenZ (cur :: d :: r) = 1 + lenZ (d :: r)) by (unfold lenZ; simpl length; lia).
    assert (Hlp : 0 < lenZ (d :: r)) by (unfold lenZ; simpl length; lia).
    destruct (Z.le_gt_cases (size - rd) CLUSTER) as [Hle|Hgt].
    + destruct fuel as [|fuel]; [change CLUSTER with 512 in *; lia|]. cbn [fs_read_loop].
      replace (rd + Z.min (size - rd) CLUSTER <? size) with false
        by (symmetry; apply Z.ltb_ge; lia).
      rewrite andb_false_r. replace n with (Z.min (size - rd) CLUSTER)
        by (subst n; change CLUSTER with 512 in *; lia).
      eexists. split; [done|]. split; [done|]. split; [done|]. split; [|exact Hm1].
      intros i Hi. cbn [fmem set_fmem]. rewrite Hm2 by done. rewrite fbyte_here by lia. done.
    + replace (Z.min (size - rd) CLUSTER) with CLUSTER in * by lia.
      destruct (IH fuel d (rd + CLUSTER) (set_fmem m1 s)) as (s' & E & H1 & H2 & H3 & H4).
      * exact Hr.
      * change CLUSTER with 512 in *; lia.
      * split; change CLUSTER with 512 in *; lia.
      * done.
      * rewrite E. cbn [fmem set_fmem] in *. exists s'. subst n. rewrite Hl in *.
        split; [do 2 f_equal; change CLUSTER with 512 in *; lia|]. split; [done|]. split; [done|]. split.
        -- intros i Hi. destruct (Z.lt_ge_cases i CLUSTER) as [Hi'|Hi'].
           ++ rewrite fbyte_here by lia. rewrite H4 by lia. apply Hm2. lia.
           ++ rewrite fbyte_next by lia.
              replace (buf + rd + i) with (buf + (rd + CLUSTER) + (i - CLUSTER)) by lia.
              rewrite H3 by (change CLUSTER with 512 in *; lia).
              apply fbyte_ext; [change CLUSTER with 512 in *; lia|].
              intros c Hcin x Hx. apply Hm1.
              destruct (get_cluster_bounds c (proj1 (chain_in _ _ _ (chain_tail _ _ _ Hc) Hcin))). lia.
        -- intros x Hx. change CLUSTER with 512 in *. rewrite H4 by lia. apply Hm1. lia.
Qed.

Lemma fs_read_ok c r buf size s :
  chain (cell s) (c :: r) -> 0 <= size -> off_disk buf size ->
  let n := Z.min size (CLUSTER * lenZ (c :: r)) in
  exists s', fs_read disk c buf size s = Some (n, s') /\
    entries s' = entries s /\ fat s' = fat s /\
    (forall i, 0 <= i < n -> rb (fmem s') (buf + i) = fbyte (fmem s) (c :: r) i) /\
    (forall x, ~ (buf <= x < buf + n) -> rb (fmem s') x = rb (fmem s) x).
Proof.
  intros Hc Hs Hoff n. unfold fs_read.
  replace ((c <? 2) || (FAT_ENTRIES <=? c)) with false
    by (symmetry; destruct Hc as [Hin _]; unfold in_fat in Hin; repeat rw_test; done).
  destruct (Z.eq_dec size 0) as [->|Hne].
  - exists s. subst n. rewrite Z.min_l by (unfold lenZ; change CLUSTER with 512; lia).
    split; [|split; [done|split; [done|split; [intros; lia|done]]]].
    unfold rw_fuel. change (Z.to_nat (0 / CLUSTER + 2)) with 2%nat. cbn [fs_read_loop].
    by rewrite andb_false_r.
  - destruct (fs_read_loop_ok (rw_fuel size) c r 0 buf size s Hc) as (s' & E & H1 & H2 & H3 & H4).
    + lia.
    + rewrite Z.sub_0_r. by apply rw_fuel_ok.
    + done.
    + rewrite Z.sub_0_r, ?Z.add_0_r in *. exists s'. split; [exact E|]. done.
Qed.

(** *** [fs_write] *)

(** From [s], with [written] of [size] bytes done and the chain
    [cur :: rest] ahead, the write reaches [w] bytes in [s'], laid out along
    [cur :: cs]. *)
Record wrote (s : fs) (cur : Z) (rest : list Z) (written buf size : Z)
    (w : Z) (s' : fs) (cs : list Z) : Prop := {
  wr_entries : entries s' = entries s;
  wr_chain : chain (cell s') (cur :: cs);
  wr_count : written < w <= size;
  wr_length : CLUSTER * lenZ cs < w - written <= CLUSTER * lenZ (cur :: cs);
  wr_from : forall c, c ∈ cs -> c ∈ rest \/ cell s c = 0;
  wr_cells : forall x, x ∉ cur :: cs -> cell s' x = cell s x;
  wr_data : forall i, 0 <= i < w - written ->
    fbyte (fmem s') (cur :: cs) i = rb (fmem s) (buf + written + i);
  wr_mem : forall x, (forall c, c ∈ cur :: cs -> ~ (get_cluster c <= x < get_cluster c + CLUSTER)) ->
    rb (fmem s') x = rb (fmem s) x;
  wr_full : w < size -> forall x, in_fat x -> cell s' x <> 0
}.

(** The last cluster of a write: the chain is cut behind it. *)
Lemma wrote_last s cur rest written buf size n :
  in_fat cur -> 0 < n <= CLUSTER -> written + n <= size -> off_disk buf size -> 0 <= written ->
  (written + n < size -> forall x, in_fat x -> cell s x <> 0) ->
  wrote s cur rest written buf size (written + n)
    (set_cell cur EOF (set_fmem (memcpy (fmem s) (get_cluster cur) (buf + written) n) s)) [].
Proof.
  intros Hin Hn Hw Hoff Hw0 Hfull. destruct (get_cluster_bounds cur Hin) as [Hb1 Hb2].
  unfold off_disk in Hoff.
  split; cbn [fmem set_cell set_fmem].
  - done.
  - cbn [chain]. by rewrite cell_set_eq.
  - lia.
  - unfold lenZ. simpl length. lia.
  - intros c Hc. by apply not_elem_of_nil in Hc.
  - intros x Hx. rewrite list_elem_of_singleton in Hx. by rewrite cell_set_ne by congruence.
  - intros i Hi. rewrite fbyte_here by lia. apply memcpy_in; lia.
  - intros x Hx. apply memcpy_out. specialize (Hx cur ltac:(by left)). lia.
  - intros Hlt x Hx. rewrite cell_set. bcase; [done|]. by apply Hfull.
Qed.

(** One full cluster, then the rest of the write from the next one. *)
Lemma wrote_step s s2 cur d r rest written buf size w s' cs :
  in_fat cur -> 0 <= written -> written + CLUSTER < size -> off_disk buf size ->
  entries s2 = entries s ->
  fmem s2 = memcpy (fmem s) (get_cluster cur) (buf + written) CLUSTER ->
  cell s2 cur = d -> chain (cell s2) (cur :: d :: r) ->
  (forall c, c ∈ d :: r -> c ∈ rest \/ cell s c = 0) ->
  (forall x, x <> cur -> x <> d -> cell s2 x = cell s x) ->
  wrote s2 d r (written + CLUSTER) buf size w s' cs ->
  wrote s cur rest written buf size w s' (d :: cs).
Proof.
  intros Hin Hw0 Hlt Hoff He Hm Hcur Hc Hfrom Hcells [W1 W2 W3 W4 W5 W6 W7 W8 W9].
  destruct (get_cluster_bounds cur Hin) as [Hb1 Hb2]. unfold off_disk in Hoff.
  pose proof (chain_nodup _ _ Hc) as Hnd. apply list.NoDup_cons in Hnd as [Hnc _].
  destruct (chain_in _ _ d Hc ltac:(right; by left)) as [_ Hd0].
  destruct (chain_in _ _ cur Hc ltac:(by left)) as [_ Hc0].
  assert (Hnot : cur ∉ d :: cs).
  { intros [->|Hcs]%elem_of_cons; [apply Hnc; by left|].
    destruct (W5 _ Hcs) as [?|Hz]; [|exact (Hc0 Hz)]. apply Hnc. by right. }
  assert (Hmem1 : forall x, ~ (get_cluster cur <= x < get_cluster cur + CLUSTER) ->
    rb (fmem s2) x = rb (fmem s) x) by (intros x Hx; rewrite Hm; apply memcpy_out; lia).
  assert (Hother : forall c, c ∈ d :: cs -> get_cluster c + CLUSTER <= get_cluster cur \/
    get_cluster cur + CLUSTER <= get_cluster c)
    by (intros c Hcs; apply get_cluster_disjoint; congruence).
  assert (Hl : lenZ (cur :: d :: cs) = 1 + lenZ (d :: cs)) by (unfold lenZ; simpl length; lia).
  assert (Hl' : lenZ (d :: cs) = 1 + lenZ cs) by (unfold lenZ; simpl length; lia).
  split.
  - congruence.
  - split; [done|]. split; [|done]. rewrite W6 by done. done.
  - assert (0 < CLUSTER) by done. clear -W3 H. lia.
  - rewrite Hl. rewrite Hl' in *. clear -W4. change CLUSTER with 512 in *. lia.
  - intros c [->|Hcs]%elem_of_cons; [apply Hfrom; by left|].
    destruct (W5 _ Hcs) as [Hr|Hz]; [apply Hfrom; by right|]. right. rewrite <- Hcells; [done|congruence..].
  - intros x Hx. apply not_elem_of_cons in Hx as [Hx1 Hx2]. rewrite W6 by done.
    apply not_elem_of_cons in Hx2 as [Hx2 _]. by apply Hcells.
  - intros i Hi. destruct (Z.lt_ge_cases i CLUSTER) as [Hi'|Hi'].
    + rewrite fbyte_here by lia. rewrite W8.
      * rewrite Hm. apply memcpy_in; change CLUSTER with 512 in *; lia.
      * intros c Hcs Hx. specialize (Hother c Hcs). lia.
    + rewrite fbyte_next by lia. rewrite W7 by lia. rewrite Hmem1; [f_equal; lia|].
      change CLUSTER with 512 in *; lia.
  - intros x Hx. rewrite W8.
    + apply Hmem1. apply Hx. by left.
    + intros c Hcs. apply Hx. by right.
  - done.
Qed.

Lemma fs_write_loop_ok fuel cur rest written buf size s :
  chain (cell s) (cur :: rest) -> 0 <= written < size -> fs_fuel_ok fuel (size - written) ->
  off_disk buf size ->
  exists w s' cs, fs_write_loop disk fuel cur written buf size s = Some (w, s') /\
    wrote s cur rest written buf size w s' cs.
Proof.
  revert cur rest written s. induction fuel as [|fuel IH];
    intros cur rest written s Hc Hw [Hf1 Hf2] Hoff; [lia|].
  pose proof (proj1 Hc) as Hin. assert (Hin' : cur < FAT_ENTRIES) by (by destruct Hin).
  cbn [fs_write_loop]. rewrite (proj2 (Z.ltb_lt written size)) by lia.
  rewrite (proj2 (Z.leb_gt FAT_ENTRIES cur)) by done. rewrite clamp_min.
  set (n := Z.min (size - written) CLUSTER). set (m1 := memcpy _ _ _ n).
  assert (Hn : 0 < n <= CLUSTER) by (subst n; change CLUSTER with 512; lia).
  destruct (Z.ltb_spec (written + n) size) as [Hlt|Hge].
  2: { eexists _, _, []. split; [reflexivity|]. apply wrote_last; try done; lia. }
  assert (En : n = CLUSTER) by (subst n; lia). clearbody n. subst n.
  change (cell (set_fmem m1 s)) with (cell s).
  destruct (cell s cur =? EOF) eqn:Ecur; bsimp.
  - assert (rest = []) as ->.
    { destruct rest as [|d r]; [done|]. destruct Hc as (_ & E & [Hd _]). rewrite E in Ecur. fat_lia. }
    destruct (alloc_cluster (set_fmem m1 s)) as [nc s1] eqn:Ea.
    destruct (alloc_ok _ _ _ Ea) as [(-> & -> & Hall)|(Hnc & Hz & -> & _)].
    + cbn [Z.eqb]. eexists _, _, []. split; [reflexivity|]. apply wrote_last; try done; lia.
    + change (cell (set_fmem m1 s) nc) with (cell s nc) in Hz.
      assert (Hne : nc <> cur) by (intros ->; rewrite Ecur in Hz; done).
      rewrite (proj2 (Z.eqb_neq nc 0)) by (unfold in_fat in Hnc; lia).
      set (s2 := set_cell cur nc _).
      assert (Hcn : cell s2 nc = EOF) by (subst s2; rewrite cell_set_ne by done; apply cell_set_eq).
      assert (Hc2 : chain (cell s2) [nc]) by (cbn [chain]; rewrite Hcn; done).
      destruct (IH nc [] (written + CLUSTER) s2 Hc2) as (w & s' & cs & E & W).
      * change CLUSTER with 512 in *; lia.
      * split; change CLUSTER with 512 in *; lia.
      * done.
      * exists w, s', (nc :: cs). split; [exact E|].
        apply (wrote_step s s2 cur nc [] [] written buf size w s' cs); try done; try lia.
        -- apply cell_set_eq.
        -- split; [done|]. split; [apply cell_set_eq|done].
        -- intros c Hcn'. apply list_elem_of_singleton in Hcn' as ->. by right.
        -- intros x Hx1 Hx2. subst s2. rewrite !cell_set_ne by congruence. done.
  - destruct rest as [|d r].
    { exfalso. destruct Hc as (_ & E & _). done. }
    pose proof (proj1 (proj2 Hc)) as Hd. cbn beta iota in Hd. rewrite Hd.
    destruct (IH d r (written + CLUSTER) (set_fmem m1 s) (chain_tail _ _ _ Hc)) as (w & s' & cs & E & W).
    + change CLUSTER with 512 in *; lia.
    + split; change CLUSTER with 512 in *; lia.
    + done.
    + exists w, s', (d :: cs). split; [exact E|].
      apply (wrote_step s (set_fmem m1 s) cur d r (d :: r) written buf size w s' cs); try done; try lia.
      intros c Hcr. by left.
Qed.

Lemma fs_write_ok c rest buf size s :
  chain (cell s) (c :: rest) -> 0 < size -> off_disk buf size ->
  exists w s' cs, fs_write disk c buf size s = Some (w, s') /\ wrote s c rest 0 buf size w s' cs.
Proof.
  intros Hc Hs Hoff. unfold fs_write.
  replace ((c <? 2) || (FAT_ENTRIES <=? c)) with false
    by (symmetry; destruct Hc as [Hin _]; unfold in_fat in Hin; repeat rw_test; done).
  apply fs_write_loop_ok; try done; try lia. rewrite Z.sub_0_r. apply rw_fuel_ok. lia.
Qed.
End Data.
