(* ===== verification/FsTree.v ===== *)
(** * The file system as a tree of named nodes

    [fs_ok] is the invariant of fat16/fs.c: the entries form a tree below the
    root, every file owns a cluster chain, chains of different entries are
    disjoint.  [fs_rel] relates the concrete state to an abstract file system
    (a finite map from entry indices to nodes with their contents) and
    [fstep] is what each operation may do to it. *)

From Stdlib Require Import ZArith Lia.
From S2P Require Import Prelude Memory LibC Fs FsChain.

Definition slot (i : Z) : Prop := 0 <= i < 512.

Lemma bad_idx_slot i : bad_idx i = false <-> slot i.
Proof.
  unfold bad_idx, slot, FS_MAX_ENTRIES. split.
  - intros H. bsimp. lia.
  - intros H. by repeat rw_test.
Qed.

(** ** The invariant *)

(** Entry [i] owns the chain [cs]. *)
Definition owns (s : fs) (i : Z) (cs : list Z) : Prop :=
  slot i /\ used (ent s i) = true /\
  exists r, cs = first_cluster (ent s i) :: r /\ chain (cell s) cs.

(** The parents lead to the root: [dp] decreases along them. *)
Record tree_ok (s : fs) : Prop := {
  tr_root : used (ent s 0) = true /\ is_dir (ent s 0) = true /\ parent (ent s 0) = -1;
  tr_parent : exists dp : Z -> nat, forall i, slot i -> i <> 0 -> used (ent s i) = true ->
    let p := parent (ent s i) in
    slot p /\ used (ent s p) = true /\ is_dir (ent s p) = true /\ (dp p < dp i)%nat
}.

Record chains_ok (s : fs) : Prop := {
  co_owner : forall i, slot i -> used (ent s i) = true ->
    is_dir (ent s i) = false \/ first_cluster (ent s i) <> 0 -> exists cs, owns s i cs;
  co_disjoint : forall i j cs cs' c, i <> j -> owns s i cs -> owns s j cs' -> c ∈ cs -> c ∉ cs'
}.

Definition fs_ok (s : fs) : Prop := tree_ok s /\ chains_ok s.

Lemma owns_fun s i cs cs' : owns s i cs -> owns s i cs' -> cs = cs'.
Proof.
  intros (_ & _ & r & -> & H) (_ & _ & r' & -> & H'). f_equal. by eapply chain_det.
Qed.

Lemma owns_in s i cs c : owns s i cs -> c ∈ cs -> in_fat c /\ cell s c <> 0.
Proof. intros (_ & _ & r & _ & H) Hc. by eapply chain_in. Qed.

Lemma owns_keep s s' i cs :
  owns s i cs -> ent s' i = ent s i -> (forall c, c ∈ cs -> cell s' c = cell s c) -> owns s' i cs.
Proof.
  intros (H1 & H2 & r & Hcs & H3) He Hc. split; [done|]. rewrite He. split; [done|].
  exists r. split; [done|]. eapply chain_ext; [|exact H3]. intros c Hin. symmetry. by apply Hc.
Qed.

(** Every entry but [idx] keeps its fields, its chain and its bytes; what
    [idx] owns now was free or its own. *)
Record frame (disk : Z) (s s' : fs) (idx : Z) : Prop := {
  fr_ent : forall j, j <> idx -> ent s' j = ent s j;
  fr_cell : forall j cs c, j <> idx -> owns s j cs -> c ∈ cs -> cell s' c = cell s c;
  fr_mem : forall j cs c, j <> idx -> owns s j cs -> c ∈ cs ->
    same_on (get_cluster disk c) (get_cluster disk c + CLUSTER) (fmem s) (fmem s');
  fr_new : forall cs c, owns s' idx cs -> c ∈ cs ->
    cell s c = 0 \/ exists cs0, owns s idx cs0 /\ c ∈ cs0
}.

Section Frame.
Context (disk : Z) (s s' : fs) (idx : Z).
Context (Hco : chains_ok s) (Hfr : frame disk s s' idx).

Lemma frame_owns j cs : j <> idx -> owns s j cs -> owns s' j cs.
Proof using Hfr.
  intros Hj Ho. apply (owns_keep s); [done|by apply Hfr|]. intros c Hc.
  by eapply (fr_cell _ _ _ _ Hfr).
Qed.

Lemma frame_owns_back j cs : j <> idx -> owns s' j cs -> owns s j cs.
Proof using Hfr Hco.
  intros Hj Ho. pose proof Ho as (H1 & H2 & r & Hcs & H3).
  rewrite (fr_ent _ _ _ _ Hfr j Hj) in H2, Hcs.
  destruct (co_owner _ Hco j H1 H2) as [cs0 H0].
  - right. intros E. rewrite E in Hcs. subst cs. destruct H3 as [H3 _]. unfold in_fat in H3. lia.
  - by rewrite (owns_fun _ _ _ _ Ho (frame_owns _ _ Hj H0)).
Qed.

(** The chain part of the invariant, when [idx] has its chain. *)
Lemma frame_chains :
  (used (ent s' idx) = true -> slot idx ->
   is_dir (ent s' idx) = false \/ first_cluster (ent s' idx) <> 0 -> exists cs, owns s' idx cs) ->
  chains_ok s'.
Proof using Hfr Hco.
  intros Hidx. assert (Hone : forall j cs cs' c, j <> idx -> owns s' idx cs -> owns s' j cs' ->
    c ∈ cs -> c ∈ cs' -> False).
  { intros j cs cs' c Hj H1 H2 Hc Hc'. apply (frame_owns_back _ _ Hj) in H2.
    destruct (fr_new _ _ _ _ Hfr cs c H1 Hc) as [Hz|(cs0 & H0 & Hc0)].
    - by destruct (owns_in _ _ _ _ H2 Hc').
    - by eapply (co_disjoint _ Hco idx j). }
  split.
  - intros i Hi Hu Hd. destruct (Z.eq_dec i idx) as [->|Hne]; [by apply Hidx|].
    rewrite (fr_ent _ _ _ _ Hfr i Hne) in Hu, Hd.
    destruct (co_owner _ Hco i Hi Hu Hd) as [cs H]. exists cs. by apply frame_owns.
  - intros i j cs cs' c Hij H1 H2 Hc Hc'.
    destruct (Z.eq_dec i idx) as [->|Hi]; [by eapply (Hone j)|].
    destruct (Z.eq_dec j idx) as [->|Hj]; [by eapply (Hone i)|].
    apply (frame_owns_back _ _ Hi) in H1. apply (frame_owns_back _ _ Hj) in H2.
    by eapply (co_disjoint _ Hco i j).
Qed.
End Frame.

(** ** The tree *)

Lemma tree_same s s' :
  tree_ok s ->
  (forall i, used (ent s' i) = used (ent s i) /\ is_dir (ent s' i) = is_dir (ent s i) /\
             parent (ent s' i) = parent (ent s i)) ->
  tree_ok s'.
Proof.
  intros [Hr (dp & Hp)] H. split.
  - by destruct (H 0) as (-> & -> & ->).
  - exists dp. intros i Hi H0. destruct (H i) as (-> & _ & ->). intros Hu.
    cbn zeta. destruct (H (parent (ent s i))) as (-> & -> & _). by apply Hp.
Qed.

Lemma tree_add s s' idx e :
  tree_ok s -> slot idx -> used (ent s idx) = false ->
  (forall i, ent s' i = if idx =? i then e else ent s i) ->
  slot (parent e) -> used (ent s (parent e)) = true -> is_dir (ent s (parent e)) = true ->
  tree_ok s'.
Proof.
  intros [Hr (dp & Hp)] Hidx Hfree He Hps Hpu Hpd.
  assert (H0 : idx <> 0) by (intros ->; destruct Hr; congruence).
  split.
  - rewrite He. by rw_test.
  - exists (fun x => if x =? idx then S (dp (parent e)) else dp x). intros i Hi Hi0 Hu.
    cbn zeta. rewrite He in Hu. rewrite (He i). destruct (Z.eqb_spec idx i) as [->|Hne].
    + rewrite He. assert (parent e <> i) by (intros E; congruence).
      repeat rw_test. repeat split; try done; try apply Hps. lia.
    + destruct (Hp i Hi Hi0 Hu) as (H1 & H2 & H3 & H4). rewrite He.
      assert (idx <> parent (ent s i)) by (intros E; congruence).
      repeat rw_test. done.
Qed.

Lemma tree_del s s' idx e :
  tree_ok s -> idx <> 0 -> used e = false ->
  (forall i, ent s' i = if idx =? i then e else ent s i) ->
  (forall j, slot j -> used (ent s j) = true -> parent (ent s j) <> idx) ->
  tree_ok s'.
Proof.
  intros [Hr (dp & Hp)] H0 Hfree He Hno. split.
  - rewrite He. by rw_test.
  - exists dp. intros i Hi Hi0 Hu. cbn zeta. rewrite He in Hu. rewrite (He i).
    destruct (Z.eqb_spec idx i) as [->|Hne]; [congruence|].
    destruct (Hp i Hi Hi0 Hu) as (H1 & H2 & H3 & H4). rewrite He.
    pose proof (Hno i Hi Hu). by rw_test.
Qed.

Lemma has_children_false idx s :
  slot idx -> has_children idx s = false ->
  forall j, slot j -> used (ent s j) = true -> parent (ent s j) <> idx.
Proof.
  intros Hidx H j Hj Hu. unfold has_children in H. rewrite (proj2 (bad_idx_slot idx) Hidx) in H.
  destruct (scan_entries _ _) eqn:E; [done|]. unfold scan_entries in E. rewrite scan_none in E.
  specialize (E j). unfold slot, FS_MAX_ENTRIES in *. rewrite Hu in E. cbn [andb] in E.
  specialize (E ltac:(lia)). by bsimp.
Qed.

Lemma find_free_ok s idx : find_free_entry s = idx -> 0 <= idx -> slot idx /\ idx <> 0 /\ used (ent s idx) = false.
Proof.
  unfold find_free_entry, scan_entries, FS_MAX_ENTRIES, slot.
  destruct (scan _ _ _) as [i|] eqn:E; [|lia]. intros <- _.
  apply scan_some in E as (H1 & H2 & _). bsimp. split; [lia|]. split; [lia|done].
Qed.

(** An unused entry owns nothing. *)
Lemma unused_owns s i cs : used (ent s i) = false -> ~ owns s i cs.
Proof. intros H (_ & H' & _). congruence. Qed.

(** ** Contents and the abstract file system *)

Record node := Node {
  n_name : list Z; n_ext : list Z; n_parent : Z; n_dir : bool; n_data : list Z }.
Abbreviation afs := (gmap Z node).

Definition with_data (d : list Z) (n : node) : node :=
  Node (n_name n) (n_ext n) (n_parent n) (n_dir n) d.

Section Abs.
Context (disk : Z).
Abbreviation get_cluster := (get_cluster disk).
Abbreviation fbyte := (fbyte disk).
Abbreviation frame := (frame disk).

(** The [size] bytes along the chain of entry [i] are [d]. *)
Definition stored (s : fs) (i : Z) (d : list Z) : Prop :=
  size (ent s i) = lenZ d /\
  (d = [] \/ exists cs, owns s i cs /\ lenZ d <= CLUSTER * lenZ cs /\
     forall k x, d !! k = Some x -> fbyte (fmem s) cs (Z.of_nat k) = x).

Record holds (s : fs) (i : Z) (n : node) : Prop := {
  ho_used : used (ent s i) = true;
  ho_name : name (ent s i) = n_name n;
  ho_ext : ext (ent s i) = n_ext n;
  ho_parent : parent (ent s i) = n_parent n;
  ho_dir : is_dir (ent s i) = n_dir n;
  ho_data : stored s i (n_data n)
}.

Definition holds_opt (s : fs) (i : Z) (o : option node) : Prop :=
  match o with Some n => holds s i n | None => used (ent s i) = false end.

Record fs_rel (s : fs) (A : afs) : Prop := {
  rel_ok : fs_ok s;
  rel_holds : forall i, slot i -> holds_opt s i (A !! i);
  rel_slot : forall i n, A !! i = Some n -> slot i
}.

Lemma frame_holds s s' idx j o :
  frame s s' idx -> j <> idx -> holds_opt s j o -> holds_opt s' j o.
Proof.
  intros Hfr Hj. destruct o as [n|]; cbn [holds_opt]; rewrite ?(fr_ent _ _ _ _ Hfr j Hj); [|done].
  intros [H1 H2 H3 H4 H5 [H6 H7]]. split; rewrite ?(fr_ent _ _ _ _ Hfr j Hj); try done.
  split; [by rewrite (fr_ent _ _ _ _ Hfr j Hj)|]. destruct H7 as [?|(cs & Ho & Hl & Hb)]; [by left|].
  right. exists cs. split; [by eapply frame_owns|]. split; [done|]. intros k x Hk.
  rewrite <- (Hb k x Hk). symmetry. apply fbyte_ext.
  - apply lookup_lt_Some in Hk. unfold lenZ in Hl at 1. lia.
  - intros c Hc. by eapply (fr_mem _ _ _ _ Hfr).
Qed.

(** A framed change of one entry is an update of the map. *)
Lemma rel_update s s' A idx o :
  fs_rel s A -> frame s s' idx -> slot idx -> fs_ok s' -> holds_opt s' idx o ->
  fs_rel s' (partial_alter (fun _ => o) idx A).
Proof.
  intros [H1 H2 H3] Hfr Hidx Hok Ho. split; [done| |].
  - intros i Hi. destruct (Z.eq_dec i idx) as [->|Hne].
    + by rewrite lookup_partial_alter_eq.
    + rewrite lookup_partial_alter_ne by done. eapply frame_holds; eauto.
  - intros i n. destruct (Z.eq_dec i idx) as [->|Hne]; [done|].
    rewrite lookup_partial_alter_ne by done. apply H3.
Qed.

Lemma rel_get s A i n : fs_rel s A -> A !! i = Some n -> slot i /\ holds s i n.
Proof.
  intros [_ H2 H3] Hn. pose proof (H3 _ _ Hn) as Hi. split; [done|].
  specialize (H2 i Hi). by rewrite Hn in H2.
Qed.

Lemma rel_used s A i : fs_rel s A -> slot i -> used (ent s i) = true -> exists n, A !! i = Some n /\ holds s i n.
Proof.
  intros [_ H2 _] Hi Hu. specialize (H2 i Hi). destruct (A !! i) as [n|]; cbn [holds_opt] in H2.
  - by exists n.
  - congruence.
Qed.

Lemma rel_free s A i : fs_rel s A -> used (ent s i) = false -> A !! i = None.
Proof.
  intros Hrel Hu. destruct (A !! i) as [n|] eqn:E; [|done].
  destruct (rel_get _ _ _ _ Hrel E) as [_ [H _ _ _ _ _]]. congruence.
Qed.

(** *** Writing data into an entry *)

(** A write stores everything, or, the disk being full, a proper prefix. *)
Definition write_result (m : mem) (data sz r : Z) (d : list Z) : Prop :=
  (r = 0 /\ d = rbs m data (Z.to_nat sz)) \/
  (r = -6 /\ exists w, 0 < w < sz /\ d = rbs m data (Z.to_nat w)).

Lemma write_data_ok s idx c data sz :
  slot idx -> used (ent s idx) = true -> first_cluster (ent s idx) = c ->
  in_fat c -> cell s c = EOF -> 0 <= sz -> off_disk disk data sz ->
  exists r s' cs d, write_data disk idx data sz s = Some (r, s') /\
    write_result (fmem s) data sz r d /\
    (forall j, ent s' j = if idx =? j then set_size (lenZ d) (ent s idx) else ent s j) /\
    owns s' idx (c :: cs) /\ stored s' idx d /\
    (forall x, x ∉ c :: cs -> cell s' x = cell s x) /\
    (forall x, x ∈ cs -> cell s x = 0) /\
    (forall x, (forall e, e ∈ c :: cs -> ~ (get_cluster e <= x < get_cluster e + CLUSTER)) ->
       rb (fmem s') x = rb (fmem s) x) /\
    (r = -6 -> forall x, in_fat x -> cell s' x <> 0).
Proof.
  intros Hidx Hu Hfirst Hin Hc Hsz Hoff. unfold write_data.
  destruct (Z.eqb_spec sz 0) as [->|Hne].
  - eexists 0, _, [], []. split; [reflexivity|]. set (s1 := set_ent idx _ s).
    assert (Hent : ent s1 idx = set_size 0 (ent s idx)) by apply ent_set_eq.
    rewrite Hent. cbn [first_cluster set_size]. rewrite Hfirst.
    assert (Hcell : forall x, cell (set_cell c EOF s1) x = cell s x).
    { intros x. rewrite cell_set. bcase; [by subst x|done]. }
    assert (Hent' : forall j, ent (set_cell c EOF s1) j = if idx =? j then set_size 0 (ent s idx) else ent s j)
      by (intros j; apply ent_set).
    split; [by left|]. split; [done|]. split; [|split; [|split; [|split; [|split]]]].
    + split; [done|]. rewrite Hent'. rw_test. split; [done|]. exists []. cbn [first_cluster set_size].
      rewrite Hfirst. split; [done|]. cbn [chain]. rewrite Hcell. done.
    + split; [rewrite Hent'; by rw_test|]. by left.
    + done.
    + intros x Hx. by apply not_elem_of_nil in Hx.
    + done.
    + done.
  - rewrite Hfirst. destruct (fs_write_ok disk c [] data sz s) as (w & s' & cs & E & [W1 W2 W3 W4 W5 W6 W7 W8 W9]);
      [by cbn [chain]; rewrite Hc|lia|done|]. rewrite E, Z.sub_0_r in *.
    assert (Hw32 : u32 w = w).
    { apply u32_small. pose proof (chain_length _ _ W2) as Hl. change CLUSTER with 512 in W4.
      unfold lenZ in W4. change FAT_ENTRIES with 16384 in Hl. simpl length in *. lia. }
    set (d := rbs (fmem s) data (Z.to_nat w)).
    assert (Hd : lenZ d = w) by (unfold d, lenZ; rewrite length_rbs; lia).
    set (s2 := set_ent idx (set_size w (ent s' idx)) s').
    assert (Hes : forall j, ent s' j = ent s j) by (intros j; unfold ent; by rewrite W1).
    assert (Hent : forall j, ent s2 j = if idx =? j then set_size (lenZ d) (ent s idx) else ent s j)
      by (intros j; unfold s2; rewrite ent_set, Hd, !Hes; done).
    assert (Hown : owns s2 idx (c :: cs)).
    { split; [done|]. rewrite Hent. rw_test. split; [done|]. exists cs. cbn [first_cluster set_size].
      by rewrite Hfirst. }
    assert (Hrest : write_result (fmem s) data sz (if negb (w =? sz) then -6 else 0) d).
    { destruct (Z.eqb_spec w sz) as [->|]; cbn [negb]; [by left|]. right. split; [done|]. exists w.
      split; [lia|done]. }
    exists (if negb (w =? sz) then -6 else 0), s2, cs, d.
    split; [|split; [exact Hrest|split; [exact Hent|split; [exact Hown|split; [|split; [exact W6|split; [|split; [exact W8|]]]]]]]].
    + destruct (Z.eqb_spec w sz) as [->|]; cbn [negb]; by rewrite Hw32.
    + split; [rewrite Hent; by rw_test|]. right. exists (c :: cs). split; [done|]. split; [lia|].
      intros k x Hk. pose proof Hk as Hk'. apply lookup_lt_Some in Hk'. unfold lenZ in Hd.
      change (fmem s2) with (fmem s'). rewrite W7 by lia.
      unfold d in Hk. rewrite lookup_rbs in Hk by (unfold d in Hd, Hk'; lia). injection Hk as <-.
      f_equal. lia.
    + intros x Hx. destruct (W5 _ Hx) as [Hx'|?]; [by apply not_elem_of_nil in Hx'|done].
    + destruct (Z.eqb_spec w sz) as [->|]; cbn [negb]; [done|]. intros _. apply W9. lia.
Qed.

(** The frame of placing a chain [c :: cs] of clusters that are free in
    [s1], the state after freeing the entry's old chain (if any). *)
Lemma place_frame s s1 s' idx c cs :
  chains_ok s ->
  (forall x, cell s1 x = cell s x \/ exists cs0, owns s idx cs0 /\ x ∈ cs0) ->
  (forall x, x ∈ c :: cs -> cell s1 x = 0) ->
  (forall x, x ∉ c :: cs -> cell s' x = cell s1 x) ->
  (forall j, j <> idx -> ent s' j = ent s j) ->
  (forall x, (forall e, e ∈ c :: cs -> ~ (get_cluster e <= x < get_cluster e + CLUSTER)) ->
     rb (fmem s') x = rb (fmem s) x) ->
  owns s' idx (c :: cs) ->
  frame s s' idx.
Proof.
  intros Hco H1 H2 H3 H4 H5 H6.
  assert (Hkey : forall j cs' x, j <> idx -> owns s j cs' -> x ∈ cs' ->
    (x ∉ c :: cs) /\ cell s1 x = cell s x).
  { intros j cs' x Hj Ho Hx. destruct (owns_in _ _ _ _ Ho Hx) as [_ Hnz].
    assert (E : cell s1 x = cell s x).
    { destruct (H1 x) as [?|(cs0 & Ho0 & Hx0)]; [done|].
      by destruct (co_disjoint _ Hco j idx _ _ x Hj Ho Ho0 Hx). }
    split; [|done]. intros Hin. rewrite H2 in E by done. congruence. }
  split.
  - done.
  - intros j cs' x Hj Ho Hx. destruct (Hkey _ _ _ Hj Ho Hx) as [Hn <-]. by apply H3.
  - intros j cs' x Hj Ho Hx a Ha. symmetry. apply H5. intros e He Hae.
    destruct (Hkey _ _ _ Hj Ho Hx) as [Hn _].
    assert (e <> x) by (intros ->; done).
    destruct (get_cluster_disjoint disk e x); [done|lia|lia].
  - intros cs' x Ho Hx. rewrite (owns_fun _ _ _ _ Ho H6) in Hx.
    destruct (H1 x) as [<-|?]; [left; by apply H2|by right].
Qed.

(** Freeing an entry's chain. *)
Lemma free_entry s idx :
  chains_ok s -> slot idx -> used (ent s idx) = true ->
  let s1 := free_cluster_chain (first_cluster (ent s idx)) s in
  entries s1 = entries s /\ fmem s1 = fmem s /\
  (forall x, cell s1 x = cell s x \/ exists cs0, owns s idx cs0 /\ x ∈ cs0) /\
  (forall cs0, owns s idx cs0 -> forall x, cell s1 x = if decide (x ∈ cs0) then 0 else cell s x).
Proof.
  intros Hco Hidx Hu s1. destruct (Z.eq_dec (first_cluster (ent s idx)) 0) as [E|Hne].
  - assert (Es : s1 = s) by (unfold s1; rewrite E; done). rewrite Es.
    split; [done|]. split; [done|]. split; [by left|].
    intros cs0 (_ & _ & r & -> & [Hin _]). rewrite E in Hin. unfold in_fat in Hin. lia.
  - destruct (co_owner _ Hco idx Hidx Hu ltac:(by right)) as [cs Ho].
    pose proof Ho as (_ & _ & r & -> & Hc). destruct (free_chain_ok _ _ _ Hc) as (H1 & H2 & H3).
    split; [done|]. split; [done|]. split.
    + intros x. unfold s1. rewrite H3. case_decide; [right; by eexists|by left].
    + intros cs0 Ho0. rewrite (owns_fun _ _ _ _ Ho0 Ho). apply H3.
Qed.
End Abs.
