(* ===== verification/FsOps.v ===== *)
(** * The operations of fat16/fs.c implement the abstract file system

    [fstep] says what each operation may do to the abstract file system of
    FsTree; [fs_simulates] shows that the code does just that, from every
    state that satisfies the invariant, and keeps the invariant. *)

From Stdlib Require Import ZArith Lia.
From S2P Require Import Prelude Memory LibC Fs FsChain FsTree.

(** The calls of fs.h, and a store by a caller into memory of its own. *)
Inductive fop :=
  | OpMkdir (nm : option (list Z)) (par : Z)
  | OpRmdir (i : Z)
  | OpCreate (nm ex : option (list Z)) (par : Z)
  | OpRemove (i : Z)
  | OpWrite (nm ex : option (list Z)) (par data sz : Z)
  | OpRead (nm ex : option (list Z)) (par buf bufsize : Z)
  | OpPoke (x v : Z).

Section Ops.
Context (disk : Z).
Abbreviation get_cluster := (get_cluster disk).
Abbreviation frame := (frame disk).
Abbreviation fs_rel := (fs_rel disk).
Abbreviation holds := (holds disk).
Abbreviation stored := (stored disk).

Definition exec (op : fop) (s : fs) : option (Z * fs) :=
  match op with
  | OpMkdir nm par => Some (fs_mkdir nm par s)
  | OpRmdir i => Some (fs_rmdir i s)
  | OpCreate nm ex par =>
      match fs_create_file nm ex par s with Some (r, _, s) => Some (r, s) | None => None end
  | OpRemove i => Some (fs_remove_entry i s)
  | OpWrite nm ex par data sz => fs_write_file_in_dir disk nm ex par data sz s
  | OpRead nm ex par buf bufsize =>
      match fs_read_file_in_dir disk nm ex par buf bufsize s with
      | Some (r, _, s) => Some (r, s) | None => None end
  | OpPoke x v => Some (0, set_fmem (wb (fmem s) x v) s)
  end.

(** Calls a correct caller makes: buffers are not inside the RAM disk, and
    the extension of a file to create is a string. *)
Definition op_ok (op : fop) : Prop :=
  match op with
  | OpCreate _ ex _ => ex <> None
  | OpWrite _ ex _ data sz => ex <> None /\ 0 <= sz /\ off_disk disk data sz
  | OpRead _ _ _ buf bufsize => 0 <= bufsize /\ off_disk disk buf bufsize
  | OpPoke x _ => ~ (disk <= x < disk + RAMDISK_SIZE)
  | _ => True
  end.

(** ** The abstract steps *)

Definition dir_at (A : afs) (p : Z) : Prop := exists n, A !! p = Some n /\ n_dir n = true.
Definition childless (A : afs) (p : Z) : Prop := forall i n, A !! i = Some n -> n_parent n <> p.
Definition nname_is (n : node) (nm : list Z) : bool := nameeq 64 (n_name n) nm.
Definition next_is (n : node) (ex : list Z) : bool := nameeq 64 (n_ext n) ex.

(** The node answers to [nm] and [ex] in directory [par]. *)
Definition nfound (nm : list Z) (ex : option (list Z)) (par : Z) (n : node) : bool :=
  (n_parent n =? par) &&
  (if n_dir n then negb (has_ext ex) && nname_is n nm
   else nname_is n nm && next_is n (default [] ex)).

(** It is the first one that does. *)
Definition finds (A : afs) (nm : list Z) (ex : option (list Z)) (par i : Z) (n : node) : Prop :=
  A !! i = Some n /\ nfound nm ex par n = true /\
  forall j n', j < i -> A !! j = Some n' -> nfound nm ex par n' = false.
Definition finds_none (A : afs) (nm : list Z) (ex : option (list Z)) (par : Z) : Prop :=
  forall j n, A !! j = Some n -> nfound nm ex par n = false.

Definition new_file (nm ex : list Z) (par : Z) (d : list Z) : node :=
  Node (mkname nm) (mkname ex) par false d.

Inductive fstep (m m' : mem) (A : afs) : fop -> Z -> afs -> Prop :=
  | st_mkdir nm par idx :
      dir_at A par -> A !! idx = None ->
      (forall i n, A !! i = Some n -> n_parent n = par -> n_dir n = true -> nname_is n nm = false) ->
      fstep m m' A (OpMkdir (Some nm) par) idx
        (<[idx := Node (mkname nm) (replicate 64 0) par true []]> A)
  | st_rmdir i n :
      i <> 0 -> A !! i = Some n -> n_dir n = true -> childless A i ->
      fstep m m' A (OpRmdir i) 0 (delete i A)
  | st_create nm ex par idx :
      dir_at A par -> A !! idx = None ->
      (forall i n, A !! i = Some n -> n_parent n = par -> n_dir n = false ->
         nname_is n nm && next_is n ex = false) ->
      fstep m m' A (OpCreate (Some nm) (Some ex) par) idx (<[idx := new_file nm ex par []]> A)
  | st_remove i n :
      i <> 0 -> A !! i = Some n -> (n_dir n = true -> childless A i) ->
      fstep m m' A (OpRemove i) 0 (delete i A)
  | st_write nm ex par data sz idx n r d :
      dir_at A par -> finds A nm ex par idx n -> write_result m data sz r d ->
      fstep m m' A (OpWrite (Some nm) ex par data sz) r (<[idx := with_data d n]> A)
  | st_write_new nm ex par data sz idx r d :
      dir_at A par -> finds_none A nm (Some ex) par -> A !! idx = None ->
      write_result m data sz r d ->
      fstep m m' A (OpWrite (Some nm) (Some ex) par data sz) r (<[idx := new_file nm ex par d]> A)
  | st_read nm ex par buf bufsize idx n :
      finds A nm ex par idx n -> lenZ (n_data n) <= bufsize ->
      rbs m' buf (length (n_data n)) = n_data n ->
      fstep m m' A (OpRead (Some nm) ex par buf bufsize) 0 A
  | st_poke x v : fstep m m' A (OpPoke x v) 0 A
  | st_error op r : r < 0 -> r <> -6 -> fstep m m' A op r A.

(** ** Lookups agree *)

Lemma holds_found s i n nm ex par :
  holds s i n -> found nm ex par (ent s i) = nfound nm ex par n.
Proof.
  intros [H1 H2 H3 H4 H5 _]. unfold found, nfound, name_is, ext_is, nname_is, next_is.
  by rewrite H1, H2, H3, H4, H5.
Qed.

Lemma dir_at_of s A p :
  fs_rel s A -> bad_idx p = false -> used (ent s p) = true -> is_dir (ent s p) = true -> dir_at A p.
Proof.
  intros Hrel Hp Hu Hd. apply bad_idx_slot in Hp.
  destruct (rel_used _ _ _ _ Hrel Hp Hu) as (n & Hn & [_ _ _ _ H _]). exists n. split; [done|congruence].
Qed.

Lemma find_ok s A nm ex par i :
  fs_rel s A -> fs_find_in_dir (Some nm) ex par s = i ->
  if i <? 0 then bad_idx par = true \/ finds_none A nm ex par
  else slot i /\ exists n, finds A nm ex par i n /\ holds s i n.
Proof.
  intros Hrel. unfold fs_find_in_dir, scan_entries. destruct (bad_idx par) eqn:Eb; [intros <-; by left|].
  assert (Hslot : forall j n, A !! j = Some n -> slot j) by apply (rel_slot _ _ _ Hrel).
  destruct (scan _ _ _) as [x|] eqn:E; intros <-.
  - apply scan_some in E as (H1 & H2 & H3). unfold FS_MAX_ENTRIES in H1.
    assert (Hx : slot x) by (unfold slot; lia). rw_test. split; [done|].
    assert (Hu : used (ent s x) = true) by (unfold found in H2; by bsimp).
    destruct (rel_used _ _ _ _ Hrel Hx Hu) as (n & Hn & Hh). exists n. split; [|done].
    split; [done|]. split; [by rewrite <- (holds_found _ _ _ _ _ _ Hh)|].
    intros j n' Hj Hn'. destruct (rel_get _ _ _ _ _ Hrel Hn') as [Hs' Hh'].
    rewrite <- (holds_found _ _ _ _ _ _ Hh'). apply H3. unfold slot in Hs'. lia.
  - right. rewrite scan_none in E. intros j n Hn. destruct (rel_get _ _ _ _ _ Hrel Hn) as [Hs' Hh'].
    rewrite <- (holds_found _ _ _ _ _ _ Hh'). apply E. unfold slot, FS_MAX_ENTRIES in *. lia.
Qed.

Lemma childless_of s A i : fs_rel s A -> slot i -> has_children i s = false -> childless A i.
Proof.
  intros Hrel Hi H j n Hn. destruct (rel_get _ _ _ _ _ Hrel Hn) as [Hj [H1 _ _ H4 _ _]].
  rewrite <- H4. by eapply has_children_false.
Qed.

(** ** Entries come and go *)

(** A new entry without clusters, or an entry going away: only the entry
    changes. *)
Lemma set_ent_frame s idx e :
  (forall cs, ~ owns (set_ent idx e s) idx cs) -> frame s (set_ent idx e s) idx.
Proof.
  intros Hno. split.
  - intros j Hj. by apply ent_set_ne.
  - done.
  - done.
  - intros cs c Ho. by destruct (Hno cs).
Qed.

Lemma dead_entry_rel s s1 A idx :
  fs_rel s A -> slot idx -> idx <> 0 ->
  frame s s1 idx ->
  (forall i, ent s1 i = if idx =? i then set_used false (ent s idx) else ent s i) ->
  (is_dir (ent s idx) = true -> has_children idx s = false) ->
  fs_rel s1 (delete idx A).
Proof.
  intros Hrel Hidx H0 Hfr Hent Hch. pose proof (rel_ok _ _ _ Hrel) as [Htr Hco].
  assert (Hdead : used (ent s1 idx) = false) by (rewrite Hent; by rw_test).
  apply (rel_update disk s s1 A idx None); try done. split.
  - apply (tree_del s s1 idx (set_used false (ent s idx))); try done.
    intros j Hj Hu Hp. destruct (Z.eq_dec j 0) as [->|Hj0].
    + destruct (tr_root _ Htr) as (_ & _ & E). rewrite E in Hp. unfold slot in Hidx. lia.
    + destruct (tr_parent _ Htr) as (dp & Hdp). destruct (Hdp j Hj Hj0 Hu) as (_ & _ & Hd & _).
      rewrite Hp in Hd. by apply (has_children_false idx s Hidx (Hch Hd) j Hj Hu).
  - eapply frame_chains; [exact Hco|exact Hfr|]. congruence.
Qed.

Lemma rmdir_rel s A idx r s' :
  fs_rel s A -> fs_rmdir idx s = (r, s') ->
  r < 0 /\ r <> -6 /\ s' = s \/
  r = 0 /\ idx <> 0 /\ fs_rel s' (delete idx A) /\ childless A idx /\
    exists n, A !! idx = Some n /\ n_dir n = true.
Proof.
  intros Hrel. unfold fs_rmdir.
  destruct ((idx <=? 0) || (FS_MAX_ENTRIES <=? idx)) eqn:E1; [intros [= <- <-]; by left|].
  destruct (negb (used (ent s idx)) || negb (is_dir (ent s idx))) eqn:E2; [intros [= <- <-]; by left|].
  destruct (has_children idx s) eqn:E3; intros [= <- <-]; [by left|]. right. bsimp.
  assert (Hidx : slot idx) by (unfold slot, FS_MAX_ENTRIES in *; lia).
  split; [done|]. split; [lia|]. split; [|split; [by eapply childless_of|]].
  - apply (dead_entry_rel s); try done; [lia| |intros i; apply ent_set].
    apply set_ent_frame. intros cs. apply unused_owns. by rewrite ent_set_eq.
  - destruct (rel_used _ _ _ _ Hrel Hidx ltac:(done)) as (n & Hn & [_ _ _ _ Hdir _]).
    exists n. split; [done|congruence].
Qed.

Lemma remove_rel s A idx r s' :
  fs_rel s A -> fs_remove_entry idx s = (r, s') ->
  r < 0 /\ r <> -6 /\ s' = s \/
  r = 0 /\ idx <> 0 /\ fs_rel s' (delete idx A) /\
    exists n, A !! idx = Some n /\ (n_dir n = true -> childless A idx).
Proof.
  intros Hrel. unfold fs_remove_entry.
  destruct ((idx <=? 0) || (FS_MAX_ENTRIES <=? idx)) eqn:E1; [intros [= <- <-]; by left|].
  destruct (negb (used (ent s idx))) eqn:E2; [intros [= <- <-]; by left|]. bsimp.
  assert (Hidx : slot idx) by (unfold slot, FS_MAX_ENTRIES in *; lia).
  assert (Hne0 : idx <> 0) by lia.
  destruct (rel_used _ _ _ _ Hrel Hidx ltac:(done)) as (n & Hn & [_ _ _ _ Hdir _]).
  destruct (is_dir (ent s idx)) eqn:Ed.
  - destruct (has_children idx s) eqn:E3; intros [= <- <-]; [by left|]. right.
    split; [done|]. split; [done|]. split; [|by exists n; split; [|intros _; eapply childless_of]].
    apply (dead_entry_rel s); try done; [|intros i; apply ent_set].
    apply set_ent_frame. intros cs. apply unused_owns. by rewrite ent_set_eq.
  - intros [= <- <-]. right. split; [done|]. split; [done|]. split; [|exists n; split; [done|congruence]].
    pose proof (rel_ok _ _ _ Hrel) as [Htr Hco].
    destruct (free_entry s idx Hco Hidx ltac:(done)) as (Hs1 & Hs2 & Hs3 & _).
    set (s1 := free_cluster_chain _ s) in *.
    assert (He : forall i, ent s1 i = ent s i) by (intros i; unfold ent; by rewrite Hs1).
    rewrite He.
    apply (dead_entry_rel s); [done|done|done| |intros i; rewrite ent_set; by rewrite He|congruence].
    split.
    + intros j Hj. rewrite ent_set_ne by done. apply He.
    + intros j cs c Hj Ho Hc. change (cell (set_ent idx (set_used false (ent s idx)) s1) c) with (cell s1 c).
      destruct (Hs3 c) as [?|(cs0 & Ho0 & Hc0)]; [done|].
      by destruct (co_disjoint _ Hco j idx _ _ c Hj Ho Ho0 Hc).
    + intros j cs c Hj Ho Hc x Hx. cbn [fmem set_ent]. by rewrite Hs2.
    + intros cs c Ho. exfalso. eapply unused_owns; [|exact Ho]. by rewrite ent_set_eq.
Qed.

Lemma s16_slot p : slot p -> s16 p = p.
Proof. unfold slot. intros. apply sext_small; simpl; lia. Qed.

(** What a successful creation needs of its parent. *)
Lemma parent_checks s A par :
  fs_rel s A -> bad_idx par = false -> negb (used (ent s par)) || negb (is_dir (ent s par)) = false ->
  slot par /\ used (ent s par) = true /\ is_dir (ent s par) = true /\ dir_at A par.
Proof.
  intros Hrel Hb H. bsimp. split; [by apply bad_idx_slot|]. split; [done|]. split; [done|].
  by eapply dir_at_of.
Qed.

Lemma mkdir_rel s A nm par r s' :
  fs_rel s A -> fs_mkdir nm par s = (r, s') ->
  r < 0 /\ r <> -6 /\ s' = s \/
  exists nm0, nm = Some nm0 /\ dir_at A par /\ A !! r = None /\
    (forall i n, A !! i = Some n -> n_parent n = par -> n_dir n = true -> nname_is n nm0 = false) /\
    fs_rel s' (<[r := Node (mkname nm0) (replicate 64 0) par true []]> A).
Proof.
  intros Hrel. unfold fs_mkdir. destruct nm as [nm|]; [|intros [= <- <-]; by left].
  destruct (bad_idx par) eqn:E1; [intros [= <- <-]; by left|].
  destruct (negb (used (ent s par)) || _) eqn:E2; [intros [= <- <-]; by left|].
  destruct (scan_entries 0 _) eqn:E3; [intros [= <- <-]; by left|].
  destruct (find_free_entry s <? 0) eqn:E4; intros [= <- <-]; [by left|]. right. bsimp.
  destruct (find_free_ok s _ eq_refl ltac:(done)) as (Hidx & Hidx0 & Hfree).
  set (idx := find_free_entry s) in *.
  destruct (parent_checks s A par Hrel E1) as (Hp & Hpu & Hpd & Hdir); [by apply orb_false_iff; split; apply negb_false_iff|].
  rewrite s16_slot by done. exists nm. split; [done|]. split; [done|].
  split; [by eapply rel_free|]. split.
  - intros i n Hn Hpar Hd. destruct (rel_get _ _ _ _ _ Hrel Hn) as [Hi [G1 G2 G3 G4 G5 _]].
    unfold scan_entries in E3. rewrite scan_none in E3. specialize (E3 i).
    unfold slot, FS_MAX_ENTRIES in *. specialize (E3 ltac:(lia)).
    unfold name_is in E3. rewrite G1, G4, G5, Hpar, Hd, G2, Z.eqb_refl in E3. exact E3.
  - pose proof (rel_ok _ _ _ Hrel) as [Htr Hco]. set (e := Entry _ _ _ _ _ _ _). set (s1 := set_ent idx e s).
    assert (Hent : forall i, ent s1 i = if idx =? i then e else ent s i) by (intros i; apply ent_set).
    assert (Hidxe : ent s1 idx = e) by (rewrite Hent; by rw_test).
    assert (Hfr : frame s s1 idx).
    { apply set_ent_frame. intros cs (_ & _ & r & -> & [Hin _]). rewrite ent_set_eq in Hin.
      cbn in Hin. unfold in_fat in Hin. lia. }
    apply (rel_update disk s s1 A idx (Some _)); try done.
    + split.
      * by apply (tree_add s s1 idx e).
      * eapply frame_chains; [exact Hco|exact Hfr|]. rewrite Hidxe. intros _ _ [?|?]; done.
    + split; rewrite ?Hidxe; try done. split; [by rewrite Hidxe|by left].
Qed.

Lemma create_cases s A nm ex par r c s' :
  fs_rel s A -> fs_create_file (Some nm) (Some ex) par s = Some (r, c, s') ->
  r < 0 /\ r <> -6 /\ s' = s \/
  dir_at A par /\ A !! r = None /\
  (forall i n, A !! i = Some n -> n_parent n = par -> n_dir n = false ->
     nname_is n nm && next_is n ex = false) /\
  slot par /\ used (ent s par) = true /\ is_dir (ent s par) = true /\
  slot r /\ used (ent s r) = false /\ in_fat c /\ cell s c = 0 /\
  (forall j, ent s' j = if r =? j then Entry (mkname nm) (mkname ex) par c 0 true false else ent s j) /\
  (forall x, cell s' x = if c =? x then EOF else cell s x) /\ fmem s' = fmem s.
Proof.
  intros Hrel. unfold fs_create_file.
  destruct (bad_idx par) eqn:E1; [intros [= <- <- <-]; by left|].
  destruct (negb (used (ent s par)) || _) eqn:E2; [intros [= <- <- <-]; by left|].
  unfold create_dup. destruct (scan_entries 0 _) eqn:E3; [intros [= <- <- <-]; by left|].
  destruct (find_free_entry s <? 0) eqn:E4; [intros [= <- <- <-]; by left|].
  destruct (alloc_cluster s) as [c' s1] eqn:Ea.
  destruct (alloc_ok _ _ _ Ea) as [(-> & -> & _)|(Hc & Hz & -> & _)];
    [intros [= <- <- <-]; by left|].
  rewrite (proj2 (Z.eqb_neq c' 0)) by (unfold in_fat in Hc; lia). intros [= <- <- <-]. right. bsimp.
  destruct (find_free_ok s _ eq_refl ltac:(done)) as (Hidx & Hidx0 & Hfree).
  set (idx := find_free_entry s) in *.
  destruct (parent_checks s A par Hrel E1) as (Hp & Hpu & Hpd & Hdir); [by apply orb_false_iff; split; apply negb_false_iff|].
  rewrite s16_slot by done. split; [done|]. split; [by eapply rel_free|]. split.
  { intros i n Hn Hpar Hd. destruct (rel_get _ _ _ _ _ Hrel Hn) as [Hi [G1 G2 G3 G4 G5 _]].
    unfold scan_entries in E3. rewrite scan_none in E3. specialize (E3 i).
    unfold slot, FS_MAX_ENTRIES in *. specialize (E3 ltac:(lia)).
    unfold name_is, ext_is in E3. rewrite G1, G4, G5, Hpar, Hd, G2, G3, Z.eqb_refl in E3. exact E3. }
  do 7 (split; [done|]). split; [|split; [|done]].
  - intros j. change (ent (set_ent idx (Entry (mkname nm) (mkname ex) par c' 0 true false)
      (set_cell c' EOF s)) j = if idx =? j then Entry (mkname nm) (mkname ex) par c' 0 true false else ent s j).
    rewrite ent_set. done.
  - intros x. rewrite cell_set. bcase; [done|].
    change (cell (set_cell c' EOF s) x = cell s x). by apply cell_set_ne.
Qed.

(** With an extension the duplicate test does not fault. *)
Lemma create_total nm ex par s : fs_create_file nm (Some ex) par s <> None.
Proof.
  unfold fs_create_file, create_dup. destruct nm as [nm|]; [|discriminate].
  destruct (bad_idx par); [discriminate|].
  destruct (negb (used (ent s par)) || _); [discriminate|].
  destruct (scan_entries 0 _); [discriminate|].
  destruct (find_free_entry s <? 0); [discriminate|].
  destruct (alloc_cluster s) as [c s1]. by destruct (c =? 0).
Qed.

(** An entry placed on a fresh chain is an update of the map. *)
Lemma placed_rel s s1 s' A idx c cs n :
  fs_rel s A -> slot idx -> tree_ok s' ->
  (forall x, cell s1 x = cell s x \/ exists cs0, owns s idx cs0 /\ x ∈ cs0) ->
  (forall x, x ∈ c :: cs -> cell s1 x = 0) ->
  (forall x, x ∉ c :: cs -> cell s' x = cell s1 x) ->
  (forall j, j <> idx -> ent s' j = ent s j) ->
  (forall x, (forall e, e ∈ c :: cs -> ~ (get_cluster e <= x < get_cluster e + CLUSTER)) ->
     rb (fmem s') x = rb (fmem s) x) ->
  owns s' idx (c :: cs) -> holds s' idx n ->
  fs_rel s' (<[idx := n]> A).
Proof.
  intros Hrel Hidx Htr H1 H2 H3 H4 H5 Ho Hh. pose proof (rel_ok _ _ _ Hrel) as [_ Hco].
  assert (Hfr : frame s s' idx) by (by eapply place_frame).
  apply (rel_update disk s s' A idx (Some n)); try done.
  split; [done|]. eapply frame_chains; [exact Hco|exact Hfr|]. intros _ _ _. by eexists.
Qed.

Lemma create_rel s A nm ex par r c s' :
  fs_rel s A -> fs_create_file (Some nm) (Some ex) par s = Some (r, c, s') ->
  r < 0 /\ r <> -6 /\ s' = s \/
  dir_at A par /\ A !! r = None /\
  (forall i n, A !! i = Some n -> n_parent n = par -> n_dir n = false ->
     nname_is n nm && next_is n ex = false) /\
  fs_rel s' (<[r := new_file nm ex par []]> A).
Proof.
  intros Hrel E. destruct (create_cases _ _ _ _ _ _ _ _ Hrel E) as
    [?|(G1 & G2 & G3 & Gp & Gu & Gd & Hr & Hf & Hc & Hz & He & Hx & Hm)]; [by left|right].
  do 3 (split; [done|]). pose proof (rel_ok _ _ _ Hrel) as [Htr Hco].
  set (e := Entry _ _ _ _ _ _ _) in *. assert (Hre : ent s' r = e) by (rewrite He; by rw_test).
  apply (placed_rel s s s' A r c []); try done.
  - by apply (tree_add s s' r e).
  - by left.
  - intros x ->%list_elem_of_singleton. done.
  - intros x Hn. rewrite list_elem_of_singleton in Hn. rewrite Hx. by rw_test.
  - intros j Hj. rewrite He. by rw_test.
  - intros x _. by rewrite Hm.
  - split; [done|]. rewrite Hre. split; [done|]. exists []. split; [done|]. cbn [chain first_cluster e].
    rewrite Hx. by rw_test.
  - split; rewrite ?Hre; try done. split; [by rewrite Hre|by left].
Qed.

(** [write_data] on an entry just given the cluster [c]. *)
Lemma write_placed s s1 s3 A idx c e n data sz :
  fs_rel s A -> slot idx ->
  (forall x, cell s1 x = cell s x \/ exists cs0, owns s idx cs0 /\ x ∈ cs0) ->
  in_fat c -> cell s1 c = 0 ->
  (forall x, cell s3 x = if c =? x then EOF else cell s1 x) ->
  (forall j, ent s3 j = if idx =? j then e else ent s j) -> fmem s3 = fmem s ->
  first_cluster e = c -> used e = true ->
  name e = n_name n -> ext e = n_ext n -> parent e = n_parent n -> is_dir e = n_dir n ->
  (forall s', (forall j, ent s' j = if idx =? j then set_size (size (ent s' idx)) e else ent s j) ->
     tree_ok s') ->
  0 <= sz -> off_disk disk data sz ->
  exists r s' d, write_data disk idx data sz s3 = Some (r, s') /\ write_result (fmem s) data sz r d /\
    fs_rel s' (<[idx := with_data d n]> A) /\ only_in disk (disk + RAMDISK_SIZE) (fmem s) (fmem s').
Proof.
  intros Hrel Hidx H1 Hc Hz Hx He Hm Ef Eu En Ee Ep Ed Htr Hsz Hoff.
  assert (Hse : ent s3 idx = e) by (rewrite He; by rw_test).
  destruct (write_data_ok disk s3 idx c data sz) as (r & s' & cs & d & E & W1 & W2 & W3 & W4 & W5 & W6 & W7 & _);
    try done; [by rewrite Hse|by rewrite Hse|rewrite Hx; by rw_test|].
  rewrite Hm in W1, W7. rewrite Hse in W2.
  assert (Hidxe : ent s' idx = set_size (lenZ d) e) by (rewrite W2; by rw_test).
  exists r, s', d. split; [exact E|]. split; [done|].
  assert (Hcs : forall x, x ∈ cs -> cell s1 x = 0 /\ x <> c).
  { intros x Hin. pose proof (W6 _ Hin) as Hzx. rewrite Hx in Hzx. destruct (Z.eqb_spec c x); done. }
  split; [|intros x Hox; apply W7; intros f Hin;
    pose proof (get_cluster_bounds disk f (proj1 (owns_in _ _ _ _ W3 Hin))); lia].
  apply (placed_rel s s1 s' A idx c cs); try done.
  - apply Htr. intros j. rewrite Hidxe. cbn [size set_size]. rewrite W2. bcase; [done|].
    rewrite He. by rw_test.
  - intros x [->|Hin]%elem_of_cons; [done|]. by apply Hcs.
  - intros x Hn. rewrite W5 by done. rewrite Hx. apply not_elem_of_cons in Hn as [Hn _]. by rw_test.
  - intros j Hj. rewrite W2, He. by repeat rw_test.
  - split; rewrite ?Hidxe; done.
Qed.

Lemma write_rel s A nm ex par data sz :
  fs_rel s A -> 0 <= sz -> off_disk disk data sz ->
  exists r s' A', fs_write_file_in_dir disk nm (Some ex) par data sz s = Some (r, s') /\
    fstep (fmem s) (fmem s') A (OpWrite nm (Some ex) par data sz) r A' /\ fs_rel s' A' /\
    only_in disk (disk + RAMDISK_SIZE) (fmem s) (fmem s').
Proof.
  intros Hrel Hsz Hoff. pose proof (rel_ok _ _ _ Hrel) as [Htr Hco].
  assert (Herr : forall r, r < 0 -> r <> -6 -> exists r' s' A', Some (r, s) = Some (r', s') /\
    fstep (fmem s) (fmem s') A (OpWrite nm (Some ex) par data sz) r' A' /\ fs_rel s' A' /\
    only_in disk (disk + RAMDISK_SIZE) (fmem s) (fmem s')).
  { intros r Hr Hr6. exists r, s, A. split; [done|]. split; [by apply st_error|done]. }
  unfold fs_write_file_in_dir. destruct nm as [nm|]; [|by apply Herr].
  destruct (bad_idx par) eqn:E1; [by apply Herr|].
  destruct (negb (used (ent s par)) || _) eqn:E2; [by apply Herr|].
  destruct (parent_checks s A par Hrel E1 E2) as (Hp & Hpu & Hpd & Hdir).
  pose proof (find_ok s A nm (Some ex) par _ Hrel eq_refl) as Hfind.
  set (idx := fs_find_in_dir _ _ _ _) in *. destruct (idx <? 0) eqn:Ei.
  - destruct Hfind as [?|Hnone]; [congruence|].
    destruct (fs_create_file (Some nm) (Some ex) par s) as [[[cidx c] s3]|] eqn:Ec.
    2: { by apply create_total in Ec. }
    destruct (create_cases _ _ _ _ _ _ _ _ Hrel Ec) as
      [(Hc0 & _ & ->)|(G1 & G2 & G3 & Gp & Gu & Gd & Hr & Hf & Hc & Hz & He & Hx & Hm)].
    + rw_test. by apply Herr.
    + rewrite (proj2 (Z.ltb_ge cidx 0)) by (unfold slot in Hr; lia).
      set (e := Entry _ _ _ _ _ _ _) in *.
      destruct (write_placed s s s3 A cidx c e (new_file nm ex par []) data sz)
        as (r & s' & d & Ew & Hw & Hrel' & Honly); try done.
      * by left.
      * intros s' He'. by apply (tree_add s s' cidx (set_size (size (ent s' cidx)) e)).
      * exists r, s', (<[cidx := new_file nm ex par d]> A). split; [done|]. split; [|done].
        by apply st_write_new.
  - destruct Hfind as (Hidx & n & Hfinds & Hh). destruct Hh as [G1 G2 G3 G4 G5 G6].
    destruct (free_entry s idx Hco Hidx G1) as (F1 & F2 & F3 & F4).
    destruct (alloc_cluster (free_cluster_chain (first_cluster (ent s idx)) s)) as [c s2] eqn:Ea.
    destruct (alloc_ok _ _ _ Ea) as [(-> & -> & Hall)|(Hc & Hz & -> & _)].
    + destruct (Z.eq_dec (first_cluster (ent s idx)) 0) as [E0|Hne0].
      { rewrite E0. cbn [Z.eqb]. by apply Herr. }
      exfalso. destruct (co_owner _ Hco idx Hidx G1 ltac:(by right)) as [cs Ho].
      pose proof Ho as (_ & _ & r & Ecs & Hch). assert (Hin : first_cluster (ent s idx) ∈ cs) by (rewrite Ecs; by left).
      apply (Hall (first_cluster (ent s idx))); [by apply (owns_in _ _ _ _ Ho Hin)|].
      rewrite (F4 _ Ho). by rewrite decide_True.
    + rewrite (proj2 (Z.eqb_neq c 0)) by (unfold in_fat in Hc; lia).
      set (s1 := free_cluster_chain _ s) in *.
      assert (Hes : forall j, ent (set_cell c EOF s1) j = ent s j)
        by (intros j; unfold ent; cbn [entries set_cell]; by rewrite F1).
      rewrite Hes. set (e := set_first c (ent s idx)).
      destruct (write_placed s s1 (set_cell c EOF (set_ent idx e (set_cell c EOF s1))) A idx c e n data sz)
        as (r & s' & d & Ew & Hw & Hrel' & Honly); try done.
      * intros x. rewrite cell_set. bcase; [done|].
        change (cell (set_cell c EOF s1) x = cell s1 x). by apply cell_set_ne.
      * intros j. change (ent (set_ent idx e (set_cell c EOF s1)) j = if idx =? j then e else ent s j).
        by rewrite ent_set, Hes.
      * intros s' He'. apply (tree_same s s' Htr). intros i. rewrite He'. bcase; [by subst i|done].
      * exists r, s', (<[idx := with_data d n]> A). split; [exact Ew|]. split; [|done].
        by apply st_write.
Qed.

(** Memory outside the RAM disk does not matter. *)
Lemma mem_rel s s' A :
  fs_rel s A -> entries s' = entries s -> fat s' = fat s ->
  same_on disk (disk + RAMDISK_SIZE) (fmem s) (fmem s') -> fs_rel s' A.
Proof.
  intros Hrel He Hf Hm. pose proof (rel_ok _ _ _ Hrel) as [Htr Hco].
  assert (Hent : forall i, ent s' i = ent s i) by (intros i; unfold ent; by rewrite He).
  assert (Hfr : frame s s' (-1)).
  { split.
    - intros j _. apply Hent.
    - intros j cs c _ _ _. unfold cell. by rewrite Hf.
    - intros j cs c _ Ho Hc x Hx. apply Hm.
      destruct (get_cluster_bounds disk c (proj1 (owns_in _ _ _ _ Ho Hc))). lia.
    - intros cs c (Hs & _). unfold slot in Hs. lia. }
  split.
  - split; [apply (tree_same s s' Htr); intros i; by rewrite Hent|].
    eapply frame_chains; [exact Hco|exact Hfr|]. unfold slot. lia.
  - intros i Hi. eapply frame_holds; [exact Hfr|unfold slot in Hi; lia|]. by apply (rel_holds _ _ _ Hrel).
  - apply (rel_slot _ _ _ Hrel).
Qed.

Lemma fs_read_zero c buf s : fs_read disk c buf 0 s = Some (0, s).
Proof.
  unfold fs_read. destruct (_ || _); [done|]. unfold rw_fuel.
  change (Z.to_nat (0 / CLUSTER + 2)) with 2%nat. cbn [fs_read_loop]. by rewrite andb_false_r.
Qed.

(** Reading a stored content gives it back. *)
Lemma read_stored s i d buf :
  stored s i d -> off_disk disk buf (lenZ d) ->
  exists s', fs_read disk (first_cluster (ent s i)) buf (size (ent s i)) s = Some (lenZ d, s') /\
    entries s' = entries s /\ fat s' = fat s /\ rbs (fmem s') buf (length d) = d /\
    (forall x, ~ (buf <= x < buf + lenZ d) -> rb (fmem s') x = rb (fmem s) x).
Proof.
  intros [Hsz Hd] Hoff. rewrite Hsz. destruct Hd as [->|(cs & (_ & _ & r & -> & Hc) & Hl & Hb)].
  - exists s. split; [apply fs_read_zero|]. done.
  - destruct (fs_read_ok disk _ _ buf (lenZ d) s Hc) as (s' & E & H1 & H2 & H3 & H4);
      [unfold lenZ; lia|done|]. rewrite Z.min_l in * by done.
    exists s'. split; [exact E|]. split; [done|]. split; [done|]. split; [|done].
    apply rbs_of. intros k x Hk. rewrite <- (Hb _ _ Hk). apply H3.
    apply lookup_lt_Some in Hk. unfold lenZ. lia.
Qed.

Lemma read_rel s A nm ex par buf bufsize :
  fs_rel s A -> 0 <= bufsize -> off_disk disk buf bufsize ->
  exists r n s', fs_read_file_in_dir disk nm ex par buf bufsize s = Some (r, n, s') /\
    fstep (fmem s) (fmem s') A (OpRead nm ex par buf bufsize) r A /\ fs_rel s' A.
Proof.
  intros Hrel Hb Hoff. unfold fs_read_file_in_dir.
  assert (Herr : forall r, r < 0 -> r <> -6 -> exists r' n s', Some (r, 0, s) = Some (r', n, s') /\
    fstep (fmem s) (fmem s') A (OpRead nm ex par buf bufsize) r' A /\ fs_rel s' A).
  { intros r Hr Hr6. exists r, 0, s. split; [done|]. split; [by apply st_error|done]. }
  destruct nm as [nm|]; [|by apply Herr].
  pose proof (find_ok s A nm ex par _ Hrel eq_refl) as Hfind.
  set (idx := fs_find_in_dir _ _ _ _) in *. destruct (idx <? 0) eqn:Ei; [by apply Herr|].
  destruct Hfind as (Hidx & n & Hfinds & [G1 G2 G3 G4 G5 G6]).
  destruct (bufsize <? size (ent s idx)) eqn:Es; [by apply Herr|]. bsimp.
  pose proof (proj1 G6) as Hsz.
  destruct (read_stored s idx (n_data n) buf G6) as (s' & -> & H1 & H2 & H3 & H4).
  { unfold off_disk in *. lia. }
  exists 0, (lenZ (n_data n)), s'. split; [done|]. split.
  - eapply st_read; [done|lia|done].
  - apply (mem_rel s); try done. intros x Hx. symmetry. apply H4. unfold off_disk in Hoff. lia.
Qed.

(** ** Every operation is a step of the abstract file system *)

Lemma fs_sim s A op :
  fs_rel s A -> op_ok op ->
  exists r s' A', exec op s = Some (r, s') /\ fstep (fmem s) (fmem s') A op r A' /\ fs_rel s' A'.
Proof.
  intros Hrel Hop. destruct op as [nm par|i|nm ex par|i|nm ex par data sz|nm ex par buf bufsize|x v];
    cbn [exec op_ok] in *.
  - destruct (fs_mkdir nm par s) as [r s'] eqn:E.
    destruct (mkdir_rel _ _ _ _ _ _ Hrel E) as [(H1 & H2 & ->)|(nm0 & -> & H1 & H2 & H3 & H4)].
    + exists r, s, A. split; [done|]. split; [by apply st_error|done].
    + eexists r, s', _. split; [done|]. split; [by apply st_mkdir|done].
  - destruct (fs_rmdir i s) as [r s'] eqn:E.
    destruct (rmdir_rel _ _ _ _ _ Hrel E) as [(H1 & H2 & ->)|(-> & H1 & H2 & H3 & n & H4 & H5)].
    + exists r, s, A. split; [done|]. split; [by apply st_error|done].
    + eexists 0, s', _. split; [done|]. split; [by eapply st_rmdir|done].
  - destruct ex as [ex|]; [|done].
    destruct (fs_create_file nm (Some ex) par s) as [[[r c] s']|] eqn:E.
    2: { by apply create_total in E. }
    destruct nm as [nm|].
    2: { cbn in E. injection E as <- <- <-. exists (-1), s, A. split; [done|]. split; [by apply st_error|done]. }
    destruct (create_rel _ _ _ _ _ _ _ _ Hrel E) as [(H1 & H2 & ->)|(H1 & H2 & H3 & H4)].
    + exists r, s, A. split; [done|]. split; [by apply st_error|done].
    + eexists r, s', _. split; [done|]. split; [by apply st_create|done].
  - destruct (fs_remove_entry i s) as [r s'] eqn:E.
    destruct (remove_rel _ _ _ _ _ Hrel E) as [(H1 & H2 & ->)|(-> & H1 & H2 & n & H4 & H5)].
    + exists r, s, A. split; [done|]. split; [by apply st_error|done].
    + eexists 0, s', _. split; [done|]. split; [by eapply st_remove|done].
  - destruct Hop as (He & Hsz & Hoff). destruct ex as [ex|]; [|done].
    destruct (write_rel s A nm ex par data sz Hrel Hsz Hoff) as (r & s' & A' & H1 & H2 & H3 & _). by exists r, s', A'.
  - destruct Hop as [Hb Hoff]. destruct (read_rel s A nm ex par buf bufsize Hrel Hb Hoff) as (r & n & s' & -> & H1 & H2).
    by exists r, s', A.
  - exists 0. eexists _, A. split; [done|]. split; [constructor|].
    apply (mem_rel s); try done. intros y Hy. symmetry. apply rb_wb_ne. intros <-. by apply Hop.
Qed.
End Ops.
