(* ===== verification/FsProps.v ===== *)
(** * Properties of fat16/fs.c

    The theorems about the file system a caller relies on, derived from the
    simulation of FsOps, and the corner cases the code gets wrong. *)

From Stdlib Require Import ZArith Lia.
From S2P Require Import Prelude Memory LibC Fs FsChain FsTree FsOps.

(** ** Names *)

(** The string in a name field. *)
Definition field_str (f : list Z) : list Z := take (arr_len f) f.
Definition chars (nm : list Z) : Prop := Forall (fun c => c <> 0) nm.

Lemma nameeq_spec k f nm :
  (arr_len f < k)%nat -> chars nm -> nameeq k f nm = true <-> field_str f = nm.
Proof.
  unfold field_str. revert f nm. induction k as [|k IH]; intros f nm Hl Hnm; [lia|].
  cbn [nameeq]. destruct f as [|c f]; cbn [hd tl arr_len take] in *.
  - rewrite Z.eqb_refl. cbn [andb]. destruct Hnm as [|d nm Hd Hnm]; cbn [hd]; [by split|].
    repeat rw_test. cbn [negb]. by split.
  - destruct (Z.eqb_spec c 0) as [->|Hc]; cbn [andb].
    + cbn [take]. destruct Hnm as [|d nm Hd Hnm]; cbn [hd]; [by split|]. repeat rw_test. by split.
    + cbn [take]. destruct Hnm as [|d nm Hd Hnm]; cbn [hd tl].
      { repeat rw_test. by split. }
      destruct (Z.eqb_spec c d) as [->|Hne]; cbn [negb].
      * rewrite IH by (done || lia). split; congruence.
      * split; congruence.
Qed.

Lemma arr_len_app s r : chars s -> arr_len (s ++ 0 :: r) = length s.
Proof.
  induction 1 as [|c s Hc Hs IH]; [done|]. cbn [app arr_len length]. rewrite IH. by rw_test.
Qed.

(** A name field holds the first 63 characters, then NULs. *)
Lemma mkname_eq nm : mkname nm = take 63 nm ++ 0 :: replicate (63 - length nm) 0.
Proof.
  unfold mkname, updZ, strncpy_arr. cbn [Z.ltb Z.compare]. change (Z.to_nat 63) with 63%nat.
  rewrite insert_app_r_alt by (rewrite length_take, length_app, length_replicate; lia).
  rewrite length_take, length_app, length_replicate, Nat.min_l, Nat.sub_diag by lia.
  change (drop 63 (replicate 64 0)) with [0]. cbn [insert list_insert].
  rewrite take_app. rewrite <- app_assoc. f_equal.
  destruct (Nat.le_gt_cases 63 (length nm)).
  - replace (63 - length nm)%nat with O by lia. done.
  - rewrite take_replicate, Nat.min_l by lia.
    change [0] with (replicate 1 0). rewrite <- replicate_add. by rewrite Nat.add_comm.
Qed.

Lemma field_mkname nm : chars nm -> (arr_len (mkname nm) < 64)%nat /\ field_str (mkname nm) = take 63 nm.
Proof.
  intros Hc. assert (Ht : chars (take 63 nm)) by (by apply Forall_take).
  assert (Ha : arr_len (mkname nm) = length (take 63 nm)) by (rewrite mkname_eq; by apply arr_len_app).
  split; [rewrite Ha, length_take; lia|]. unfold field_str. rewrite Ha, mkname_eq. apply take_app_length.
Qed.

Lemma nameeq_mkname nm nm' :
  chars nm -> chars nm' -> nameeq 64 (mkname nm) nm' = true <-> take 63 nm = nm'.
Proof.
  intros H H'. destruct (field_mkname nm H) as [Hl <-]. by apply nameeq_spec.
Qed.

(** A name that fits the field. *)
Definition name_ok (nm : list Z) : Prop := chars nm /\ (length nm < 64)%nat.

Lemma nameeq_self nm : name_ok nm -> nameeq 64 (mkname nm) nm = true.
Proof. intros [H Hl]. apply nameeq_mkname; [done..|]. apply take_ge. lia. Qed.

(** ** Init and reachable states *)

Definition root_node : node := Node (mkname [47]) (replicate 64 0) (-1) true [].

Lemma fs_init_rel disk s : fs_rel disk (fs_init s) {[ 0 := root_node ]}.
Proof.
  set (e := Entry (mkname [47]) (replicate 64 0) (-1) 0 0 true true).
  assert (He : forall i, ent (fs_init s) i = if i =? 0 then e else entry0).
  { intros i. unfold ent, fs_init. cbn [entries]. bcase; [by subst|].
    unfold FS_ROOT_IDX. by rewrite lookup_singleton_ne by congruence. }
  assert (Hu : forall i, used (ent (fs_init s) i) = true -> i = 0).
  { intros i. rewrite He. bcase; done. }
  assert (Hno : forall i cs, ~ owns (fs_init s) i cs).
  { intros i cs (_ & Hui & r & -> & [Hin _]). apply Hu in Hui. subst i. rewrite He in Hin.
    cbn in Hin. unfold in_fat in Hin. lia. }
  split.
  - split; split.
    + by rewrite He.
    + exists (fun _ => O). intros i _ Hi0 Hui. by apply Hu in Hui.
    + intros i _ Hui Hd. apply Hu in Hui. subst i. rewrite He in Hd. cbn in Hd. by destruct Hd.
    + intros i j cs cs' c _ Ho. by apply Hno in Ho.
  - intros i _. destruct (Z.eq_dec i 0) as [->|Hi].
    + rewrite lookup_singleton_eq. cbn [holds_opt]. split; rewrite ?He; try done.
      split; [by rewrite He|by left].
    + rewrite lookup_singleton_ne by congruence. cbn [holds_opt]. rewrite He. by rw_test.
  - intros i n Hn. apply lookup_singleton_Some in Hn as [<- _]. unfold slot. lia.
Qed.

(** The states a run of the file system reaches: calls of a correct caller,
    and between them whatever the rest of the kernel writes outside the disk.
    A step is the code's own; the invariant is derived along the run. *)
Inductive freach (disk : Z) : fs -> Prop :=
  | fr_init s : freach disk (fs_init s)
  | fr_op s op r s' : freach disk s -> op_ok disk op -> exec disk op s = Some (r, s') -> freach disk s'
  | fr_other s m : freach disk s -> same_on disk (disk + RAMDISK_SIZE) (fmem s) m -> freach disk (set_fmem m s).

Lemma freach_rel disk s : freach disk s -> exists A, fs_rel disk s A.
Proof.
  induction 1 as [s|s op r s' _ [A IH] Hop E|s m _ [A IH] Hm].
  - exists {[ 0 := root_node ]}. apply fs_init_rel.
  - destruct (fs_sim disk s A op IH Hop) as (r2 & s2 & A2 & E2 & _ & Hrel).
    rewrite E in E2. injection E2 as <- <-. by exists A2.
  - exists A. by apply (mem_rel disk s).
Qed.

Lemma finds_fun A nm ex par i n i' n' :
  finds A nm ex par i n -> finds A nm ex par i' n' -> i = i' /\ n = n'.
Proof.
  intros (H1 & H2 & H3) (H1' & H2' & H3'). assert (i = i') as <-.
  { destruct (Z.lt_trichotomy i i') as [Hlt|[?|Hlt]]; [|done|].
    - rewrite (H3' _ _ Hlt H1) in H2. done.
    - rewrite (H3 _ _ Hlt H1') in H2'. done. }
  split; [done|congruence].
Qed.

(** After a write the file is found, with its new data. *)
Lemma write_found m m' A nm ex par data sz r A' :
  name_ok nm -> name_ok ex -> fstep m m' A (OpWrite (Some nm) (Some ex) par data sz) r A' -> 0 <= r ->
  exists i n, finds A' nm (Some ex) par i n /\ n_data n = rbs m data (Z.to_nat sz).
Proof.
  intros Hnm Hex Hst Hr. inversion Hst; subst; try lia.
  - match goal with H : finds A _ _ _ _ _ |- _ => destruct H as (F1 & F2 & F3) end.
    match goal with H : write_result _ _ _ _ _ |- _ => destruct H as [[-> ->]|[-> _]]; [|lia] end.
    exists idx, (with_data (rbs m data (Z.to_nat sz)) n). split; [|reflexivity].
    split; [apply lookup_insert_eq|]. split; [exact F2|].
    intros j n' Hj Hn'. rewrite lookup_insert_ne in Hn' by lia. by eapply F3.
  - match goal with H : finds_none A _ _ _ |- _ => rename H into F end.
    match goal with H : write_result _ _ _ _ _ |- _ => destruct H as [[-> ->]|[-> _]]; [|lia] end.
    exists idx, (new_file nm ex par (rbs m data (Z.to_nat sz))). split; [|reflexivity].
    split; [apply lookup_insert_eq|]. split.
    + unfold nfound, new_file, nname_is, next_is. cbn [n_parent n_dir n_name n_ext default].
      by rewrite Z.eqb_refl, !nameeq_self.
    + intros j n' Hj Hn'. rewrite lookup_insert_ne in Hn' by lia. by eapply F.
Qed.

(** ** Listing *)

Lemma get_all_loop_ok k i count max par s :
  get_all_loop k i count max par s =
  take (Z.to_nat (max - count))
    (listed <$> filter (fun e => used e && (parent e =? par) = true) (ent s <$> seqZ i (Z.of_nat k))).
Proof.
  revert i count. induction k as [|k IH]; intros i count; cbn [get_all_loop].
  - rewrite seqZ_nil by lia. rewrite fmap_nil, filter_nil, fmap_nil. by rewrite take_nil.
  - rewrite seqZ_cons by lia. rewrite Nat2Z.inj_succ, Z.pred_succ, <- Z.add_1_r. rewrite fmap_cons.
    destruct (Z.ltb_spec count max) as [Hlt|Hge].
    + rewrite !IH. destruct (used (ent s i) && (parent (ent s i) =? par)) eqn:E.
      * rewrite filter_cons_True by done. rewrite fmap_cons.
        replace (Z.to_nat (max - count)) with (S (Z.to_nat (max - (count + 1)))) by lia. done.
      * rewrite filter_cons_False by congruence. done.
    + replace (Z.to_nat (max - count)) with O by lia. done.
Qed.

Lemma listed_name e :
  is_dir e = true -> length (name e) = 64%nat -> (arr_len (name e) < 63)%nat ->
  field_str (name (listed e)) = field_str (name e) ++ [47].
Proof.
  intros Hd Hl Hn. unfold listed. rewrite Hd.
  rewrite (proj2 (Z.ltb_lt _ _)) by (unfold FS_NAME_MAX; lia). cbn [name].
  set (f := name e) in *. set (n := arr_len f) in *.
  assert (Hch : chars (take n f)).
  { subst n. clear. induction f as [|c f IH]; [constructor|]. cbn [arr_len].
    destruct (Z.eqb_spec c 0); [constructor|]. by constructor. }
  unfold updZ. do 2 rw_test. rewrite Nat2Z.id. replace (Z.to_nat (Z.of_nat n + 1)) with (S n) by lia.
  assert (Ef : <[S n:=0]> (<[n:=47]> f) = (take n f ++ [47]) ++ 0 :: drop (S (S n)) f).
  { apply list_eq. intros i. rewrite <- app_assoc. cbn [app].
    rewrite !list_lookup_insert, length_insert. destruct (Nat.lt_trichotomy i n) as [Hi|[->|Hi]].
    - rewrite lookup_app_l by (rewrite length_take; lia). rewrite lookup_take.
      repeat case_decide; try lia. done.
    - rewrite list_lookup_middle by (rewrite length_take; lia). repeat case_decide; try lia. done.
    - rewrite lookup_app_r by (rewrite length_take; lia). rewrite length_take, Nat.min_l by lia.
      destruct (Nat.eq_dec i (S n)) as [->|].
      + replace (S n - n)%nat with 1%nat by lia. cbn [lookup list_lookup]. repeat case_decide; try lia. done.
      + replace (i - n)%nat with (S (S (i - S (S n)))) by lia.
        change ((47 :: 0 :: drop (S (S n)) f) !! S (S (i - S (S n))))
          with (drop (S (S n)) f !! (i - S (S n))%nat).
        rewrite lookup_drop. replace (S (S n) + (i - S (S n)))%nat with i by lia.
        repeat case_decide; try lia. done. }
  unfold field_str at 1. rewrite Ef. rewrite arr_len_app.
  - by rewrite take_app_length.
  - apply Forall_app. split; [done|]. by repeat constructor.
Qed.

(** ** Termination *)

Lemma fs_read_loop_total disk fuel cur rd buf size s :
  0 <= rd -> fs_fuel_ok fuel (size - rd) -> (0 < fuel)%nat ->
  exists r s', fs_read_loop disk fuel cur rd buf size s = Some (r, s') /\ rd <= r <= Z.max rd size.
Proof.
  revert cur rd s. induction fuel as [|fuel IH]; intros cur rd s Hrd [Hf _] Hf0; [lia|].
  cbn [fs_read_loop].
  destruct (negb (cur =? 0) && (cur <? FAT_ENTRIES) && (rd <? size)) eqn:E.
  2: { eexists _, _. split; [done|]. lia. }
  apply andb_true_iff in E as [_ E]. bsimp. rewrite clamp_min. change CLUSTER with 512 in *.
  destruct (cell _ cur =? EOF); [eexists _, _; split; [done|lia]|].
  edestruct (IH (cell (set_fmem (memcpy (fmem s) (buf + rd) (get_cluster disk cur)
    (Z.min (size - rd) 512)) s) cur) (rd + Z.min (size - rd) 512)) as (r & s' & -> & Hr).
  - lia.
  - unfold fs_fuel_ok. change CLUSTER with 512. lia.
  - lia.
  - eexists _, _. split; [done|]. lia.
Qed.

(** More turns than needed change nothing. *)
Lemma free_loop_more fuel fuel' cur s s' :
  free_loop fuel cur s = Some s' -> (fuel <= fuel')%nat -> free_loop fuel' cur s = Some s'.
Proof.
  revert fuel' cur s. induction fuel as [|fuel IH]; intros [|fuel'] cur s E Hf; [done|done|lia|].
  cbn [free_loop] in *. destruct (_ && _); [|done]. destruct (_ =? EOF); [done|]. apply IH; [done|lia].
Qed.

(** ** Properties *)

(** The file system of the witnesses: the RAM disk at 4096, "hello" at 100. *)
Definition hello : list Z := [104; 101; 108; 108; 111].
Definition f0 : fs := fs_init (Fs ∅ ∅ (wbs ∅ 100 hello)).
Lemma f0_rel : fs_rel 4096 f0 {[ 0 := root_node ]}.
Proof. apply fs_init_rel. Qed.

(** C6. The code implements the abstract file system: from any state related
    to an abstract one, every call a correct caller makes returns (no loop
    runs on, no FAT access is out of bounds), its result and the new abstract
    state are a step of [fstep] (errors change nothing, a creation adds one
    node, a removal removes one, a write replaces one node's data by what the
    caller's buffer held, a read delivers the data), and the states stay
    related: the tree stays a tree and the cluster chains stay disjoint. *)
Theorem fs_refines disk s A op :
  fs_rel disk s A -> op_ok disk op ->
  exists r s' A', exec disk op s = Some (r, s') /\ fstep (fmem s) (fmem s') A op r A' /\
    fs_rel disk s' A'.
Proof. apply fs_sim. Qed.

Lemma fs_refines_witness :
  exists r s' A', exec 4096 (OpWrite (Some [97]) (Some []) 0 100 5) f0 = Some (r, s') /\
    fstep (fmem f0) (fmem s') {[ 0 := root_node ]} (OpWrite (Some [97]) (Some []) 0 100 5) r A' /\
    fs_rel 4096 s' A'.
Proof.
  apply (fs_refines 4096 f0 {[ 0 := root_node ]}).
  - apply f0_rel.
  - split; [done|]. split; [lia|]. left. lia.
Defined.

(** C22. In every reachable state - after any calls of a correct caller since
    [fs_init], and any writes outside the disk between them - the tree is
    rooted and acyclic, every file has a cluster chain, no cluster belongs to
    two chains, every cluster of a chain lies on the disk, and every further
    call returns. *)
Theorem fs_reachable_ok disk s :
  freach disk s ->
  fs_ok s /\
  (forall i j cs cs', i <> j -> owns s i cs -> owns s j cs' -> forall c, c ∈ cs -> c ∉ cs') /\
  (forall i cs c, owns s i cs -> c ∈ cs ->
     disk <= get_cluster disk c /\ get_cluster disk c + CLUSTER <= disk + RAMDISK_SIZE) /\
  (forall op, op_ok disk op -> is_Some (exec disk op s)).
Proof.
  intros [A Hrel]%freach_rel. pose proof (rel_ok _ _ _ Hrel) as Hok.
  split; [done|]. split; [|split].
  - intros i j cs cs' Hij Hi Hj c Hc. by eapply (co_disjoint _ (proj2 Hok) i j).
  - intros i cs c Ho Hc. apply get_cluster_bounds. by apply (owns_in _ _ _ _ Ho Hc).
  - intros op Hop. destruct (fs_sim _ _ _ _ Hrel Hop) as (r & s' & A' & -> & _). by eexists.
Qed.

(** A directory, a file in it, and the file's buffer changed afterwards. *)
Definition fd : fs := (fs_mkdir (Some [100]) 0 f0).2.
Definition fdw : Z * fs := default (0, f0) (fs_write_file_in_dir 4096 (Some [97]) (Some [98]) 1 100 5 fd).
Lemma fs_reachable_ok_witness :
  fs_ok (set_fmem (wb (fmem fdw.2) 100 0) fdw.2) /\
  is_Some (exec 4096 (OpRemove 2) (set_fmem (wb (fmem fdw.2) 100 0) fdw.2)).
Proof.
  assert (H1 : freach 4096 fd).
  { apply (fr_op _ f0 (OpMkdir (Some [100]) 0) 1); [apply fr_init|done|by vm_compute]. }
  assert (H2 : freach 4096 fdw.2).
  { apply (fr_op _ fd (OpWrite (Some [97]) (Some [98]) 1 100 5) 0); [exact H1| |by vm_compute].
    split; [done|]. split; [lia|]. left. lia. }
  destruct (fs_reachable_ok 4096 (set_fmem (wb (fmem fdw.2) 100 0) fdw.2)) as (H3 & _ & _ & H4).
  - apply fr_other; [exact H2|]. intros x Hx. symmetry. apply rb_wb_ne. lia.
  - split; [exact H3|]. by apply H4.
Defined.

(** C23. Round trip: after [fs_write_file_in_dir] reports success,
    [fs_read_file_in_dir] with the same name, extension and directory returns
    the bytes written and their number, for names that fit the name fields,
    whether the file existed or not and whatever its size. *)
Theorem fs_write_read disk s A nm ex par data sz s1 buf bufsize :
  fs_rel disk s A -> name_ok nm -> name_ok ex -> 0 <= sz -> off_disk disk data sz ->
  fs_write_file_in_dir disk (Some nm) (Some ex) par data sz s = Some (0, s1) ->
  sz <= bufsize -> off_disk disk buf bufsize ->
  exists s2, fs_read_file_in_dir disk (Some nm) (Some ex) par buf bufsize s1 = Some (0, sz, s2) /\
    rbs (fmem s2) buf (Z.to_nat sz) = rbs (fmem s) data (Z.to_nat sz).
Proof.
  intros Hrel Hnm Hex Hsz Hoff E Hb Hoff2.
  destruct (write_rel disk s A (Some nm) ex par data sz Hrel Hsz Hoff) as (r & s' & A' & E' & Hst & Hrel' & _).
  rewrite E in E'. injection E' as <- <-.
  destruct (write_found _ _ _ _ _ _ _ _ _ _ Hnm Hex Hst ltac:(lia)) as (i & n & Hf & Hd).
  assert (Hpar : bad_idx par = false).
  { revert E. unfold fs_write_file_in_dir. by destruct (bad_idx par). }
  pose proof (find_ok disk s1 A' nm (Some ex) par _ Hrel' eq_refl) as Hfind.
  unfold fs_read_file_in_dir. set (idx := fs_find_in_dir _ _ _ _) in *. destruct (idx <? 0) eqn:Ei.
  { destruct Hfind as [?|Hnone]; [congruence|]. destruct Hf as (F1 & F2 & _).
    by rewrite (Hnone _ _ F1) in F2. }
  destruct Hfind as (Hidx & n' & Hf' & Hh). destruct (finds_fun _ _ _ _ _ _ _ _ Hf Hf') as [<- <-].
  pose proof (ho_data _ _ _ _ Hh) as Hst'. rewrite Hd in Hst'. pose proof (proj1 Hst') as Hs.
  unfold lenZ in Hs. rewrite length_rbs in Hs. rewrite (proj2 (Z.ltb_ge _ _)) by lia.
  assert (Hl : lenZ (rbs (fmem s) data (Z.to_nat sz)) = sz) by (unfold lenZ; rewrite length_rbs; lia).
  destruct (read_stored disk s1 i _ buf Hst') as (s2 & -> & _ & _ & Hr & _).
  { unfold off_disk in *. lia. }
  exists s2. rewrite Hl. split; [done|]. by rewrite length_rbs in Hr.
Qed.

Lemma fs_write_read_witness :
  exists s1 s2, fs_write_file_in_dir 4096 (Some [97]) (Some [98]) 0 100 5 f0 = Some (0, s1) /\
    fs_read_file_in_dir 4096 (Some [97]) (Some [98]) 0 200 10 s1 = Some (0, 5, s2) /\
    rbs (fmem s2) 200 5 = hello.
Proof.
  destruct (fs_write_file_in_dir 4096 (Some [97]) (Some [98]) 0 100 5 f0) as [[r s1]|] eqn:E.
  2: { exfalso. vm_compute in E. discriminate. }
  assert (r = 0) as -> by (vm_compute in E; congruence).
  exists s1.
  destruct (fs_write_read 4096 f0 {[ 0 := root_node ]} [97] [98] 0 100 5 s1 200 10) as (s2 & E2 & H).
  - apply f0_rel.
  - split; [by repeat constructor|simpl; lia].
  - split; [by repeat constructor|simpl; lia].
  - lia.
  - left. lia.
  - exact E.
  - lia.
  - left. lia.
  - exists s2. split; [done|]. split; [exact E2|exact H].
Defined.

(** C32. Removing a file gives back exactly its clusters: they are free
    afterwards, every other FAT cell is as before, and the entry is unused. *)
Theorem fs_remove_reclaims s idx cs :
  fs_ok s -> idx <> 0 -> is_dir (ent s idx) = false -> owns s idx cs ->
  exists s', fs_remove_entry idx s = (0, s') /\ used (ent s' idx) = false /\
    (forall c, c ∈ cs -> cell s' c = 0) /\ (forall c, c ∉ cs -> cell s' c = cell s c) /\
    fmem s' = fmem s.
Proof.
  intros [_ Hco] H0 Hd Ho. pose proof Ho as (Hidx & Hu & _).
  destruct (free_entry s idx Hco Hidx Hu) as (F1 & F2 & _ & F4).
  unfold fs_remove_entry. rewrite (proj2 (orb_false_iff _ _)).
  2: { unfold slot, FS_MAX_ENTRIES in *. split; [apply Z.leb_gt; lia|apply Z.leb_gt; lia]. }
  rewrite Hu, Hd. cbn [negb]. set (s1 := free_cluster_chain _ s) in *.
  eexists. split; [reflexivity|]. split; [by rewrite ent_set_eq|]. split; [|split; [|exact F2]].
  - intros c Hc. change (cell s1 c = 0). rewrite (F4 _ Ho). by rewrite decide_True.
  - intros c Hc. change (cell s1 c = cell s c). rewrite (F4 _ Ho). by rewrite decide_False.
Qed.

(** A file of two clusters, for the witness. *)
Definition f1 : fs :=
  Fs {[ 0 := Entry (mkname [47]) (replicate 64 0) (-1) 0 0 true true;
        1 := Entry (mkname [97]) (replicate 64 0) 0 2 600 true false ]}
     {[ 2 := 3; 3 := EOF ]} ∅.
Lemma f1_ok : fs_ok f1 /\ owns f1 1 [2; 3].
Proof.
  set (e0 := Entry (mkname [47]) (replicate 64 0) (-1) 0 0 true true).
  set (e1 := Entry (mkname [97]) (replicate 64 0) 0 2 600 true false).
  assert (He : forall i, ent f1 i = if i =? 0 then e0 else if i =? 1 then e1 else entry0).
  { intros i. unfold ent, f1. cbn [entries]. repeat bcase; subst; try done.
    by rewrite lookup_insert_ne, lookup_singleton_ne by congruence. }
  assert (Ho : owns f1 1 [2; 3]).
  { split; [unfold slot; lia|]. rewrite He. split; [done|]. exists [3]. split; [done|].
    cbn [chain]. repeat split; done || (unfold in_fat; cbn; lia). }
  assert (Honly : forall i cs, owns f1 i cs -> i = 1).
  { intros i cs (_ & Hu & r & -> & [Hin _]). rewrite He in Hu, Hin. revert Hu Hin.
    repeat bcase; try done. cbn. unfold in_fat. lia. }
  split; [|done]. split; split.
  - by rewrite He.
  - exists Z.to_nat. intros i Hi Hi0. rewrite He. rw_test. destruct (Z.eqb_spec i 1) as [->|]; [|done].
    intros _. cbn zeta. cbn [parent e1]. rewrite He. repeat split; try done; unfold slot; lia.
  - intros i Hi Hu Hd. rewrite He in Hu, Hd. revert Hu Hd.
    destruct (Z.eqb_spec i 0); [by intros _ [?|?]|].
    destruct (Z.eqb_spec i 1) as [->|]; [|done]. intros _ _. by exists [2; 3].
  - intros i j cs cs' c Hij H1%Honly H2%Honly. congruence.
Qed.

Lemma fs_remove_reclaims_witness :
  exists s', fs_remove_entry 1 f1 = (0, s') /\ cell s' 2 = 0 /\ cell s' 3 = 0.
Proof.
  destruct (fs_remove_reclaims f1 1 [2; 3]) as (s' & E & _ & H & _).
  - apply f1_ok.
  - done.
  - done.
  - apply f1_ok.
  - exists s'. split; [exact E|]. split; apply H; [by left|right; by left].
Defined.

(** Rewriting an existing file never fails for want of a start cluster:
    its own old chain was just freed.  (The -5 path, which would leave the
    entry pointing at freed clusters, is reachable for directories only, and
    then changes nothing.) *)
Theorem fs_rewrite_has_cluster disk s A nm ex par data sz r s' :
  fs_rel disk s A -> 0 <= sz -> off_disk disk data sz ->
  fs_write_file_in_dir disk (Some nm) (Some ex) par data sz s = Some (r, s') ->
  0 <= fs_find_in_dir (Some nm) (Some ex) par s ->
  first_cluster (ent s (fs_find_in_dir (Some nm) (Some ex) par s)) <> 0 ->
  r <> -5.
Proof.
  intros Hrel Hsz Hoff E Hi Hf Hr. subst r. revert E. unfold fs_write_file_in_dir.
  pose proof (find_ok disk s A nm (Some ex) par _ Hrel eq_refl) as Hfind.
  set (idx := fs_find_in_dir _ _ _ _) in *. rewrite (proj2 (Z.ltb_ge idx 0)) in Hfind |- * by done.
  destruct Hfind as (Hidx & n & _ & [G1 _ _ _ _ _]).
  destruct (bad_idx par); [congruence|]. destruct (_ || _); [congruence|].
  pose proof (rel_ok _ _ _ Hrel) as [_ Hco].
  destruct (free_entry s idx Hco Hidx G1) as (_ & _ & _ & F4).
  destruct (co_owner _ Hco idx Hidx G1 ltac:(by right)) as [cs Ho].
  assert (Hin : first_cluster (ent s idx) ∈ cs) by (destruct Ho as (_ & _ & r & -> & _); by left).
  destruct (alloc_cluster _) as [c s2] eqn:Ea.
  destruct (alloc_ok _ _ _ Ea) as [(_ & _ & Hall)|(Hc & _ & _ & _)].
  - exfalso. apply (Hall (first_cluster (ent s idx))); [by apply (owns_in _ _ _ _ Ho Hin)|].
    rewrite (F4 _ Ho). by rewrite decide_True.
  - rewrite (proj2 (Z.eqb_neq c 0)) by (unfold in_fat in Hc; lia). unfold write_data.
    destruct (sz =? 0); [congruence|]. destruct (fs_write _ _ _ _ _) as [[w s3]|]; [|congruence].
    destruct (negb _); congruence.
Qed.

(** The state after writing "hello" to a.b in the root. *)
Definition f2 : fs :=
  match exec 4096 (OpWrite (Some [97]) (Some [98]) 0 100 5) f0 with Some (_, s) => s | None => f0 end.
Lemma f2_rel : exists A, fs_rel 4096 f2 A.
Proof.
  destruct (fs_sim 4096 f0 _ (OpWrite (Some [97]) (Some [98]) 0 100 5) f0_rel) as (r & s' & A' & E & _ & H).
  - split; [done|]. split; [lia|]. left. lia.
  - exists A'. unfold f2. by rewrite E.
Qed.

Lemma fs_rewrite_has_cluster_witness :
  exists r s', fs_write_file_in_dir 4096 (Some [97]) (Some [98]) 0 101 3 f2 = Some (r, s') /\ r <> -5.
Proof.
  destruct f2_rel as [A HA].
  destruct (write_rel 4096 f2 A (Some [97]) [98] 0 101 3 HA) as (r & s' & A' & E & _).
  - lia.
  - left. lia.
  - exists r, s'. split; [exact E|].
    apply (fs_rewrite_has_cluster 4096 f2 A [97] [98] 0 101 3 r s' HA).
    + lia.
    + left. lia.
    + exact E.
    + vm_compute. discriminate.
    + vm_compute. discriminate.
Defined.

Ltac by_code := solve [lia | done | tauto | exfalso; tauto | unfold slot in *; lia].
Ltac by_codes := repeat split; intros; by_code.

(** C33. What each result of [fs_mkdir] says, on any state that satisfies the
    invariant (fs.h documents -1 as the only error, the code has four): -1 a NULL name or an index outside the table, -2
    no directory at that index, -3 a subdirectory of that name exists, -4 all
    512 entries are in use; otherwise the result is the lowest unused index. *)
Theorem fs_mkdir_codes disk s A nm par :
  fs_rel disk s A ->
  let r := (fs_mkdir (Some nm) par s).1 in
  let dup := exists i n, A !! i = Some n /\ n_parent n = par /\ n_dir n = true /\ nname_is n nm = true in
  let full := forall i, slot i -> is_Some (A !! i) in
  (fs_mkdir None par s = (-1, s)) /\
  (r = -1 <-> ~ slot par) /\
  (r = -2 <-> slot par /\ ~ dir_at A par) /\
  (r = -3 <-> dir_at A par /\ dup) /\
  (r = -4 <-> dir_at A par /\ ~ dup /\ full) /\
  (0 <= r <-> dir_at A par /\ ~ dup /\ ~ full) /\
  (0 <= r -> A !! r = None /\ forall i, 0 < i < r -> is_Some (A !! i)).
Proof.
  intros Hrel r dup full. split; [done|].
  assert (Hslotd : dir_at A par -> slot par).
  { intros (n & Hn & _). by apply (rel_slot _ _ _ Hrel) in Hn. }
  subst r. unfold fs_mkdir. destruct (bad_idx par) eqn:Eb.
  { assert (Hn : ~ slot par) by (rewrite <- bad_idx_slot, Eb; done). cbn [fst].
    by_codes. }
  assert (Hs : slot par) by (by apply bad_idx_slot).
  destruct (negb (used (ent s par)) || negb (is_dir (ent s par))) eqn:Ed.
  { assert (Hn : ~ dir_at A par).
    { intros (n & Hn & Hd). destruct (rel_get _ _ _ _ _ Hrel Hn) as [_ [G1 _ _ _ G5 _]].
      rewrite G1, G5, Hd in Ed. done. }
    cbn [fst]. by_codes. }
  destruct (parent_checks disk s A par Hrel Eb Ed) as (_ & _ & _ & Hdir).
  destruct (scan_entries 0 _) as [j|] eqn:Es.
  { unfold scan_entries in Es. apply scan_some in Es as (Hj & Hp & _). unfold FS_MAX_ENTRIES in Hj.
    rewrite !andb_true_iff in Hp. destruct Hp as [[[Hu Hpar] Hd] Hnm].
    assert (Hdup : dup).
    { destruct (rel_used _ _ _ _ Hrel (ltac:(unfold slot; lia) : slot j) Hu) as (n & Hn & [_ G2 _ G4 G5 _]).
      exists j, n. unfold nname_is. rewrite <- G2, <- G4, <- G5. split; [done|]. split; [lia|]. done. }
    cbn [fst]. by_codes. }
  assert (Hdup : ~ dup).
  { intros (i & n & Hn & Hpar & Hd & Hnm). destruct (rel_get _ _ _ _ _ Hrel Hn) as [Hi [G1 G2 _ G4 G5 _]].
    unfold scan_entries in Es. rewrite scan_none in Es. specialize (Es i).
    unfold slot, FS_MAX_ENTRIES in *. specialize (Es ltac:(lia)).
    unfold name_is in Es. rewrite G1, G2, G4, G5, Hpar, Hd, Z.eqb_refl in Es. unfold nname_is in Hnm.
    change (Z.to_nat FS_NAME_MAX) with 64%nat in Es. rewrite Hnm in Es. done. }
  assert (Hroot : is_Some (A !! 0)).
  { destruct (tr_root _ (proj1 (rel_ok _ _ _ Hrel))) as (Hu & _).
    destruct (rel_used disk s A 0 Hrel) as (n & Hn & _); [unfold slot; lia|done|by eexists]. }
  assert (Hused : forall i, slot i -> used (ent s i) = true -> is_Some (A !! i)).
  { intros i Hi Hu. destruct (rel_used _ _ _ _ Hrel Hi Hu) as (n & Hn & _). by eexists. }
  unfold find_free_entry, scan_entries. destruct (scan _ 1 _) as [i|] eqn:Ef.
  - apply scan_some in Ef as (Hi & Hu & Hlt). unfold FS_MAX_ENTRIES in Hi. apply negb_true_iff in Hu.
    rewrite (proj2 (Z.ltb_ge i 0)) by lia. cbn [fst].
    assert (Hnone : A !! i = None) by (by eapply rel_free).
    assert (Hfull : ~ full).
    { intros Hf. destruct (Hf i) as [n Hn]; [unfold slot; lia|]. congruence. }
    repeat split; intros; try by_code.
    apply Hused; [unfold slot; lia|]. apply negb_false_iff. by apply Hlt; lia.
  - rewrite scan_none in Ef. cbn [fst].
    assert (Hfull : full).
    { intros i Hi. destruct (Z.eq_dec i 0) as [->|Hi0]; [done|]. apply Hused; [done|].
      apply negb_false_iff. apply Ef. unfold slot, FS_MAX_ENTRIES in *. lia. }
    by_codes.
Qed.

Lemma fs_mkdir_codes_witness :
  (fs_mkdir (Some [98]) 0 f0).1 = -2 <-> slot 0 /\ ~ dir_at {[ 0 := root_node ]} 0.
Proof. apply (fs_mkdir_codes 4096 f0 {[ 0 := root_node ]} [98] 0 f0_rel). Defined.

(** [fs_get_all_in_dir] stores the used entries of the directory in index
    order, up to the caller's limit, changed in one way only: a directory's
    name gets a slash, unless it fills the name field (63 characters). *)
Theorem fs_get_all_lists max par s :
  slot par ->
  fs_get_all_in_dir max par s =
    take (Z.to_nat max)
      (listed <$> filter (fun e => used e && (parent e =? par) = true) (ent s <$> seqZ 0 512)) /\
  forall e, length (name e) = 64%nat -> (arr_len (name e) < 64)%nat ->
    ext (listed e) = ext e /\ size (listed e) = size e /\ is_dir (listed e) = is_dir e /\
    first_cluster (listed e) = first_cluster e /\
    field_str (name (listed e)) =
      if is_dir e && (arr_len (name e) <? 63)%nat then field_str (name e) ++ [47] else field_str (name e).
Proof.
  intros Hp. split.
  - unfold fs_get_all_in_dir. rewrite (proj2 (bad_idx_slot par) Hp). rewrite get_all_loop_ok.
    by rewrite Z.sub_0_r.
  - intros e Hl Ha. destruct (is_dir e) eqn:Hd; cbn [andb].
    2: { unfold listed. by rewrite Hd. }
    destruct (Nat.ltb_spec (arr_len (name e)) 63) as [Hlt|Hge].
    + rewrite listed_name by done. unfold listed. rewrite Hd. destruct (_ <? _); done.
    + unfold listed. rewrite Hd, (proj2 (Z.ltb_ge _ _)) by (unfold FS_NAME_MAX; lia). done.
Qed.

Lemma fs_get_all_lists_witness :
  fs_get_all_in_dir 5 0 f1 = [Entry (mkname [97]) (replicate 64 0) 0 2 600 true false].
Proof.
  rewrite (proj1 (fs_get_all_lists 5 0 f1 ltac:(unfold slot; lia))). vm_compute. reflexivity.
Defined.

(** C35. The chain walks end on any FAT contents, even a cyclic chain: the
    loop of [free_cluster_chain] within as many turns as there are non-zero
    cells, whatever more fuel it has (so its own, one more than there are
    cells, is never exhausted), and [fs_read] after at most [size] bytes. *)
Theorem fs_walks_end disk s cur first buf sz :
  0 <= cur -> (forall x, 0 <= cell s x) -> 0 <= sz ->
  let turns := S (nonzero (Z.to_nat FAT_ENTRIES) (cell s)) in
  (exists s', (forall fuel, (turns <= fuel)%nat -> free_loop fuel cur s = Some s') /\
     (turns <= free_fuel)%nat /\ (2 <= cur < FAT_ENTRIES -> free_cluster_chain cur s = s')) /\
  (exists r s', fs_read disk first buf sz s = Some (r, s') /\ 0 <= r <= sz).
Proof.
  intros Hc Hpos Hsz turns. split.
  - destruct (free_loop_total turns cur s) as [s' E]; [done|done|lia|]. exists s'.
    assert (Hall : forall fuel, (turns <= fuel)%nat -> free_loop fuel cur s = Some s').
    { intros fuel Hf. by apply (free_loop_more turns). }
    assert (Hff : (turns <= free_fuel)%nat).
    { subst turns. pose proof (nonzero_le (Z.to_nat FAT_ENTRIES) (cell s)). unfold free_fuel.
      unfold FAT_ENTRIES, BYTES_PER_SECTOR, SECTORS_PER_FAT in *. lia. }
    split; [done|]. split; [done|]. intros Hr. unfold free_cluster_chain. rewrite (Hall free_fuel Hff).
    by do 2 rw_test.
  - unfold fs_read. destruct (_ || _); [exists 0, s; split; [done|lia]|].
    destruct (fs_read_loop_total disk (rw_fuel sz) first 0 buf sz s) as (r & s' & -> & Hr).
    + lia.
    + rewrite Z.sub_0_r. by apply rw_fuel_ok.
    + apply (rw_fuel_ok sz Hsz).
    + exists r, s'. split; [done|]. lia.
Qed.

(** Even when the chain is a cycle. *)
Definition f_cycle : fs := set_cell 2 3 (set_cell 3 2 f0).
Lemma fs_walks_end_witness :
  (exists s', (forall fuel, (S (nonzero (Z.to_nat FAT_ENTRIES) (cell f_cycle)) <= fuel)%nat ->
     free_loop fuel 2 f_cycle = Some s') /\ (S (nonzero (Z.to_nat FAT_ENTRIES) (cell f_cycle)) <= free_fuel)%nat /\
     (2 <= 2 < FAT_ENTRIES -> free_cluster_chain 2 f_cycle = s')) /\
  exists r s', fs_read 4096 2 200 600 f_cycle = Some (r, s') /\ 0 <= r <= 600.
Proof.
  apply (fs_walks_end 4096 f_cycle 2 2 200 600).
  - lia.
  - intros x. unfold f_cycle. rewrite !cell_set. destruct (2 =? x); [lia|]. destruct (3 =? x); [lia|].
    unfold cell, f0, fs_init. cbn [fat]. rewrite lookup_empty. done.
  - lia.
Defined.

(** A name of 64 characters or more is cut to 63 when it is stored but
    compared in full, so the directory just created is never found under the
    name it was created with, and no later [fs_mkdir] of that name sees it as
    a duplicate. *)
Theorem fs_long_name_lost disk s A nm par r s' :
  fs_rel disk s A -> chars nm -> (64 <= length nm)%nat ->
  fs_mkdir (Some nm) par s = (r, s') -> 0 <= r ->
  (forall ex, fs_find_in_dir (Some nm) ex par s' <> r) /\ name_is (ent s' r) nm = false.
Proof.
  intros Hrel Hc Hl E Hr.
  destruct (mkdir_rel disk s A (Some nm) par r s' Hrel E) as [(? & _)|(nm0 & [= <-] & _ & _ & _ & Hrel')];
    [lia|].
  assert (Hno : nameeq 64 (mkname nm) nm = false).
  { destruct (nameeq 64 (mkname nm) nm) eqn:En; [|done]. apply nameeq_mkname in En; [|done..].
    apply (f_equal length) in En. rewrite length_take in En. lia. }
  set (n := Node (mkname nm) (replicate 64 0) par true []) in *.
  assert (Hn : (<[r:=n]> A) !! r = Some n) by apply lookup_insert_eq.
  split.
  - intros ex Hf. pose proof (find_ok disk s' _ nm ex par r Hrel' Hf) as H.
    rewrite (proj2 (Z.ltb_ge r 0)) in H by done. destruct H as (_ & n' & (F1 & F2 & _) & _).
    rewrite Hn in F1. injection F1 as <-. revert F2. unfold nfound, n, nname_is. cbn [n_parent n_dir n_name].
    rewrite Hno. by rewrite !andb_false_r.
  - destruct (rel_get _ _ _ _ _ Hrel' Hn) as [_ [_ G2 _ _ _ _]]. unfold name_is. rewrite G2. exact Hno.
Qed.

Lemma fs_long_name_lost_witness :
  exists s', fs_mkdir (Some (replicate 64 97)) 0 f0 = (1, s') /\
    (forall ex, fs_find_in_dir (Some (replicate 64 97)) ex 0 s' <> 1).
Proof.
  destruct (fs_mkdir (Some (replicate 64 97)) 0 f0) as [r s'] eqn:E.
  assert (r = 1) as -> by (vm_compute in E; congruence).
  exists s'. split; [done|].
  apply (fs_long_name_lost 4096 f0 {[ 0 := root_node ]} (replicate 64 97) 0 1 s').
  - apply f0_rel.
  - by apply Forall_replicate.
  - rewrite length_replicate. lia.
  - exact E.
  - lia.
Defined.

(** A successful write to a name that is there replaces that node's data. *)
Lemma write_existing disk s A nm ex par data sz i n s2 :
  fs_rel disk s A -> finds A nm (Some ex) par i n -> 0 <= sz -> off_disk disk data sz ->
  fs_write_file_in_dir disk (Some nm) (Some ex) par data sz s = Some (0, s2) ->
  fs_rel disk s2 (<[i := with_data (rbs (fmem s) data (Z.to_nat sz)) n]> A).
Proof.
  intros Hrel Hf Hsz Hoff E.
  destruct (write_rel disk s A (Some nm) ex par data sz Hrel Hsz Hoff) as (r & s' & A' & E' & Hst & Hrel' & _).
  rewrite E in E'. injection E' as <- <-. inversion Hst; subst; [| |lia].
  - match goal with H : finds A nm _ _ idx _ |- _ => destruct (finds_fun _ _ _ _ _ _ _ _ Hf H) as [<- <-] end.
    match goal with H : write_result _ _ _ _ _ |- _ => destruct H as [[_ ->]|[? _]]; [done|lia] end.
  - destruct Hf as (F1 & F2 & _). match goal with H : finds_none A _ _ _ |- _ => by rewrite (H i n F1) in F2 end.
Qed.

Lemma childless_has disk s A i : fs_rel disk s A -> childless A i -> has_children i s = false.
Proof.
  intros Hrel Hch. unfold has_children. destruct (bad_idx i); [done|].
  destruct (scan_entries 0 _) as [j|] eqn:Es; [|done]. exfalso.
  apply scan_some in Es as (Hj & Hp & _). apply andb_true_iff in Hp as [Hu Hpar%Z.eqb_eq].
  destruct (rel_used _ _ _ _ Hrel (ltac:(unfold slot, FS_MAX_ENTRIES in *; lia) : slot j) Hu) as (m & Hm & [_ _ _ G _ _]).
  apply (Hch j m Hm). congruence.
Qed.

(** C39. [fs_write_file_in_dir] takes a directory for the file when the name
    and extension it is given find one (a directory's extension is empty): if
    it succeeds on at least one byte, the entry is still a directory but has
    the data's size and a cluster chain; and when that directory is then
    removed the chain is lost, for no cell of it is free and no entry owns
    any of its clusters, so no later call gives it back. *)
Theorem fs_write_hits_directory disk s A nm ex par data sz i n s2 :
  fs_rel disk s A -> finds A nm (Some ex) par i n -> n_dir n = true -> i <> 0 -> childless A i ->
  0 < sz -> off_disk disk data sz ->
  fs_write_file_in_dir disk (Some nm) (Some ex) par data sz s = Some (0, s2) ->
  is_dir (ent s2 i) = true /\ size (ent s2 i) = sz /\
  exists cs s3, owns s2 i cs /\ cs <> [] /\ fs_rmdir i s2 = (0, s3) /\ used (ent s3 i) = false /\
    forall c, c ∈ cs -> cell s3 c <> 0 /\ forall j cs', owns s3 j cs' -> c ∉ cs'.
Proof.
  intros Hrel Hf Hd Hi0 Hch Hsz Hoff E.
  pose proof (write_existing disk s A nm ex par data sz i n s2 Hrel Hf ltac:(lia) Hoff E) as Hrel'.
  set (d := rbs (fmem s) data (Z.to_nat sz)) in *. set (A' := <[i := with_data d n]> A) in *.
  assert (Hn : A' !! i = Some (with_data d n)) by apply lookup_insert_eq.
  destruct (rel_get _ _ _ _ _ Hrel' Hn) as [Hs Hh]. pose proof Hh as [G1 _ _ _ G5 [G6 G7]].
  cbn [with_data n_dir n_data] in G5, G6, G7. rewrite Hd in G5.
  assert (Hl : lenZ d = sz) by (unfold d, lenZ; rewrite length_rbs; lia). rewrite Hl in G6.
  split; [done|]. split; [done|]. destruct G7 as [E0|(cs & Ho & _)]; [rewrite E0 in Hl; unfold lenZ in Hl; simpl in Hl; lia|].
  pose proof (rel_ok _ _ _ Hrel') as [_ Hco].
  assert (Hnoch : has_children i s2 = false).
  { apply (childless_has disk s2 A' i Hrel'). intros j m Hm. apply lookup_insert_Some in Hm as [[_ <-]|[_ Hm]];
      [apply (Hch i n), Hf|by apply (Hch j)]. }
  exists cs. eexists. split; [done|]. split; [by destruct Ho as (_ & _ & r & -> & _)|].
  unfold fs_rmdir. unfold slot in Hs. rewrite (proj2 (orb_false_iff _ _)).
  2: { unfold FS_MAX_ENTRIES. split; apply Z.leb_gt; lia. }
  rewrite G1, G5, Hnoch. cbn [negb orb]. split; [reflexivity|]. split; [by rewrite ent_set_eq|].
  intros c Hc. split; [exact (proj2 (owns_in _ _ _ _ Ho Hc))|]. intros j cs' Ho' Hc'.
  destruct (Z.eq_dec j i) as [->|Hne].
  - destruct Ho' as (_ & Hu & _). by rewrite ent_set_eq in Hu.
  - assert (Ho2 : owns s2 j cs').
    { apply (owns_keep (set_ent i (set_used false (ent s2 i)) s2)); [exact Ho'|by rewrite ent_set_ne by congruence|done]. }
    by eapply (co_disjoint _ Hco j i cs' cs c).
Qed.

(** The directory "d" in the root: written to and removed, its cluster 2 is
    neither free nor owned. *)
Definition fdd : Z * fs := default (0, f0) (fs_write_file_in_dir 4096 (Some [100]) (Some []) 0 100 5 fd).
Lemma fs_write_hits_directory_witness :
  is_dir (ent fdd.2 1) = true /\ size (ent fdd.2 1) = 5 /\
  exists cs s3, owns fdd.2 1 cs /\ cs <> [] /\ fs_rmdir 1 fdd.2 = (0, s3) /\ used (ent s3 1) = false /\
    forall c, c ∈ cs -> cell s3 c <> 0 /\ forall j cs', owns s3 j cs' -> c ∉ cs'.
Proof.
  destruct (mkdir_rel 4096 f0 {[ 0 := root_node ]} (Some [100]) 0 1 fd f0_rel ltac:(by vm_compute))
    as [(? & _)|(nm & [= <-] & _ & _ & _ & Hrel)]; [lia|].
  apply (fs_write_hits_directory 4096 fd _ [100] [] 0 100 5 1 (Node (mkname [100]) (replicate 64 0) 0 true []) fdd.2 Hrel).
  - split; [apply lookup_insert_eq|]. split; [by vm_compute|]. intros j n Hj Hn.
    rewrite lookup_insert_ne in Hn by lia. apply lookup_singleton_Some in Hn as [_ <-]. by vm_compute.
  - done.
  - lia.
  - intros j n Hn. apply lookup_insert_Some in Hn as [[_ <-]|[_ Hn]]; [done|].
    by apply lookup_singleton_Some in Hn as [_ <-].
  - lia.
  - left. lia.
  - by vm_compute.
Defined.

(** [fs_create_file] guards against a NULL extension when it stores it but
    not in the duplicate test: with a file of that name in the directory it
    reads through the NULL pointer. *)
Theorem fs_create_null_ext disk s A nm par i n :
  fs_rel disk s A -> dir_at A par -> A !! i = Some n -> n_parent n = par -> n_dir n = false ->
  nname_is n nm = true ->
  fs_create_file (Some nm) None par s = None.
Proof.
  intros Hrel (p & Hp & Hpd) Hn Hpar Hd Hnm. unfold fs_create_file.
  destruct (rel_get _ _ _ _ _ Hrel Hp) as [Hps [P1 _ _ _ P5 _]].
  rewrite (proj2 (bad_idx_slot par) Hps), P1, P5, Hpd. cbn [negb orb]. unfold create_dup.
  destruct (scan_entries 0 _) eqn:Es; [done|]. exfalso.
  destruct (rel_get _ _ _ _ _ Hrel Hn) as [Hi [G1 G2 _ G4 G5 _]].
  unfold scan_entries in Es. rewrite scan_none in Es. specialize (Es i).
  unfold slot, FS_MAX_ENTRIES in *. specialize (Es ltac:(lia)).
  unfold name_is in Es. rewrite G1, G2, G4, G5, Hpar, Hd, Z.eqb_refl in Es. unfold nname_is in Hnm.
  change (Z.to_nat FS_NAME_MAX) with 64%nat in Es. by rewrite Hnm in Es.
Qed.

Lemma fs_create_null_ext_witness : fs_create_file (Some [97]) None 0 f2 = None.
Proof.
  destruct f2_rel as [A HA].
  assert (Hu : used (ent f2 1) = true) by (vm_compute; reflexivity).
  assert (H0 : used (ent f2 0) = true) by (vm_compute; reflexivity).
  destruct (rel_used 4096 f2 A 1 HA ltac:(unfold slot; lia) Hu) as (n & Hn & [_ G2 _ G4 G5 _]).
  destruct (rel_used 4096 f2 A 0 HA ltac:(unfold slot; lia) H0) as (n0 & Hn0 & [_ _ _ _ G50 _]).
  apply (fs_create_null_ext 4096 f2 A [97] 0 1 n HA).
  - exists n0. split; [exact Hn0|]. rewrite <- G50. vm_compute. reflexivity.
  - exact Hn.
  - rewrite <- G4. vm_compute. reflexivity.
  - rewrite <- G5. vm_compute. reflexivity.
  - unfold nname_is. rewrite <- G2. vm_compute. reflexivity.
Defined.
