(* ===== verification/PortIO.v ===== *)
(** * portio/portio.c, pic.c and the port writes of time/timer.c

    A driver's effect on the devices is the sequence of its port accesses.
    [io A] is a computation that extends this sequence; what a device answers
    to a read is given by [dev], which may depend on all accesses so far. *)

From Stdlib Require Import ZArith Lia.
From S2P Require Import Prelude.

Inductive access :=
  | In (port v : Z)
  | Out (port v : Z)
  | InW (port v : Z)
  | OutW (port v : Z).
#[export] Instance access_eq_dec : EqDecision access.
Proof. solve_decision. Defined.

Abbreviation trace := (list access).
Definition io (A : Type) : Type := trace -> A * trace.
Definition io_ret {A} (a : A) : io A := fun t => (a, t).
Definition io_bind {A B} (c : io A) (k : A -> io B) : io B := fun t => let '(a, t) := c t in k a t.

Declare Scope io_scope.
Delimit Scope io_scope with io.
Notation "x <-- c ; k" := (io_bind c (fun x => k))
  (at level 100, c at next level, right associativity) : io_scope.
Notation "c ;;; k" := (io_bind c (fun _ => k)) (at level 100, right associativity) : io_scope.
Open Scope io_scope.

Section Ports.
(** The devices' answers: [dev t port] is what a read of [port] gives after
    the accesses [t]. *)
Context (dev : trace -> Z -> Z).

Definition inb (port : Z) : io Z := fun t => let v := u8 (dev t port) in (v, t ++ [In port v]).
Definition outb (port data : Z) : io unit := fun t => (tt, t ++ [Out port (u8 data)]).
Definition inw (port : Z) : io Z := fun t => let v := u16 (dev t port) in (v, t ++ [InW port v]).
Definition outw (port data : Z) : io unit := fun t => (tt, t ++ [OutW port (u16 data)]).

Definition PIC1_COMMAND : Z := 32.
Definition PIC1_DATA : Z := 33.
Definition PIC2_COMMAND : Z := 160.
Definition PIC2_DATA : Z := 161.
Definition ICW1_INIT : Z := 16.
Definition ICW1_ICW4 : Z := 1.
Definition ICW4_8086 : Z := 1.

Definition pic_remap (offset1 offset2 : Z) : io unit :=
  a1 <-- inb PIC1_DATA;
  a2 <-- inb PIC2_DATA;
  outb PIC1_COMMAND (Z.lor ICW1_INIT ICW1_ICW4);;;
  outb PIC2_COMMAND (Z.lor ICW1_INIT ICW1_ICW4);;;
  outb PIC1_DATA offset1;;;
  outb PIC2_DATA offset2;;;
  outb PIC1_DATA 4;;;
  outb PIC2_DATA 2;;;
  outb PIC1_DATA ICW4_8086;;;
  outb PIC2_DATA ICW4_8086;;;
  outb PIC1_DATA a1;;;
  outb PIC2_DATA a2.

Definition pic_send_eoi (irq : Z) : io unit :=
  (if 8 <=? irq then outb PIC2_COMMAND 32 else io_ret tt);;;
  outb PIC1_COMMAND 32.

Definition init_timer (frequency : Z) : io unit :=
  let divisor := u32 (1193180 / frequency) in
  outb 67 54;;;
  outb 64 (Z.land divisor 255);;;
  outb 64 (Z.land (Z.shiftr divisor 8) 255).
End Ports.

(** The 8259 remembers its interrupt mask: the last byte written to its data
    port outside an initialisation sequence. *)
Definition icw_state : Type := nat * Z. (* initialisation words still due, mask *)
Definition pic_dev (cmd data : Z) (s : icw_state) (a : access) : icw_state :=
  match a with
  | Out p v =>
      if p =? cmd then (if Z.testbit v 4 then (3%nat, snd s) else s)
      else if p =? data then
        match fst s with O => (O, v) | S k => (k, snd s) end
      else s
  | _ => s
  end.
Definition pic_after (cmd data : Z) (s : icw_state) (t : trace) : icw_state :=
  fold_left (pic_dev cmd data) t s.

Lemma outb_eq port v t : outb port v t = (tt, t ++ [Out port (u8 v)]).
Proof. done. Qed.

(** The accesses of an end-of-interrupt. *)
Lemma pic_send_eoi_trace irq t :
  (pic_send_eoi irq t).2 = t ++ (if 8 <=? irq then [Out 160 32; Out 32 32] else [Out 32 32]).
Proof.
  unfold pic_send_eoi, io_bind. destruct (8 <=? irq); cbn; rewrite <- ?app_assoc; done.
Qed.
