(* ===== verification/Keyboard.v ===== *)
(** * keyboard/keyboard.c

    The keyboard driver: the scan code tables, the modifier keys, the ring
    buffer between the interrupt handler and [kbd_getchar], and the handler
    itself.  [intr] is the CPU's interrupt flag, which [irq_save_flags] and
    [irq_restore_flags] save, clear and restore around a buffer access. *)

From Stdlib Require Import ZArith Lia.
From S2P Require Import Prelude PortIO.

Definition KBD_BUF_SIZE : Z := 256.
Definition INTERNAL_SPACE : Z := 1.
Definition KEYBOARD_PORT : Z := 96.
Definition KEY_A : Z := 0x1E.
Definition KEY_B : Z := 0x30.
Definition KEY_C : Z := 0x2E.
Definition KEY_D : Z := 0x20.
Definition KEY_E : Z := 0x12.
Definition KEY_F : Z := 0x21.
Definition KEY_G : Z := 0x22.
Definition KEY_H : Z := 0x23.
Definition KEY_I : Z := 0x17.
Definition KEY_J : Z := 0x24.
Definition KEY_K : Z := 0x25.
Definition KEY_L : Z := 0x26.
Definition KEY_M : Z := 0x32.
Definition KEY_N : Z := 0x31.
Definition KEY_O : Z := 0x18.
Definition KEY_P : Z := 0x19.
Definition KEY_Q : Z := 0x10.
Definition KEY_R : Z := 0x13.
Definition KEY_S : Z := 0x1F.
Definition KEY_T : Z := 0x14.
Definition KEY_U : Z := 0x16.
Definition KEY_V : Z := 0x2F.
Definition KEY_W : Z := 0x11.
Definition KEY_X : Z := 0x2D.
Definition KEY_Y : Z := 0x15.
Definition KEY_Z : Z := 0x2C.
Definition KEY_1 : Z := 0x02.
Definition KEY_2 : Z := 0x03.
Definition KEY_3 : Z := 0x04.
Definition KEY_4 : Z := 0x05.
Definition KEY_5 : Z := 0x06.
Definition KEY_6 : Z := 0x07.
Definition KEY_7 : Z := 0x08.
Definition KEY_8 : Z := 0x09.
Definition KEY_9 : Z := 0x0A.
Definition KEY_0 : Z := 0x0B.
Definition KEY_MINUS : Z := 0x0C.
Definition KEY_EQUAL : Z := 0x0D.
Definition KEY_SQUARE_OPEN_BRACKET : Z := 0x1A.
Definition KEY_SQUARE_CLOSE_BRACKET : Z := 0x1B.
Definition KEY_SEMICOLON : Z := 0x27.
Definition KEY_BACKSLASH : Z := 0x2B.
Definition KEY_COMMA : Z := 0x33.
Definition KEY_DOT : Z := 0x34.
Definition KEY_FORESLHASH : Z := 0x35.
Definition KEY_BACKSPACE : Z := 0x0E.
Definition KEY_ENTER : Z := 0x1C.
Definition KEY_SPACE : Z := 0x39.
Definition KEY_TAB : Z := 0x0F.
Definition KEY_APOSTROPHE : Z := 0x28.
Definition KEY_GRAVE : Z := 0x29.
Definition KEY_LSHIFT : Z := 0x2A.
Definition KEY_RSHIFT : Z := 0x36.
Definition KEY_CAPSLOCK : Z := 0x3A.
Definition KEY_LCONTROL : Z := 0x1D.
Definition KEY_RCONTROL : Z := 0xE01D.

Record kbd := Kbd {
  shift_down : bool; caps_lock : bool; ctrl_down : bool;
  kbd_buf : list Z; kbd_head : Z; kbd_tail : Z; intr : bool }.

Definition kbd0 (i : bool) : kbd := Kbd false false false (replicate 256 0) 0 0 i.

(** The scan codes of the letters, in the order of [is_alpha]'s cases, each
    with its lower-case character. *)
Definition alpha_keys : list (Z * Z) :=
  [(KEY_A, 97); (KEY_B, 98); (KEY_C, 99); (KEY_D, 100); (KEY_E, 101); (KEY_F, 102); (KEY_G, 103);
   (KEY_H, 104); (KEY_I, 105); (KEY_J, 106); (KEY_K, 107); (KEY_L, 108); (KEY_M, 109); (KEY_N, 110);
   (KEY_O, 111); (KEY_P, 112); (KEY_Q, 113); (KEY_R, 114); (KEY_S, 115); (KEY_T, 116); (KEY_U, 117);
   (KEY_V, 118); (KEY_W, 119); (KEY_X, 120); (KEY_Y, 121); (KEY_Z, 122)].

(** The other keys of the two tables: code, plain and shifted character. *)
Definition other_keys : list (Z * (Z * Z)) :=
  [(KEY_1, (49, 33)); (KEY_2, (50, 64)); (KEY_3, (51, 35)); (KEY_4, (52, 36)); (KEY_5, (53, 37));
   (KEY_6, (54, 94)); (KEY_7, (55, 38)); (KEY_8, (56, 42)); (KEY_9, (57, 40)); (KEY_0, (48, 41));
   (KEY_MINUS, (45, 95)); (KEY_EQUAL, (61, 43)); (KEY_SQUARE_OPEN_BRACKET, (91, 123));
   (KEY_SQUARE_CLOSE_BRACKET, (93, 125)); (KEY_SEMICOLON, (59, 58)); (KEY_BACKSLASH, (92, 124));
   (KEY_COMMA, (44, 60)); (KEY_DOT, (46, 62)); (KEY_FORESLHASH, (47, 63)); (KEY_APOSTROPHE, (39, 34));
   (KEY_GRAVE, (96, 126)); (KEY_SPACE, (INTERNAL_SPACE, INTERNAL_SPACE)); (KEY_ENTER, (10, 10));
   (KEY_TAB, (9, 9)); (KEY_BACKSPACE, (8, 8))].

Fixpoint assoc {A} (l : list (Z * A)) (k : Z) : option A :=
  match l with
  | [] => None
  | (k', v) :: r => if k' =? k then Some v else assoc r k
  end.

(** Elements not initialised are 0. *)
Definition scancode_to_ascii (code : Z) : Z :=
  match assoc alpha_keys code with
  | Some c => c
  | None => match assoc other_keys code with Some (c, _) => c | None => 0 end
  end.
Definition scancode_to_ascii_shifted (code : Z) : Z :=
  match assoc alpha_keys code with
  | Some c => c - 32
  | None => match assoc other_keys code with Some (_, c) => c | None => 0 end
  end.

Definition my_toupper (c : Z) : Z := if (97 <=? c) && (c <=? 122) then c - 32 else c.

Definition is_alpha (scancode : Z) : bool :=
  match assoc alpha_keys scancode with Some _ => true | None => false end.

Definition get_ascii_char (s : kbd) (scancode : Z) : Z :=
  if is_alpha scancode then
    let upper := xorb (shift_down s) (caps_lock s) in
    let base := scancode_to_ascii scancode in
    if upper then my_toupper base else base
  else if shift_down s then scancode_to_ascii_shifted scancode
  else scancode_to_ascii scancode.

Definition set_intr (b : bool) (s : kbd) : kbd :=
  Kbd (shift_down s) (caps_lock s) (ctrl_down s) (kbd_buf s) (kbd_head s) (kbd_tail s) b.
Definition irq_save_flags (s : kbd) : bool * kbd := (intr s, set_intr false s).
Definition irq_restore_flags (flags : bool) (s : kbd) : kbd := set_intr flags s.

(** The indices stay in [0, 256), so C's [%] is [mod]. *)
Definition kbd_buffer_push (c : Z) (s : kbd) : kbd :=
  let '(flags, s) := irq_save_flags s in
  let next := Z.rem (kbd_head s + 1) KBD_BUF_SIZE in
  let s :=
    if negb (next =? kbd_tail s) then
      Kbd (shift_down s) (caps_lock s) (ctrl_down s) (updZ (kbd_buf s) (kbd_head s) c) next
        (kbd_tail s) (intr s)
    else s in
  irq_restore_flags flags s.

Definition kbd_getchar (s : kbd) : Z * kbd :=
  let '(flags, s) := irq_save_flags s in
  if kbd_head s =? kbd_tail s then (-1, irq_restore_flags flags s)
  else
    let c := nthZ 0 (kbd_buf s) (kbd_tail s) in
    let s := Kbd (shift_down s) (caps_lock s) (ctrl_down s) (kbd_buf s) (kbd_head s)
               (Z.rem (kbd_tail s + 1) KBD_BUF_SIZE) (intr s) in
    (c, irq_restore_flags flags s).

Definition set_ctrl (b : bool) (s : kbd) : kbd :=
  Kbd (shift_down s) (caps_lock s) b (kbd_buf s) (kbd_head s) (kbd_tail s) (intr s).
Definition set_shift (b : bool) (s : kbd) : kbd :=
  Kbd b (caps_lock s) (ctrl_down s) (kbd_buf s) (kbd_head s) (kbd_tail s) (intr s).
Definition set_caps (b : bool) (s : kbd) : kbd :=
  Kbd (shift_down s) b (ctrl_down s) (kbd_buf s) (kbd_head s) (kbd_tail s) (intr s).

Section Handler.
Context (dev : trace -> Z -> Z).

Definition keyboard_handler (s : kbd) : io kbd :=
  code <-- inb dev KEYBOARD_PORT;
  let released := negb (Z.land code 128 =? 0) in
  let key := Z.land code 127 in
  if (key =? KEY_LCONTROL) || (key =? KEY_RCONTROL) then
    pic_send_eoi 1;;; io_ret (set_ctrl (negb released) s)
  else if negb released && ctrl_down s && (key =? KEY_C) then
    let s := kbd_buffer_push 3 s in
    pic_send_eoi 1;;; io_ret s
  else if (key =? KEY_LSHIFT) || (key =? KEY_RSHIFT) then
    pic_send_eoi 1;;; io_ret (set_shift (negb released) s)
  else if (key =? KEY_CAPSLOCK) && negb released then
    pic_send_eoi 1;;; io_ret (set_caps (negb (caps_lock s)) s)
  else
    let s :=
      if negb released then
        let ch := get_ascii_char s key in
        if negb (ch =? 0) then kbd_buffer_push ch s else s
      else s in
    pic_send_eoi 1;;; io_ret s.
End Handler.

(** ** The ring buffer as a queue *)

Record kbd_ok (s : kbd) : Prop := {
  ok_buf : length (kbd_buf s) = 256%nat;
  ok_head : 0 <= kbd_head s < 256;
  ok_tail : 0 <= kbd_tail s < 256
}.

Definition queue (s : kbd) : list Z :=
  (fun i => nthZ 0 (kbd_buf s) ((kbd_tail s + Z.of_nat i) mod 256)) <$>
  seq 0 (Z.to_nat ((kbd_head s - kbd_tail s) mod 256)).

(** The queue the driver promises: 255 characters, later ones are dropped. *)
Definition enqueue (c : Z) (q : list Z) : list Z :=
  if (length q <? 255)%nat then q ++ [c] else q.

Lemma queue_length s : length (queue s) = Z.to_nat ((kbd_head s - kbd_tail s) mod 256).
Proof. unfold queue. by rewrite length_fmap, length_seq. Qed.

(** The distance from tail to head, as it is used by the tests. *)
Lemma ring_dist h t : 0 <= h < 256 -> 0 <= t < 256 ->
  (h - t) mod 256 = if t <=? h then h - t else h - t + 256.
Proof.
  intros Hh Ht. bcase; [apply Z.mod_small; lia|].
  rewrite <- (Z.mod_add _ 1) by lia. rewrite Z.mod_small; lia.
Qed.

Lemma ring_succ h : 0 <= h < 256 -> Z.rem (h + 1) 256 = if h =? 255 then 0 else h + 1.
Proof.
  intros Hh. rewrite Z.rem_mod_nonneg by lia. bcase; [by subst|]. apply Z.mod_small. lia.
Qed.

Lemma nthZ_upd l i j c : 0 <= i < lenZ l -> 0 <= j ->
  nthZ 0 (updZ l i c) j = if i =? j then c else nthZ 0 l j.
Proof.
  unfold lenZ. intros Hi Hj. unfold nthZ, updZ. do 2 rw_test. rewrite !nth_lookup.
  bcase.
  - subst j. by rewrite list_lookup_insert_eq by lia.
  - by rewrite list_lookup_insert_ne by lia.
Qed.

Lemma push_queue c s :
  kbd_ok s ->
  kbd_ok (kbd_buffer_push c s) /\ queue (kbd_buffer_push c s) = enqueue c (queue s) /\
  intr (kbd_buffer_push c s) = intr s.
Proof.
  intros [H1 H2 H3]. unfold kbd_buffer_push, irq_save_flags, irq_restore_flags, set_intr.
  cbn [shift_down caps_lock ctrl_down kbd_buf kbd_head kbd_tail intr]. unfold KBD_BUF_SIZE.
  rewrite (ring_succ _ H2). set (next := if kbd_head s =? 255 then 0 else kbd_head s + 1).
  assert (Hnext : 0 <= next < 256) by (subst next; bcase; lia).
  pose proof (ring_dist _ _ H2 H3) as Hd. pose proof (ring_dist _ _ Hnext H3) as Hd'.
  unfold enqueue. rewrite queue_length.
  destruct (Z.eqb_spec next (kbd_tail s)) as [E|Hne]; cbn [negb].
  - split; [by destruct s|]. split; [|done].
    replace (Z.to_nat ((kbd_head s - kbd_tail s) mod 256) <? 255)%nat with false by
      (symmetry; apply Nat.ltb_ge; rewrite Hd; subst next; revert E; repeat bcase; lia).
    by destruct s.
  - cbn [shift_down caps_lock ctrl_down kbd_buf kbd_head kbd_tail intr].
    split; [split; cbn [kbd_buf kbd_head kbd_tail]; [|lia..]|split; [|done]].
    { unfold updZ. by destruct (_ <? 0); rewrite ?length_insert. }
    replace (Z.to_nat ((kbd_head s - kbd_tail s) mod 256) <? 255)%nat with true by
      (symmetry; apply Nat.ltb_lt; rewrite Hd; subst next; revert Hne; repeat bcase; lia).
    unfold queue. cbn [kbd_buf kbd_head kbd_tail].
    assert (Hs : (next - kbd_tail s) mod 256 = (kbd_head s - kbd_tail s) mod 256 + 1).
    { rewrite Hd, Hd'. subst next. revert Hne. repeat bcase; lia. }
    rewrite Hs. set (n := (kbd_head s - kbd_tail s) mod 256) in *.
    assert (Hn : 0 <= n < 256) by (subst n; apply Z.mod_pos_bound; lia).
    replace (Z.to_nat (n + 1)) with (Z.to_nat n + 1)%nat by lia.
    rewrite seq_app, fmap_app. cbn [seq fmap list_fmap]. f_equal.
    + apply list_fmap_ext. intros i x Hx. apply lookup_seq in Hx as [-> Hx].
      assert (Hm : 0 <= (kbd_tail s + Z.of_nat (0 + i)) mod 256 < 256) by (apply Z.mod_pos_bound; lia).
      rewrite nthZ_upd by (unfold lenZ; lia). rewrite (proj2 (Z.eqb_neq _ _)); [done|].
      intros E. destruct (Z.lt_ge_cases (kbd_tail s + Z.of_nat (0 + i)) 256) as [Hlt|Hge].
      * rewrite Z.mod_small in E by lia. revert Hd. bcase; lia.
      * rewrite <- (Z.mod_add _ (-1)) in E by lia. rewrite Z.mod_small in E by lia. revert Hd. bcase; lia.
    + f_equal. rewrite Nat.add_0_l, Z2Nat.id by lia.
      replace ((kbd_tail s + n) mod 256) with (kbd_head s).
      * rewrite nthZ_upd by (unfold lenZ; lia). by rewrite Z.eqb_refl.
      * subst n. rewrite Zplus_mod_idemp_r. replace (kbd_tail s + (kbd_head s - kbd_tail s)) with (kbd_head s) by lia.
        by rewrite Z.mod_small.
Qed.

Lemma getchar_queue s :
  kbd_ok s ->
  let '(r, s') := kbd_getchar s in
  kbd_ok s' /\ intr s' = intr s /\
  match queue s with
  | [] => r = -1 /\ queue s' = []
  | c :: q => r = c /\ queue s' = q
  end.
Proof.
  intros [H1 H2 H3]. unfold kbd_getchar, irq_save_flags, irq_restore_flags, set_intr.
  cbn [shift_down caps_lock ctrl_down kbd_buf kbd_head kbd_tail intr]. unfold KBD_BUF_SIZE.
  rewrite (ring_succ _ H3). pose proof (ring_dist _ _ H2 H3) as Hd.
  destruct (Z.eqb_spec (kbd_head s) (kbd_tail s)) as [E|Hne].
  - split; [by destruct s|]. split; [done|]. unfold queue. cbn [kbd_buf kbd_head kbd_tail].
    rewrite E, Z.sub_diag. done.
  - set (next := if kbd_tail s =? 255 then 0 else kbd_tail s + 1).
    assert (Hnext : 0 <= next < 256) by (subst next; bcase; lia).
    pose proof (ring_dist _ _ H2 Hnext) as Hd'.
    split; [split; cbn [kbd_buf kbd_head kbd_tail]; lia|]. split; [done|].
    unfold queue. cbn [kbd_buf kbd_head kbd_tail].
    assert (Hs : (kbd_head s - kbd_tail s) mod 256 = (kbd_head s - next) mod 256 + 1).
    { rewrite Hd, Hd'. subst next. revert Hne. repeat bcase; lia. }
    rewrite Hs. set (n := (kbd_head s - next) mod 256) in *.
    assert (Hn : 0 <= n < 256) by (subst n; apply Z.mod_pos_bound; lia).
    replace (Z.to_nat (n + 1)) with (S (Z.to_nat n)) by lia. cbn [seq]. rewrite fmap_cons.
    rewrite Z.add_0_r, Z.mod_small by lia. split; [done|].
    rewrite <- fmap_S_seq, <- list_fmap_compose. apply list_fmap_ext. intros i x Hx.
    apply lookup_seq in Hx as [-> Hx]. cbn [compose]. f_equal.
    replace (kbd_tail s + Z.of_nat (S (0 + i))) with (kbd_tail s + 1 + Z.of_nat (0 + i)) by lia.
    subst next. destruct (Z.eqb_spec (kbd_tail s) 255) as [->|]; [|done].
    replace (255 + 1 + Z.of_nat (0 + i)) with (0 + Z.of_nat (0 + i) + 1 * 256) by lia.
    by rewrite Z.mod_add by lia.
Qed.

(** ** The abstract driver *)

Record akbd := AKbd { a_shift : bool; a_caps : bool; a_ctrl : bool; a_queue : list Z }.
Definition abs (s : kbd) : akbd := AKbd (shift_down s) (caps_lock s) (ctrl_down s) (queue s).

(** The character of a key: letters follow shift xor caps lock, the others
    shift alone; 0 for a key without one. *)
Definition char_of (shift caps : bool) (key : Z) : Z :=
  match assoc alpha_keys key with
  | Some c => if xorb shift caps then c - 32 else c
  | None => match assoc other_keys key with
            | Some (c, d) => if shift then d else c
            | None => 0
            end
  end.

Definition akey (code : Z) (a : akbd) : akbd :=
  let released := 128 <=? code in
  let key := code mod 128 in
  if key =? KEY_LCONTROL then AKbd (a_shift a) (a_caps a) (negb released) (a_queue a)
  else if negb released && a_ctrl a && (key =? KEY_C) then
    AKbd (a_shift a) (a_caps a) (a_ctrl a) (enqueue 3 (a_queue a))
  else if (key =? KEY_LSHIFT) || (key =? KEY_RSHIFT) then
    AKbd (negb released) (a_caps a) (a_ctrl a) (a_queue a)
  else if (key =? KEY_CAPSLOCK) && negb released then
    AKbd (a_shift a) (negb (a_caps a)) (a_ctrl a) (a_queue a)
  else if released || (char_of (a_shift a) (a_caps a) key =? 0) then a
  else AKbd (a_shift a) (a_caps a) (a_ctrl a) (enqueue (char_of (a_shift a) (a_caps a) key) (a_queue a)).

(** Facts about the 128 keys, by evaluation. *)
Lemma all_keys (P : Z -> bool) :
  forallb P (Z.of_nat <$> seq 0 128) = true -> forall k, 0 <= k < 128 -> P k = true.
Proof.
  intros H k Hk. rewrite forallb_forall in H. apply H. apply list_elem_of_In, list_elem_of_fmap.
  exists (Z.to_nat k). split; [lia|]. apply elem_of_seq. lia.
Qed.

Lemma get_ascii_char_of s key : 0 <= key < 128 -> get_ascii_char s key = char_of (shift_down s) (caps_lock s) key.
Proof.
  intros Hk. apply Z.eqb_eq. destruct s as [sh ca ct b h t i]. unfold get_ascii_char. cbn [shift_down caps_lock].
  revert key Hk. destruct sh, ca; apply all_keys; vm_compute; reflexivity.
Qed.

Lemma char_of_ascii sh ca key : 0 <= key < 128 -> 0 <= char_of sh ca key < 128.
Proof.
  intros Hk. cut ((0 <=? char_of sh ca key) && (char_of sh ca key <? 128) = true); [intros; by bsimp|].
  revert key Hk. destruct sh, ca; apply (all_keys (fun k => (0 <=? char_of _ _ k) && (char_of _ _ k <? 128)));
    vm_compute; reflexivity.
Qed.

Lemma code_bits code : 0 <= code < 256 ->
  negb (Z.land code 128 =? 0) = (128 <=? code) /\ Z.land code 127 = code mod 128.
Proof.
  intros Hc. split.
  - change 128 with (2 ^ 7) at 1.
    assert (E : Z.land code (2 ^ 7) = if Z.testbit code 7 then 2 ^ 7 else 0).
    { apply Z.bits_inj'. intros i Hi. rewrite Z.land_spec. destruct (Z.eq_dec i 7) as [->|Hne].
      - rewrite Z.pow2_bits_true by lia. destruct (Z.testbit code 7); [by rewrite Z.pow2_bits_true by lia|].
        by rewrite Z.bits_0.
      - rewrite Z.pow2_bits_false by lia. rewrite andb_false_r.
        destruct (Z.testbit code 7); [by rewrite Z.pow2_bits_false by lia|]. by rewrite Z.bits_0. }
    rewrite E. destruct (Z.testbit code 7) eqn:Et.
    + rewrite Z.testbit_true in Et by lia. change (2 ^ 7) with 128 in Et. symmetry. apply Z.leb_le.
      destruct (Z.lt_ge_cases code 128); [|lia]. rewrite Z.div_small in Et by lia. done.
    + rewrite Z.testbit_false in Et by lia. change (2 ^ 7) with 128 in Et. symmetry. apply Z.leb_gt.
      destruct (Z.lt_ge_cases code 128); [done|]. replace (code / 128) with 1 in Et; [done|].
      apply Z.div_unique with (code - 128); lia.
  - change 127 with (Z.ones 7). by rewrite Z.land_ones by lia.
Qed.

Lemma push_mods c s :
  shift_down (kbd_buffer_push c s) = shift_down s /\
  caps_lock (kbd_buffer_push c s) = caps_lock s /\ ctrl_down (kbd_buffer_push c s) = ctrl_down s.
Proof.
  unfold kbd_buffer_push, irq_save_flags, irq_restore_flags, set_intr.
  cbn [shift_down caps_lock ctrl_down kbd_buf kbd_head kbd_tail intr].
  by destruct (negb (Z.rem (kbd_head s + 1) KBD_BUF_SIZE =? kbd_tail s)).
Qed.

Lemma handler_ok dev s t :
  kbd_ok s ->
  let code := u8 (dev t KEYBOARD_PORT) in
  let '(s', t') := keyboard_handler dev s t in
  t' = t ++ [In KEYBOARD_PORT code; Out 32 32] /\ kbd_ok s' /\ abs s' = akey code (abs s) /\
  intr s' = intr s.
Proof.
  intros Hok code. pose proof (u8_range (dev t KEYBOARD_PORT)) as Hcode. fold code in Hcode.
  destruct (code_bits code Hcode) as [Hb1 Hb2].
  assert (Hkey : 0 <= code mod 128 < 128) by (apply Z.mod_pos_bound; lia).
  unfold keyboard_handler, io_bind, inb. fold code. cbn beta iota zeta.
  rewrite Hb1, Hb2. unfold akey. cbn [a_shift a_caps a_ctrl a_queue abs].
  replace (code mod 128 =? KEY_RCONTROL) with false by (symmetry; apply Z.eqb_neq; unfold KEY_RCONTROL; lia).
  rewrite orb_false_r. rewrite (get_ascii_char_of s _ Hkey).
  set (c := char_of _ _ _). assert (Hpush : forall ch, abs (kbd_buffer_push ch s) =
    AKbd (shift_down s) (caps_lock s) (ctrl_down s) (enqueue ch (queue s))).
  { intros ch. destruct (push_queue ch s Hok) as (_ & <- & _). unfold abs.
    by destruct (push_mods ch s) as (-> & -> & ->). }
  assert (Htr : forall A (a : A), (let '(_, t0) := pic_send_eoi 1 (t ++ [In KEYBOARD_PORT code]) in (a, t0)) =
    (a, t ++ [In KEYBOARD_PORT code; Out 32 32])).
  { intros A a. unfold pic_send_eoi, io_bind. cbn. by rewrite <- app_assoc. }
  unfold io_ret.
  destruct (code mod 128 =? KEY_LCONTROL).
  { rewrite Htr. split; [done|]. split; [by destruct Hok|]. done. }
  destruct (negb (128 <=? code) && ctrl_down s && (code mod 128 =? KEY_C)).
  { rewrite Htr. destruct (push_queue 3 s Hok) as (H1 & H2 & H3). split; [done|]. split; [done|].
    split; [apply Hpush|done]. }
  destruct ((code mod 128 =? KEY_LSHIFT) || (code mod 128 =? KEY_RSHIFT)).
  { rewrite Htr. split; [done|]. split; [by destruct Hok|]. done. }
  destruct ((code mod 128 =? KEY_CAPSLOCK) && negb (128 <=? code)).
  { rewrite Htr. split; [done|]. split; [by destruct Hok|]. done. }
  rewrite Htr. split; [done|].
  destruct (128 <=? code); cbn [negb orb]; [done|].
  destruct (c =? 0) eqn:Ec; cbn [negb]; [done|].
  destruct (push_queue c s Hok) as (H1 & H2 & H3). split; [done|]. split; [apply Hpush|done].
Qed.

(** ** Runs *)

(** What happens to the driver: a keyboard interrupt, a call of
    [kbd_getchar]. *)
Inductive kev := KIrq | KGet.

Section Runs.
Context (dev : trace -> Z -> Z).

(** The results of the [kbd_getchar] calls of a run, in order. *)
Fixpoint krun (evs : list kev) (s : kbd) (t : trace) : list Z * kbd * trace :=
  match evs with
  | [] => ([], s, t)
  | KIrq :: r => let '(s, t) := keyboard_handler dev s t in krun r s t
  | KGet :: r =>
      let '(c, s) := kbd_getchar s in
      let '(out, s, t) := krun r s t in (c :: out, s, t)
  end.

(** The same run of the abstract driver. *)
Fixpoint arun (evs : list kev) (a : akbd) (t : trace) : list Z * akbd * trace :=
  match evs with
  | [] => ([], a, t)
  | KIrq :: r =>
      let code := u8 (dev t KEYBOARD_PORT) in
      arun r (akey code a) (t ++ [In KEYBOARD_PORT code; Out 32 32])
  | KGet :: r =>
      let '(c, q) := match a_queue a with [] => (-1, []) | c :: q => (c, q) end in
      let '(out, a, t) := arun r (AKbd (a_shift a) (a_caps a) (a_ctrl a) q) t in
      (c :: out, a, t)
  end.

Lemma getchar_abs s :
  kbd_ok s ->
  let '(r, s') := kbd_getchar s in
  let '(c, q) := match queue s with [] => (-1, []) | c :: q => (c, q) end in
  r = c /\ abs s' = AKbd (shift_down s) (caps_lock s) (ctrl_down s) q /\ kbd_ok s' /\ intr s' = intr s.
Proof.
  intros Hok. pose proof (getchar_queue s Hok) as H. destruct (kbd_getchar s) as [r s'] eqn:E.
  assert (Hm : shift_down s' = shift_down s /\ caps_lock s' = caps_lock s /\ ctrl_down s' = ctrl_down s).
  { unfold kbd_getchar, irq_save_flags, irq_restore_flags, set_intr in E.
    destruct (_ =? _) in E; by injection E as _ <-. }
  destruct Hm as (E1 & E2 & E3). destruct H as (H1 & H2 & H3). unfold abs. rewrite E1, E2, E3.
  destruct (queue s) as [|c q]; destruct H3 as [-> ->]; done.
Qed.

Lemma krun_ok evs s t :
  kbd_ok s ->
  let '(out, s', t') := krun evs s t in
  arun evs (abs s) t = (out, abs s', t') /\ kbd_ok s' /\ intr s' = intr s.
Proof.
  revert s t. induction evs as [|[|] evs IH]; intros s t Hok; cbn [krun arun].
  - done.
  - pose proof (handler_ok dev s t Hok) as H.
    destruct (keyboard_handler dev s t) as [s1 t1]. destruct H as (-> & Hok1 & <- & Hi1).
    specialize (IH s1 (t ++ [In KEYBOARD_PORT (u8 (dev t KEYBOARD_PORT)); Out 32 32]) Hok1).
    destruct (krun evs s1 _) as [[out s'] t']. by rewrite <- Hi1.
  - pose proof (getchar_abs s Hok) as H.
    destruct (kbd_getchar s) as [r s1]. cbn [abs a_queue a_shift a_caps a_ctrl].
    destruct (match queue s with [] => (-1, []) | c :: q => (c, q) end) as [c q].
    destruct H as (-> & <- & Hok1 & Hi1). specialize (IH s1 t Hok1).
    destruct (krun evs s1 t) as [[out s'] t']. destruct IH as (-> & ? & ?). by rewrite <- Hi1.
Qed.

(** Only characters reach the queue. *)
Definition chars_ok (a : akbd) : Prop := Forall (fun c => 0 < c < 128) (a_queue a).

Lemma enqueue_ok c q :
  0 < c < 128 -> Forall (fun c => 0 < c < 128) q -> Forall (fun c => 0 < c < 128) (enqueue c q).
Proof.
  intros Hc Hq. unfold enqueue. destruct (_ <? 255)%nat; [|done].
  apply Forall_app. by split; [|constructor].
Qed.

Lemma akey_chars code a : 0 <= code < 256 -> chars_ok a -> chars_ok (akey code a).
Proof.
  intros Hc Ha. unfold akey, chars_ok in *.
  assert (Hk : 0 <= code mod 128 < 128) by (apply Z.mod_pos_bound; lia).
  destruct (_ =? KEY_LCONTROL); [done|].
  destruct (negb _ && _ && _); [by apply enqueue_ok|].
  destruct (_ || _); [done|]. destruct (_ && _); [done|].
  destruct (128 <=? code); cbn [orb]; [done|].
  pose proof (char_of_ascii (a_shift a) (a_caps a) _ Hk).
  destruct (Z.eqb_spec (char_of (a_shift a) (a_caps a) (code mod 128)) 0); [done|].
  apply enqueue_ok; [lia|done].
Qed.

Lemma arun_chars evs a t :
  chars_ok a ->
  let '(out, a', _) := arun evs a t in Forall (fun c => c = -1 \/ 0 < c < 128) out /\ chars_ok a'.
Proof.
  revert a t. induction evs as [|[|] evs IH]; intros a t Ha; cbn [arun].
  - by split.
  - apply IH. apply akey_chars; [apply u8_range|done].
  - unfold chars_ok in Ha. destruct (a_queue a) as [|c q].
    + specialize (IH (AKbd (a_shift a) (a_caps a) (a_ctrl a) []) t ltac:(constructor)).
      destruct (arun evs _ t) as [[out a'] t']. destruct IH. split; [|done]. constructor; [by left|done].
    + apply Forall_cons_1 in Ha as [Hc Hq].
      specialize (IH (AKbd (a_shift a) (a_caps a) (a_ctrl a) q) t Hq).
      destruct (arun evs _ t) as [[out a'] t']. destruct IH. split; [|done]. constructor; [by right|done].
Qed.
End Runs.

Lemma kbd0_ok i : kbd_ok (kbd0 i).
Proof. split; cbn; [done|lia..]. Qed.

(** ** Properties *)

(** A keyboard that sends: shift down, a, shift up, b, then right control
    (0xE0 0x1D) down and c. *)
Definition dev0 (t : trace) (port : Z) : Z :=
  nth (length t / 2) [42; 30; 170; 48; 224; 29; 46] 0.

(** C27. The driver is a queue behind a key decoder: for any interleaving of
    keyboard interrupts and [kbd_getchar] calls, and any scan codes the
    keyboard sends, the calls return what the abstract driver returns: the
    decoded characters in the order typed, dropping a character only when 255
    are waiting; and the interrupt flag is as before. *)
Theorem kbd_fifo dev evs s t :
  kbd_ok s ->
  let '(out, s', t') := krun dev evs s t in
  arun dev evs (abs s) t = (out, abs s', t') /\ kbd_ok s' /\ intr s' = intr s.
Proof. apply krun_ok. Qed.

Lemma kbd_fifo_witness :
  (krun dev0 [KIrq; KIrq; KIrq; KIrq; KGet; KIrq; KIrq; KIrq; KGet; KGet; KGet] (kbd0 true) []).1.1 =
  [65; 98; 3; -1].
Proof.
  pose proof (kbd_fifo dev0 [KIrq; KIrq; KIrq; KIrq; KGet; KIrq; KIrq; KIrq; KGet; KGet; KGet]
    (kbd0 true) [] (kbd0_ok true)) as H.
  destruct (krun _ _ _ _) as [[out s'] t']. destruct H as [H _]. cbn [fst].
  apply (f_equal (fun x => x.1.1)) in H. cbn [fst] in H. etransitivity; [symmetry; exact H|].
  vm_compute. reflexivity.
Defined.

(** Every interrupt reads the controller once and sends exactly one end
    of interrupt, on each path of the handler; its effect on the state is the
    decoder's, and the buffer indices stay in bounds. *)
Theorem keyboard_handler_eoi dev s t :
  kbd_ok s ->
  let code := u8 (dev t KEYBOARD_PORT) in
  let '(s', t') := keyboard_handler dev s t in
  t' = t ++ [In KEYBOARD_PORT code; Out 32 32] /\ kbd_ok s' /\ abs s' = akey code (abs s) /\
  intr s' = intr s.
Proof. apply handler_ok. Qed.

Lemma keyboard_handler_eoi_witness :
  (keyboard_handler dev0 (kbd0 true) []).2 = [In 96 42; Out 32 32].
Proof.
  pose proof (keyboard_handler_eoi dev0 (kbd0 true) [] (kbd0_ok true)) as H.
  destruct (keyboard_handler _ _ _) as [s' t']. apply H.
Defined.

(** From the initial state [kbd_getchar] returns -1 or an ASCII code from
    1 to 127, so -1 is never taken for a character; a letter key gives upper
    case exactly when one of shift and caps lock is on. *)
Theorem kbd_chars_ascii dev evs i t :
  let '(out, s', _) := krun dev evs (kbd0 i) t in
  Forall (fun c => c = -1 \/ 0 < c < 128) out /\
  ((kbd_getchar s').1 = -1 <-> queue s' = []) /\
  (forall k c, (k, c) ∈ alpha_keys ->
     97 <= c <= 122 /\
     get_ascii_char s' k = if xorb (shift_down s') (caps_lock s') then c - 32 else c).
Proof.
  pose proof (krun_ok dev evs (kbd0 i) t (kbd0_ok i)) as H.
  pose proof (arun_chars dev evs (abs (kbd0 i)) t ltac:(constructor)) as Ha.
  destruct (krun dev evs (kbd0 i) t) as [[out s'] t']. destruct H as (E & Hok & _). rewrite E in Ha.
  destruct Ha as [Ha1 Ha2].
  pose proof (getchar_queue s' Hok) as Hg. destruct (kbd_getchar s') as [r s2]. cbn [fst].
  destruct Hg as (_ & _ & Hg). unfold chars_ok in Ha2. cbn [a_queue abs] in Ha2.
  split; [done|]. split.
  - destruct (queue s') as [|c q]; destruct Hg as [-> _]; [done|].
    apply Forall_cons_1 in Ha2 as [Hc _]. split; [lia|done].
  - intros k c Hin. destruct s' as [[] [] ct b h tl il]; cbn [shift_down caps_lock xorb];
      unfold alpha_keys in Hin;
      repeat (apply elem_of_cons in Hin as [[= -> ->]|Hin]; [split; [lia|vm_compute; reflexivity]|]);
      by apply not_elem_of_nil in Hin.
Qed.
