(* ===== verification/Clock.v ===== *)
(** * time/timer.c, time/clock/clock.c and time/clock/rtc.c

    The timer interrupt's counters, the software clock it advances once per
    1000 ticks, and the reading of the CMOS real-time clock that sets it.
    [rtc_wait_ready] polls the device until it is ready; the polls are bounded
    by fuel, and a device that is busy at every one of them ends the reading
    with [None], the code still being in its loop. *)

From Stdlib Require Import ZArith Lia.
From S2P Require Import Prelude PortIO.

Record ClockTime := Clock { hh : Z; mm : Z; ss : Z }.

Definition clock_tick (c : ClockTime) : ClockTime :=
  let c := Clock (hh c) (mm c) (u8 (ss c + 1)) in
  if 60 <=? ss c then
    let c := Clock (hh c) (u8 (mm c + 1)) 0 in
    if 60 <=? mm c then
      let c := Clock (u8 (hh c + 1)) 0 (ss c) in
      if 24 <=? hh c then Clock 0 (mm c) (ss c) else c
    else c
  else c.

(** The nine bytes of "hh:mm:ss" and the NUL. *)
Definition format_clock (t : ClockTime) : list Z :=
  [u8 (48 + hh t / 10); u8 (48 + hh t mod 10); 58;
   u8 (48 + mm t / 10); u8 (48 + mm t mod 10); 58;
   u8 (48 + ss t / 10); u8 (48 + ss t mod 10); 0].

Record timer := Timer { tick_time : Z; seconds : Z; system_clock : ClockTime }.

(** The counting part, the same in [isr_timer_dispatch] and [timer_tick]. *)
Definition count_tick (s : timer) : timer :=
  let s := Timer (u16 (tick_time s + 1)) (seconds s) (system_clock s) in
  if 1000 <=? tick_time s then Timer 0 (u32 (seconds s + 1)) (clock_tick (system_clock s)) else s.
Definition timer_tick (s : timer) : io timer :=
  let s := count_tick s in
  pic_send_eoi 0;;; io_ret s.

(** ** The real-time clock *)

Definition TIMEZONE_OFFSET : Z := 7.
Definition bcd_to_bin (bcd : Z) : Z := u8 (Z.land bcd 15 + Z.shiftr bcd 4 * 10).

Section Rtc.
Context (dev : trace -> Z -> Z).

Fixpoint rtc_wait_ready (fuel : nat) : io bool :=
  match fuel with
  | O => io_ret false
  | S k =>
      outb 112 10;;;
      v <-- inb dev 113;
      if Z.land v 128 =? 0 then io_ret true else rtc_wait_ready k
  end.

Definition cmos_read (reg : Z) : io Z := outb 112 reg;;; inb dev 113.

Definition read_rtc_time (fuel : nat) : io (option (Z * Z * Z)) :=
  ready <-- rtc_wait_ready fuel;
  if negb ready then io_ret None else
  sec <-- cmos_read 0;
  min <-- cmos_read 2;
  hour <-- cmos_read 4;
  regB <-- cmos_read 11;
  let '(sec, min, hour) :=
    if Z.land regB 4 =? 0
    then (bcd_to_bin sec, bcd_to_bin min, bcd_to_bin (Z.land hour 127))
    else (sec, min, Z.land hour 127) in
  (* the second read of register 4 happens in 12-hour mode only *)
  pm <-- (if Z.land regB 2 =? 0
          then v <-- cmos_read 4; io_ret (negb (Z.land v 128 =? 0))
          else io_ret false);
  let hour := if pm : bool then u8 (Z.rem (hour + 12) 24) else hour in
  let hour := u8 (Z.rem (hour + TIMEZONE_OFFSET + 24) 24) in
  io_ret (Some (hour, min, sec)).

Definition init_system_clock (fuel : nat) (s : timer) : io (option timer) :=
  r <-- read_rtc_time fuel;
  io_ret (match r with
    | Some (h, m, s') => Some (Timer (tick_time s) (seconds s) (Clock (u8 h) (u8 m) (u8 s')))
    | None => None
    end).

(** *** When the wait ends

    One poll selects register 10 and reads it: [rtc_ready] is its answer,
    [polled n] the port accesses after [n] of them. *)
Definition rtc_ready (t : trace) : bool := Z.land (u8 (dev (t ++ [Out 112 10]) 113)) 128 =? 0.
Fixpoint polled (n : nat) (t : trace) : trace :=
  match n with O => t | S n => polled n (inb dev 113 (t ++ [Out 112 10])).2 end.

Lemma rtc_wait_poll fuel t :
  rtc_wait_ready (S fuel) t =
    if rtc_ready t then (true, polled 1 t) else rtc_wait_ready fuel (polled 1 t).
Proof.
  unfold rtc_ready. cbn [rtc_wait_ready polled]. unfold io_bind, outb, inb, io_ret. change (u8 10) with 10.
  cbn [snd]. by destruct (Z.land _ 128 =? 0).
Qed.

Lemma rtc_wait_ends n fuel t :
  (n < fuel)%nat -> rtc_ready (polled n t) = true -> exists t', rtc_wait_ready fuel t = (true, t').
Proof.
  revert fuel t. induction n as [|n IH]; intros [|fuel] t Hn Hr; [lia| |lia|]; rewrite rtc_wait_poll.
  - cbn [polled] in Hr. rewrite Hr. by eexists.
  - destruct (rtc_ready t); [by eexists|]. apply IH; [lia|exact Hr].
Qed.

Lemma rtc_wait_stuck fuel t :
  (forall n, (n < fuel)%nat -> rtc_ready (polled n t) = false) -> exists t', rtc_wait_ready fuel t = (false, t').
Proof.
  revert t. induction fuel as [|fuel IH]; intros t Hn; [by eexists|].
  rewrite rtc_wait_poll, (Hn 0%nat ltac:(lia) : rtc_ready t = false).
  apply IH. intros n Hlt. apply (Hn (S n)). lia.
Qed.

Lemma init_clock_ready n fuel s t :
  (n < fuel)%nat -> rtc_ready (polled n t) = true ->
  exists c t', init_system_clock fuel s t =
    (Some (Timer (tick_time s) (seconds s) (Clock (u8 (hh c)) (u8 (mm c)) (u8 (ss c)))), t').
Proof.
  intros Hn Hr. destruct (rtc_wait_ends n fuel t Hn Hr) as [t1 E].
  unfold init_system_clock, read_rtc_time, cmos_read, io_bind, outb, inb, io_ret. rewrite E. cbn [negb].
  repeat case_match; simplify_eq;
    lazymatch goal with |- exists c t', (Some (Timer _ _ (Clock (u8 ?h) (u8 ?m) (u8 ?s))), ?t) = _ =>
      by exists (Clock h m s), t end.
Qed.

Lemma init_clock_busy fuel s t :
  (forall n, (n < fuel)%nat -> rtc_ready (polled n t) = false) ->
  exists t', init_system_clock fuel s t = (None, t').
Proof.
  intros Hn. destruct (rtc_wait_stuck fuel t Hn) as [t1 E].
  unfold init_system_clock, read_rtc_time, io_bind, io_ret. rewrite E. by eexists.
Qed.
End Rtc.

(** ** Time of day *)

Definition clock_ok (c : ClockTime) : Prop := 0 <= hh c < 24 /\ 0 <= mm c < 60 /\ 0 <= ss c < 60.
Definition tod (c : ClockTime) : Z := hh c * 3600 + mm c * 60 + ss c.

Lemma clock_tick_tod c :
  clock_ok c -> clock_ok (clock_tick c) /\ tod (clock_tick c) = (tod c + 1) mod 86400.
Proof.
  destruct c as [h m s]. unfold clock_ok, tod, clock_tick. cbn [hh mm ss]. intros (H1 & H2 & H3).
  rewrite (u8_small (s + 1)) by lia.
  destruct (Z.leb_spec 60 (s + 1)); cbn [hh mm ss]; [|rewrite Z.mod_small; lia].
  rewrite (u8_small (m + 1)) by lia.
  destruct (Z.leb_spec 60 (m + 1)); cbn [hh mm ss]; [|rewrite Z.mod_small; lia].
  rewrite (u8_small (h + 1)) by lia.
  destruct (Z.leb_spec 24 (h + 1)); cbn [hh mm ss]; [|rewrite Z.mod_small; lia].
  split; [lia|]. replace (h * 3600 + m * 60 + s + 1) with (0 + 1 * 86400) by lia. by rewrite Z.mod_add.
Qed.

Lemma tod_range c : clock_ok c -> 0 <= tod c < 86400.
Proof. unfold clock_ok, tod. lia. Qed.

(** The time of day determines the clock. *)
Lemma tod_inj c c' : clock_ok c -> clock_ok c' -> tod c = tod c' -> c = c'.
Proof. destruct c, c'. unfold clock_ok, tod. cbn [hh mm ss]. intros. f_equal; lia. Qed.

Definition timer_ok (s : timer) : Prop :=
  0 <= tick_time s < 1000 /\ 0 <= seconds s < 4294967296 /\ clock_ok (system_clock s).

(** Ticks counted so far, as the counters and the clock show them. *)
Lemma count_tick_ok s :
  timer_ok s ->
  let s' := count_tick s in
  timer_ok s' /\
  tick_time s' = (tick_time s + 1) mod 1000 /\
  seconds s' = u32 (seconds s + (tick_time s + 1) / 1000) /\
  tod (system_clock s') = (tod (system_clock s) + (tick_time s + 1) / 1000) mod 86400.
Proof.
  intros (H1 & H2 & H3). unfold count_tick. cbn [tick_time seconds system_clock].
  rewrite u16_small by lia. destruct (Z.leb_spec 1000 (tick_time s + 1)) as [Hge|Hlt];
    cbn [tick_time seconds system_clock].
  - replace (tick_time s + 1) with 1000 by lia. rewrite Z_div_same, Z_mod_same by lia.
    destruct (clock_tick_tod _ H3) as [H4 H5]. split; [|done].
    split; [cbn; lia|]. split; [apply u32_range|done].
  - rewrite Z.div_small, Z.mod_small, Z.add_0_r, u32_small, Z.add_0_r by lia.
    rewrite Z.mod_small by (apply tod_range, H3). split; [|done]. split; [cbn; lia|done].
Qed.

Fixpoint ticks (n : nat) (s : timer) : timer :=
  match n with O => s | S n => ticks n (count_tick s) end.

Lemma div_step a : 0 <= a -> forall n, 0 <= n ->
  (a + 1) / 1000 + ((a + 1) mod 1000 + n) / 1000 = (a + 1 + n) / 1000 /\
  ((a + 1) mod 1000 + n) mod 1000 = (a + 1 + n) mod 1000.
Proof.
  intros Ha n Hn. pose proof (Z.div_mod (a + 1) 1000 ltac:(lia)) as E.
  set (q := (a + 1) / 1000) in *. set (r := (a + 1) mod 1000) in *.
  replace (a + 1 + n) with (r + n + q * 1000) by lia. rewrite Z.div_add, Z.mod_add by lia. lia.
Qed.

Lemma ticks_ok n s :
  timer_ok s ->
  let s' := ticks n s in
  timer_ok s' /\
  tick_time s' = (tick_time s + Z.of_nat n) mod 1000 /\
  seconds s' = u32 (seconds s + (tick_time s + Z.of_nat n) / 1000) /\
  tod (system_clock s') = (tod (system_clock s) + (tick_time s + Z.of_nat n) / 1000) mod 86400.
Proof.
  revert s. induction n as [|n IH]; intros s Hok; cbn [ticks].
  - destruct Hok as (H1 & H2 & H3). rewrite Nat2Z.inj_0, Z.add_0_r, Z.mod_small, Z.div_small by lia.
    rewrite !Z.add_0_r, u32_small by lia. rewrite Z.mod_small by (apply tod_range, H3). done.
  - destruct (count_tick_ok s Hok) as (H1 & H2 & H3 & H4).
    destruct (IH _ H1) as (I1 & I2 & I3 & I4). split; [done|].
    rewrite I2, I3, I4, H2, H3, H4. destruct Hok as (Ht & _).
    destruct (div_step (tick_time s) ltac:(lia) (Z.of_nat n) ltac:(lia)) as [D1 D2].
    replace (tick_time s + Z.of_nat (S n)) with (tick_time s + 1 + Z.of_nat n) by lia.
    split; [done|]. rewrite <- D1. split.
    + unfold u32. rewrite Zplus_mod_idemp_l. f_equal. lia.
    + rewrite Zplus_mod_idemp_l. f_equal. lia.
Qed.

(** ** BCD and the device *)

Definition bin_to_bcd (n : Z) : Z := n / 10 * 16 + n mod 10.

Lemma bcd_round n : 0 <= n < 100 -> bcd_to_bin (bin_to_bcd n) = n.
Proof.
  intros Hn. unfold bcd_to_bin, bin_to_bcd.
  pose proof (Z.div_mod n 10 ltac:(lia)). pose proof (Z.mod_pos_bound n 10 ltac:(lia)).
  change 15 with (Z.ones 4). rewrite Z.land_ones by lia. rewrite Z.shiftr_div_pow2 by lia.
  change (2 ^ 4) with 16. replace (n / 10 * 16 + n mod 10) with (n mod 10 + n / 10 * 16) by lia.
  rewrite Z.mod_add, Z.div_add by lia.
  rewrite Z.mod_small, Z.div_small by lia. rewrite u8_small; lia.
Qed.

(** A CMOS chip with the registers [regs] that is busy for the first [busy]
    polls: port 112 selects a register, port 113 reads it. *)
Definition selected (t : trace) : Z :=
  fold_left (fun r a => match a with Out 112 v => v | _ => r end) t 0.
Definition polls (t : trace) : nat :=
  fold_left (fun n a => match a with Out 112 10 => S n | _ => n end) t O.
Definition cmos (regs : Z -> Z) (busy : nat) (t : trace) (port : Z) : Z :=
  if selected t =? 10 then (if (polls t <=? busy)%nat then 128 else 0) else regs (selected t).

Section Cmos.
Context (regs : Z -> Z) (busy : nat).
Abbreviation dev := (cmos regs busy).

Lemma selected_out t v : selected (t ++ [Out 112 v]) = v.
Proof. unfold selected. by rewrite fold_left_app. Qed.

Lemma cmos_read_ok reg t :
  0 <= reg < 256 -> reg <> 10 -> exists t', cmos_read dev reg t = (u8 (regs reg), t').
Proof.
  intros Hr Hne. unfold cmos_read, io_bind, outb, inb. rewrite (u8_small reg) by done.
  unfold cmos. rewrite selected_out. rw_test. by eexists.
Qed.

Lemma rtc_wait_ok fuel t :
  (busy < polls t + fuel)%nat -> (0 < fuel)%nat -> exists t', rtc_wait_ready dev fuel t = (true, t').
Proof.
  revert t. induction fuel as [|fuel IH]; intros t Hf H0; [lia|]. cbn [rtc_wait_ready].
  unfold io_bind, outb, inb. change (u8 10) with 10. unfold cmos at 1 3. rewrite selected_out.
  change (10 =? 10) with true. cbn beta iota.
  assert (Hp : polls (t ++ [Out 112 10]) = S (polls t)).
  { unfold polls. by rewrite fold_left_app. }
  rewrite Hp. destruct (Nat.leb_spec (S (polls t)) busy) as [Hle|Hgt].
  - change (u8 128) with 128. change (Z.land 128 128 =? 0) with false. cbn beta iota.
    apply IH; [|lia]. unfold polls in *. rewrite fold_left_app, Hp. cbn [fold_left]. lia.
  - change (u8 0) with 0. change (Z.land 0 128 =? 0) with true. by eexists.
Qed.

(** With the chip in BCD or binary mode, 24-hour or 12-hour, as its register
    B says. *)
Lemma read_rtc_ok fuel t :
  (busy < fuel)%nat ->
  let b := u8 (regs 11) in
  let dec v := if Z.land b 4 =? 0 then bcd_to_bin v else v in
  let pm := (Z.land b 2 =? 0) && negb (Z.land (u8 (regs 4)) 128 =? 0) in
  let h := dec (Z.land (u8 (regs 4)) 127) in
  let h := if pm then u8 (Z.rem (h + 12) 24) else h in
  exists t', read_rtc_time dev fuel t =
    (Some (u8 (Z.rem (h + TIMEZONE_OFFSET + 24) 24), dec (u8 (regs 2)), dec (u8 (regs 0))), t').
Proof.
  intros Hf b dec pm h0 h. unfold read_rtc_time, io_bind.
  destruct (rtc_wait_ok fuel t ltac:(lia) ltac:(lia)) as [t1 ->]. cbn [negb].
  destruct (cmos_read_ok 0 t1) as [t2 ->]; [lia..|].
  destruct (cmos_read_ok 2 t2) as [t3 ->]; [lia..|].
  destruct (cmos_read_ok 4 t3) as [t4 ->]; [lia..|].
  destruct (cmos_read_ok 11 t4) as [t5 ->]; [lia..|].
  fold b. unfold io_ret. subst h h0 pm dec. destruct (Z.land b 4 =? 0); destruct (Z.land b 2 =? 0); cbn [andb].
  1,3: destruct (cmos_read_ok 4 t5) as [t6 ->]; [lia..|]; by eexists.
  all: by eexists.
Qed.
End Cmos.

(** ** Properties *)

(** C29. Timer interrupts keep exact time: after [n] ticks the millisecond
    counter, the uptime in seconds (32 bits, so it wraps after 136 years) and
    the time of day (modulo 24 hours) are those of [n] milliseconds later, and
    the clock fields stay in range; each tick sends one end of interrupt. *)
Theorem timer_keeps_time n s t :
  timer_ok s ->
  let s' := ticks n s in
  timer_ok s' /\
  tick_time s' = (tick_time s + Z.of_nat n) mod 1000 /\
  seconds s' = u32 (seconds s + (tick_time s + Z.of_nat n) / 1000) /\
  tod (system_clock s') = (tod (system_clock s) + (tick_time s + Z.of_nat n) / 1000) mod 86400 /\
  timer_tick s t = (count_tick s, t ++ [Out 32 32]).
Proof.
  intros Hok s'. destruct (ticks_ok n s Hok) as (H1 & H2 & H3 & H4).
  do 4 (split; [done|]). done.
Qed.

Lemma timer_keeps_time_witness :
  tod (system_clock (ticks 2500 (Timer 600 0 (Clock 23 59 58)))) = 1 /\
  seconds (ticks 2500 (Timer 600 0 (Clock 23 59 58))) = 3.
Proof.
  destruct (timer_keeps_time 2500 (Timer 600 0 (Clock 23 59 58)) []) as (_ & _ & H1 & H2 & _).
  - repeat split; cbn; lia.
  - split; [rewrite H2|rewrite H1]; vm_compute; reflexivity.
Defined.

(** [read_rtc_time] on a CMOS chip that shows [h]:[m]:[s] in 24-hour mode,
    in BCD or in binary, waits until the chip is ready and returns the time of
    the time zone (UTC+7). *)
Theorem rtc_reads_24h regs busy fuel t h m s bcd :
  0 <= h < 24 -> 0 <= m < 60 -> 0 <= s < 60 -> (busy < fuel)%nat ->
  let enc v := if bcd : bool then bin_to_bcd v else v in
  regs 0 = enc s -> regs 2 = enc m -> regs 4 = enc h -> regs 11 = (if bcd then 2 else 6) ->
  exists t', read_rtc_time (cmos regs busy) fuel t = (Some ((h + 7) mod 24, m, s), t').
Proof.
  intros Hh Hm Hs Hf enc E0 E2 E4 E11.
  destruct (read_rtc_ok regs busy fuel t Hf) as [t' E]. exists t'. rewrite E. clear E.
  assert (Hsmall : forall v, 0 <= v < 60 -> 0 <= enc v < 256 /\ (v < 24 -> enc v < 128)).
  { intros v Hv. subst enc. cbn beta. destruct bcd; [|lia]. unfold bin_to_bcd.
    pose proof (Z.div_mod v 10 ltac:(lia)). pose proof (Z.mod_pos_bound v 10 ltac:(lia)). lia. }
  rewrite E0, E2, E4. rewrite (u8_small (enc h)), (u8_small (enc m)), (u8_small (enc s)) by (apply Hsmall; lia).
  assert (Hland : Z.land (enc h) 127 = enc h).
  { change 127 with (Z.ones 7). rewrite Z.land_ones by lia. apply Z.mod_small.
    destruct (Hsmall h); [lia|]. change (2 ^ 7) with 128. lia. }
  rewrite Hland.
  assert (Hb : (Z.land (u8 (regs 11)) 2 =? 0) = false) by (rewrite E11; by destruct bcd).
  rewrite Hb. cbn [andb].
  assert (Hdec : forall v, 0 <= v < 60 ->
    (if Z.land (u8 (regs 11)) 4 =? 0 then bcd_to_bin (enc v) else enc v) = v).
  { intros v Hv. rewrite E11. subst enc. cbn beta. destruct bcd; [|done].
    change (Z.land (u8 2) 4 =? 0) with true. cbn beta iota. apply bcd_round. lia. }
  rewrite !Hdec by lia. unfold TIMEZONE_OFFSET.
  do 4 f_equal. rewrite Z.rem_mod_nonneg by lia.
  pose proof (Z.mod_pos_bound (h + 7 + 24) 24 ltac:(lia)). rewrite u8_small by lia.
  replace (h + 7 + 24) with (h + 7 + 1 * 24) by lia. by rewrite Z.mod_add.
Qed.

Lemma rtc_reads_24h_witness :
  exists t', read_rtc_time (cmos (fun r => if r =? 0 then 89 else if r =? 2 then 48 else
    if r =? 4 then 35 else 2) 3) 9 [] = (Some (6, 30, 59), t').
Proof.
  apply (rtc_reads_24h _ 3 9 [] 23 30 59 true).
  - lia.
  - lia.
  - lia.
  - lia.
  - reflexivity.
  - reflexivity.
  - reflexivity.
  - reflexivity.
Defined.

(** In 12-hour mode noon is read as midnight and midnight as noon (12 is
    not reduced to 0 before the PM hours are added): twelve hours off for the
    whole first hour of each half day; the other hours are right. *)
Theorem rtc_12h_noon regs busy fuel t h pm m s :
  1 <= h <= 12 -> 0 <= m < 60 -> 0 <= s < 60 -> (busy < fuel)%nat ->
  regs 0 = bin_to_bcd s -> regs 2 = bin_to_bcd m ->
  regs 4 = bin_to_bcd h + (if pm : bool then 128 else 0) -> regs 11 = 0 ->
  let hour := h mod 12 + (if pm then 12 else 0) in
  exists t', read_rtc_time (cmos regs busy) fuel t =
    (Some (((if h =? 12 then hour + 12 else hour) + 7) mod 24, m, s), t').
Proof.
  intros Hh Hm Hs Hf E0 E2 E4 E11 hour.
  destruct (read_rtc_ok regs busy fuel t Hf) as [t' E]. exists t'. rewrite E. clear E.
  assert (Hsmall : forall v, 0 <= v < 60 -> 0 <= bin_to_bcd v < 256 /\ (v < 24 -> bin_to_bcd v < 128)).
  { intros v Hv. unfold bin_to_bcd.
    pose proof (Z.div_mod v 10 ltac:(lia)). pose proof (Z.mod_pos_bound v 10 ltac:(lia)). lia. }
  rewrite E0, E2, E11. rewrite (u8_small (bin_to_bcd m)), (u8_small (bin_to_bcd s)) by (apply Hsmall; lia).
  change (Z.land (u8 0) 4 =? 0) with true. change (Z.land (u8 0) 2 =? 0) with true. cbn beta iota.
  rewrite !bcd_round by lia. cbn [andb].
  assert (Hcases : exists k, h = k /\ List.In k [1;2;3;4;5;6;7;8;9;10;11;12]).
  { exists h. split; [done|]. simpl. lia. }
  assert (H4 : bcd_to_bin (Z.land (u8 (regs 4)) 127) = h /\
    negb (Z.land (u8 (regs 4)) 128 =? 0) = pm).
  { rewrite E4. clear -Hcases. destruct Hcases as (k & -> & Hk). simpl List.In in Hk.
    repeat (destruct Hk as [<-|Hk]; [by destruct pm|]). done. }
  destruct H4 as [-> ->]. unfold TIMEZONE_OFFSET. subst hour. clear -Hcases.
  destruct Hcases as (k & -> & Hk). simpl List.In in Hk.
  repeat (destruct Hk as [<-|Hk]; [by destruct pm|]). done.
Qed.

Lemma rtc_12h_noon_witness :
  exists t', read_rtc_time (cmos (fun r => if r =? 4 then 18 + 128 else 0) 0) 1 [] =
    (Some ((0 + 7) mod 24, 0, 0), t').
Proof.
  apply (rtc_12h_noon _ 0 1 [] 12 true 0 0).
  - lia.
  - lia.
  - lia.
  - lia.
  - reflexivity.
  - reflexivity.
  - reflexivity.
  - reflexivity.
Defined.

(** [format_clock] prints two digits per field, and the field can be read
    back from them: 48 is the character 0. *)
Theorem format_clock_digits c :
  clock_ok c ->
  let b := format_clock c in
  length b = 9%nat /\ nth 2 b 0 = 58 /\ nth 5 b 0 = 58 /\ nth 8 b 0 = 0 /\
  hh c = (nth 0 b 0 - 48) * 10 + (nth 1 b 0 - 48) /\
  mm c = (nth 3 b 0 - 48) * 10 + (nth 4 b 0 - 48) /\
  ss c = (nth 6 b 0 - 48) * 10 + (nth 7 b 0 - 48) /\
  Forall (fun i => 48 <= nth i b 0 <= 57) [0; 1; 3; 4; 6; 7]%nat.
Proof.
  intros (H1 & H2 & H3) b. subst b. unfold format_clock.
  assert (Hd : forall v, 0 <= v < 60 -> u8 (48 + v / 10) = 48 + v / 10 /\ u8 (48 + v mod 10) = 48 + v mod 10 /\
    v = 10 * (v / 10) + v mod 10 /\ 0 <= v mod 10 < 10 /\ 0 <= v / 10 < 10).
  { intros v Hv. pose proof (Z.div_mod v 10 ltac:(lia)). pose proof (Z.mod_pos_bound v 10 ltac:(lia)).
    rewrite !u8_small by lia. lia. }
  destruct (Hd (hh c)) as (-> & -> & ? & ? & ?); [lia|].
  destruct (Hd (mm c)) as (-> & -> & ? & ? & ?); [lia|].
  destruct (Hd (ss c)) as (-> & -> & ? & ? & ?); [lia|].
  cbn [nth length]. repeat split; try lia. repeat constructor; lia.
Qed.

Lemma format_clock_digits_witness : hh (Clock 7 30 59) = (nth 0 (format_clock (Clock 7 30 59)) 0 - 48) * 10 + 7.
Proof. apply (format_clock_digits (Clock 7 30 59)). repeat split; cbn; lia. Defined.
