(* ===== verification/Vga.v ===== *)
(** * vga/vga.c

    The text screen: 80 by 25 cells of a character byte and an attribute byte
    at 0xB8000, and the software cursor.  Every function that moves the
    hardware cursor is an [io] computation. *)

From Stdlib Require Import ZArith Lia.
From S2P Require Import Prelude Memory PortIO Clock.

Definition VGA_BUF : Z := 753664. (* 0xB8000 *)
Definition VGA_WIDTH : Z := 80.
Definition VGA_HEIGHT : Z := 25.
Definition VGA_CTRL : Z := 980.
Definition VGA_DATA : Z := 981.
Definition CURSOR_HIGH : Z := 14.
Definition CURSOR_LOW : Z := 15.
Definition TAB_SIZE : Z := 8.
Definition BLACK : Z := 0.
Definition RED : Z := 4.
Definition YELLOW : Z := 14.
Definition WHITE : Z := 15.

Record vga := Vga { vx : Z; vy : Z; vmem : mem }.
Definition on_vmem (f : mem -> mem) (s : vga) : vga := Vga (vx s) (vy s) (f (vmem s)).

Definition make_color (fore back : Z) : Z := u8 (Z.lor (Z.shiftl back 4) (Z.land fore 15)).

(** [vid[offset] = c; vid[offset + 1] = color;] *)
Definition put (m : mem) (offset c color : Z) : mem :=
  wb (wb m (VGA_BUF + offset) (u8 c)) (VGA_BUF + offset + 1) color.

Fixpoint clean_loop (k : nat) (i : Z) (m : mem) : mem :=
  match k with O => m | S k => clean_loop k (i + 2) (put m i 32 7) end.
Definition clean_screen (s : vga) : vga :=
  Vga 0 0 (clean_loop (Z.to_nat (VGA_WIDTH * VGA_HEIGHT)) 0 (vmem s)).

(** [vid[i]] for the [uint16_t *vid] of [scroll_screen]. *)
Definition vget (m : mem) (i : Z) : Z := ld 2 m (VGA_BUF + 2 * i).
Definition vset (m : mem) (i v : Z) : mem := st 2 m (VGA_BUF + 2 * i) v.

Fixpoint scroll_copy (k : nat) (i : Z) (m : mem) : mem :=
  match k with O => m | S k => scroll_copy k (i + 1) (vset m i (vget m (i + VGA_WIDTH))) end.
Fixpoint scroll_blank (k : nat) (i : Z) (m : mem) : mem :=
  match k with
  | O => m
  | S k => scroll_blank k (i + 1) (vset m i (u16 (Z.lor (Z.shiftl (make_color BLACK BLACK) 8) 32)))
  end.
Definition scroll_screen (s : vga) : vga :=
  let n := (VGA_HEIGHT - 1) * VGA_WIDTH in
  let m := scroll_copy (Z.to_nat n) 0 (vmem s) in
  let m := scroll_blank (Z.to_nat VGA_WIDTH) n m in
  Vga (vx s) (if 0 <? vy s then u8 (vy s - 1) else vy s) m.

Definition print_char_position (c x y fore back : Z) (s : vga) : vga :=
  if (VGA_WIDTH <=? x) || (VGA_HEIGHT <=? y) then s
  else
    let color := make_color fore back in
    let offset := u32 ((y * VGA_WIDTH + x) * 2) in
    on_vmem (fun m => put m offset c color) s.

Definition update_hardware_cursor (x y : Z) : io unit :=
  let pos := u16 (y * VGA_WIDTH + x) in
  outb VGA_CTRL CURSOR_HIGH;;;
  outb VGA_DATA (Z.land (Z.shiftr pos 8) 255);;;
  outb VGA_CTRL CURSOR_LOW;;;
  outb VGA_DATA (Z.land pos 255).

(** [x = 0; y++; if (y >= VGA_HEIGHT) {...}] *)
Definition new_line (s : vga) : vga :=
  let s := Vga 0 (u8 (vy s + 1)) (vmem s) in
  if VGA_HEIGHT <=? vy s then
    let s := scroll_screen s in Vga (vx s) (VGA_HEIGHT - 1) (vmem s)
  else s.

Definition print_char (c fore back : Z) (s : vga) : io vga :=
  let color := make_color fore back in
  if c =? 10 then io_ret (new_line s)
  else
    let offset := u32 ((vy s * VGA_WIDTH + vx s) * 2) in
    let s := on_vmem (fun m => put m offset c color) s in
    let s := Vga (u8 (vx s + 1)) (vy s) (vmem s) in
    let s := if VGA_WIDTH <=? vx s then new_line s else s in
    update_hardware_cursor (vx s) (vy s);;; io_ret s.

(** One turn of the loop of [print_string_position]: memory, offset, column. *)
Fixpoint put_spaces (k : nat) (m : mem) (offset col color : Z) : mem * Z * Z :=
  match k with
  | O => (m, offset, col)
  | S k => put_spaces k (put m offset 32 color) (u32 (offset + 2)) (u32 (col + 1)) color
  end.
Fixpoint print_string_loop (str : list Z) (m : mem) (offset col color : Z) : mem :=
  match str with
  | [] => m
  | c :: str =>
      let '(m, offset, col) :=
        if c =? 9 then put_spaces (Z.to_nat (TAB_SIZE - col mod TAB_SIZE)) m offset col color
        else (put m offset c color, u32 (offset + 2), u32 (col + 1)) in
      if VGA_WIDTH <=? col then m else print_string_loop str m offset col color
  end.
Definition print_string_position (str : list Z) (x y fore back : Z) (s : vga) : vga :=
  let offset := u32 ((y * VGA_WIDTH + x) * 2) in
  let color := make_color fore back in
  on_vmem (fun m => print_string_loop str m offset x color) s.

Fixpoint print_chars (str : list Z) (fore back : Z) (s : vga) : io vga :=
  match str with
  | [] => io_ret s
  | c :: str =>
      if c =? 10 then print_chars str fore back (new_line s)
      else s <-- print_char c fore back s; print_chars str fore back s
  end.
Definition print_string (str : list Z) (fore back : Z) (s : vga) : io vga :=
  s <-- print_chars str fore back s;
  update_hardware_cursor (vx s) (vy s);;; io_ret s.

Definition backspace (s : vga) : io vga :=
  let s :=
    if vx s =? 0 then
      if 0 <? vy s then Vga (VGA_WIDTH - 1) (u8 (vy s - 1)) (vmem s) else s
    else Vga (u8 (vx s - 1)) (vy s) (vmem s) in
  let offset := u32 ((vy s * VGA_WIDTH + vx s) * 2) in
  let s := on_vmem (fun m => put m offset 32 (make_color BLACK BLACK)) s in
  update_hardware_cursor (vx s) (vy s);;; io_ret s.

Definition format_up (total_seconds : Z) : list Z :=
  let hours := total_seconds / 3600 in
  let minutes := total_seconds mod 3600 / 60 in
  let seconds := total_seconds mod 60 in
  [u8 (48 + hours / 10 mod 10); u8 (48 + hours mod 10); 58;
   u8 (48 + minutes / 10); u8 (48 + minutes mod 10); 58;
   u8 (48 + seconds / 10); u8 (48 + seconds mod 10); 0].

(** The loop of [print_time] and [print_systemup]: up to the NUL. *)
Fixpoint print_at (str : list Z) (x y fore back : Z) (s : vga) : vga :=
  match str with
  | [] => s
  | c :: str => if c =? 0 then s else print_at str (x + 1) y fore back (print_char_position c x y fore back s)
  end.
Definition print_systemup (t : timer) (s : vga) : vga :=
  print_at (format_up (seconds t)) 70 23 YELLOW BLACK s.
Definition print_time (t : timer) (s : vga) : vga :=
  print_at (format_clock (system_clock t)) 70 24 YELLOW BLACK s.

(** ** Cells *)

Definition cell_of (c color : Z) : Z := u8 c + 256 * u8 color.
Definition on_screen (i : Z) : Prop := 0 <= i < 2000.

Lemma vget_range m i : 0 <= vget m i < 65536.
Proof. apply (ld_range 2). Qed.

Lemma vget_vset m i v j : 0 <= v < 65536 -> vget (vset m i v) j = if i =? j then v else vget m j.
Proof.
  intros Hv. unfold vget, vset. bcase; [subst; by apply ld_st_small|]. apply ld_st_out. lia.
Qed.

Lemma vget_put m i c color j :
  vget (put m (2 * i) c color) j = if i =? j then cell_of c color else vget m j.
Proof.
  unfold vget, put, cell_of. cbn [ld].
  rewrite !rb_wb, u8_idem. destruct (Z.eqb_spec i j) as [->|Hne].
  - rewrite Z.eqb_refl. rewrite (proj2 (Z.eqb_neq (VGA_BUF + 2 * j + 1) (VGA_BUF + 2 * j))) by lia.
    rewrite Z.eqb_refl. lia.
  - by repeat rw_test.
Qed.

(** Bytes outside the screen. *)
Definition off_screen (x : Z) : Prop := x < VGA_BUF \/ VGA_BUF + 4000 <= x.

Lemma rb_put m i c color x : on_screen i -> off_screen x -> rb (put m (2 * i) c color) x = rb m x.
Proof.
  unfold on_screen, off_screen. intros Hi Hx. unfold put. rewrite !rb_wb. by repeat rw_test.
Qed.

Lemma rb_vset m i v x : on_screen i -> off_screen x -> rb (vset m i v) x = rb m x.
Proof. unfold on_screen, off_screen. intros Hi Hx. apply rb_st_out. lia. Qed.

(** The two memories differ on the screen only. *)
Definition screen_only (m m' : mem) : Prop := forall x, off_screen x -> rb m' x = rb m x.
#[export] Instance screen_only_refl : Reflexive screen_only.
Proof. by intros m x. Qed.
#[export] Instance screen_only_trans : Transitive screen_only.
Proof. intros m m' m'' H H' x Hx. rewrite H' by done. by apply H. Qed.

Lemma put_only m i c color : on_screen i -> screen_only m (put m (2 * i) c color).
Proof. intros Hi x Hx. by apply rb_put. Qed.

(** *** Scrolling *)

Lemma scroll_copy_ok k i m :
  0 <= i -> i + Z.of_nat k <= 1920 ->
  screen_only m (scroll_copy k i m) /\
  forall j, vget (scroll_copy k i m) j =
    if (i <=? j) && (j <? i + Z.of_nat k) then vget m (j + 80) else vget m j.
Proof.
  unfold VGA_WIDTH. revert i m. induction k as [|k IH]; intros i m Hi Hk; cbn [scroll_copy].
  - split; [done|]. intros j. replace ((i <=? j) && (j <? i + Z.of_nat 0)) with false; [done|].
    symmetry. repeat bcase; simpl; lia || done.
  - destruct (IH (i + 1) (vset m i (vget m (i + VGA_WIDTH)))) as [H1 H2]; [lia|lia|]. split.
    + etrans; [|exact H1]. intros x Hx. apply rb_vset; [unfold on_screen; lia|done].
    + intros j. rewrite H2. rewrite !vget_vset by apply vget_range. unfold VGA_WIDTH.
      repeat bcase; cbn [andb]; try lia; try done; subst; try lia; done.
Qed.

Lemma scroll_blank_ok k i m :
  0 <= i -> i + Z.of_nat k <= 2000 ->
  screen_only m (scroll_blank k i m) /\
  forall j, vget (scroll_blank k i m) j =
    if (i <=? j) && (j <? i + Z.of_nat k) then 32 else vget m j.
Proof.
  revert i m. induction k as [|k IH]; intros i m Hi Hk; cbn [scroll_blank].
  - split; [done|]. intros j. replace ((i <=? j) && (j <? i + Z.of_nat 0)) with false; [done|].
    symmetry. repeat bcase; simpl; lia || done.
  - change (u16 (Z.lor (Z.shiftl (make_color BLACK BLACK) 8) 32)) with 32.
    destruct (IH (i + 1) (vset m i 32)) as [H1 H2]; [lia|lia|]. split.
    + etrans; [|exact H1]. intros x Hx. apply rb_vset; [unfold on_screen; lia|done].
    + intros j. rewrite H2, vget_vset by lia.
      repeat bcase; cbn [andb]; try lia; try done; subst; try lia; done.
Qed.

Lemma scroll_ok s :
  screen_only (vmem s) (vmem (scroll_screen s)) /\
  forall j, on_screen j ->
    vget (vmem (scroll_screen s)) j = if j <? 1920 then vget (vmem s) (j + 80) else 32.
Proof.
  unfold scroll_screen. cbn [vmem]. unfold VGA_HEIGHT, VGA_WIDTH.
  change ((25 - 1) * 80) with 1920. change (Z.to_nat 1920) with (Z.to_nat 1920).
  destruct (scroll_copy_ok (Z.to_nat 1920) 0 (vmem s)) as [H1 H2]; [lia|lia|].
  set (m1 := scroll_copy _ _ _) in *. change (Z.to_nat 80) with 80%nat.
  destruct (scroll_blank_ok 80 1920 m1) as [H3 H4]; [lia|lia|]. split; [by etrans|].
  unfold on_screen. intros j Hj. rewrite H4, H2. repeat bcase; cbn [andb]; try lia; done.
Qed.

(** ** The abstract terminal *)

(** What is visible: the cells, row by row, and the cursor. *)
Record term := Term { cells : list Z; cur_x : Z; cur_y : Z }.
Definition view (s : vga) : term := Term (vget (vmem s) <$> seqZ 0 2000) (vx s) (vy s).

Definition vga_ok (s : vga) : Prop := 0 <= vx s < 80 /\ 0 <= vy s < 25.

(** The screen moved up by one row. *)
Definition t_scroll (l : list Z) : list Z := drop 80 l ++ replicate 80 32.
Definition t_newline (t : term) : term :=
  if cur_y t =? 24 then Term (t_scroll (cells t)) 0 24 else Term (cells t) 0 (cur_y t + 1).
Definition t_char (c color : Z) (t : term) : term :=
  if c =? 10 then t_newline t
  else
    let t' := Term (updZ (cells t) (cur_y t * 80 + cur_x t) (cell_of c color)) (cur_x t + 1) (cur_y t) in
    if cur_x t =? 79 then t_newline t' else t'.
Definition t_back (t : term) : term :=
  let '(x, y) :=
    if cur_x t =? 0 then (if cur_y t =? 0 then (0, 0) else (79, cur_y t - 1))
    else (cur_x t - 1, cur_y t) in
  Term (updZ (cells t) (y * 80 + x) 32) x y.

Lemma view_cells s i : on_screen i -> cells (view s) !! Z.to_nat i = Some (vget (vmem s) i).
Proof.
  unfold on_screen. intros Hi. cbn [cells view]. rewrite list_lookup_fmap.
  rewrite lookup_seqZ_lt by lia. by replace (0 + Z.of_nat (Z.to_nat i)) with i by lia.
Qed.

Lemma view_eq s l x y :
  length l = 2000%nat -> (forall i, on_screen i -> l !! Z.to_nat i = Some (vget (vmem s) i)) ->
  vx s = x -> vy s = y -> view s = Term l x y.
Proof.
  intros Hl H <- <-. unfold view. f_equal. apply list_eq. intros i.
  destruct (Nat.lt_ge_cases i 2000) as [Hi|Hi].
  - specialize (H (Z.of_nat i)). rewrite Nat2Z.id in H. rewrite H by (unfold on_screen; lia).
    rewrite list_lookup_fmap, lookup_seqZ_lt by lia. done.
  - rewrite !lookup_ge_None_2; [done|lia|]. by rewrite length_fmap, length_seqZ.
Qed.

Lemma view_length s : length (cells (view s)) = 2000%nat.
Proof. cbn [cells view]. by rewrite length_fmap, length_seqZ. Qed.

Lemma new_line_view s :
  0 <= vx s -> 0 <= vy s < 25 ->
  view (new_line s) = t_newline (view s) /\ vga_ok (new_line s) /\
  screen_only (vmem s) (vmem (new_line s)).
Proof.
  intros Hx Hy. unfold new_line, t_newline, vga_ok, VGA_HEIGHT. cbn [vy vx vmem cur_y cur_x view].
  rewrite (u8_small (vy s + 1)) by lia. destruct (Z.eqb_spec (vy s) 24) as [E|Hne].
  - rewrite E. change (25 <=? 24 + 1) with true. cbn beta iota. change (24 + 1) with 25.
    destruct (scroll_ok (Vga 0 25 (vmem s))) as [H1 H2]. split; [|split; [cbn; lia|exact H1]].
    apply view_eq; [|intros i Hi|done|done].
    + unfold t_scroll. rewrite length_app, length_drop, view_length, length_replicate. done.
    + cbn [vmem]. rewrite H2 by done. cbn [vmem]. unfold on_screen in Hi. unfold t_scroll.
      bcase.
      * rewrite lookup_app_l by (rewrite length_drop, view_length; lia).
        rewrite lookup_drop. replace (80 + Z.to_nat i)%nat with (Z.to_nat (i + 80)) by lia.
        apply view_cells. unfold on_screen. lia.
      * rewrite lookup_app_r by (rewrite length_drop, view_length; lia).
        apply lookup_replicate. rewrite length_drop, view_length. split; [done|lia].
  - rw_test. split; [done|]. split; [cbn; lia|done].
Qed.

(** Writing a cell of the screen. *)
Lemma put_view s i c color :
  on_screen i ->
  view (on_vmem (fun m => put m (2 * i) c color) s) =
  Term (updZ (cells (view s)) i (cell_of c color)) (vx s) (vy s).
Proof.
  intros Hi. apply view_eq; [|intros j Hj|done|done].
  - unfold updZ. by destruct (i <? 0); rewrite ?length_insert, ?view_length.
  - cbn [vmem on_vmem]. rewrite vget_put. unfold updZ, on_screen in *. rw_test. bcase.
    + subst j. apply list_lookup_insert_eq. rewrite view_length. lia.
    + rewrite list_lookup_insert_ne by lia. by apply view_cells.
Qed.

Lemma offset_eq x y : 0 <= x < 80 -> 0 <= y < 25 -> u32 ((y * VGA_WIDTH + x) * 2) = 2 * (y * 80 + x).
Proof. intros. unfold VGA_WIDTH. rewrite u32_small by lia. lia. Qed.

(** The cursor writes of [update_hardware_cursor]. *)
Definition cursor_trace (pos : Z) : trace := [Out 980 14; Out 981 (pos / 256); Out 980 15; Out 981 (pos mod 256)].

Lemma update_cursor_trace x y t :
  0 <= x < 80 -> 0 <= y < 25 -> update_hardware_cursor x y t = (tt, t ++ cursor_trace (y * 80 + x)).
Proof.
  intros Hx Hy. unfold update_hardware_cursor, cursor_trace, VGA_WIDTH, io_bind, outb.
  rewrite (u16_small (y * 80 + x)) by lia. set (p := y * 80 + x). assert (Hp : 0 <= p < 2000) by lia.
  rewrite Z.shiftr_div_pow2 by lia. change (2 ^ 8) with 256. change 255 with (Z.ones 8).
  rewrite !Z.land_ones by lia. change (2 ^ 8) with 256.
  assert (0 <= p / 256 < 256) by (split; [apply Z.div_pos; lia|apply Z.div_lt_upper_bound; lia]).
  pose proof (Z.mod_pos_bound p 256 ltac:(lia)).
  rewrite (Z.mod_small (p / 256)) by done. rewrite !(u8_small (p / 256)), !(u8_small (p mod 256)) by lia.
  by rewrite <- !app_assoc.
Qed.

Lemma make_color_range f b : 0 <= make_color f b < 256.
Proof. apply u8_range. Qed.

Lemma print_char_view c f b s t :
  vga_ok s ->
  let '(s', t') := print_char c f b s t in
  view s' = t_char c (make_color f b) (view s) /\ vga_ok s' /\ screen_only (vmem s) (vmem s') /\
  t' = t ++ (if c =? 10 then [] else cursor_trace (vy s' * 80 + vx s')).
Proof.
  intros [Hx Hy]. unfold print_char, t_char, io_ret, io_bind. destruct (c =? 10).
  { destruct (new_line_view s) as (H1 & H2 & H3); [lia|done|].
    split; [done|]. split; [done|]. split; [done|]. by rewrite app_nil_r. }
  rewrite offset_eq by done. assert (Hi : on_screen (vy s * 80 + vx s)) by (unfold on_screen; lia).
  set (s1 := on_vmem _ s).
  assert (H1 : view s1 = Term (updZ (cells (view s)) (vy s * 80 + vx s) (cell_of c (make_color f b))) (vx s) (vy s))
    by (by apply put_view).
  assert (H2 : screen_only (vmem s) (vmem s1)) by (by apply put_only).
  change (vx s1) with (vx s). change (vy s1) with (vy s). rewrite (u8_small (vx s + 1)) by lia.
  set (s2 := Vga (vx s + 1) (vy s) (vmem s1)).
  assert (H3 : view s2 = Term (cells (view s1)) (vx s + 1) (vy s)) by done.
  rewrite H1 in H3. cbn [cells] in H3. unfold VGA_WIDTH. cbn [vx s2 cur_x cur_y view].
  destruct (Z.eqb_spec (vx s) 79) as [E|Hne].
  - rewrite (proj2 (Z.leb_le 80 (vx s + 1))) by lia.
    destruct (new_line_view s2) as (N1 & N2 & N3); [cbn; lia|done|].
    rewrite update_cursor_trace by apply N2. split; [by rewrite N1, H3|]. split; [done|].
    split; [by etrans|done].
  - rewrite (proj2 (Z.leb_gt 80 (vx s + 1))) by lia.
    rewrite update_cursor_trace by (cbn; lia). split; [done|]. split; [unfold vga_ok; cbn; lia|].
    split; [exact H2|done].
Qed.


Definition t_string (str : list Z) (color : Z) (t : term) : term :=
  fold_left (fun t c => t_char c color t) str t.

Lemma print_chars_view str f b s t :
  vga_ok s ->
  let '(s', t') := print_chars str f b s t in
  view s' = t_string str (make_color f b) (view s) /\ vga_ok s' /\ screen_only (vmem s) (vmem s').
Proof.
  revert s t. induction str as [|c str IH]; intros s t Hok; cbn [print_chars t_string fold_left]; [done|].
  destruct (c =? 10) eqn:Ec.
  - assert (Ht : t_char c (make_color f b) (view s) = t_newline (view s)) by (unfold t_char; by rewrite Ec).
    rewrite Ht. destruct Hok as [Hx Hy]. destruct (new_line_view s) as (H1 & H2 & H3); [lia|done|].
    specialize (IH (new_line s) t H2). destruct (print_chars str f b (new_line s) t) as [s' t'].
    destruct IH as (I1 & I2 & I3). rewrite <- H1. split; [exact I1|]. split; [done|]. by etrans.
  - unfold io_bind. pose proof (print_char_view c f b s t Hok) as H.
    destruct (print_char c f b s t) as [s1 t1]. destruct H as (H1 & H2 & H3 & _).
    specialize (IH s1 t1 H2). destruct (print_chars str f b s1 t1) as [s' t'].
    destruct IH as (I1 & I2 & I3). rewrite <- H1.
    split; [exact I1|]. split; [done|]. by etrans.
Qed.

Lemma backspace_view s t :
  vga_ok s ->
  let '(s', t') := backspace s t in
  view s' = t_back (view s) /\ vga_ok s' /\ screen_only (vmem s) (vmem s') /\
  t' = t ++ cursor_trace (vy s' * 80 + vx s').
Proof.
  intros [Hx Hy]. unfold backspace, t_back, io_bind, io_ret. cbn [cur_x cur_y view].
  set (s1 := if vx s =? 0 then _ else _).
  assert (Hs1 : vmem s1 = vmem s /\ vga_ok s1 /\
    (if vx s =? 0 then if vy s =? 0 then (0, 0) else (79, vy s - 1) else (vx s - 1, vy s)) = (vx s1, vy s1)).
  { unfold s1, vga_ok. destruct (Z.eqb_spec (vx s) 0) as [E|Hne].
    - destruct (Z.eqb_spec (vy s) 0) as [E2|Hne2].
      + rewrite E2. cbn [Z.ltb Z.compare]. rewrite E, E2. split; [done|]. split; [lia|done].
      + rewrite (proj2 (Z.ltb_lt 0 (vy s))) by lia. cbn [vx vy vmem]. rewrite u8_small by lia.
        unfold VGA_WIDTH. split; [done|]. split; [lia|done].
    - cbn [vx vy vmem]. rewrite u8_small by lia. split; [done|]. split; [lia|done]. }
  destruct Hs1 as (Hm & [Hx1 Hy1] & ->). rewrite offset_eq by done.
  rewrite update_cursor_trace by done. split; [|split; [done|split; [|done]]].
  - rewrite put_view by (unfold on_screen; lia). cbn [cells view]. rewrite Hm.
    by change (cell_of 32 (make_color BLACK BLACK)) with 32.
  - rewrite <- Hm. apply put_only. unfold on_screen. lia.
Qed.

Lemma clean_loop_ok k i m :
  0 <= i -> i + Z.of_nat k <= 2000 ->
  screen_only m (clean_loop k (2 * i) m) /\
  forall j, vget (clean_loop k (2 * i) m) j =
    if (i <=? j) && (j <? i + Z.of_nat k) then cell_of 32 7 else vget m j.
Proof.
  revert i m. induction k as [|k IH]; intros i m Hi Hk; cbn [clean_loop].
  - split; [done|]. intros j. replace ((i <=? j) && (j <? i + Z.of_nat 0)) with false; [done|].
    symmetry. repeat bcase; simpl; lia || done.
  - replace (2 * i + 2) with (2 * (i + 1)) by lia.
    destruct (IH (i + 1) (put m (2 * i) 32 7)) as [H1 H2]; [lia|lia|]. split.
    + etrans; [|exact H1]. apply put_only. unfold on_screen. lia.
    + intros j. rewrite H2, vget_put. repeat bcase; cbn [andb]; try lia; try done; subst; try lia; done.
Qed.

Lemma clean_view s :
  view (clean_screen s) = Term (replicate 2000 (cell_of 32 7)) 0 0 /\ vga_ok (clean_screen s) /\
  screen_only (vmem s) (vmem (clean_screen s)).
Proof.
  unfold clean_screen, VGA_WIDTH, VGA_HEIGHT. change (80 * 25) with 2000.
  destruct (clean_loop_ok (Z.to_nat 2000) 0 (vmem s)) as [H1 H2]; [lia|lia|].
  change (2 * 0) with 0 in *. split; [|split; [unfold vga_ok; cbn; lia|exact H1]].
  apply view_eq; [by rewrite length_replicate|intros i Hi|done|done].
  cbn [vmem]. rewrite H2. unfold on_screen in Hi. repeat rw_test. cbn [andb].
  apply lookup_replicate. split; [done|lia].
Qed.

(** *** [print_string_position] *)

(** Cells outside columns [col, 80) of row [y] are kept. *)
Definition row_only (y col : Z) (m m' : mem) : Prop :=
  screen_only m m' /\ forall j, on_screen j -> j < y * 80 + col \/ y * 80 + 80 <= j -> vget m' j = vget m j.

Lemma row_only_trans y col col' m m' m'' :
  col <= col' -> row_only y col m m' -> row_only y col' m' m'' -> row_only y col m m''.
Proof.
  intros Hc [H1 H2] [H3 H4]. split; [by etrans|]. intros j Hj Ho. rewrite H4 by (done || lia). by apply H2.
Qed.

Lemma row_only_put y col m c color :
  0 <= col < 80 -> 0 <= y < 25 -> row_only y col m (put m (2 * (y * 80 + col)) c color).
Proof.
  intros Hc Hy. split; [apply put_only; unfold on_screen; lia|]. intros j Hj Ho. rewrite vget_put.
  by rw_test.
Qed.

Lemma put_spaces_ok k m y col color :
  0 <= col -> col + Z.of_nat k <= 80 -> 0 <= y < 25 ->
  let '(m', off, col') := put_spaces k m (2 * (y * 80 + col)) col color in
  row_only y col m m' /\ off = 2 * (y * 80 + col') /\ col' = col + Z.of_nat k.
Proof.
  revert m col. induction k as [|k IH]; intros m col Hc Hk Hy; cbn [put_spaces].
  - split; [by split|]. lia.
  - rewrite (u32_small (2 * (y * 80 + col) + 2)), (u32_small (col + 1)) by lia.
    replace (2 * (y * 80 + col) + 2) with (2 * (y * 80 + (col + 1))) by lia.
    specialize (IH (put m (2 * (y * 80 + col)) 32 color) (col + 1)).
    destruct (put_spaces k _ _ _ _) as [[m' off] col'].
    destruct IH as (H1 & H2 & H3); [lia|lia|done|]. split; [|lia].
    eapply (row_only_trans y col (col + 1)); [lia| |exact H1]. apply row_only_put; lia.
Qed.

Lemma print_string_loop_ok str m y col color :
  0 <= col < 80 -> 0 <= y < 25 ->
  let m' := print_string_loop str m (2 * (y * 80 + col)) col color in
  row_only y col m m' /\
  (Forall (fun c => c <> 9) str ->
   forall i c, str !! i = Some c -> col + Z.of_nat i < 80 ->
     vget m' (y * 80 + col + Z.of_nat i) = cell_of c color).
Proof.
  revert m col. induction str as [|c str IH]; intros m col Hc Hy; cbn [print_string_loop].
  { split; [by split|]. intros _ i c Hi. done. }
  unfold VGA_WIDTH. destruct (Z.eqb_spec c 9) as [->|Hne].
  - assert (Hm : 0 <= col mod 8 < 8) by (apply Z.mod_pos_bound; lia).
    pose proof (Z.div_mod col 8 ltac:(lia)) as Ed. unfold TAB_SIZE.
    assert (Hfit : col + Z.of_nat (Z.to_nat (8 - col mod 8)) <= 80).
    { assert (col / 8 < 10) by (apply Z.div_lt_upper_bound; lia). lia. }
    pose proof (put_spaces_ok (Z.to_nat (8 - col mod 8)) m y col color ltac:(lia) Hfit Hy) as H.
    destruct (put_spaces _ _ _ _ _) as [[m1 off] col1]. destruct H as (H1 & -> & Hcol).
    split; [|intros Hnt; by apply Forall_cons_1 in Hnt as [? _]].
    destruct (Z.leb_spec 80 col1); [exact H1|]. destruct (IH m1 col1) as [H2 _]; [lia|done|].
    by eapply (row_only_trans y col col1); [lia|..].
  - rewrite (u32_small (2 * (y * 80 + col) + 2)), (u32_small (col + 1)) by lia.
    replace (2 * (y * 80 + col) + 2) with (2 * (y * 80 + (col + 1))) by lia.
    set (m1 := put m (2 * (y * 80 + col)) c color).
    assert (H1 : row_only y col m m1) by (by apply row_only_put).
    assert (Hv : vget m1 (y * 80 + col) = cell_of c color)
      by (unfold m1; rewrite vget_put; by rewrite Z.eqb_refl).
    destruct (Z.leb_spec 80 (col + 1)) as [Hge|Hlt].
    + split; [exact H1|]. intros _ [|i] d Hi Hlim; [|lia]. injection Hi as <-.
      by rewrite Z.add_0_r.
    + destruct (IH m1 (col + 1)) as [H2 H3]; [lia|done|].
      split; [by eapply (row_only_trans y col (col + 1)); [lia|..]|].
      intros Hnt i d Hi Hlim. apply Forall_cons_1 in Hnt as [_ Hnt]. destruct i as [|i].
      * injection Hi as <-. rewrite Z.add_0_r. destruct H2 as [_ H2].
        rewrite H2; [exact Hv|unfold on_screen; lia|lia].
      * replace (y * 80 + col + Z.of_nat (S i)) with (y * 80 + (col + 1) + Z.of_nat i) by lia.
        apply H3; [done|exact Hi|lia].
Qed.

(** *** Every operation *)

(** From a cursor on the screen, the operation keeps the cursor on the screen
    and writes the text buffer only. *)
Definition screen_op (f : vga -> io vga) : Prop :=
  forall s t, vga_ok s -> let v := (f s t).1 in vga_ok v /\ screen_only (vmem s) (vmem v).

Lemma print_char_op c f b : screen_op (print_char c f b).
Proof.
  intros s t Hok. pose proof (print_char_view c f b s t Hok) as H. destruct (print_char c f b s t). cbn. tauto.
Qed.
Lemma print_string_op str f b : screen_op (print_string str f b).
Proof.
  intros s t Hok. unfold print_string, io_bind. pose proof (print_chars_view str f b s t Hok) as H.
  destruct (print_chars str f b s t) as [s' t']. destruct H as (H1 & H2 & H3).
  by rewrite update_cursor_trace by apply H2.
Qed.
Lemma backspace_op : screen_op backspace.
Proof. intros s t Hok. pose proof (backspace_view s t Hok) as H. destruct (backspace s t). cbn. tauto. Qed.
Lemma clean_op : screen_op (fun s => io_ret (clean_screen s)).
Proof. intros s t Hok. apply clean_view. Qed.

(** Output at a position keeps the cursor. *)
Definition draw_op (f : vga -> vga) : Prop :=
  forall s, vx (f s) = vx s /\ vy (f s) = vy s /\ screen_only (vmem s) (vmem (f s)).

Lemma draw_screen_op f : draw_op f -> screen_op (fun s => io_ret (f s)).
Proof.
  intros Hf s t Hok. destruct (Hf s) as (Hx & Hy & Hs). unfold vga_ok in *. cbn. by rewrite Hx, Hy.
Qed.
Lemma draw_trans f g : draw_op f -> draw_op g -> draw_op (fun s => g (f s)).
Proof.
  intros Hf Hg s. destruct (Hf s) as (E1 & E2 & H1), (Hg (f s)) as (-> & -> & H2).
  rewrite E1, E2. do 2 (split; [done|]). by etrans.
Qed.
Lemma print_char_position_op c x y f b : 0 <= x -> 0 <= y -> draw_op (print_char_position c x y f b).
Proof.
  intros Hx Hy s. unfold print_char_position.
  change ((VGA_WIDTH <=? x) || (VGA_HEIGHT <=? y)) with ((80 <=? x) || (25 <=? y)).
  destruct ((80 <=? x) || (25 <=? y)) eqn:E; [done|]. bsimp. do 2 (split; [done|]).
  rewrite offset_eq by lia. apply put_only. unfold on_screen. lia.
Qed.
Lemma print_string_position_op str x y f b :
  0 <= x < 80 -> 0 <= y < 25 -> draw_op (print_string_position str x y f b).
Proof.
  intros Hx Hy s. unfold print_string_position. rewrite offset_eq by lia. do 2 (split; [done|]).
  apply (print_string_loop_ok str (vmem s) y x (make_color f b)); lia.
Qed.
Lemma print_at_op str x y f b : 0 <= x -> 0 <= y -> draw_op (print_at str x y f b).
Proof.
  revert x. induction str as [|c str IH]; intros x Hx Hy s; cbn [print_at]; [done|].
  destruct (c =? 0); [done|].
  exact (draw_trans _ _ (print_char_position_op c x y f b Hx Hy) (IH (x + 1) ltac:(lia) Hy) s).
Qed.

(** ** Properties *)

Definition v0 : vga := Vga 79 24 ∅.

(** C28. The driver implements a terminal: from a cursor on the screen,
    [print_char], [print_string], [backspace] and [clean_screen] change the
    visible cells and the cursor as the abstract terminal does (newline and
    wrap at column 80, scrolling by one row at the bottom), keep the cursor on
    the screen and write no byte outside the text buffer. *)
Theorem vga_terminal s t :
  vga_ok s ->
  let good s' v := view s' = v /\ vga_ok s' /\ screen_only (vmem s) (vmem s') in
  (forall c f b, good (print_char c f b s t).1 (t_char c (make_color f b) (view s))) /\
  (forall str f b, good (print_string str f b s t).1 (t_string str (make_color f b) (view s))) /\
  good (backspace s t).1 (t_back (view s)) /\
  good (clean_screen s) (Term (replicate 2000 (cell_of 32 7)) 0 0).
Proof.
  intros Hok good. split; [|split; [|split]].
  - intros c f b. pose proof (print_char_view c f b s t Hok) as H.
    destruct (print_char c f b s t) as [s' t']. by destruct H as (? & ? & ? & _).
  - intros str f b. unfold print_string, io_bind. pose proof (print_chars_view str f b s t Hok) as H.
    destruct (print_chars str f b s t) as [s' t']. destruct H as (H1 & H2 & H3).
    rewrite update_cursor_trace by apply H2. done.
  - pose proof (backspace_view s t Hok) as H. destruct (backspace s t) as [s' t'].
    by destruct H as (? & ? & ? & _).
  - apply clean_view.
Qed.

Lemma vga_terminal_witness :
  view (print_char 65 15 0 v0 []).1 = t_char 65 15 (view v0) /\ vga_ok (print_char 65 15 0 v0 []).1.
Proof.
  destruct (vga_terminal v0 []) as (H & _).
  - unfold vga_ok. cbn. lia.
  - destruct (H 65 15 0) as (H1 & H2 & _). split; [exact H1|exact H2].
Defined.

(** The hardware cursor follows: [print_char] of a printable character,
    [print_string] and [backspace] end with the four port writes that load
    the CRT controller's cursor registers with the cell number of the
    software cursor. *)
Theorem vga_cursor_synced s t :
  vga_ok s ->
  (forall c f b, c <> 10 -> let '(s', t') := print_char c f b s t in
     t' = t ++ cursor_trace (vy s' * 80 + vx s')) /\
  (forall str f b, let '(s', t') := print_string str f b s t in
     exists t1, t' = t1 ++ cursor_trace (vy s' * 80 + vx s')) /\
  (let '(s', t') := backspace s t in t' = t ++ cursor_trace (vy s' * 80 + vx s')) /\
  (forall pos, 0 <= pos < 2000 -> exists hi lo,
     cursor_trace pos = [Out 980 14; Out 981 hi; Out 980 15; Out 981 lo] /\
     0 <= hi < 256 /\ 0 <= lo < 256 /\ hi * 256 + lo = pos).
Proof.
  intros Hok. split; [|split; [|split]].
  - intros c f b Hc. pose proof (print_char_view c f b s t Hok) as H.
    destruct (print_char c f b s t) as [s' t']. destruct H as (_ & _ & _ & H).
    by rewrite (proj2 (Z.eqb_neq c 10) Hc) in H.
  - intros str f b. unfold print_string, io_bind, io_ret. pose proof (print_chars_view str f b s t Hok) as H.
    destruct (print_chars str f b s t) as [s' t']. destruct H as (H1 & H2 & H3).
    rewrite update_cursor_trace by apply H2. by exists t'.
  - pose proof (backspace_view s t Hok) as H. destruct (backspace s t) as [s' t']. apply H.
  - intros pos Hp. exists (pos / 256), (pos mod 256). split; [done|].
    pose proof (Z.div_mod pos 256 ltac:(lia)). pose proof (Z.mod_pos_bound pos 256 ltac:(lia)).
    assert (0 <= pos / 256) by (apply Z.div_pos; lia). lia.
Qed.

Lemma vga_cursor_synced_witness :
  (print_char 65 15 0 (Vga 5 3 ∅) []).2 = cursor_trace 246.
Proof.
  destruct (vga_cursor_synced (Vga 5 3 ∅) []) as (H & _).
  - unfold vga_ok. cbn. lia.
  - specialize (H 65 15 0 ltac:(lia)). destruct (print_char _ _ _ _ _) as [s' t'] eqn:E.
    vm_compute in E. injection E as <- <-. exact H.
Defined.

(** Positioned output: [print_char_position] writes the one cell it is
    given, and nothing when the position is off the screen;
    [print_string_position] at a position on the screen writes only cells of
    that row from the start column on, tabs included, and cuts the string at
    the right edge. *)
Theorem vga_positioned s c x y f b str :
  0 <= x -> 0 <= y ->
  let s1 := print_char_position c x y f b s in
  let s2 := print_string_position str x y f b s in
  (if (80 <=? x) || (25 <=? y) then s1 = s
   else view s1 = Term (updZ (cells (view s)) (y * 80 + x) (cell_of c (make_color f b))) (vx s) (vy s) /\
        screen_only (vmem s) (vmem s1)) /\
  (x < 80 -> y < 25 ->
   row_only y x (vmem s) (vmem s2) /\ vx s2 = vx s /\ vy s2 = vy s /\
   (Forall (fun c => c <> 9) str -> forall i d, str !! i = Some d -> x + Z.of_nat i < 80 ->
      vget (vmem s2) (y * 80 + x + Z.of_nat i) = cell_of d (make_color f b))).
Proof.
  intros Hx Hy s1 s2. split.
  - subst s1. unfold print_char_position.
    change ((VGA_WIDTH <=? x) || (VGA_HEIGHT <=? y)) with ((80 <=? x) || (25 <=? y)).
    destruct ((80 <=? x) || (25 <=? y)) eqn:E; [done|]. bsimp.
    rewrite offset_eq by lia. split; [apply put_view|apply put_only]; unfold on_screen; lia.
  - intros Hx' Hy'. subst s2. unfold print_string_position. rewrite offset_eq by lia.
    destruct (print_string_loop_ok str (vmem s) y x (make_color f b)) as [H1 H2]; [lia|lia|]. done.
Qed.

Lemma vga_positioned_witness :
  vget (vmem (print_string_position [72; 105] 70 24 15 0 v0)) 1991 = cell_of 105 15.
Proof.
  destruct (vga_positioned v0 0 70 24 15 0 [72; 105]) as [_ H].
  - lia.
  - lia.
  - destruct H as (_ & _ & _ & H).
    + lia.
    + lia.
    + apply (H ltac:(by repeat constructor) 1%nat 105 eq_refl). lia.
Defined.

(** C40. [print_string_position] does not check its position, unlike
    [print_char_position]: below the screen it writes past the end of the
    text buffer. *)
Theorem print_string_position_overrun s c str x y f b :
  0 <= x < 80 -> 25 <= y < 1000000 -> c <> 9 ->
  let p := VGA_BUF + 2 * (y * 80 + x) in
  off_screen p /\
  forall s', s' = print_string_position (c :: str) x y f b s -> str = [] ->
    rb (vmem s') p = u8 c /\ rb (vmem s') (p + 1) = make_color f b.
Proof.
  intros Hx Hy Hc p. split; [unfold off_screen, p, VGA_BUF; lia|]. intros s' -> ->.
  unfold print_string_position, on_vmem. cbn [vmem print_string_loop].
  rewrite (proj2 (Z.eqb_neq c 9) Hc). unfold VGA_WIDTH.
  rewrite (u32_small ((y * 80 + x) * 2)) by lia.
  assert (Hput : forall m, rb (put m ((y * 80 + x) * 2) c (make_color f b)) p = u8 c /\
    rb (put m ((y * 80 + x) * 2) c (make_color f b)) (p + 1) = make_color f b).
  { intros m. unfold put, p. rewrite !rb_wb, u8_idem.
    rewrite (u8_small (make_color f b)) by apply make_color_range. by repeat rw_test. }
  destruct (80 <=? _); apply Hput.
Qed.

Lemma print_string_position_overrun_witness :
  rb (vmem (print_string_position [65] 0 25 15 0 v0)) (VGA_BUF + 4000) = 65.
Proof.
  destruct (print_string_position_overrun v0 65 [] 0 25 15 0) as [_ H].
  - lia.
  - lia.
  - lia.
  - apply (H _ eq_refl eq_refl).
Defined.
