(* ===== verification/KStats.v ===== *)
(** * The statistics printer of malloc/malloc.c

    [u32_to_dec], [kstrlen] and [print_kmalloc_stats]: five lines of text on
    the screen from the counters of [get_kmalloc_stats].  Strings are the
    characters before the NUL. *)

From Stdlib Require Import ZArith Lia.
From S2P Require Import Prelude Memory HeapBlock KMalloc PortIO Clock Vga.

(** [while (s[i]) ++i;] on a string without its NUL. *)
Definition kstrlen (s : option (list Z)) : Z :=
  match s with None => 0 | Some s => lenZ s end.

(** The digits of [v], least significant first.  Ten turns are enough for 32
    bits. *)
Fixpoint dec_loop (fuel : nat) (v : Z) : list Z :=
  match fuel with
  | O => []
  | S k => if v =? 0 then [] else u8 (48 + v mod 10) :: dec_loop k (v / 10)
  end.
Definition u32_to_dec (v : Z) : list Z :=
  if v =? 0 then [48] else reverse (dec_loop 11 v).

(** The string constants of [print_kmalloc_stats]. *)
Definition str_total : list Z := [72; 101; 97; 112; 32; 116; 111; 116; 97; 108; 58; 32].
Definition str_bytes : list Z := [32; 98; 121; 116; 101; 115; 32; 40].
Definition str_mib : list Z := [32; 77; 105; 66; 41].
Definition str_used : list Z := [85; 115; 101; 100; 58; 32].
Definition str_free : list Z := [70; 114; 101; 101; 58; 32].
Definition str_largest : list Z :=
  [76; 97; 114; 103; 101; 115; 116; 32; 102; 114; 101; 101; 58; 32].
Definition str_blocks : list Z := [66; 108; 111; 99; 107; 115; 58; 32].
Definition str_used_eq : list Z := [32; 40; 117; 115; 101; 100; 61].
Definition str_free_eq : list Z := [44; 32; 102; 114; 101; 101; 61].

(** [print_string_position(s, x, y, fg, bg); x += kstrlen(s);] *)
Definition print_adv (str : list Z) (y : Z) (st : Z * vga) : Z * vga :=
  let '(x, v) := st in
  (u32 (x + kstrlen (Some str)), print_string_position str x y WHITE BLACK v).

Definition print_kmalloc_stats (fuel : nat) (s : kheap) (v : vga) : option vga :=
  match get_kmalloc_stats fuel s with
  | None => None
  | Some st =>
      let base_x := 20 in
      let y := 10 in
      let '(_, v) :=
        print_adv str_mib y (print_adv (u32_to_dec (u32 (total_managed st / (1024 * 1024)))) y
          (print_adv str_bytes y (print_adv (u32_to_dec (u32 (total_managed st))) y
            (print_adv str_total y (base_x, v))))) in
      let y := y + 1 in
      let '(_, v) :=
        print_adv (u32_to_dec (u32 (used_payload st))) y (print_adv str_used y (base_x, v)) in
      let y := y + 1 in
      let '(_, v) :=
        print_adv (u32_to_dec (u32 (free_payload st))) y (print_adv str_free y (base_x, v)) in
      let y := y + 1 in
      let '(_, v) :=
        print_adv (u32_to_dec (u32 (largest_free st))) y (print_adv str_largest y (base_x, v)) in
      let y := y + 1 in
      let '(_, v) :=
        print_adv [41] y (print_adv (u32_to_dec (u32 (num_free st))) y (print_adv str_free_eq y
          (print_adv (u32_to_dec (u32 (num_used st))) y (print_adv str_used_eq y
            (print_adv (u32_to_dec (u32 (num_blocks st))) y (print_adv str_blocks y (base_x, v))))))) in
      Some v
  end.

(** ** Decimal conversion *)

(** The number a digit string denotes. *)
Definition dec_val (s : list Z) : Z := fold_left (fun a c => a * 10 + (c - 48)) s 0.
Definition digit (c : Z) : Prop := 48 <= c <= 57.

Lemma dec_val_snoc s c : dec_val (s ++ [c]) = dec_val s * 10 + (c - 48).
Proof. unfold dec_val. by rewrite fold_left_app. Qed.

Lemma dec_loop_ok fuel v :
  0 <= v < 10 ^ Z.of_nat fuel ->
  dec_val (reverse (dec_loop fuel v)) = v /\ Forall digit (dec_loop fuel v) /\
  (0 < v -> exists r c, dec_loop fuel v = r ++ [c] /\ c <> 48) /\
  (v = 0 \/ 10 ^ (lenZ (dec_loop fuel v) - 1) <= v).
Proof.
  unfold lenZ. revert v. induction fuel as [|fuel IH]; intros v Hv.
  - cbn in *. assert (v = 0) as -> by lia. repeat split; try constructor; lia || done.
  - cbn [dec_loop]. destruct (Z.eqb_spec v 0) as [->|Hne].
    { repeat split; try constructor; lia || done. }
    rewrite Nat2Z.inj_succ, Z.pow_succ_r in Hv by lia.
    pose proof (Z.div_mod v 10 ltac:(lia)) as Ed. pose proof (Z.mod_pos_bound v 10 ltac:(lia)) as Em.
    rewrite u8_small by lia. destruct (IH (v / 10)) as (H1 & H2 & H3 & H4).
    { split; [apply Z.div_pos; lia|apply Z.div_lt_upper_bound; lia]. }
    split; [|split; [|split]].
    + rewrite reverse_cons, dec_val_snoc, H1. lia.
    + constructor; [unfold digit; lia|done].
    + intros _. destruct (Z.eq_dec (v / 10) 0) as [E|Hq].
      * exists [], (48 + v mod 10). rewrite E. split; [by destruct fuel|lia].
      * destruct H3 as (r & c & -> & Hc); [lia|]. by exists (48 + v mod 10 :: r), c.
    + right. cbn [length]. replace (Z.of_nat (S (length (dec_loop fuel (v / 10)))) - 1)
        with (Z.of_nat (length (dec_loop fuel (v / 10)))) by lia.
      destruct H4 as [E|H4].
      * assert (dec_loop fuel (v / 10) = []) as -> by (rewrite E; by destruct fuel). cbn. lia.
      * destruct (dec_loop fuel (v / 10)) as [|d l] eqn:E; [cbn; lia|].
        set (k := Z.of_nat (length (d :: l))) in *. assert (0 < k) by (subst k; simpl length; lia).
        replace k with (Z.succ (k - 1)) by lia. rewrite Z.pow_succ_r by lia. lia.
Qed.

Lemma u32_to_dec_length v : 0 <= v < 4294967296 -> 1 <= lenZ (u32_to_dec v) <= 10.
Proof.
  intros Hv. unfold u32_to_dec. destruct (Z.eqb_spec v 0) as [->|Hne]; [unfold lenZ; cbn; lia|].
  destruct (dec_loop_ok 11 v) as (_ & _ & H3 & H4); [cbn; lia|].
  destruct H3 as (r & c & E & Hc); [lia|].
  assert (Hl : lenZ (reverse (dec_loop 11 v)) = lenZ (dec_loop 11 v)) by (unfold lenZ; by rewrite length_reverse).
  rewrite Hl. split; [rewrite E; unfold lenZ; rewrite length_app; simpl; lia|].
  destruct H4 as [?|H4]; [lia|]. destruct (Z.le_gt_cases (lenZ (dec_loop 11 v)) 10); [done|].
  exfalso. assert (10 ^ 10 <= 10 ^ (lenZ (dec_loop 11 v) - 1)) by (apply Z.pow_le_mono_r; lia).
  change (10 ^ 10) with 10000000000 in *. lia.
Qed.

(** ** The printed area *)

(** Only cells of rows 10 to 14 change. *)
Definition stat_rows (m m' : mem) : Prop :=
  screen_only m m' /\ forall j, on_screen j -> j < 800 \/ 1200 <= j -> vget m' j = vget m j.

#[export] Instance stat_rows_refl : Reflexive stat_rows.
Proof. intros m. by split. Qed.
#[export] Instance stat_rows_trans : Transitive stat_rows.
Proof.
  intros m m' m'' [H1 H2] [H3 H4]. split; [by etrans|]. intros j Hj Ho. rewrite H4 by done. by apply H2.
Qed.

Lemma print_adv_rows str y x v n :
  10 <= y < 15 -> 0 <= x < 80 -> lenZ str <= n <= 80 ->
  let '(x', v') := print_adv str y (x, v) in
  stat_rows (vmem v) (vmem v') /\ x <= x' <= x + n /\ vx v' = vx v /\ vy v' = vy v.
Proof.
  intros Hy Hx Hn. unfold print_adv, kstrlen.
  assert (0 <= lenZ str) by (unfold lenZ; lia). 
  unfold print_string_position. rewrite offset_eq by lia. cbn [vmem vx vy on_vmem].
  destruct (print_string_loop_ok str (vmem v) y x (make_color WHITE BLACK)) as [[H1 H2] _]; [lia|lia|].
  split; [|split; [|done]].
  - split; [done|]. intros j Hj Ho. apply H2; [done|lia].
  - rewrite u32_small; lia.
Qed.

(** ** Properties *)

(** [u32_to_dec] prints any 32-bit number in decimal: digits only, no
    leading zero, at most ten of them (its buffer holds 32), and reading them
    back gives the number. *)
Theorem u32_to_dec_roundtrip v :
  0 <= v < 4294967296 ->
  let s := u32_to_dec v in
  dec_val s = v /\ Forall digit s /\ 1 <= lenZ s <= 10 /\ (hd 0 s = 48 -> s = [48]).
Proof.
  intros Hv s. subst s. unfold u32_to_dec. destruct (Z.eqb_spec v 0) as [->|Hne].
  - repeat split; cbn; try lia; try done. repeat constructor; lia.
  - destruct (dec_loop_ok 11 v) as (H1 & H2 & H3 & H4); [cbn; lia|].
    destruct H3 as (r & c & E & Hc); [lia|]. split; [done|]. split; [by apply Forall_reverse|].
    assert (Hl : lenZ (reverse (dec_loop 11 v)) = lenZ (dec_loop 11 v)) by (unfold lenZ; by rewrite length_reverse).
    rewrite Hl. split.
    + split; [rewrite E; unfold lenZ; rewrite length_app; simpl; lia|].
      destruct H4 as [?|H4]; [lia|]. destruct (Z.le_gt_cases (lenZ (dec_loop 11 v)) 10); [done|].
      exfalso. assert (10 ^ 10 <= 10 ^ (lenZ (dec_loop 11 v) - 1)) by (apply Z.pow_le_mono_r; lia).
      change (10 ^ 10) with 10000000000 in *. lia.
    + rewrite E, reverse_snoc. cbn [hd]. done.
Qed.

Lemma u32_to_dec_roundtrip_witness : u32_to_dec 4294967295 = [52; 50; 57; 52; 57; 54; 55; 50; 57; 53] /\
  dec_val (u32_to_dec 4294967295) = 4294967295.
Proof. split; [reflexivity|]. apply (u32_to_dec_roundtrip 4294967295). lia. Defined.

Ltac adv n :=
  match goal with
  | |- context [print_adv ?str ?y (?x, ?v)] =>
      let H := fresh "Hadv" in
      pose proof (print_adv_rows str y x v n) as H;
      let x' := fresh "x" in let v' := fresh "v" in
      destruct (print_adv str y (x, v)) as [x' v'];
      destruct H as (? & ? & ? & ?);
      [lia|lia|lazymatch goal with
               | |- context [u32_to_dec ?w] =>
                   pose proof (u32_to_dec_length w ltac:(apply u32_range)); lia
               | |- _ => by vm_compute
               end|]
  end.

(** [print_kmalloc_stats] fits the screen: whatever the heap, it returns,
    writes only text cells of rows 10 to 14 (no number is too long for its
    row), and leaves the cursor alone. *)
Theorem print_kmalloc_stats_fits base limit fuel s bs v :
  rep KMAGIC base limit (kh s) bs -> bs <> [] -> (length bs < fuel)%nat ->
  exists v', print_kmalloc_stats fuel s v = Some v' /\ stat_rows (vmem v) (vmem v') /\
    vx v' = vx v /\ vy v' = vy v.
Proof.
  intros Hrep Hne Hf. unfold print_kmalloc_stats, get_kmalloc_stats, kmem.
  rewrite (stats_rep KMAGIC base limit (kh s) bs fuel Hrep Hne Hf). cbn zeta.
  set (st := stats_add stats0 bs). clearbody st.
  adv 12. adv 10. adv 8. adv 10. adv 5. adv 6. adv 10. adv 6. adv 10. adv 14. adv 10.
  adv 8. adv 10. adv 7. adv 10. adv 7. adv 10. adv 1.
  eexists. split; [reflexivity|]. split; [|lia].
  repeat (etrans; [eassumption|]); reflexivity.
Qed.

Lemma print_kmalloc_stats_fits_witness :
  exists v', print_kmalloc_stats 5 k0 v0 = Some v' /\ stat_rows (vmem v0) (vmem v').
Proof.
  destruct (print_kmalloc_stats_fits 4096 8192 5 k0 [Blk 4056 true] v0 k0_rep) as (v' & E & H & _).
  - done.
  - simpl. lia.
  - exists v'. split; [exact E|exact H].
Defined.
