(* ===== verification/Idt.v ===== *)
(** * idt.c

    The interrupt descriptor table: 256 packed entries of 16 bytes in the
    byte memory, filled field by field, and what the CPU reads back from
    them. *)

From Stdlib Require Import ZArith Lia.
From S2P Require Import Prelude Memory PortIO.

Definition IDT_ENTRIES : Z := 256.
Definition TIMER : Z := 32.
Definition KEYBOARD : Z := 33.
Definition INTERRUPT : Z := 128.

Section Idt.
(** The devices; [idt], [&idtp]; the assembly stubs of the exceptions and of
    the three interrupts. *)
Context (dev : trace -> Z -> Z) (IDT IDTP : Z) (isr_stubs : list Z) (isr32 isr33 isr80 : Z).

Definition gate_addr (num : Z) : Z := IDT + 16 * num.

Definition idt_set_gate (num handler sel flags : Z) (m : mem) : mem :=
  let num := u8 num in
  let base := u64 handler in
  let e := gate_addr num in
  let m := st 2 m e (u16 (Z.land base 65535)) in
  let m := st 2 m (e + 2) (u16 sel) in
  let m := wb m (e + 4) 0 in
  let m := wb m (e + 5) flags in
  let m := st 2 m (e + 6) (u16 (Z.land (Z.shiftr base 16) 65535)) in
  let m := st 4 m (e + 8) (u32 (Z.land (Z.shiftr base 32) 4294967295)) in
  st 4 m (e + 12) 0.

Fixpoint exception_gates (stubs : list Z) (i : Z) (m : mem) : mem :=
  match stubs with
  | [] => m
  | h :: stubs => exception_gates stubs (i + 1) (idt_set_gate i h 8 142 m)
  end.

(** lidt_load.asm: the limit and the base of the table go to the CPU. *)
Definition lidt_load (p : Z) (m : mem) : Z * Z := (ld 2 m p, ld 8 m (p + 2)).

Definition idt_install (m : mem) : io (mem * (Z * Z)) :=
  pic_remap dev 32 40;;;
  let m := st 2 m IDTP (u16 (16 * IDT_ENTRIES - 1)) in
  let m := st 8 m (IDTP + 2) IDT in
  let m := exception_gates isr_stubs 0 m in
  let m := idt_set_gate TIMER isr32 8 142 m in
  let m := idt_set_gate KEYBOARD isr33 8 142 m in
  let m := idt_set_gate INTERRUPT isr80 8 238 m in
  io_ret (m, lidt_load IDTP m).

(** ** What the CPU reads *)

Record gate := Gate { g_handler : Z; g_sel : Z; g_ist : Z; g_type : Z }.

Definition gate_of (m : mem) (num : Z) : gate :=
  let e := gate_addr num in
  Gate (ld 2 m e + 65536 * ld 2 m (e + 6) + 4294967296 * ld 4 m (e + 8))
    (ld 2 m (e + 2)) (rb m (e + 4)) (rb m (e + 5)).

Lemma split_address h : 0 <= h < 18446744073709551616 ->
  Z.land h 65535 + 65536 * Z.land (Z.shiftr h 16) 65535 + 4294967296 * Z.land (Z.shiftr h 32) 4294967295 = h.
Proof.
  intros Hh. rewrite !Z.shiftr_div_pow2 by lia. change 65535 with (Z.ones 16). change 4294967295 with (Z.ones 32).
  rewrite !Z.land_ones by lia. change (2 ^ 16) with 65536. change (2 ^ 32) with 4294967296.
  assert (H0 : h / 4294967296 = h / 65536 / 65536) by (rewrite Z.div_div by lia; done).
  rewrite H0. assert (0 <= h / 65536 / 65536 < 4294967296).
  { rewrite <- H0. split; [apply Z.div_pos; lia|apply Z.div_lt_upper_bound; lia]. }
  rewrite (Z.mod_small (h / 65536 / 65536)) by done.
  pose proof (Z.div_mod h 65536 ltac:(lia)). pose proof (Z.div_mod (h / 65536) 65536 ltac:(lia)). lia.
Qed.

Lemma land_range h k : 0 <= k -> 0 <= Z.land h (Z.ones k) < 2 ^ k.
Proof. intros. rewrite Z.land_ones by lia. apply Z.mod_pos_bound. lia. Qed.

Lemma rb_set_gate num h sel fl m x :
  ~ (gate_addr (u8 num) <= x < gate_addr (u8 num) + 16) -> rb (idt_set_gate num h sel fl m) x = rb m x.
Proof.
  intros Hx. unfold idt_set_gate. cbv zeta. set (e := gate_addr (u8 num)) in *.
  by mem_peel.
Qed.

Lemma gate_set num h sel fl m :
  0 <= num < 256 -> 0 <= h < 18446744073709551616 -> 0 <= sel < 65536 -> 0 <= fl < 256 ->
  gate_of (idt_set_gate num h sel fl m) num = Gate h sel 0 fl.
Proof.
  intros Hn Hh Hs Hf. unfold gate_of, idt_set_gate. cbv zeta.
  rewrite (u8_small num), (u64_small h), (u16_small sel) by done. set (e := gate_addr num).
  pose proof (land_range h 16 ltac:(lia)). pose proof (land_range (Z.shiftr h 16) 16 ltac:(lia)).
  pose proof (land_range (Z.shiftr h 32) 32 ltac:(lia)).
  change (Z.ones 16) with 65535 in *. change (Z.ones 32) with 4294967295 in *.
  change (2 ^ 16) with 65536 in *. change (2 ^ 32) with 4294967296 in *.
  rewrite (u16_small (Z.land h 65535)), (u16_small (Z.land (Z.shiftr h 16) 65535)) by done.
  rewrite (u32_small (Z.land (Z.shiftr h 32) 4294967295)) by done.
  mem_peel. rewrite split_address by done. rewrite (u8_small fl) by done. done.
Qed.

Lemma gate_of_ext m m' num :
  same_on (gate_addr num) (gate_addr num + 16) m m' -> gate_of m num = gate_of m' num.
Proof.
  intros Hs. unfold gate_of. f_equal.
  - f_equal; [f_equal|]; [|f_equal..]; apply ld_ext; intros x Hx; apply Hs; lia.
  - apply ld_ext. intros x Hx. apply Hs. lia.
  - apply Hs. lia.
  - apply Hs. lia.
Qed.

Lemma gate_other num num' h sel fl m :
  0 <= num < 256 -> num <> num' -> gate_of (idt_set_gate num h sel fl m) num' = gate_of m num'.
Proof.
  intros Hn Hne. apply gate_of_ext. intros x Hx. apply rb_set_gate.
  rewrite u8_small by done. unfold gate_addr in *. lia.
Qed.

Lemma set_gate_only num h sel fl m :
  only_in IDT (IDT + 4096) m (idt_set_gate num h sel fl m).
Proof.
  intros x Hx. apply rb_set_gate. pose proof (u8_range num). unfold gate_addr. lia.
Qed.

Lemma exception_gates_ok stubs i m :
  0 <= i -> i + lenZ stubs <= 256 -> Forall (fun h => 0 <= h < 18446744073709551616) stubs ->
  only_in IDT (IDT + 4096) m (exception_gates stubs i m) /\
  forall k, gate_of (exception_gates stubs i m) k =
    match (if k <? i then None else stubs !! Z.to_nat (k - i)) with
    | Some h => Gate h 8 0 142
    | None => gate_of m k
    end.
Proof.
  unfold lenZ. revert i m. induction stubs as [|h stubs IH]; intros i m Hi Hl Hr; cbn [exception_gates].
  - split; [reflexivity|]. intros k. by destruct (k <? i).
  - cbn [length] in Hl. inversion Hr as [|? ? Hh Hr']; subst.
    destruct (IH (i + 1) (idt_set_gate i h 8 142 m)) as [H1 H2]; [lia|lia|done|].
    split; [etransitivity; [apply set_gate_only|exact H1]|].
    intros k. rewrite H2. destruct (Z.ltb_spec k (i + 1)) as [Hk|Hk].
    + destruct (Z.ltb_spec k i) as [Hki|Hki].
      * apply gate_other; lia.
      * assert (k = i) as -> by lia. replace (Z.to_nat (i - i)) with O by lia. cbn.
        apply gate_set; lia || done.
    + rewrite (proj2 (Z.ltb_ge k i)) by lia. replace (Z.to_nat (k - i)) with (S (Z.to_nat (k - (i + 1)))) by lia.
      cbn. destruct (stubs !! _); [done|]. apply gate_other; lia.
Qed.

(** The handler of vector [k] after [idt_install]. *)
Definition vector (k : Z) : option (Z * Z) :=
  if k =? INTERRUPT then Some (isr80, 238)
  else if k =? KEYBOARD then Some (isr33, 142)
  else if k =? TIMER then Some (isr32, 142)
  else h ← (if k <? 0 then None else isr_stubs !! Z.to_nat k); Some (h, 142).
End Idt.

Definition address (h : Z) : Prop := 0 <= h < 18446744073709551616.

Section IdtProps.
Context (dev : trace -> Z -> Z) (IDT IDTP : Z) (isr_stubs : list Z) (isr32 isr33 isr80 : Z).
Abbreviation idt_install := (idt_install dev IDT IDTP isr_stubs isr32 isr33 isr80).
Abbreviation vector := (vector isr_stubs isr32 isr33 isr80).

Lemma idt_install_ok m t :
  length isr_stubs = 32%nat -> Forall address isr_stubs -> address isr32 -> address isr33 -> address isr80 ->
  address IDT -> IDTP + 10 <= IDT \/ IDT + 4096 <= IDTP ->
  exists m', idt_install m t = (m', (4095, IDT), (pic_remap dev 32 40 t).2) /\
    (forall k, gate_of IDT m' k = match vector k with Some (h, ty) => Gate h 8 0 ty | None => gate_of IDT m' k end) /\
    (forall x, ~ (IDT <= x < IDT + 4096) -> ~ (IDTP <= x < IDTP + 10) -> rb m' x = rb m x).
Proof.
  intros Hl Hst H32 H33 H80 HI Hap. unfold Idt.idt_install. unfold io_bind at 1.
  destruct (pic_remap dev 32 40 t) as [[] t1] eqn:Er. unfold io_ret. cbn [snd]. cbv zeta.
  set (m1 := st 8 _ _ _). set (m2 := exception_gates IDT isr_stubs 0 m1).
  set (m3 := idt_set_gate IDT TIMER isr32 8 142 m2). set (m4 := idt_set_gate IDT KEYBOARD isr33 8 142 m3).
  set (m5 := idt_set_gate IDT INTERRUPT isr80 8 238 m4).
  destruct (exception_gates_ok IDT isr_stubs 0 m1) as [Ho2 Hg2]; [lia|unfold lenZ; lia|done|].
  assert (Ho : only_in IDT (IDT + 4096) m1 m5).
  { etransitivity; [exact Ho2|]. do 2 (etransitivity; [apply set_gate_only|]). apply set_gate_only. }
  exists m5. split; [|split].
  - unfold lidt_load. do 2 f_equal. f_equal.
    + rewrite (ld_ext 2 m5 m1) by (intros x Hx; apply Ho; simpl in Hx; lia). unfold m1.
      rewrite ld_st_out by lia. by rewrite ld_st_small.
    + rewrite (ld_ext 8 m5 m1) by (intros x Hx; apply Ho; simpl in Hx; lia). unfold m1. by apply ld_st_small.
  - intros k. unfold Idt.vector. unfold INTERRUPT, KEYBOARD, TIMER in *.
    destruct (Z.eqb_spec k 128) as [->|N1]; [by apply gate_set|].
    unfold m5. rewrite !(gate_other IDT 128 k) by lia.
    destruct (Z.eqb_spec k 33) as [->|N2]; [by apply gate_set|].
    unfold m4. rewrite !(gate_other IDT 33 k) by lia.
    destruct (Z.eqb_spec k 32) as [->|N3]; [by apply gate_set|].
    unfold m3. rewrite !(gate_other IDT 32 k) by lia. unfold m2. rewrite !Hg2.
    destruct (k <? 0); [done|]. replace (k - 0) with k by lia. by destruct (isr_stubs !! Z.to_nat k).
  - intros x Hx1 Hx2. rewrite Ho by done. unfold m1. by rewrite !rb_st_out by lia.
Qed.

(** C30. After [idt_install] the CPU reads from the table, for each of the 32
    exceptions, the timer, the keyboard and the system call gate, the address
    of its stub in full, the kernel's code segment, no stack switch and the
    gate's type - the system call's gate alone may be called from user mode -
    the table register covers 256 entries at the table's address, and no byte
    outside the table and the descriptor is written. *)
Theorem idt_gates_read_back m t :
  length isr_stubs = 32%nat -> Forall address isr_stubs -> address isr32 -> address isr33 -> address isr80 ->
  address IDT -> IDTP + 10 <= IDT \/ IDT + 4096 <= IDTP ->
  exists m', idt_install m t = (m', (4095, IDT), (pic_remap dev 32 40 t).2) /\
    (forall k h, 0 <= k -> isr_stubs !! Z.to_nat k = Some h -> gate_of IDT m' k = Gate h 8 0 142) /\
    gate_of IDT m' 32 = Gate isr32 8 0 142 /\ gate_of IDT m' 33 = Gate isr33 8 0 142 /\
    gate_of IDT m' 128 = Gate isr80 8 0 238 /\
    (forall x, ~ (IDT <= x < IDT + 4096) -> ~ (IDTP <= x < IDTP + 10) -> rb m' x = rb m x).
Proof.
  intros Hl Hst H32 H33 H80 HI Hap.
  destruct (idt_install_ok m t Hl Hst H32 H33 H80 HI Hap) as (m' & E & Hg & Ho).
  exists m'. split; [done|]. split; [|split; [by rewrite Hg|split; [by rewrite Hg|split; [by rewrite Hg|done]]]].
  intros k h Hk Hh. rewrite Hg. pose proof (lookup_lt_Some _ _ _ Hh) as Hlt. unfold Idt.vector, INTERRUPT, KEYBOARD, TIMER.
  do 4 rw_test. by rewrite Hh.
Qed.
End IdtProps.

Lemma idt_gates_read_back_witness :
  let stubs := (fun i => 300000 + 16 * i) <$> seqZ 0 32 in
  exists m', idt_install (fun _ _ => 0) 200704 196608 stubs 301000 301016 301032 ∅ [] =
      (m', (4095, 200704), (pic_remap (fun _ _ => 0) 32 40 []).2) /\
    (forall k h, 0 <= k -> stubs !! Z.to_nat k = Some h -> gate_of 200704 m' k = Gate h 8 0 142) /\
    gate_of 200704 m' 32 = Gate 301000 8 0 142 /\ gate_of 200704 m' 33 = Gate 301016 8 0 142 /\
    gate_of 200704 m' 128 = Gate 301032 8 0 238 /\
    (forall x, ~ (200704 <= x < 204800) -> ~ (196608 <= x < 196618) -> rb m' x = rb ∅ x).
Proof.
  apply (idt_gates_read_back (fun _ _ => 0) 200704 196608 ((fun i => 300000 + 16 * i) <$> seqZ 0 32)
    301000 301016 301032 ∅ []); first [reflexivity|repeat constructor; vm_compute; intuition congruence|lia].
Defined.
