(* ===== verification/Power.v ===== *)
(** * power/poweroff.c and power/reboot.c

    Power-off through the ACPI tables: the search for the RSDP, the FADT and
    the _S5_ package in the byte memory, and the writes to the PM1 control
    registers; reboot through the keyboard controller.  Physical addresses
    are the addresses of the memory ([phys_to_virt] is the identity).  The page
    tables of kernel.asm map the first GiB only (Start.v), so an access to a
    table or a register above it is a page fault: the functions that follow
    the firmware's pointers return [None] for it. *)

From Stdlib Require Import ZArith Lia.
From S2P Require Import Prelude Memory PortIO.

(** "RSD PTR ", "FACP", "_S5_" *)
Definition SIG_RSDP : list Z := [82; 83; 68; 32; 80; 84; 82; 32].
Definition SIG_FACP : list Z := [70; 65; 67; 80].
Definition SIG_S5 : list Z := [95; 83; 53; 95].
Definition PM1_SLP_EN : Z := 8192.
(** sizeof(acpi_sdt_hdr_t), sizeof(acpi_gas_t) *)
Definition SIZEOF_SDT : Z := 36.
Definition SIZEOF_GAS : Z := 12.

(** ** Fields of the packed structures *)

Definition rsdp_revision (m : mem) (r : Z) : Z := rb m (r + 15).
Definition rsdt_address (m : mem) (r : Z) : Z := ld 4 m (r + 16).
Definition rsdp_length (m : mem) (r : Z) : Z := ld 4 m (r + 20).
Definition xsdt_address (m : mem) (r : Z) : Z := ld 8 m (r + 24).
Definition sdt_length (m : mem) (h : Z) : Z := ld 4 m (u64 (h + 4)).

(** The memory kernel.asm maps, and whether the [n] bytes from [p] on are. *)
Definition MAPPED : Z := 1073741824.
Definition mapped (p n : Z) : bool := (0 <=? p) && (p + n <=? MAPPED).

Record gas := Gas { address_space : Z; bit_width : Z; gas_address : Z }.
Definition gas_at (m : mem) (p : Z) : gas := Gas (rb m p) (rb m (p + 1)) (ld 8 m (p + 4)).

(** ** Searching *)

(** The second argument is a string literal of [n] characters. *)
Fixpoint memcmp_simple (m : mem) (p : Z) (s : list Z) : Z :=
  match s with
  | [] => 0
  | c :: s => if rb m p =? c then memcmp_simple m (p + 1) s else rb m p - c
  end.

Fixpoint sum8 (n : nat) (m : mem) (p s : Z) : Z :=
  match n with O => s | S n => sum8 n m (p + 1) (u8 (s + rb m p)) end.
Definition checksum_ok (m : mem) (p n : Z) : bool := sum8 (Z.to_nat n) m p 0 =? 0.

Definition read_u32 (m : mem) (p : Z) : Z := ld 4 m p.
Definition read_u64 (m : mem) (p : Z) : Z := ld 8 m p.

(** The loops of [find_rsdp] and [find_table]: [k] places, [step] apart from
    [p] on; the first value read there that passes the test, or 0. *)
Fixpoint first_match (k : nat) (test : Z -> option bool) (val : Z -> Z) (p step : Z) : option Z :=
  match k with
  | O => Some 0
  | S k =>
      match test (val p) with
      | None => None
      | Some true => Some (val p)
      | Some false => first_match k test val (p + step) step
      end
  end.

Definition rsdp_valid (m : mem) (a : Z) : option bool :=
  if negb (memcmp_simple m a SIG_RSDP =? 0) then Some false
  else if (2 <=? rsdp_revision m a) && negb (rsdp_length m a =? 0) then
    if mapped a (rsdp_length m a)
    then Some (checksum_ok m a (rsdp_length m a) || checksum_ok m a 20) else None
  else Some (checksum_ok m a 20).

(** [for (a = 0xE0000; a <= 0xFFFFF; a += 16)] *)
Definition find_rsdp (m : mem) : option Z := first_match (Z.to_nat 8192) (rsdp_valid m) id 917504 16.

(** [Some 0] is NULL. *)
Definition map_sdt (m : mem) (phys : Z) : option Z :=
  if phys =? 0 then Some 0
  else if negb (mapped (u64 (phys + 4)) 4) then None
  else if (sdt_length m phys <? SIZEOF_SDT) || (2097152 <? sdt_length m phys) then Some 0
  else if negb (mapped phys (sdt_length m phys)) then None
  else if negb (checksum_ok m phys (sdt_length m phys)) then Some 0
  else Some phys.

(** A valid table with this signature. *)
Definition is_table (m : mem) (sig : list Z) (e : Z) : option bool :=
  match map_sdt m e with
  | None => None
  | Some h => Some (negb (h =? 0) && (memcmp_simple m h sig =? 0))
  end.

Definition find_table (m : mem) (table_phys : Z) (sig : list Z) (xsdt : bool) : option Z :=
  match map_sdt m table_phys with
  | None => None
  | Some t =>
      if t =? 0 then Some 0 else
      let base := u64 (table_phys + SIZEOF_SDT) in
      if base =? 0 then Some 0
      else if negb xsdt then
        first_match (Z.to_nat ((sdt_length m t - SIZEOF_SDT) / 4)) (is_table m sig) (read_u32 m) base 4
      else first_match (Z.to_nat ((sdt_length m t - SIZEOF_SDT) / 8)) (is_table m sig) (read_u64 m) base 8
  end.

(** [p[pos + 7]] may be the byte behind the table. *)
Fixpoint s5_loop (k : nat) (m : mem) (p i len : Z) : option (option (Z * Z)) :=
  match k with
  | O => Some None
  | S k =>
      if negb (i + 4 <? len) then Some None
      else if memcmp_simple m (p + i) SIG_S5 =? 0 then
        let pos := i + 4 in
        if pos + 6 <? len then
          if mapped (p + pos + 7) 1 then Some (Some (rb m (p + pos + 5), rb m (p + pos + 7))) else None
        else s5_loop k m p (i + 1) len
      else s5_loop k m p (i + 1) len
  end.
(** [Some (slp_a, slp_b)] for a return value of 0. *)
Definition find_s5 (m : mem) (dsdt_phys : Z) : option (option (Z * Z)) :=
  match map_sdt m dsdt_phys with
  | None => None
  | Some d =>
      if d =? 0 then Some None
      else s5_loop (Z.to_nat (sdt_length m d)) m dsdt_phys 0 (sdt_length m d)
  end.

(** ** The registers *)

(** [pm1a_addr], [pm1b_addr], [pm1_io] *)
Record pm1 := Pm1 { pm1a : Z; pm1b : Z; pm1_io : bool }.
Definition no_pm1 (r : pm1) : bool := (pm1a r =? 0) && (pm1b r =? 0).

Definition candidate_offsets : list (Z * Z) :=
  [(76, 84); (80, 88); (92, 100); (100, 108); (116, 124); (128, 136); (140, 148)].

Definition gas_a (m : mem) (base len off : Z) (r : pm1) : pm1 :=
  if off + SIZEOF_GAS <=? len then
    let g := gas_at m (base + off) in
    if negb (gas_address g =? 0) then Pm1 (gas_address g) (pm1b r) (address_space g =? 0) else r
  else r.
Definition gas_b (m : mem) (base len off : Z) (r : pm1) : pm1 :=
  if off + SIZEOF_GAS <=? len then
    let g := gas_at m (base + off) in
    if negb (gas_address g =? 0) then
      Pm1 (pm1a r) (gas_address g) (pm1_io r || (address_space g =? 0))
    else r
  else r.
Fixpoint try_find_gas_in_fadt (cs : list (Z * Z)) (m : mem) (base len : Z) (r : pm1) : pm1 :=
  match cs with
  | [] => r
  | (a, b) :: cs =>
      let r := gas_b m base len b (gas_a m base len a r) in
      if negb (no_pm1 r) then r else try_find_gas_in_fadt cs m base len r
  end.

(** The last resort: anything in the FADT that looks like an address. *)
Fixpoint gas_scan (k : nat) (m : mem) (base len i : Z) (r : pm1) : pm1 :=
  match k with
  | O => r
  | S k =>
      if negb (i + SIZEOF_GAS <=? len) then r
      else
        let g := gas_at m (base + i) in
        if negb (gas_address g =? 0) && ((address_space g =? 0) || (address_space g =? 1)) &&
           (0 <? bit_width g) && (bit_width g <=? 64) then
          if pm1a r =? 0 then
            gas_scan k m base len (i + 4) (Pm1 (gas_address g) (pm1b r) (address_space g =? 0))
          else if pm1b r =? 0 then
            Pm1 (pm1a r) (gas_address g) (pm1_io r || (address_space g =? 0))
          else gas_scan k m base len (i + 4) r
        else gas_scan k m base len (i + 4) r
  end.

(** The three ways [power_off] looks for the registers. *)
Definition find_pm1 (m : mem) (base len : Z) : pm1 :=
  let r := Pm1 0 0 true in
  let r := if 72 <=? len then Pm1 (read_u32 m (base + 64)) (read_u32 m (base + 68)) true else r in
  let r := if no_pm1 r then try_find_gas_in_fadt candidate_offsets m base len r else r in
  if no_pm1 r then gas_scan (Z.to_nat len) m base len SIZEOF_SDT r else r.

(** The eight bytes at 140 may end behind the table. *)
Definition dsdt_of (m : mem) (base len : Z) : option Z :=
  if (140 <=? len) && negb (mapped (base + 140) 8) then None else
  let d := if 140 <=? len then read_u64 m (base + 140) else 0 in
  Some (if d =? 0 then (if 44 <=? len then read_u32 m (base + 40) else d) else d).

Definition sleep_value (m : mem) (dsdt : Z) : option Z :=
  let value s5a := u16 (Z.lor (u16 (Z.shiftl (Z.land s5a 7) 10)) PM1_SLP_EN) in
  if dsdt =? 0 then Some (value 5) else
  match find_s5 m dsdt with
  | None => None
  | Some r => Some (value (match r with Some (a, _) => a | None => 5 end))
  end.

(** ** The writes *)

Definition io_wait : io unit := outb 128 0.
Definition emulator_fallback : io unit :=
  outw 1540 8192;;; io_wait;;; outw 16388 8192;;; io_wait.

(** [*mm = value]. *)
Definition write_mm (addr value : Z) (m : mem) : io (option mem) :=
  io_ret (if mapped addr 2 then Some (st 2 m addr value) else None).
Definition write_pm (addr : Z) (is_io : bool) (value : Z) (m : mem) : io (option mem) :=
  if addr =? 0 then io_ret (Some m)
  else if is_io then
    if addr <=? 65535 then outw (u16 addr) value;;; io_ret (Some m)
    else write_mm addr value m
  else write_mm addr value m.

(** Go on unless there was a page fault. *)
Definition unless_fault {A} (c : io (option mem)) (k : mem -> io (option A)) : io (option A) :=
  r <-- c; match r with Some m => k m | None => io_ret None end.

(** Both registers, then the emulators' ports again. *)
Definition write_sleep (r : pm1) (v : Z) (m : mem) : io (option mem) :=
  unless_fault (if negb (pm1a r =? 0) then write_pm (pm1a r) (pm1_io r) v m else io_ret (Some m)) (fun m =>
  unless_fault (if negb (pm1b r =? 0) then write_pm (pm1b r) (pm1_io r) v m else io_ret (Some m)) (fun m =>
  io_wait;;; emulator_fallback;;; io_ret (Some m))).

(** [power_off] up to its endless [hlt] loop, or to a page fault ([None]). *)
Definition power_off (m : mem) : io (option mem) :=
  emulator_fallback;;;
  match find_rsdp m with
  | None => io_ret None
  | Some rsdp =>
  if rsdp =? 0 then emulator_fallback;;; io_ret (Some m)
  else
  let use_xsdt := (2 <=? rsdp_revision m rsdp) && negb (xsdt_address m rsdp =? 0) in
  let table_phys := if use_xsdt then xsdt_address m rsdp else rsdt_address m rsdp in
  if table_phys =? 0 then emulator_fallback;;; io_ret (Some m)
  else
  match find_table m table_phys SIG_FACP use_xsdt with
  | None => io_ret None
  | Some fadt_phys =>
  if fadt_phys =? 0 then emulator_fallback;;; io_ret (Some m)
  else
  match map_sdt m fadt_phys with
  | None => io_ret None
  | Some fadt =>
  if fadt =? 0 then emulator_fallback;;; io_ret (Some m)
  else
  let len := sdt_length m fadt in
  match dsdt_of m fadt len with
  | None => io_ret None
  | Some dsdt =>
  match sleep_value m dsdt with
  | None => io_ret None
  | Some v => write_sleep (find_pm1 m fadt len) v m
  end end end end end.

(** *** reboot.c *)

Section Reboot.
Context (dev : trace -> Z -> Z).

(** [while (inb(0x64) & 0x02);] for at most [fuel] turns; [false]: still busy. *)
Fixpoint wait_kbc (fuel : nat) : io bool :=
  match fuel with
  | O => io_ret false
  | S k =>
      v <-- inb dev 100;
      if negb (Z.land v 2 =? 0) then wait_kbc k else io_ret true
  end.

(** [reboot_system] up to the [int $3] through the table the bytes at address
    0 describe; the result is the new IDTR. *)
Definition reboot_system (fuel : nat) (m : mem) : io (option (Z * Z)) :=
  ready <-- wait_kbc fuel;
  if negb ready then io_ret None
  else
    outb 100 254;;; io_ret (Some (ld 2 m 0, ld 8 m 2)).
End Reboot.

(** ** What the searches mean *)

Definition sumZ (l : list Z) : Z := foldr Z.add 0 l.
(** The bytes of [p, p+n) sum up to 0 modulo 256. *)
Definition checksummed (m : mem) (p n : Z) : Prop := sumZ (rbs m p (Z.to_nat n)) mod 256 = 0.
Definition reads (m : mem) (p : Z) (s : list Z) : Prop := rbs m p (length s) = s.
#[export] Instance checksummed_dec m p n : Decision (checksummed m p n).
Proof. unfold checksummed. apply _. Defined.
#[export] Instance reads_dec m p s : Decision (reads m p s).
Proof. unfold reads. apply _. Defined.

Lemma rbs_S m p n : rbs m p (S n) = rb m p :: rbs m (p + 1) n.
Proof.
  unfold rbs. cbn [seq fmap list_fmap]. f_equal; [f_equal; lia|].
  rewrite <- seq_shift, <- list_fmap_compose. apply list_fmap_ext. intros i j _. simpl. f_equal. lia.
Qed.

Lemma memcmp_zero m p s : memcmp_simple m p s = 0 <-> reads m p s.
Proof.
  unfold reads. revert p. induction s as [|c s IH]; intros p; cbn [memcmp_simple length]; [done|].
  rewrite rbs_S. destruct (Z.eqb_spec (rb m p) c) as [<-|Hne].
  - rewrite IH. split; [by intros ->|by intros [= ?]].
  - split; [lia|]. by intros [= ? _].
Qed.
Lemma memcmp_reads m p s : (memcmp_simple m p s =? 0) = bool_decide (reads m p s).
Proof.
  destruct (Z.eqb_spec (memcmp_simple m p s) 0) as [E|E]; rewrite memcmp_zero in E.
  - by rewrite bool_decide_eq_true_2.
  - by rewrite bool_decide_eq_false_2.
Qed.

Lemma sum8_ok n m p s : sum8 n m p (u8 s) = u8 (s + sumZ (rbs m p n)).
Proof.
  revert p s. induction n as [|n IH]; intros p s; [cbn; by rewrite Z.add_0_r|].
  cbn [sum8]. rewrite rbs_S. cbn [sumZ foldr]. fold (sumZ (rbs m (p + 1) n)).
  replace (u8 (u8 s + rb m p)) with (u8 (s + rb m p)).
  - rewrite IH. f_equal. lia.
  - unfold u8. by rewrite Zplus_mod_idemp_l.
Qed.
Lemma checksum_spec m p n : checksum_ok m p n = bool_decide (checksummed m p n).
Proof.
  unfold checksum_ok, checksummed. change 0 with (u8 0) at 1. rewrite sum8_ok. unfold u8.
  change (0 + sumZ (rbs m p (Z.to_nat n))) with (sumZ (rbs m p (Z.to_nat n))). change (2 ^ 8) with 256.
  by destruct (Z.eqb_spec (sumZ (rbs m p (Z.to_nat n)) mod 256) 0); [rewrite bool_decide_eq_true_2|rewrite bool_decide_eq_false_2].
Qed.

(** An RSDP at [a]. *)
Definition rsdp_at (m : mem) (a : Z) : Prop :=
  reads m a SIG_RSDP /\
  (2 <= rsdp_revision m a /\ rsdp_length m a <> 0 /\ checksummed m a (rsdp_length m a) \/ checksummed m a 20).
(** A description table at [h]. *)
Definition sdt_at (m : mem) (h : Z) : Prop :=
  h <> 0 /\ SIZEOF_SDT <= sdt_length m h <= 2097152 /\ checksummed m h (sdt_length m h).

(** What a search reads is mapped: of an RSDP the length it gives, of a table
    the header's length and, if that is in range, all of it. *)
Definition rsdp_low (m : mem) (a : Z) : Prop :=
  reads m a SIG_RSDP -> 2 <= rsdp_revision m a -> rsdp_length m a <> 0 -> mapped a (rsdp_length m a) = true.
Definition sdt_low (m : mem) (h : Z) : Prop :=
  h = 0 \/ mapped (u64 (h + 4)) 4 = true /\
    (SIZEOF_SDT <= sdt_length m h <= 2097152 -> mapped h (sdt_length m h) = true).

(** The test of a search, where it does not fault. *)
Definition decides (o : option bool) (P : Prop) : Prop := exists b, o = Some b /\ (b = true <-> P).

Lemma rsdp_spec m a : rsdp_low m a -> decides (rsdp_valid m a) (rsdp_at m a).
Proof.
  unfold rsdp_valid, rsdp_low, rsdp_at. intros Hlow. rewrite memcmp_reads. case_bool_decide as Hr; cbn [negb].
  2: { exists false. split; [done|]. split; [done|by intros [? _]]. }
  rewrite !checksum_spec. destruct ((2 <=? rsdp_revision m a) && negb (rsdp_length m a =? 0)) eqn:E.
  - bsimp. rewrite Hlow by done. eexists. split; [done|]. rewrite orb_true_iff, !bool_decide_eq_true. tauto.
  - eexists. split; [done|]. rewrite bool_decide_eq_true. apply andb_false_iff in E as [E|E]; bsimp; split; try tauto; try lia.
    intros [_ [(? & _)|?]]; [lia|done].
Qed.

Lemma map_sdt_spec m h : sdt_low m h ->
  map_sdt m h = Some h /\ sdt_at m h /\ mapped h (sdt_length m h) = true \/ map_sdt m h = Some 0 /\ ~ sdt_at m h.
Proof.
  unfold map_sdt, sdt_at, sdt_low. destruct (Z.eqb_spec h 0) as [->|Hh]; [right; split; [done|tauto]|].
  intros [?|[-> Hm]]; [done|]. cbn [negb]. destruct ((_ <? _) || _) eqn:E1.
  { right. split; [done|]. apply orb_true_iff in E1 as [?|?]; bsimp; lia. }
  bsimp. rewrite Hm by lia. cbn [negb]. rewrite checksum_spec. case_bool_decide; cbn [negb]; [left|right; tauto].
  split; [done|]. split; [|done]. split; [done|]. split; [lia|done].
Qed.
Lemma map_sdt_fault m h : MAPPED <= h < 18446744073709551612 -> map_sdt m h = None.
Proof.
  unfold MAPPED. intros Hh. unfold map_sdt. rewrite u64_small by lia. rw_test. unfold mapped, MAPPED.
  by rewrite (proj2 (Z.leb_gt (h + 4 + 4) _)), andb_false_r by lia.
Qed.

Definition table_at (m : mem) (sig : list Z) (e : Z) : Prop := sdt_at m e /\ reads m e sig.
Lemma is_table_spec m sig e : sdt_low m e -> decides (is_table m sig e) (table_at m sig e).
Proof.
  unfold is_table, table_at. intros Hl. destruct (map_sdt_spec m e Hl) as [(-> & H & _)|[-> H]].
  - destruct H as (Hz & H). rewrite (proj2 (Z.eqb_neq e 0)) by done. cbn [negb andb]. rewrite memcmp_reads.
    eexists. split; [done|]. rewrite bool_decide_eq_true. unfold sdt_at. tauto.
  - exists false. split; [done|]. split; [done|by intros [? _]].
Qed.

(** The first of [n] places, [step] apart from [p] on, where [P] holds. *)
Definition first_at (n : Z) (P : Z -> Prop) (k : Z) : Prop :=
  0 <= k < n /\ P k /\ forall j, 0 <= j < k -> ~ P j.
Definition none_at (n : Z) (P : Z -> Prop) : Prop := forall j, 0 <= j < n -> ~ P j.

Lemma first_at_S n (P : Z -> Prop) k : ~ P 0 -> first_at n (fun j => P (j + 1)) k -> first_at (n + 1) P (k + 1).
Proof.
  intros H0 (Hk & HP & Hj). split; [lia|]. split; [done|]. intros j Hj'.
  destruct (Z.eq_dec j 0) as [->|]; [done|]. specialize (Hj (j - 1) ltac:(lia)). cbn in Hj.
  by replace (j - 1 + 1) with j in Hj by lia.
Qed.
Lemma none_at_S n (P : Z -> Prop) : ~ P 0 -> none_at n (fun j => P (j + 1)) -> none_at (n + 1) P.
Proof.
  intros H0 Hn j Hj. destruct (Z.eq_dec j 0) as [->|]; [done|]. specialize (Hn (j - 1) ltac:(lia)). cbn in Hn.
  by replace (j - 1 + 1) with j in Hn by lia.
Qed.
Lemma first_at_ext n (P Q : Z -> Prop) k : (forall j, P j <-> Q j) -> first_at n P k -> first_at n Q k.
Proof. intros E (H1 & H2 & H3). split; [done|]. rewrite <- E. split; [done|]. intros j ?. rewrite <- E. auto. Qed.

Lemma first_at_fun n P k k' : first_at n P k -> first_at n P k' -> k = k'.
Proof.
  intros (H1 & H2 & H3) (H1' & H2' & H3'). destruct (Z.lt_trichotomy k k') as [?|[?|?]]; [|done|].
  - by destruct (H3' k ltac:(lia)).
  - by destruct (H3 k' ltac:(lia)).
Qed.

Lemma first_match_ok k test val (P : Z -> Prop) p step :
  (forall j, 0 <= j < Z.of_nat k -> decides (test (val (p + step * j))) (P (val (p + step * j)))) ->
  (exists i, first_at (Z.of_nat k) (fun j => P (val (p + step * j))) i /\
     first_match k test val p step = Some (val (p + step * i))) \/
  none_at (Z.of_nat k) (fun j => P (val (p + step * j))) /\ first_match k test val p step = Some 0.
Proof.
  revert p. induction k as [|k IH]; intros p HP; cbn [first_match]; [right; split; [intros j ?; lia|done]|].
  destruct (HP 0 ltac:(lia)) as (t & Et & Ht). rewrite Z.mul_0_r, Z.add_0_r in Et, Ht. rewrite Et. destruct t.
  - left. exists 0. rewrite Z.mul_0_r, Z.add_0_r. split; [|done].
    split; [lia|]. split; [rewrite Z.mul_0_r, Z.add_0_r; by apply Ht|]. lia.
  - assert (H0 : ~ P (val (p + step * 0))) by (rewrite Z.mul_0_r, Z.add_0_r, <- Ht; done).
    rewrite Nat2Z.inj_succ, <- Z.add_1_r. destruct (IH (p + step)) as [(i & Hf & ->)|[Hn ->]]; [|left|right].
    + intros j Hj. replace (p + step + step * j) with (p + step * (j + 1)) by lia. apply HP. lia.
    + exists (i + 1). replace (p + step + step * i) with (p + step * (i + 1)) by lia. split; [|done].
      apply (first_at_S _ (fun j => P (val (p + step * j)))); [done|].
      eapply first_at_ext; [|exact Hf]. intros j. cbn beta. by replace (p + step + step * j) with (p + step * (j + 1)) by lia.
    + split; [|done]. apply (none_at_S _ (fun j => P (val (p + step * j)))); [done|].
      intros j Hj. replace (p + step * (j + 1)) with (p + step + step * j) by lia. by apply Hn.
Qed.

(** The RSDP the firmware left: the first one on a 16-byte boundary of
    [0xE0000, 0x100000). *)
Definition the_rsdp (m : mem) (r : Z) : Prop :=
  exists i, first_at 8192 (fun j => rsdp_at m (917504 + 16 * j)) i /\ r = 917504 + 16 * i.
Definition no_rsdp (m : mem) : Prop := none_at 8192 (fun j => rsdp_at m (917504 + 16 * j)).

Lemma find_rsdp_ok m : (forall j, 0 <= j < 8192 -> rsdp_low m (917504 + 16 * j)) ->
  (exists r, the_rsdp m r /\ r <> 0 /\ find_rsdp m = Some r) \/ no_rsdp m /\ find_rsdp m = Some 0.
Proof.
  intros Hlow. destruct (first_match_ok (Z.to_nat 8192) (rsdp_valid m) id (rsdp_at m) 917504 16) as [(i & Hf & E)|H];
    [intros j Hj; by apply rsdp_spec, Hlow|left|by right].
  pose proof Hf as (Hi & _). change (Z.of_nat (Z.to_nat 8192)) with 8192 in *.
  unfold find_rsdp, id in *. exists (917504 + 16 * i). split; [by exists i|]. split; [lia|done].
Qed.

(** The entries of a root table: 4 bytes each in the RSDT, 8 in the XSDT. *)
Definition entry_count (m : mem) (t : Z) (xsdt : bool) : Z :=
  (sdt_length m t - SIZEOF_SDT) / (if xsdt then 8 else 4).
Definition entry_at (m : mem) (t : Z) (xsdt : bool) (j : Z) : Z :=
  if xsdt then ld 8 m (t + SIZEOF_SDT + 8 * j) else ld 4 m (t + SIZEOF_SDT + 4 * j).

(** [e] is the first entry of the table at [t] with the signature. *)
Definition lists_table (m : mem) (t : Z) (xsdt : bool) (sig : list Z) (e : Z) : Prop :=
  sdt_at m t /\ exists i, first_at (entry_count m t xsdt) (fun j => table_at m sig (entry_at m t xsdt j)) i /\
    e = entry_at m t xsdt i.
Definition lists_none (m : mem) (t : Z) (xsdt : bool) (sig : list Z) : Prop :=
  sdt_at m t -> none_at (entry_count m t xsdt) (fun j => table_at m sig (entry_at m t xsdt j)).

Lemma entry_count_pos m t xsdt : sdt_at m t -> 0 <= entry_count m t xsdt.
Proof. intros (_ & H & _). unfold entry_count. apply Z.div_pos; [lia|by destruct xsdt]. Qed.

Lemma find_table_ok m t xsdt sig :
  sdt_low m t -> (forall j, sdt_at m t -> 0 <= j < entry_count m t xsdt -> sdt_low m (entry_at m t xsdt j)) ->
  (exists f, lists_table m t xsdt sig f /\ f <> 0 /\ find_table m t sig xsdt = Some f) \/
  lists_none m t xsdt sig /\ find_table m t sig xsdt = Some 0.
Proof.
  intros Ht He. unfold find_table, lists_none. destruct (map_sdt_spec m t Ht) as [(-> & H & Hm)|[-> H]]; [|by right].
  pose proof (entry_count_pos m t xsdt H) as Hc. pose proof H as (Hz0 & Hl & _).
  unfold mapped, MAPPED, SIZEOF_SDT in *. bsimp. rw_test. rewrite u64_small by lia. rw_test.
  assert (Hz : forall e, table_at m sig e -> e <> 0) by by intros e [[? _] _].
  assert (Hdec : forall j, 0 <= j < entry_count m t xsdt ->
    decides (is_table m sig (entry_at m t xsdt j)) (table_at m sig (entry_at m t xsdt j))).
  { intros j Hj. apply is_table_spec. by apply He. }
  unfold lists_table, entry_count, entry_at, SIZEOF_SDT in *.
  destruct xsdt; cbn [negb].
  - destruct (first_match_ok (Z.to_nat ((sdt_length m t - 36) / 8)) (is_table m sig) (read_u64 m) (table_at m sig)
      (t + 36) 8) as [(i & Hf & ->)|[Hn ->]]; rewrite Z2Nat.id in * by done; [done|left|right; done].
    eexists. split; [split; [done|]; by exists i|]. destruct Hf as (_ & Hi & _). by apply Hz in Hi.
  - destruct (first_match_ok (Z.to_nat ((sdt_length m t - 36) / 4)) (is_table m sig) (read_u32 m) (table_at m sig)
      (t + 36) 4) as [(i & Hf & ->)|[Hn ->]]; rewrite Z2Nat.id in * by done; [done|left|right; done].
    eexists. split; [split; [done|]; by exists i|]. destruct Hf as (_ & Hi & _). by apply Hz in Hi.
Qed.

(** ** The sleep type *)

(** An occurrence of the name _S5_ at offset [i] that [find_s5] accepts. *)
Definition s5_at (m : mem) (d i : Z) : Prop := reads m (d + i) SIG_S5 /\ i + 10 < sdt_length m d.

Lemma s5_loop_ok k m d i len :
  len = sdt_length m d -> 0 <= d -> d + len < MAPPED -> 0 <= i ->
  (exists j, first_at (Z.of_nat k) (fun j => s5_at m d (i + j)) j /\
     s5_loop k m d i len = Some (Some (rb m (d + (i + j) + 9), rb m (d + (i + j) + 11)))) \/
  none_at (Z.of_nat k) (fun j => s5_at m d (i + j)) /\ s5_loop k m d i len = Some None.
Proof.
  intros -> Hd0 Hlow. revert i. induction k as [|k IH]; intros i Hi; cbn [s5_loop]; [right; split; [intros j ?; lia|done]|].
  set (len := sdt_length m d) in *.
  assert (Hnext : ~ s5_at m d (i + 0) ->
    (exists j, first_at (Z.of_nat (S k)) (fun j => s5_at m d (i + j)) j /\
       s5_loop k m d (i + 1) len = Some (Some (rb m (d + (i + j) + 9), rb m (d + (i + j) + 11)))) \/
    none_at (Z.of_nat (S k)) (fun j => s5_at m d (i + j)) /\ s5_loop k m d (i + 1) len = Some None).
  { intros H0. rewrite Nat2Z.inj_succ, <- Z.add_1_r. destruct (IH (i + 1) ltac:(lia)) as [(j & Hf & ->)|[Hn ->]]; [left|right].
    - exists (j + 1). replace (i + (j + 1)) with (i + 1 + j) by lia. split; [|done].
      apply (first_at_S _ (fun j => s5_at m d (i + j))); [done|].
      eapply first_at_ext; [|exact Hf]. intros x. cbn beta. by replace (i + 1 + x) with (i + (x + 1)) by lia.
    - split; [|done]. apply (none_at_S _ (fun j => s5_at m d (i + j))); [done|].
      intros j Hj. replace (i + (j + 1)) with (i + 1 + j) by lia. by apply Hn. }
  rewrite Z.add_0_r in Hnext. destruct (Z.ltb_spec (i + 4) len) as [H4|H4]; cbn [negb].
  - rewrite memcmp_reads. case_bool_decide as Hr; [|by apply Hnext; intros [? _]].
    destruct (Z.ltb_spec (i + 4 + 6) len) as [H6|H6]; [|apply Hnext; intros [_ ?]; unfold len in *; lia].
    unfold mapped. rewrite (proj2 (Z.leb_le 0 _)), (proj2 (Z.leb_le _ MAPPED)) by lia. cbn [andb].
    left. exists 0. rewrite Z.add_0_r. split.
    + split; [lia|]. split; [rewrite Z.add_0_r; split; [done|unfold len in *; lia]|]. lia.
    + do 4 f_equal; lia.
  - right. split; [|done]. intros j Hj [_ Hlt]. unfold len in *. lia.
Qed.

(** The byte taken for SLP_TYPa: the sixth after the name, or 5. *)
Definition slp_byte (m : mem) (d x : Z) : Prop :=
  (exists i, sdt_at m d /\ first_at (sdt_length m d) (s5_at m d) i /\ x = rb m (d + i + 9)) \/
  (sdt_at m d -> none_at (sdt_length m d) (s5_at m d)) /\ x = 5.

Lemma sleep_bits x : 0 <= x < 256 -> u16 (Z.lor (u16 (Z.shiftl (Z.land x 7) 10)) PM1_SLP_EN) = 8192 + 1024 * (x mod 8).
Proof.
  intros Hx. change 7 with (Z.ones 3). rewrite Z.land_ones by lia. change (2 ^ 3) with 8.
  pose proof (Z.mod_pos_bound x 8 ltac:(lia)) as Hb.
  assert (H : forallb (fun y => u16 (Z.lor (u16 (Z.shiftl y 10)) PM1_SLP_EN) =? 8192 + 1024 * y) (seqZ 0 8) = true) by by vm_compute.
  rewrite forallb_forall in H. apply Z.eqb_eq, (H (x mod 8)). apply list_elem_of_In, elem_of_seqZ. lia.
Qed.

(** The DSDT is mapped, and so is the byte behind it. *)
Definition dsdt_low (m : mem) (d : Z) : Prop :=
  sdt_low m d /\ (sdt_at m d -> d + sdt_length m d < MAPPED).

Lemma find_s5_ok m d : dsdt_low m d ->
  exists x, slp_byte m d x /\ sleep_value m d = Some (8192 + 1024 * (x mod 8)).
Proof.
  intros [Hlow Hd]. unfold sleep_value, slp_byte. destruct (Z.eqb_spec d 0) as [->|Hd0].
  { exists 5. split; [|f_equal; by apply sleep_bits]. right. split; [|done]. by intros [? _]. }
  unfold find_s5. destruct (map_sdt_spec m d Hlow) as [(-> & H & Hm)|[-> H]].
  2: { exists 5. split; [|f_equal; by apply sleep_bits]. right. split; [tauto|done]. }
  assert (Hl : 0 <= sdt_length m d) by (destruct H as (_ & H & _); unfold SIZEOF_SDT in H; lia).
  unfold mapped in Hm. bsimp. rw_test. specialize (Hd H).
  destruct (s5_loop_ok (Z.to_nat (sdt_length m d)) m d 0 _ eq_refl ltac:(done) Hd ltac:(lia)) as [(j & Hf & ->)|[Hn ->]];
    rewrite Z2Nat.id in * by done.
  - exists (rb m (d + (0 + j) + 9)). split; [|f_equal; apply sleep_bits, rb_range].
    left. exists j. split; [done|]. split; [|f_equal; lia].
    eapply first_at_ext; [|exact Hf]. intros y. cbn beta. by rewrite Z.add_0_l.
  - exists 5. split; [|f_equal; by apply sleep_bits]. right. split; [|done]. intros _ y Hy. specialize (Hn y Hy).
    cbn beta in Hn. by rewrite Z.add_0_l in Hn.
Qed.

(** ** The whole of [power_off] *)

Definition uses_xsdt (m : mem) (r : Z) : bool := (2 <=? rsdp_revision m r) && negb (xsdt_address m r =? 0).
Definition root_table (m : mem) (r : Z) : Z := if uses_xsdt m r then xsdt_address m r else rsdt_address m r.

(** The FADT the firmware's tables lead to. *)
Definition the_fadt (m : mem) (f : Z) : Prop :=
  exists r, the_rsdp m r /\ root_table m r <> 0 /\
    lists_table m (root_table m r) (uses_xsdt m r) SIG_FACP f.

Definition fallback_trace : trace := [OutW 1540 8192; Out 128 0; OutW 16388 8192; Out 128 0].

Lemma fallback_ok t : emulator_fallback t = (tt, t ++ fallback_trace).
Proof. unfold emulator_fallback, io_wait, io_bind, outw, outb, fallback_trace. by rewrite <- !app_assoc. Qed.

Lemma then_fallback {A} (k : io A) t : (emulator_fallback;;; k) t = k (t ++ fallback_trace).
Proof. unfold io_bind. by rewrite fallback_ok. Qed.

Lemma write_sleep_io a b v m t :
  0 < a < 65536 -> 0 <= b < 65536 -> 0 <= v < 65536 ->
  write_sleep (Pm1 a b true) v m t =
    (Some m, t ++ [OutW a v] ++ (if b =? 0 then [] else [OutW b v]) ++ [Out 128 0] ++ fallback_trace).
Proof.
  intros Ha Hb Hv. unfold write_sleep. cbn [pm1a pm1b pm1_io]. unfold unless_fault, write_pm, io_bind, outw, io_wait, outb.
  rewrite (u16_small a), (u16_small b), (u16_small v) by lia. repeat rw_test. cbn [negb].
  destruct (Z.eqb_spec b 0) as [->|Hb0]; cbn [negb]; unfold io_ret; rewrite fallback_ok, <- !app_assoc; done.
Qed.

Lemma the_rsdp_fun m r r' : the_rsdp m r -> the_rsdp m r' -> r = r'.
Proof. intros (i & Hi & ->) (j & Hj & ->). by rewrite (first_at_fun _ _ _ _ Hi Hj). Qed.
Lemma the_fadt_fun m f f' : the_fadt m f -> the_fadt m f' -> f = f'.
Proof.
  intros (r & Hr & _ & _ & i & Hi & ->) (r' & Hr' & _ & _ & i' & Hi' & ->).
  rewrite (the_rsdp_fun _ _ _ Hr' Hr) in *. by rewrite (first_at_fun _ _ _ _ Hi Hi').
Qed.
Lemma root_table_range m r : 0 <= root_table m r < 18446744073709551616.
Proof.
  unfold root_table, xsdt_address, rsdt_address. pose proof (ld_range 8 m (r + 24)). pose proof (ld_range 4 m (r + 16)).
  change (256 ^ Z.of_nat 8) with 18446744073709551616 in *. change (256 ^ Z.of_nat 4) with 4294967296 in *.
  destruct (uses_xsdt m r); lia.
Qed.

(** The firmware's tables lie in the memory kernel.asm maps: the RSDP (with
    the length it gives), the root table, every table it lists, the FADT with
    the eight bytes that may end behind it, the DSDT with the byte behind it. *)
Definition places_low (m : mem) : Prop := forall j, 0 <= j < 8192 -> rsdp_low m (917504 + 16 * j).
Record acpi_low (m : mem) : Prop := {
  low_rsdp : places_low m;
  low_root r : the_rsdp m r -> sdt_low m (root_table m r);
  low_entries r j : the_rsdp m r -> sdt_at m (root_table m r) ->
    0 <= j < entry_count m (root_table m r) (uses_xsdt m r) ->
    sdt_low m (entry_at m (root_table m r) (uses_xsdt m r) j);
  low_fadt f : the_fadt m f -> 140 <= sdt_length m f -> f + 148 <= MAPPED;
  low_dsdt f d : the_fadt m f -> dsdt_of m f (sdt_length m f) = Some d -> dsdt_low m d
}.

(** Where the search ends. *)
Lemma power_off_search m t : acpi_low m ->
  (exists f, the_fadt m f /\ sdt_at m f /\ mapped f (sdt_length m f) = true /\
     power_off m t = (match dsdt_of m f (sdt_length m f) with
       | None => io_ret None
       | Some d => match sleep_value m d with
           | None => io_ret None | Some v => write_sleep (find_pm1 m f (sdt_length m f)) v m end end) (t ++ fallback_trace)) \/
  (forall f, ~ the_fadt m f) /\ power_off m t = (Some m, t ++ fallback_trace ++ fallback_trace).
Proof.
  intros [L1 L2 L3 _ _]. unfold power_off. rewrite then_fallback. cbv zeta.
  destruct (find_rsdp_ok m L1) as [(r & Hr & Hr0 & ->)|[Hr ->]].
  2: { right. cbn [Z.eqb]. rewrite then_fallback, <- app_assoc. split; [|done].
       intros f (r & (i & (Hi & Hat & _) & _) & _). by destruct (Hr i Hi). }
  rewrite (proj2 (Z.eqb_neq r 0)) by done. fold (uses_xsdt m r). fold (root_table m r).
  destruct (Z.eqb_spec (root_table m r) 0) as [E0|E0].
  { right. rewrite then_fallback, <- app_assoc. split; [|done].
    intros f (r' & Hr' & Hn0 & _). by rewrite (the_rsdp_fun m r' r Hr' Hr) in Hn0. }
  destruct (find_table_ok m (root_table m r) (uses_xsdt m r) SIG_FACP (L2 r Hr)) as [(f & Hf & Hf0 & ->)|[Hf ->]].
  { intros j. by apply L3. }
  2: { right. cbn [Z.eqb]. rewrite then_fallback, <- app_assoc. split; [|done].
       intros f (r' & Hr' & _ & Hsdt & i & (Hi & Hat & _) & _). rewrite (the_rsdp_fun m r' r Hr' Hr) in *.
       by destruct (Hf Hsdt i Hi). }
  left. exists f. rewrite (proj2 (Z.eqb_neq f 0)) by done. split; [by exists r|].
  pose proof Hf as (Hsdt & i & (Hi & [Hat _] & _) & Ef). rewrite <- Ef in Hat.
  destruct (map_sdt_spec m f) as [(-> & _ & Hm)|[_ Hn]]; [rewrite Ef; by apply L3| |done].
  split; [done|]. split; [done|]. by rewrite (proj2 (Z.eqb_neq f 0)).
Qed.

(** C31. [power_off] tries the emulators' shutdown ports first.  When the
    firmware's tables all lie below 1 GiB, where kernel.asm maps memory: if
    they lead to no FADT it tries those ports once more and stops; if they
    lead to a FADT of at least 72 bytes whose legacy PM1 fields name an I/O
    port (PM1a, and PM1b or none), it writes SLP_EN with three bits of sleep
    type to PM1a and, if there is one, to PM1b.  Memory is not written.  When
    the RSDP it finds names a root table above 1 GiB (but for the last four
    bytes of the address space), it faults, and no further port is written. *)
Theorem power_off_result (m : mem) t :
  (acpi_low m ->
    ((forall f, ~ the_fadt m f) -> power_off m t = (Some m, t ++ fallback_trace ++ fallback_trace)) /\
    (forall f a b, the_fadt m f -> 72 <= sdt_length m f -> a = ld 4 m (f + 64) -> b = ld 4 m (f + 68) ->
       0 < a < 65536 -> b < 65536 ->
       exists d x, dsdt_of m f (sdt_length m f) = Some d /\ slp_byte m d x /\
         let v := 8192 + 1024 * (x mod 8) in
         power_off m t = (Some m, t ++ fallback_trace ++ [OutW a v] ++ (if b =? 0 then [] else [OutW b v]) ++
           [Out 128 0] ++ fallback_trace))) /\
  (forall r, places_low m -> the_rsdp m r -> 1073741824 <= root_table m r < 18446744073709551612 ->
     power_off m t = (None, t ++ fallback_trace)).
Proof.
  split.
  - intros Hlow. destruct (power_off_search m t Hlow) as [(f0 & Hf0 & Hat & Hm & E)|[Hno E]].
    2: { split; [done|]. intros f a b Hf. by destruct (Hno f). }
    split; [intros Hno; by destruct (Hno f0)|]. intros f a b Hf Hlen Ea Eb Ha Hb.
    rewrite (the_fadt_fun m f f0 Hf Hf0) in *. unfold mapped, MAPPED in Hm. bsimp.
    assert (Hd : exists d, dsdt_of m f0 (sdt_length m f0) = Some d).
    { unfold dsdt_of. destruct (Z.leb_spec 140 (sdt_length m f0)) as [Hl|Hl]; [|by eexists].
      pose proof (low_fadt _ Hlow f0 Hf0 Hl). unfold mapped.
      rewrite (proj2 (Z.leb_le 0 _)), (proj2 (Z.leb_le _ MAPPED)) by lia. by eexists. }
    destruct Hd as [d Ed]. destruct (find_s5_ok m d (low_dsdt _ Hlow f0 d Hf0 Ed)) as (x & Hx & Ev).
    exists d, x. split; [done|]. split; [done|]. rewrite E, Ed, Ev.
    assert (Hpm : find_pm1 m f0 (sdt_length m f0) = Pm1 a b true).
    { unfold find_pm1, read_u32. rewrite (proj2 (Z.leb_le _ _) Hlen), <- Ea, <- Eb.
      assert (Hno : no_pm1 (Pm1 a b true) = false) by (unfold no_pm1; cbn [pm1a]; by rw_test).
      by rewrite !Hno. }
    pose proof (Z.mod_pos_bound x 8 ltac:(lia)). pose proof (ld_range 4 m (f0 + 68)).
    rewrite Hpm, write_sleep_io by (subst b; lia). by rewrite <- app_assoc.
  - intros r Hp Hr Hroot. unfold power_off. rewrite then_fallback. cbv zeta.
    destruct (find_rsdp_ok m Hp) as [(r' & Hr' & Hr0 & ->)|[Hno _]].
    2: { destruct Hr as (i & (Hi & Hat & _) & _). by destruct (Hno i Hi). }
    rewrite (the_rsdp_fun m r' r Hr' Hr) in *. rewrite (proj2 (Z.eqb_neq r 0)) by done.
    fold (uses_xsdt m r). fold (root_table m r). rw_test. unfold find_table. by rewrite map_sdt_fault.
Qed.

(** The sleep type is lost.  In the usual encoding of the _S5_ package
    (PackageOp, length, count, then BytePrefix and value for each type) the
    sixth byte after the name is the second BytePrefix, so the value written
    is 2 with SLP_EN, whatever type the firmware asks for. *)
Theorem s5_type_ignored m d i plen n a b :
  dsdt_low m d -> sdt_at m d -> first_at (sdt_length m d) (s5_at m d) i ->
  reads m (d + i + 4) [18; plen; n; 10; a; 10; b] ->
  sleep_value m d = Some (PM1_SLP_EN + 1024 * 2).
Proof.
  intros Hd Hs Hi Hr. destruct (find_s5_ok m d Hd) as (x & [(j & _ & Hj & ->)|[Hn _]] & ->).
  - rewrite (first_at_fun _ _ _ _ Hj Hi). unfold reads in Hr. cbn [length] in Hr.
    rewrite !rbs_S in Hr. injection Hr as _ _ _ _ _ Hb _.
    replace (d + i + 9) with (d + i + 4 + 1 + 1 + 1 + 1 + 1) by lia. by rewrite Hb.
  - destruct Hi as (Hi & Hat & _). by destruct (Hn Hs i Hi).
Qed.

(** ** A concrete machine

    RSDP at 0xE0000, RSDT at 4096, FADT at 8192 (PM1a at port 0xB004), DSDT
    at 12288 asking for sleep type 5. *)
Section AcpiDemo.
Definition word32 (v : Z) : list Z := [v mod 256; v / 256 mod 256; v / 65536 mod 256; v / 16777216 mod 256].
(** The checksum byte at [off] set so that all bytes sum up to 0. *)
Definition sealed (off : nat) (l : list Z) : list Z := <[off := (- sumZ l) mod 256]> l.
Definition sdt (sig : list Z) (body : list Z) : list Z :=
  sealed 9 (sig ++ word32 (36 + lenZ body) ++ replicate 28 0 ++ body).

Definition demo_rsdp : list Z := sealed 8 (SIG_RSDP ++ replicate 8 0 ++ word32 4096).
Definition demo_rsdt : list Z := sdt [82; 83; 68; 84] (word32 8192).
Definition demo_fadt : list Z :=
  sdt SIG_FACP ([0; 0; 0; 0] ++ word32 12288 ++ replicate 20 0 ++ word32 45060 ++ word32 0 ++ word32 0).
Definition demo_dsdt : list Z := sdt [68; 83; 68; 84] ([8] ++ SIG_S5 ++ [18; 10; 4; 10; 5; 10; 5; 10; 0; 10; 0]).
Definition acpi_mem : mem :=
  wbs (wbs (wbs (wbs ∅ 917504 demo_rsdp) 4096 demo_rsdt) 8192 demo_fadt) 12288 demo_dsdt.

(** Is [h] 0, or all of its table mapped? *)
Definition sdt_lowb (m : mem) (h : Z) : bool :=
  (h =? 0) || mapped (u64 (h + 4)) 4 && mapped h (sdt_length m h).
Lemma sdt_lowb_ok m h : sdt_lowb m h = true -> sdt_low m h.
Proof. unfold sdt_lowb, sdt_low. intros [?|?]%orb_true_iff; bsimp; [by left|by right]. Qed.

(** No place holds an RSDP with a length of its own. *)
Definition plain_places (m : mem) : bool :=
  forallb (fun j => negb (bool_decide (reads m (917504 + 16 * j) SIG_RSDP)) ||
    (rsdp_revision m (917504 + 16 * j) <? 2)) (seqZ 0 8192).
Lemma plain_places_low m : plain_places m = true -> places_low m.
Proof.
  intros Hno j Hj Hr H2. exfalso. unfold plain_places in Hno.
  rewrite forallb_forall in Hno. specialize (Hno j). rewrite (bool_decide_eq_true_2 _ Hr) in Hno.
  rewrite (proj2 (Z.ltb_ge _ _) H2) in Hno. discriminate Hno. apply list_elem_of_In, elem_of_seqZ. lia.
Qed.
Lemma plain_rsdp m : plain_places m = true -> rsdp_valid m 917504 = Some true -> the_rsdp m 917504.
Proof.
  intros Hp E. exists 0. split; [|done]. split; [lia|]. split; [|lia].
  destruct (rsdp_spec m 917504 (plain_places_low m Hp 0 ltac:(lia))) as (t & Et & <-). congruence.
Qed.
Lemma acpi_places : places_low acpi_mem.
Proof. apply plain_places_low. by vm_compute. Qed.
Lemma acpi_rsdp : the_rsdp acpi_mem 917504.
Proof. apply plain_rsdp; by vm_compute. Qed.

(** A machine of 2 GiB, whose firmware put the tables near the top. *)
Definition acpi_high : mem := wbs ∅ 917504 (sealed 8 (SIG_RSDP ++ replicate 8 0 ++ word32 2147352576)).
Lemma acpi_high_places : places_low acpi_high.
Proof. apply plain_places_low. by vm_compute. Qed.
Lemma acpi_high_rsdp : the_rsdp acpi_high 917504.
Proof. apply plain_rsdp; by vm_compute. Qed.

Lemma acpi_table h : sdt_lowb acpi_mem h = true -> map_sdt acpi_mem h = Some h -> h <> 0 -> sdt_at acpi_mem h.
Proof. intros Hl E Hh. destruct (map_sdt_spec acpi_mem h (sdt_lowb_ok _ _ Hl)) as [(_ & H & _)|[E' _]]; [done|congruence]. Qed.
Lemma acpi_fadt : the_fadt acpi_mem 8192.
Proof.
  exists 917504. split; [apply acpi_rsdp|]. split; [by vm_compute|]. split.
  - apply acpi_table; by vm_compute.
  - exists 0. split; [|by vm_compute]. split; [by vm_compute|]. split; [|lia].
    split; [apply acpi_table; by vm_compute|unfold reads; by vm_compute].
Qed.
Lemma acpi_dsdt : sdt_at acpi_mem 12288.
Proof. apply acpi_table; by vm_compute. Qed.
Lemma acpi_dsdt_low : dsdt_low acpi_mem 12288.
Proof. split; [apply sdt_lowb_ok; by vm_compute|intros _; by vm_compute]. Qed.
Lemma acpi_all_low : acpi_low acpi_mem.
Proof.
  split.
  - apply acpi_places.
  - intros r Hr. rewrite (the_rsdp_fun _ _ _ Hr acpi_rsdp). apply sdt_lowb_ok. by vm_compute.
  - intros r j Hr _ Hj. rewrite (the_rsdp_fun _ _ _ Hr acpi_rsdp) in *.
    change (entry_count acpi_mem (root_table acpi_mem 917504) (uses_xsdt acpi_mem 917504)) with 1 in Hj.
    replace j with 0 by lia. apply sdt_lowb_ok. by vm_compute.
  - intros f Hf. rewrite (the_fadt_fun _ _ _ Hf acpi_fadt). by vm_compute.
  - intros f d Hf. rewrite (the_fadt_fun _ _ _ Hf acpi_fadt).
    change (dsdt_of acpi_mem 8192 (sdt_length acpi_mem 8192)) with (Some 12288). intros [= <-]. apply acpi_dsdt_low.
Qed.
Lemma acpi_s5 : first_at (sdt_length acpi_mem 12288) (s5_at acpi_mem 12288) 37.
Proof.
  split; [by vm_compute|]. split; [split; [unfold reads; by vm_compute|by vm_compute]|].
  assert (Hno : forallb (fun j => negb (bool_decide (reads acpi_mem (12288 + j) SIG_S5))) (seqZ 0 37) = true) by by vm_compute.
  intros j Hj [Hr _]. rewrite forallb_forall in Hno. specialize (Hno j). rewrite (bool_decide_eq_true_2 _ Hr) in Hno.
  discriminate Hno. apply list_elem_of_In, elem_of_seqZ. lia.
Qed.

Lemma power_off_result_witness :
  (power_off acpi_mem []).2 = fallback_trace ++ [OutW 45060 10240; Out 128 0] ++ fallback_trace /\
  power_off acpi_high [] = (None, fallback_trace).
Proof.
  split; [|apply (power_off_result acpi_high [] ) with (r := 917504);
    [apply acpi_high_places|apply acpi_high_rsdp|by vm_compute]].
  destruct (power_off_result acpi_mem []) as [H _]. destruct (H acpi_all_low) as [_ H2].
  destruct (H2 8192 45060 0 acpi_fadt) as (d & x & Ed & Hx & ->); [by vm_compute|by vm_compute|by vm_compute|lia|lia|].
  change (dsdt_of acpi_mem 8192 (sdt_length acpi_mem 8192)) with (Some 12288) in Ed. injection Ed as <-.
  replace (x mod 8) with 2; [done|]. destruct Hx as [(i & _ & Hi & ->)|[Hn _]].
  - rewrite (first_at_fun _ _ _ _ Hi acpi_s5). by vm_compute.
  - destruct (acpi_s5) as (Hi & Hat & _). by destruct (Hn acpi_dsdt 37 Hi).
Defined.

Lemma s5_type_ignored_witness : sleep_value acpi_mem 12288 = Some 10240.
Proof.
  apply (s5_type_ignored acpi_mem 12288 37 10 4 5 5); [apply acpi_dsdt_low|apply acpi_dsdt|apply acpi_s5|].
  unfold reads. by vm_compute.
Defined.
End AcpiDemo.

(** ** Reboot *)

(** The controller is busy for [n] polls after the accesses [t]. *)
Fixpoint busy_for (dev : trace -> Z -> Z) (t : trace) (n : nat) : Prop :=
  let v := u8 (dev t 100) in
  match n with
  | O => Z.land v 2 = 0
  | S n => Z.land v 2 <> 0 /\ busy_for dev (t ++ [In 100 v]) n
  end.

Lemma wait_kbc_ok dev fuel t n :
  busy_for dev t n -> (n < fuel)%nat ->
  exists l, wait_kbc dev fuel t = (true, t ++ l) /\ length l = S n /\ Forall (fun a => exists v, a = In 100 v) l.
Proof.
  revert t n. induction fuel as [|fuel IH]; intros t n Hb Hf; [lia|].
  cbn [wait_kbc]. unfold io_bind, inb. destruct n as [|n]; cbn [busy_for] in Hb.
  - rewrite Hb. cbn [Z.eqb negb]. eexists. split; [done|]. split; [done|]. constructor; [by eexists|done].
  - destruct Hb as [Hb Hn]. rewrite (proj2 (Z.eqb_neq _ _) Hb). cbn [negb].
    destruct (IH _ n Hn ltac:(lia)) as (l & -> & Hl & Hall). eexists (_ :: l). rewrite <- app_assoc.
    split; [done|]. split; [cbn; by rewrite Hl|]. constructor; [by eexists|done].
Qed.

(** [reboot_system] pulses the reset line as soon as the controller takes
    commands: after [n] busy polls it has read the status port [n + 1] times,
    written 0xFE once, and goes on to load the IDTR from address 0. *)
Theorem reboot_resets dev fuel n (m : mem) t :
  busy_for dev t n -> (n < fuel)%nat ->
  exists l, reboot_system dev fuel m t = (Some (ld 2 m 0, ld 8 m 2), t ++ l ++ [Out 100 254]) /\
    length l = S n /\ Forall (fun a => exists v, a = In 100 v) l.
Proof.
  intros Hb Hf. destruct (wait_kbc_ok dev fuel t n Hb Hf) as (l & E & Hl). exists l. split; [|done].
  unfold reboot_system, io_bind. rewrite E. cbn. unfold outb, io_ret. by rewrite <- app_assoc.
Qed.
