(* ===== verification/Machine.v ===== *)
(** * The kernel's state as one machine

    The components share one byte memory (it sits inside the heaps), one CPU
    interrupt flag (it sits inside the scheduler) and one sequence of port
    accesses.  [machine] holds them together with every component's static
    variables and the CPU's IDTR; the [on_...] combinators run a component's operation on its
    view of the machine. *)

From Stdlib Require Import ZArith Lia.
From S2P Require Import Prelude Memory LibC AllocSpec Heaps Multitask TaskLogic Fs PortIO Keyboard Clock Vga.

Record machine (H : Type) := Machine {
  m_sched : sched H;
  m_entries : gmap Z fs_entry; m_fat : gmap Z Z;
  m_vx : Z; m_vy : Z;
  m_timer : timer; m_kbd : kbd; m_ports : trace;
  m_idtr : Z * Z }.
Arguments Machine {H}.
Arguments m_sched {H}. Arguments m_entries {H}. Arguments m_fat {H}. Arguments m_vx {H}. Arguments m_vy {H}.
Arguments m_timer {H}. Arguments m_kbd {H}. Arguments m_ports {H}. Arguments m_idtr {H}.

(** ** Computations of the whole kernel *)

Definition K (H A : Type) : Type := machine H -> res (A * machine H).
Definition kret {H A} (a : A) : K H A := fun m => Ok (a, m).
Definition kbind {H A B} (c : K H A) (k : A -> K H B) : K H B :=
  fun m => match c m with Ok (a, m) => k a m | Fault => Fault | Stuck => Stuck end.
Definition kgets {H A} (f : machine H -> A) : K H A := fun m => Ok (f m, m).

Declare Scope kernel_scope.
Delimit Scope kernel_scope with kernel.
Notation "'let?' x := c 'in' k" := (kbind c (fun x => k))
  (at level 10, x name, c at level 100, k at level 200) : kernel_scope.
Notation "'do?' c 'in' k" := (kbind c (fun _ => k))
  (at level 10, c at level 100, k at level 200) : kernel_scope.
Open Scope kernel_scope.

Definition put_sched {H} (s : sched H) (m : machine H) : machine H :=
  Machine s (m_entries m) (m_fat m) (m_vx m) (m_vy m) (m_timer m) (m_kbd m) (m_ports m) (m_idtr m).
Definition put_ports {H} (t : trace) (m : machine H) : machine H :=
  Machine (m_sched m) (m_entries m) (m_fat m) (m_vx m) (m_vy m) (m_timer m) (m_kbd m) t (m_idtr m).
Definition put_timer {H} (t : timer) (m : machine H) : machine H :=
  Machine (m_sched m) (m_entries m) (m_fat m) (m_vx m) (m_vy m) t (m_kbd m) (m_ports m) (m_idtr m).
Definition put_idtr {H} (i : Z * Z) (m : machine H) : machine H :=
  Machine (m_sched m) (m_entries m) (m_fat m) (m_vx m) (m_vy m) (m_timer m) (m_kbd m) (m_ports m) i.

(** What the scheduler, the heaps and the file system do not touch. *)
Definition devices {H} (m : machine H) : Z * Z * timer * kbd * trace * (Z * Z) :=
  (m_vx m, m_vy m, m_timer m, m_kbd m, m_ports m, m_idtr m).

Section Views.
Context {H : Type} `{!Heaps H}.

Definition memory (m : machine H) : mem := hp_mem (heaps (m_sched m)).
Definition store_mem (v : mem) (m : machine H) : machine H :=
  put_sched (set_heaps (with_mem v (heaps (m_sched m))) (m_sched m)) m.

(** The views of the file system, the screen and the keyboard driver. *)
Definition fs_of (m : machine H) : fs := Fs (m_entries m) (m_fat m) (memory m).
Definition put_fs (s : fs) (m : machine H) : machine H :=
  let m := store_mem (fmem s) m in
  Machine (m_sched m) (entries s) (fat s) (m_vx m) (m_vy m) (m_timer m) (m_kbd m) (m_ports m) (m_idtr m).
Definition vga_of (m : machine H) : vga := Vga (m_vx m) (m_vy m) (memory m).
Definition put_vga (v : vga) (m : machine H) : machine H :=
  let m := store_mem (vmem v) m in
  Machine (m_sched m) (m_entries m) (m_fat m) (vx v) (vy v) (m_timer m) (m_kbd m) (m_ports m) (m_idtr m).
Definition kbd_of (m : machine H) : kbd := set_intr (iflag (m_sched m)) (m_kbd m).
Definition put_kbd (k : kbd) (m : machine H) : machine H :=
  Machine (set_iflag (intr k) (m_sched m)) (m_entries m) (m_fat m) (m_vx m) (m_vy m) (m_timer m) k
    (m_ports m) (m_idtr m).

Definition on_sched {A} (c : M H A) : K H A := fun m =>
  match c (m_sched m) with Ok (a, s) => Ok (a, put_sched s m) | Fault => Fault | Stuck => Stuck end.
(** [None]: the operation left its arrays or followed NULL. *)
Definition on_fs {A} (f : fs -> option (A * fs)) : K H A := fun m =>
  match f (fs_of m) with Some (a, s) => Ok (a, put_fs s m) | None => Fault end.
Definition on_vga (f : vga -> io vga) : K H unit := fun m =>
  let '(v, t) := f (vga_of m) (m_ports m) in Ok (tt, put_ports t (put_vga v m)).
Definition on_kbd {A} (f : kbd -> A * kbd) : K H A := fun m =>
  let '(a, k) := f (kbd_of m) in Ok (a, put_kbd k m).
Definition on_ports {A} (c : io A) : K H A := fun m =>
  let '(a, t) := c (m_ports m) in Ok (a, put_ports t m).
Definition on_memory (f : mem -> mem) : K H unit := fun m => Ok (tt, store_mem (f (memory m)) m).

(** The characters of a string argument that a reader of at most [n] of them
    sees. *)
Fixpoint chars_at (n : nat) (v : mem) (a : Z) : list Z :=
  match n with
  | O => []
  | S n => if rb v a =? 0 then [] else rb v a :: chars_at n v (a + 1)
  end.

(** ** Reasoning *)

Definition wk {A} (c : K H A) (Q : A -> machine H -> Prop) (m : machine H) : Prop :=
  match c m with Ok (a, m') => Q a m' | _ => False end.

Lemma wk_ret {A} (a : A) Q m : Q a m -> wk (kret a) Q m.
Proof. done. Qed.
Lemma wk_bind {A B} (c : K H A) (k : A -> K H B) Q m : wk c (fun a m' => wk (k a) Q m') m -> wk (kbind c k) Q m.
Proof. unfold wk, kbind. by destruct (c m) as [[a m']| |]. Qed.
Lemma wk_gets {A} (f : machine H -> A) Q m : Q (f m) m -> wk (kgets f) Q m.
Proof. done. Qed.
Lemma wk_sched {A} (c : M H A) Q m : wp c (fun a s => Q a (put_sched s m)) (m_sched m) -> wk (on_sched c) Q m.
Proof. unfold wp, wk, on_sched. by destruct (c (m_sched m)) as [[a s]| |]. Qed.
Lemma wk_fs {A} (f : fs -> option (A * fs)) a s Q m :
  f (fs_of m) = Some (a, s) -> Q a (put_fs s m) -> wk (on_fs f) Q m.
Proof. unfold wk, on_fs. by intros ->. Qed.
Lemma wk_memory f (Q : unit -> machine H -> Prop) m : Q tt (store_mem (f (memory m)) m) -> wk (on_memory f) Q m.
Proof. done. Qed.
Lemma wk_ports {A} (c : io A) Q m : Q (c (m_ports m)).1 (put_ports (c (m_ports m)).2 m) -> wk (on_ports c) Q m.
Proof. unfold wk, on_ports. by destruct (c (m_ports m)). Qed.
Lemma wk_ok {A} (c : K H A) Q m : wk c Q m -> exists a m', c m = Ok (a, m') /\ Q a m'.
Proof. unfold wk. destruct (c m) as [[a m']| |]; [by exists a, m'|done..]. Qed.
Lemma wk_mono {A} (c : K H A) (Q Q' : A -> machine H -> Prop) m :
  wk c Q m -> (forall a m', Q a m' -> Q' a m') -> wk c Q' m.
Proof. unfold wk. destruct (c m) as [[a m']| |]; auto. Qed.

Lemma memory_store `{!HeapsOk H} v m : memory (store_mem v m) = v.
Proof. apply hp_mem_with. Qed.
Lemma fs_of_put `{!HeapsOk H} s m : fs_of (put_fs s m) = s.
Proof. unfold fs_of, put_fs, memory. cbn. rewrite hp_mem_with. by destruct s. Qed.

Lemma chars_at_cstr n v a s : cstr v a s -> (length s <= n)%nat -> chars_at n v a = s.
Proof.
  revert n a. induction s as [|c s IH]; intros n a Hs Hn.
  - destruct n; [done|]. cbn in *. by rewrite Hs.
  - destruct n as [|n]; [simpl in Hn; lia|]. destruct Hs as (Hc & Hnz & Hs). cbn [chars_at].
    rewrite Hc. rw_test. rewrite (IH n (a + 1) Hs); [done|]. simpl in Hn. lia.
Qed.
End Views.

Ltac kstep :=
  match goal with
  | |- wk (kbind _ _) _ _ => apply wk_bind
  | |- wk (kret _) _ _ => apply wk_ret
  | |- wk (kgets _) _ _ => apply wk_gets
  end; cbn beta.
Ltac ksteps := repeat kstep.
