(* ===== verification/Loader.v ===== *)
(** * Loading programs

    [load_and_run_program] of syscall/syscall.c, [load_and_run_terminal] and
    [tasks_init] of tasks/tasks.c and [load_app_to_fs] of kernel.c: from a
    file of the RAM disk through the user heap to a task.  This is where the
    file system, the two heaps and the scheduler meet in one memory. *)

From Stdlib Require Import ZArith Lia.
From S2P Require Import Prelude Memory LibC AllocSpec Heaps Multitask TaskLogic TaskStack TaskInv TaskOps.
From S2P Require Import TaskCalls TaskCreate TaskSched TaskSys TaskFrames TaskProps Fs FsChain FsTree FsOps FsProps.
From S2P Require Import PortIO Keyboard Clock Vga Machine.

(** "bin", "terminal" *)
Definition s_bin : list Z := [98; 105; 110].
Definition s_terminal : list Z := [116; 101; 114; 109; 105; 110; 97; 108].

Section Loader.
Context {H : Type} `{!Heaps H}.
(** [ramdisk_base()], [&user_task1], [&zombie_reaper_task] *)
Context (disk USER_TASK1 ZOMBIE_REAPER : Z).

(** [fs_find_in_dir] reads the tables and the name only. *)
Definition find_in_dir (nm : list Z) (ex : option (list Z)) (par : Z) : K H Z :=
  kgets (fun m => fs_find_in_dir (Some nm) ex par (fs_of m)).
(** The name behind a [char *]: comparisons read at most 64 characters. *)
Definition name_at (str : Z) : K H (list Z) := kgets (fun m => chars_at 64 (memory m) str).

(** Steps 4 and 5: the file's data, then the task. *)
Definition read_and_start (str bin_idx user_mem size : Z) : K H Z :=
  let? nm := name_at str in
  do? on_fs (fs_read_file_in_dir disk (Some nm) (Some s_bin) bin_idx user_mem size) in
  let? pid := on_sched (utask_create user_mem 16384 user_mem size) in
  if pid =? 0 then
    do? on_sched (uheap_do (CFree user_mem)) in do? on_sched sti in kret 0
  else
  do? on_sched sti in
  kret pid.

Definition load_and_run_program (str : Z) : K H Z :=
  do? on_sched cli in
  let? c := kgets (fun m => rb (memory m) str) in
  if (str =? 0) || (c =? 0) then do? on_sched sti in kret (u64 (-1)) else
  let? bin_idx := find_in_dir s_bin None FS_ROOT_IDX in
  if bin_idx <? 0 then do? on_sched sti in kret 0 else
  let? nm := name_at str in
  let? file_idx := find_in_dir nm (Some s_bin) bin_idx in
  if file_idx <? 0 then do? on_sched sti in kret 0 else
  let? size := kgets (fun m => size (ent (fs_of m) file_idx)) in
  if size =? 0 then do? on_sched sti in kret 0 else
  let? user_mem := on_sched (uheap_do (CMalloc (u32 (size + 1024)))) in
  if user_mem =? 0 then do? on_sched sti in kret 0 else
  do? on_memory (fun v => memset v user_mem 0 size) in
  read_and_start str bin_idx user_mem size.

Definition load_and_run_terminal : K H unit :=
  let? bin_idx := find_in_dir s_bin None FS_ROOT_IDX in
  if bin_idx <? 0 then kret tt else
  let? file_idx := find_in_dir s_terminal (Some s_bin) bin_idx in
  if file_idx <? 0 then kret tt else
  let? size := kgets (fun m => size (ent (fs_of m) file_idx)) in
  let? user_mem := on_sched (uheap_do (CMalloc (u32 (size + 1024)))) in
  if user_mem =? 0 then kret tt else
  do? on_fs (fs_read_file_in_dir disk (Some s_terminal) (Some s_bin) bin_idx user_mem size) in
  do? on_sched (utask_create user_mem 0 user_mem size) in
  kret tt.

Definition tasks_init : K H unit :=
  do? on_sched (task_create USER_TASK1 0) in
  do? load_and_run_terminal in
  on_sched (task_create ZOMBIE_REAPER 0).

Definition load_app_to_fs (folder name ext : list Z) (data dat : Z) : K H unit :=
  let? bin_idx := find_in_dir folder None FS_ROOT_IDX in
  let? bin_idx := (if bin_idx <? 0
                   then on_fs (fun s => Some (fs_mkdir (Some folder) FS_ROOT_IDX s))
                   else kret bin_idx) in
  if bin_idx <? 0 then kret tt else
  do? on_fs (fs_write_file_in_dir disk (Some name) (Some ext) bin_idx data dat) in
  kret tt.
End Loader.

(** ** The file system's side *)

Lemma find_here disk s F nm ex par i n :
  fs_rel disk s F -> slot par -> finds F nm ex par i n ->
  fs_find_in_dir (Some nm) ex par s = i /\ slot i /\ holds disk s i n.
Proof.
  intros Hrel Hpar Hf. pose proof (find_ok disk s F nm ex par _ Hrel eq_refl) as Hfind.
  set (j := fs_find_in_dir _ _ _ _) in *. destruct (j <? 0) eqn:Ej.
  - destruct Hfind as [Hb|Hnone].
    + by rewrite (proj2 (bad_idx_slot par) Hpar) in Hb.
    + destruct Hf as (F1 & F2 & _). by rewrite (Hnone _ _ F1) in F2.
  - destruct Hfind as (Hj & n' & Hf' & Hh). by destruct (finds_fun _ _ _ _ _ _ _ _ Hf' Hf) as [-> ->].
Qed.

(** A file is no longer than the disk. *)
Lemma stored_bound disk s i d : stored disk s i d -> lenZ d <= 8387584.
Proof.
  intros [_ [->|(cs & (_ & _ & r & _ & Hc) & Hl & _)]]; [done|].
  pose proof (chain_length _ _ Hc) as Hn. change CLUSTER with 512 in Hl.
  change FAT_ENTRIES with 16384 in Hn. unfold lenZ in *. lia.
Qed.

(** A look-up finds what the abstract tree holds. *)
Lemma look_up disk s F nm ex par :
  fs_rel disk s F -> slot par ->
  let i := fs_find_in_dir (Some nm) ex par s in
  (i <? 0) = true /\ finds_none F nm ex par \/
  (i <? 0) = false /\ slot i /\ exists n, finds F nm ex par i n /\ holds disk s i n.
Proof.
  intros Hrel Hpar i. pose proof (find_ok disk s F nm ex par i Hrel eq_refl) as Hf.
  destruct (i <? 0); [left|by right]. split; [done|].
  destruct Hf as [Hb|?]; [|done]. by rewrite (proj2 (bad_idx_slot par) Hpar) in Hb.
Qed.

(** A file that is found has an entry below a slot of the table. *)
Lemma finds_slot disk s F nm ex par i n : fs_rel disk s F -> finds F nm ex par i n -> slot i.
Proof. intros Hrel (Hi & _). by apply (rel_slot _ _ _ Hrel) in Hi. Qed.

(** Reading it. *)
Lemma read_found disk s F nm ex par i n buf bufsize :
  fs_rel disk s F -> slot par -> finds F nm ex par i n -> lenZ (n_data n) <= bufsize ->
  off_disk disk buf (lenZ (n_data n)) ->
  exists v s', fs_read_file_in_dir disk (Some nm) ex par buf bufsize s = Some (0, v, s') /\
    entries s' = entries s /\ fat s' = fat s /\
    rbs (fmem s') buf (length (n_data n)) = n_data n /\
    only_in buf (buf + lenZ (n_data n)) (fmem s) (fmem s').
Proof.
  intros Hrel Hpar Hf Hb Hoff. destruct (find_here _ _ _ _ _ _ _ _ Hrel Hpar Hf) as (E & Hi & Hh).
  unfold fs_read_file_in_dir. rewrite E. unfold slot in Hi. rewrite (proj2 (Z.ltb_ge i 0)) by lia.
  pose proof (ho_data _ _ _ _ Hh) as Hst. pose proof (proj1 Hst) as Hsz.
  rewrite (proj2 (Z.ltb_ge bufsize _)) by lia.
  destruct (read_stored disk s i _ buf Hst Hoff) as (s' & -> & H1 & H2 & H3 & H4).
  by exists (lenZ (n_data n)), s'.
Qed.

Section Composition.
Context {H : Type} `{!Heaps H, !HeapsOk H} (INIT disk : Z).

(** The RAM disk lies outside both heaps. *)
Definition disk_apart : Prop := off_disk disk k_lo (k_hi - k_lo) /\ off_disk disk u_lo (u_hi - u_lo).
(** Where things lie: [init_task] is no heap object, the heaps are inside the
    64-bit address space. *)
Record layout : Prop := {
  ly_init : ~ (k_lo <= INIT < k_hi);
  ly_kernel : 0 <= k_lo /\ k_hi < 18446744073709551616;
  ly_user : 0 <= u_lo /\ u_hi < 18446744073709551616;
  ly_disk : disk_apart
}.
Context (Hdisk : disk_apart).

Lemma off_areas_disk (v w : mem) : off_areas v w -> same_on disk (disk + RAMDISK_SIZE) v w.
Proof using Hdisk.
  intros Ho x Hx. symmetry. destruct Hdisk as [H1 H2]. unfold off_disk in *. apply Ho; lia.
Qed.
Lemma off_areas_refl (v : mem) : off_areas v v.
Proof. done. Qed.
Lemma off_areas_trans (u v w : mem) : off_areas u v -> off_areas v w -> off_areas u w.
Proof. intros H1 H2 x Hk Hu. rewrite H2 by done. by apply H1. Qed.
Lemma off_areas_user (v w : mem) p n : u_lo <= p -> p + n <= u_hi -> only_in p (p + n) v w -> off_areas v w.
Proof. intros Hp Hn Ho x _ Hx. apply Ho. lia. Qed.

(** The file system does not see what happens in the heaps. *)
Lemma fs_rel_off (m m' : machine H) F :
  fs_rel disk (fs_of m) F -> m_entries m' = m_entries m -> m_fat m' = m_fat m ->
  off_areas (memory m) (memory m') -> fs_rel disk (fs_of m') F.
Proof using Hdisk. intros Hrel E1 E2 Ho. apply (mem_rel disk (fs_of m)); try done. by apply off_areas_disk. Qed.

(** ** The scheduler's side, with the memory outside the areas kept *)

Lemma created_framed m0 entry sz um un s s' A A' t :
  @created H (framed_heaps m0) entry sz um un s s' A A' t -> created entry sz um un s s' A A' t.
Proof. intros [? ? ? ? ? [Hk Hu] ? ?]. by split. Qed.

Lemma ucreate_framed entry n um un A B X Y Y' rs zs ps (Q : Z -> sched H -> Prop) s :
  ~ (k_lo <= INIT < k_hi) -> 0 <= k_lo -> k_hi < 18446744073709551616 ->
  mt_ok INIT s A B X Y rs zs ps -> stack_ok (stack_bytes n) -> alloc_safe (stack_bytes n) (heaps s) ->
  next_pid s < 2147483647 -> (if um =? 0 then Y' = Y else Y ≡ₚ um :: Y') ->
  (forall s', mt_ok INIT s' A B X Y rs zs ps -> untouched s s' ->
     ~ k_fits (heaps s) [SIZEOF_TASK; stack_bytes n] ->
     off_areas (hp_mem (heaps s)) (hp_mem (heaps s')) -> Q 0 s') ->
  (forall s' A' t, mt_ok INIT s' A' B X Y' (rs ++ [t]) zs ps ->
     created entry (stack_bytes n) um un s s' A A' t ->
     off_areas (hp_mem (heaps s)) (hp_mem (heaps s')) -> Q (next_pid s) s') ->
  wp (utask_create entry n um un) Q s.
Proof.
  intros HIk Hlo Hhi Hok Hst Hs Hnp HY HN HS.
  apply (@ucreate_ok H (framed_heaps (hp_mem (heaps s))) (framed_heaps_ok _) INIT HIk Hlo Hhi entry n um un
    A B X Y Y' rs zs ps Q s); try done.
  - by apply core_framed.
  - intros s' [Hok' Ho]%core_framed Hu Hf. by apply HN.
  - intros s' A' t [Hok' Ho]%core_framed Hc%created_framed. by apply (HS s' A' t).
Qed.

Lemma create_framed entry n A B X Y rs zs ps (Q : unit -> sched H -> Prop) s :
  ~ (k_lo <= INIT < k_hi) -> 0 <= k_lo -> k_hi < 18446744073709551616 ->
  mt_ok INIT s A B X Y rs zs ps -> stack_ok (stack_bytes n) -> alloc_safe (stack_bytes n) (heaps s) ->
  next_pid s < 2147483647 ->
  (forall s', mt_ok INIT s' A B X Y rs zs ps -> untouched s s' ->
     ~ k_fits (heaps s) [SIZEOF_TASK; stack_bytes n] ->
     off_areas (hp_mem (heaps s)) (hp_mem (heaps s')) -> Q tt s') ->
  (forall s' A' t, mt_ok INIT s' A' B X Y (rs ++ [t]) zs ps ->
     created entry (stack_bytes n) 0 0 s s' A A' t ->
     off_areas (hp_mem (heaps s)) (hp_mem (heaps s')) -> Q tt s') ->
  wp (task_create entry n) Q s.
Proof.
  intros HIk Hlo Hhi Hok Hst Hs Hnp HN HS.
  apply (@create_ok H (framed_heaps (hp_mem (heaps s))) (framed_heaps_ok _) INIT HIk Hlo Hhi entry n
    A B X Y rs zs ps Q s); try done.
  - by apply core_framed.
  - intros s' [Hok' Ho]%core_framed Hu Hf. by apply HN.
  - intros s' A' t [Hok' Ho]%core_framed Hc%created_framed. by apply (HS s' A' t).
Qed.

(** What the kernel heap had room for, or handled without growing, it still
    does. *)
Record keeps_room (h h' : H) : Prop := {
  kr_fits ns : k_fits h ns -> k_fits h' ns;
  kr_tame ns : k_tame h ns -> k_tame h' ns
}.

(** A user region is given out for a program, unless there is no room. *)
Lemma user_alloc_ok n A B X Y rs zs ps (Q : Z -> sched H -> Prop) s :
  mt_ok INIT s A B X Y rs zs ps -> 0 < n <= MAX_REQ ->
  (forall h, mt_ok INIT (set_heaps h s) A B X Y rs zs ps -> off_areas (hp_mem (heaps s)) (hp_mem h) ->
     keeps_room (heaps s) h -> ~ u_fits (heaps s) n -> Q 0 (set_heaps h s)) ->
  (forall h p d, p <> 0 -> B !! p = None -> lenZ d = n -> u_lo <= p -> p + n <= u_hi ->
     mt_ok INIT (set_heaps h s) A (<[p := d]> B) X (p :: Y) rs zs ps ->
     off_areas (hp_mem (heaps s)) (hp_mem h) -> keeps_room (heaps s) h ->
     Q p (set_heaps h s)) ->
  wp (uheap_do (CMalloc n)) Q s.
Proof.
  intros Hok Hn HN HQ. apply (wp_uheap _ A B); [apply Hok|cbn; lia|].
  intros r h B' E Hstep Hr Ho.
  assert (Hk : keeps_room (heaps s) h).
  { split; intros ns; [eapply (k_fits_user _ _ _ _ _ _ ns (ok_heaps Hok))
      |eapply (k_tame_user _ _ _ _ _ _ ns (ok_heaps Hok))]; try exact E; cbn; lia. }
  assert (Hoff : off_areas (hp_mem (heaps s)) (hp_mem h)) by (intros x _ Hx; by apply Ho).
  inversion Hstep; subst.
  - destruct (u_inside _ _ _ _ _ Hr (lookup_insert_eq _ _ _)) as (Hp1 & Hp2 & _).
    apply (HQ h r d); try done.
    assert (Hc : own_call (CMalloc (lenZ d)) Y) by (cbn; lia).
    assert (Ha : owned_after (CMalloc (lenZ d)) r Y (r :: Y)) by (cbn; by rw_test).
    exact (core_uheap INIT _ _ _ _ _ _ _ _ _ _ _ _ _ _ _ _ _ _ Hok Hr Hc Hstep Ha).
  - apply HN; [by eapply core_same_heaps|done|done|]. intros Hf.
    by destruct (u_fits_serves _ _ _ _ _ _ (ok_heaps Hok) Hf Hn E).
Qed.

(** Writing into a live user region. *)
Lemma fill_ok m p d v A B X Y rs zs ps :
  mt_ok INIT (m_sched m) A B X Y rs zs ps -> B !! p = Some d -> only_in p (p + lenZ d) (memory m) v ->
  mt_ok INIT (m_sched (store_mem v m)) A (<[p := rbs v p (length d)]> B) X Y rs zs ps /\
  off_areas (memory m) v /\
  keeps_room (heaps (m_sched m)) (heaps (m_sched (store_mem v m))).
Proof.
  intros Hok Hp Ho. destruct (u_inside _ _ _ _ _ (ok_heaps Hok) Hp) as (H1 & H2 & _).
  split; [|split].
  - pose proof (u_fill _ _ _ _ _ _ (ok_heaps Hok) Hp Ho) as Hr. destruct Hok. split; try done.
    by rewrite (keys_update _ _ _ _ Hp).
  - intros x _ Hx. apply Ho. lia.
  - assert (Hs : same_on k_lo k_hi (memory m) v) by (eapply only_in_same; [exact Ho|destruct areas_apart; lia]).
    split; intros ns; [by apply k_fits_mem|by apply k_tame_mem].
Qed.

(** A live region of the caller's keeps its string. *)
Lemma string_kept v w B q dq a nm :
  B !! q = Some dq -> agrees v B -> agrees w B -> q <= a -> a + lenZ nm < q + lenZ dq ->
  cstr v a nm -> cstr w a nm.
Proof.
  intros Hq Hv Hw H1 H2. apply cstr_ext. intros x Hx.
  pose proof (Hv q dq Hq) as E1. pose proof (Hw q dq Hq) as E2. unfold lenZ in *.
  assert (Hi : (Z.to_nat (x - q) < length dq)%nat) by lia.
  pose proof (lookup_rbs v q _ _ Hi) as L1. pose proof (lookup_rbs w q _ _ Hi) as L2.
  rewrite E1 in L1. rewrite E2, L1 in L2. injection L2 as L2.
  by replace (q + Z.of_nat (Z.to_nat (x - q))) with x in L2 by lia.
Qed.

(** [n] bytes from [a] on lie in a live region. *)
Definition in_region (A B : regions) (a n : Z) : Prop :=
  exists q dq, (A !! q = Some dq \/ B !! q = Some dq) /\ q <= a /\ a + n <= q + lenZ dq.

(** A string in a live region is still there when only other user regions
    have come or changed. *)
Lemma text_kept B0 A B B' X Y Y' rs rs' zs zs' ps ps' a nm (s s' : sched H) :
  mt_ok INIT s A B X Y rs zs ps -> mt_ok INIT s' A B' X Y' rs' zs' ps' ->
  B0 ⊆ B -> B0 ⊆ B' -> in_region A B0 a (lenZ nm + 1) ->
  cstr (hp_mem (heaps s)) a nm -> cstr (hp_mem (heaps s')) a nm.
Proof using HeapsOk0.
  intros Hok Hok' HB HB' (q & dq & Hq & H1 & H2).
  destruct (hp_agrees _ _ _ (ok_heaps Hok)) as [Hk Hu], (hp_agrees _ _ _ (ok_heaps Hok')) as [Hk' Hu'].
  destruct Hq as [Hq|Hq].
  - apply (string_kept _ _ A q dq); try done; lia.
  - apply (string_kept _ _ {[ q := dq ]} q dq); try lia; [apply lookup_singleton_eq| |].
    + intros r c [<- <-]%lookup_singleton_Some. apply Hu. by eapply lookup_weaken.
    + intros r c [<- <-]%lookup_singleton_Some. apply Hu'. by eapply lookup_weaken.
Qed.

Lemma put_fs_same s m :
  entries s = m_entries m -> fat s = m_fat m -> put_fs s m = store_mem (fmem s) m.
Proof. unfold put_fs, store_mem, put_sched. cbn. by intros -> ->. Qed.

(** Reading a file into a live user region. *)
Lemma read_image m p d A B X Y rs zs ps F nm ex par i n bufsize (Q : Z * Z -> machine H -> Prop) :
  mt_ok INIT (m_sched m) A B X Y rs zs ps -> B !! p = Some d -> fs_rel disk (fs_of m) F -> slot par ->
  finds F nm ex par i n -> lenZ (n_data n) <= bufsize -> lenZ (n_data n) <= lenZ d ->
  (forall v d' r, let m' := store_mem v m in
     mt_ok INIT (m_sched m') A (<[p := d']> B) X Y rs zs ps -> length d' = length d ->
     take (length (n_data n)) d' = n_data n -> fs_rel disk (fs_of m') F -> off_areas (memory m) v ->
     keeps_room (heaps (m_sched m)) (heaps (m_sched m')) -> Q (0, r) m') ->
  wk (on_fs (fs_read_file_in_dir disk (Some nm) ex par p bufsize)) Q m.
Proof.
  intros Hok Hp Hrel Hpar Hf Hb Hd HQ.
  destruct (u_inside _ _ _ _ _ (ok_heaps Hok) Hp) as (H1 & H2 & _).
  destruct (read_found disk (fs_of m) F nm ex par i n p bufsize Hrel Hpar Hf Hb) as (r & s' & E & E1 & E2 & Er & Ho).
  { destruct Hdisk as [_ Hu]. unfold off_disk in *. lia. }
  eapply (wk_fs _ (0, r) s'); [exact E|]. rewrite put_fs_same by done.
  assert (Ho' : only_in p (p + lenZ d) (memory m) (fmem s')).
  { intros x Hx. apply Ho. lia. }
  destruct (fill_ok m p d (fmem s') A B X Y rs zs ps Hok Hp Ho') as (Hok' & Hoff & Hfits).
  apply (HQ (fmem s') (rbs (fmem s') p (length d)) r); try done.
  - apply length_rbs.
  - rewrite take_rbs by (unfold lenZ in *; lia). done.
  - apply (fs_rel_off m); try done. by rewrite memory_store.
Qed.

(** ** [load_and_run_program] *)

(** What a successful load leaves: a new ready task of the given pid, whose
    first instruction is the start of its image and whose image is the
    file's data; the tables of the file system and the other tasks are as
    before. *)
Definition runs_program (d : list Z) (m m' : machine H) (p : Z) : Prop :=
  m_entries m' = m_entries m /\ m_fat m' = m_fat m /\
  exists t T, tasks (m_sched m) !! t = None /\ tasks (m_sched m') !! t = Some T /\
    task_ring (m_sched m') = t /\
    (forall a, a <> t -> set_next 0 <$> tasks (m_sched m') !! a = set_next 0 <$> tasks (m_sched m) !! a) /\
    pid T = p /\ state T = TASK_READY /\ user_mem T <> 0 /\ user_mem_size T = lenZ d /\
    rbs (memory m') (user_mem T) (length d) = d /\
    ld 8 (memory m') (regs T + 8 * 17) = user_mem T.

(** The new task's frame starts it at [entry]. *)
Lemma created_entry entry sz um un s s' A A' B X Y rs zs ps t :
  mt_ok INIT s' A' B X Y rs zs ps -> created entry sz um un s s' A A' t -> stack_ok sz ->
  0 <= entry < 18446744073709551616 ->
  exists T, tasks s' !! t = Some T /\ pid T = next_pid s /\ state T = TASK_READY /\ user_mem T = um /\
    user_mem_size T = un /\ ld 8 (hp_mem (heaps s')) (regs T + 8 * 17) = entry.
Proof.
  intros Hok [_ _ _ _ _ _ _ (k & nx & d & HT & HA & Hd & Hk & Hw)] Hst He. cbn zeta in *.
  eexists. split; [exact HT|]. cbn [pid state user_mem user_mem_size regs set_next new_task].
  do 4 (split; [done|]). assert (Hin : (17, entry) ∈ frame_words entry (k + sz)).
  { apply list_elem_of_In. cbn. tauto. }
  specialize (Hw 17 entry Hin). destruct (hp_agrees _ _ _ (ok_heaps Hok)) as [Hag _].
  unfold frame_base in *. pose proof (Z.div_mod (k + sz) 16 ltac:(lia)).
  pose proof (Z.mod_pos_bound (k + sz) 16 ltac:(lia)).
  rewrite (word_at_ld 8 _ k d _ entry); [|by apply Hag|lia|lia|exact Hw].
  change (256 ^ Z.of_nat 8) with 18446744073709551616. by apply Z.mod_small.
Qed.

(** All that was live still is, as it was. *)
Definition grown (A B : regions) (m' : machine H) (X Y : list Z) : Prop :=
  exists A' B' rs' zs', mt_ok INIT (m_sched m') A' B' X Y rs' zs' [] /\ A ⊆ A' /\ B ⊆ B'.
Lemma grown_consistent A B m' X Y : grown A B m' X Y -> consistent INIT (m_sched m') X Y.
Proof using. intros (A' & B' & rs' & zs' & Hok & _). by exists A', B', rs', zs'. Qed.

(** The image at [p] becomes a task, or there is no room for its record and
    stack and nothing but the kernel allocator's state may have changed. *)
Lemma start_image n p (d d' data : list Z) m A B X Y rs zs (Q : Z -> machine H -> Prop) :
  layout -> mt_ok INIT (m_sched m) A B X (p :: Y) rs zs [] -> B !! p = Some d' -> p <> 0 ->
  length d' = length d -> take (length data) d' = data -> lenZ data <= lenZ d ->
  stack_ok (stack_bytes n) -> next_pid (m_sched m) < 2147483647 ->
  k_tame (heaps (m_sched m)) [SIZEOF_TASK; stack_bytes n] ->
  (forall h, let s' := set_heaps h (m_sched m) in
     mt_ok INIT s' A B X (p :: Y) rs zs [] -> ~ k_fits (heaps (m_sched m)) [SIZEOF_TASK; stack_bytes n] ->
     off_areas (memory m) (hp_mem h) -> Q 0 (put_sched s' m)) ->
  (forall s', let m' := put_sched s' m in
     grown A B m' X Y -> runs_program data m m' (next_pid (m_sched m)) ->
     off_areas (memory m) (memory m') -> Q (next_pid (m_sched m)) m') ->
  wk (on_sched (utask_create p n p (lenZ data))) Q m.
Proof.
  intros [HIk [Hk1 Hk2] [Hu1 Hu2] _] Hok Hp Hp0 Hl Ht Hld Hst Hnp Hf HN HQ. apply wk_sched.
  assert (Hsafe : alloc_safe (stack_bytes n) (heaps (m_sched m))).
  { eapply tame_alloc_safe; [apply Hok| |done]. unfold stack_ok, FRAME_QWORDS in Hst. lia. }
  assert (HY : if p =? 0 then Y = p :: Y else p :: Y ≡ₚ p :: Y) by by rw_test.
  destruct (u_inside _ _ _ _ _ (ok_heaps Hok) Hp) as (Hp1 & Hp2 & _).
  eapply (ucreate_framed p n p (lenZ data) A B X (p :: Y) Y rs zs []); try done.
  { intros s' Hok' [h ->] Hno Ho. by apply HN. }
  intros s' A' t Hok' Hc Ho. apply HQ; [exists A', B, (rs ++ [t]), zs; split; [exact Hok'|split; [apply Hc|done]]| |done].
  assert (He : 0 <= p < 18446744073709551616) by (unfold lenZ in *; lia).
  destruct (created_entry _ _ _ _ _ _ _ _ _ _ _ _ _ _ _ Hok' Hc Hst He) as (T & HT & H1 & H2 & H3 & H4 & H5).
  split; [done|]. split; [done|]. exists t, T. split; [apply Hc|]. split; [done|]. split.
  { change (task_ring s' = t). rewrite <- (r_last _ _ _ (ok_ring Hok')). apply List.last_last. }
  split; [apply Hc|]. do 2 (split; [done|]). rewrite H3. do 2 (split; [done|]). split; [|done].
  destruct (hp_agrees _ _ _ (ok_heaps Hok')) as [_ Hag]. pose proof (Hag p d' Hp) as E.
  rewrite <- (take_rbs _ p (length data) (length d')) by (unfold lenZ in *; lia).
  change (memory (put_sched s' m)) with (hp_mem (heaps s')). by rewrite E.
Qed.

(** A user region given back. *)
Lemma user_free_ok p d A B X Y rs zs ps (Q : Z -> sched H -> Prop) s :
  mt_ok INIT s A B X (p :: Y) rs zs ps -> B !! p = Some d ->
  (forall r h, mt_ok INIT (set_heaps h s) A (delete p B) X Y rs zs ps ->
     off_areas (hp_mem (heaps s)) (hp_mem h) -> Q r (set_heaps h s)) ->
  wp (uheap_do (CFree p)) Q s.
Proof.
  intros Hok Hp HQ. apply (wp_uheap _ A B); [apply Hok|by exists d|].
  intros r h B' _ Hstep Hr Ho.
  assert (B' = delete p B) as -> by by inversion Hstep.
  apply HQ; [|intros x _ Hx; by apply Ho].
  assert (Hc : own_call (CFree p) (p :: Y)) by apply list_elem_of_here.
  assert (Ha : owned_after (CFree p) r (p :: Y) Y) by (cbn; reflexivity).
  exact (core_uheap INIT _ _ _ _ _ _ _ _ _ _ _ _ _ _ _ _ _ _ Hok Hr Hc Hstep Ha).
Qed.

(** Clearing and filling the image, then starting it. *)
Lemma read_and_start_ok m0 m p d str nm A B X Y rs zs F b i n (Q : Z -> machine H -> Prop) :
  layout -> mt_ok INIT (m_sched m) A (<[p := d]> B) X (p :: Y) rs zs [] -> fs_rel disk (fs_of m) F ->
  B !! p = None -> p <> 0 -> lenZ (n_data n) <= lenZ d -> slot b -> finds F nm (Some s_bin) b i n ->
  in_region A B str (lenZ nm + 1) -> cstr (memory m) str nm -> lenZ nm <= 64 ->
  next_pid (m_sched m) < 2147483647 -> k_tame (heaps (m_sched m)) [SIZEOF_TASK; 16384] ->
  tasks (m_sched m0) = tasks (m_sched m) -> m_entries m0 = m_entries m -> m_fat m0 = m_fat m ->
  (forall h, let m' := put_sched (set_iflag true (set_heaps h (m_sched m))) m in
     grown A B m' X Y -> ~ k_fits (heaps (m_sched m)) [SIZEOF_TASK; 16384] -> fs_rel disk (fs_of m') F -> Q 0 m') ->
  (forall m', grown A B m' X Y -> runs_program (n_data n) m0 m' (next_pid (m_sched m)) ->
     fs_rel disk (fs_of m') F -> iflag (m_sched m') = true -> devices m' = devices m ->
     Q (next_pid (m_sched m)) m') ->
  wk (do? on_memory (fun v => memset v p 0 (lenZ (n_data n))) in
      read_and_start disk str b p (lenZ (n_data n))) Q m.
Proof.
  intros Hly Hok Hrel Hpn Hp0 Hld Hb Hfile Hin Hstr Hnl Hnp Hkf E0 E1 E2 HN HQ.
  assert (Hn0 : 0 <= lenZ (n_data n)) by (unfold lenZ; lia).
  assert (Hp : <[p := d]> B !! p = Some d) by apply lookup_insert_eq.
  ksteps. apply wk_memory. set (v := memset (memory m) p 0 (lenZ (n_data n))).
  assert (Hv : only_in p (p + lenZ d) (memory m) v).
  { intros x Hx. unfold v. rewrite memset_rb. destruct (_ && _) eqn:E; [|done]. bsimp. lia. }
  destruct (fill_ok m p d v _ _ _ _ _ _ _ Hok Hp Hv) as (Hok1 & Hoff1 & Hfits1).
  rewrite insert_insert_eq in Hok1. set (m1 := store_mem v m) in *. set (d1 := rbs v p (length d)) in *.
  assert (Hrel1 : fs_rel disk (fs_of m1) F).
  { apply (fs_rel_off m); try done. unfold m1. by rewrite memory_store. }
  assert (Hstr1 : cstr (memory m1) str nm).
  { eapply (text_kept B A (<[p := d]> B) _ X (p :: Y));
      [exact Hok|exact Hok1|by apply insert_subseteq|by apply insert_subseteq|exact Hin|exact Hstr]. }
  unfold read_and_start, name_at. ksteps. rewrite (chars_at_cstr 64 _ _ _ Hstr1) by (unfold lenZ in Hnl; lia).
  eapply (read_image m1 p d1); [exact Hok1|apply lookup_insert_eq|exact Hrel1|exact Hb|exact Hfile|done| |].
  { unfold d1, lenZ in *. by rewrite length_rbs. }
  intros w d2 r m2 Hok2 Hl2 Ht2 Hrel2 Hoff2 Hfits2. rewrite insert_insert_eq in Hok2.
  ksteps. eapply (start_image 16384 p d1 d2 (n_data n) m2); [done|exact Hok2|apply lookup_insert_eq|exact Hp0|exact Hl2|exact Ht2| | | | | |].
  - unfold d1, lenZ in *. by rewrite length_rbs.
  - by vm_compute.
  - exact Hnp.
  - by apply (kr_tame _ _ Hfits2), (kr_tame _ _ Hfits1).
  - intros h3 s3 Hok3 Hno Hoff3. rw_test. ksteps. apply wk_sched.
    eapply (user_free_ok p d2); [exact Hok3|apply lookup_insert_eq|]. intros r4 h4 Hok4 Hoff4. ksteps.
    apply wk_sched, wp_modify. ksteps. rewrite delete_insert_id in Hok4 by done.
    apply (HN h4); [by exists A, B, rs, zs| |].
    + intros Hf. by apply Hno, (kr_fits _ _ Hfits2), (kr_fits _ _ Hfits1).
    + apply (fs_rel_off m2); try done. by eapply off_areas_trans.
  - intros s' m3 (A' & B' & rs' & zs' & Hok' & HA & HB) Hrun Hoff3.
    pose proof (ok_np Hok2) as Hnp2. rw_test. ksteps. apply wk_sched, wp_modify. ksteps.
    apply HQ; [exists A', B', rs', zs'; split; [exact Hok'|split; [exact HA|]]| | |done|done].
    + etransitivity; [|exact HB]. by apply insert_subseteq.
    + unfold runs_program in *. cbn in Hrun |- *. by rewrite E0, E1, E2.
    + apply (fs_rel_off m2); done.
Qed.

Lemma size_request (d : list Z) : 0 < lenZ d <= 8387584 -> u32 (lenZ d + 1024) = lenZ d + 1024.
Proof. intros. apply u32_small. lia. Qed.
End Composition.

Section Programs.
Context {H : Type} `{!Heaps H, !HeapsOk H} (INIT disk : Z).

(** A string argument: in a live region. *)
Record text_at (m : machine H) (A B : regions) (str : Z) (nm : list Z) : Prop := {
  ta_nz : str <> 0;
  ta_str : cstr (memory m) str nm;
  ta_len : lenZ nm <= 64;
  ta_in : in_region A B str (lenZ nm + 1)
}.

(** [/bin] holds no non-empty program of that name. *)
Definition no_program (F : afs) (nm : list Z) : Prop :=
  finds_none F s_bin None 0 \/
  exists b bn, finds F s_bin None 0 b bn /\
    (finds_none F nm (Some s_bin) b \/ exists i n, finds F nm (Some s_bin) b i n /\ n_data n = []).

(** What [load_and_run_program] returns and leaves. *)
Inductive load_result (m : machine H) (X Y : list Z) (F : afs) (nm : list Z) : Z -> machine H -> Prop :=
  | lr_no_name m' : nm = [] -> m' = put_sched (set_iflag true (m_sched m)) m ->
      load_result m X Y F nm (u64 (-1)) m'
  | lr_no_program m' : no_program F nm -> m' = put_sched (set_iflag true (m_sched m)) m ->
      load_result m X Y F nm 0 m'
  | lr_no_room m' h b bn i n : finds F s_bin None 0 b bn -> finds F nm (Some s_bin) b i n ->
      ~ u_fits (heaps (m_sched m)) (lenZ (n_data n) + 1024) ->
      m' = put_sched (set_iflag true (set_heaps h (m_sched m))) m ->
      load_result m X Y F nm 0 m'
  | lr_no_task m' h b bn i n : finds F s_bin None 0 b bn -> finds F nm (Some s_bin) b i n -> n_data n <> [] ->
      ~ k_fits (heaps (m_sched m)) [SIZEOF_TASK; 16384] ->
      m' = put_sched (set_iflag true (set_heaps h (m_sched m))) m ->
      load_result m X Y F nm 0 m'
  | lr_runs m' b bn i n : finds F s_bin None 0 b bn -> finds F nm (Some s_bin) b i n -> n_data n <> [] ->
      runs_program (n_data n) m m' (next_pid (m_sched m)) ->
      load_result m X Y F nm (next_pid (m_sched m)) m'.

Lemma load_program_ok (m : machine H) A B X Y rs zs F str nm :
  layout INIT disk -> mt_ok INIT (m_sched m) A B X Y rs zs [] -> fs_rel disk (fs_of m) F ->
  str = 0 /\ nm = [] \/ text_at m A B str nm ->
  k_tame (heaps (m_sched m)) [SIZEOF_TASK; 16384] -> next_pid (m_sched m) < 2147483647 ->
  wk (load_and_run_program disk str) (fun r m' => load_result m X Y F nm r m' /\
    grown INIT A B m' X Y /\ fs_rel disk (fs_of m') F /\ iflag (m_sched m') = true /\
    devices m' = devices m) m.
Proof.
  intros Hly Hok Hrel Htxt Hkf Hnp. pose proof (ly_disk _ _ Hly) as Hdisk.
  assert (Hcon : grown INIT A B m X Y) by by exists A, B, rs, zs.
  assert (Hs0 : slot 0) by (unfold slot; lia).
  unfold load_and_run_program, find_in_dir, name_at. ksteps. apply wk_sched, wp_modify. ksteps.
  set (m1 := put_sched (set_iflag false (m_sched m)) m).
  change (memory m1) with (memory m). change (fs_of m1) with (fs_of m).
  destruct ((str =? 0) || (rb (memory m) str =? 0)) eqn:Ez.
  { ksteps. apply wk_sched, wp_modify. ksteps. split; [|done]. apply lr_no_name; [|done].
    destruct Htxt as [[_ ?]|[Hs Hc _ _]]; [done|]. destruct nm as [|c nm]; [done|].
    destruct Hc as (Hc & ? & _). apply orb_true_iff in Ez as [?%Z.eqb_eq|?%Z.eqb_eq]; congruence. }
  apply orb_false_iff in Ez as [Hs1%Z.eqb_neq Hs2%Z.eqb_neq]. destruct Htxt as [[? _]|[_ Hstr Hnl Hin]]; [done|].
  assert (Hchars : chars_at 64 (memory m) str = nm).
  { apply chars_at_cstr; [done|]. unfold lenZ in Hnl. lia. }
  ksteps. change FS_ROOT_IDX with 0. change (fs_of m1) with (fs_of m). 
  destruct (look_up _ _ _ s_bin None 0 Hrel Hs0) as [[-> Hnb]|(-> & Hb & bn & Hbin & _)].
  { ksteps. apply wk_sched, wp_modify. ksteps. split; [|done]. apply lr_no_program; [by left|done]. }
  set (b := fs_find_in_dir _ _ 0 _) in *. ksteps.
  change (memory m1) with (memory m). change (fs_of m1) with (fs_of m). rewrite Hchars.
  destruct (look_up _ _ _ nm (Some s_bin) b Hrel Hb) as [[-> Hnf]|(-> & Hi & n & Hfile & Hh)].
  { ksteps. apply wk_sched, wp_modify. ksteps. split; [|done].
    apply lr_no_program; [|done]. right. exists b, bn. split; [done|by left]. }
  set (i := fs_find_in_dir _ _ b _) in *. ksteps. change (fs_of m1) with (fs_of m).
  pose proof (stored_bound _ _ _ _ (ho_data _ _ _ _ Hh)) as Hbound.
  rewrite (proj1 (ho_data _ _ _ _ Hh)). destruct (Z.eqb_spec (lenZ (n_data n)) 0) as [E0|E0].
  { ksteps. apply wk_sched, wp_modify. ksteps. split; [|done]. apply lr_no_program; [|done].
    right. exists b, bn. split; [done|]. right. exists i, n. split; [done|].
    unfold lenZ in E0. by apply nil_length_inv; lia. }
  assert (Hpos : 0 < lenZ (n_data n)) by (unfold lenZ in *; lia).
  ksteps. rewrite size_request by lia. apply wk_sched.
  change (mt_ok INIT (m_sched m1) A B X Y rs zs []) in Hok.
  apply (user_alloc_ok INIT _ A B X Y rs zs [] _ _ Hok); [unfold MAX_REQ; lia| |].
  { intros h Hok2 Hoff2 _ Huf. rw_test. ksteps. apply wk_sched, wp_modify. ksteps.
    split; [by eapply (lr_no_room _ _ _ _ _ _ h b bn i n)|].
    split; [by exists A, B, rs, zs|]. split; [|done]. by apply (fs_rel_off disk Hdisk m). }
  intros h p d Hp0 Hpn Hld Hp1 Hp2 Hok2 Hoff2 Hfits2. rw_test.
  set (m2 := put_sched (set_heaps h (m_sched m1)) m1).
  assert (Hstr2 : cstr (memory m2) str nm).
  { eapply (text_kept INIT B A B _ X Y); [exact Hok|exact Hok2|done|by apply insert_subseteq|exact Hin|exact Hstr]. }
  eapply (read_and_start_ok INIT disk Hdisk m m2 p d str nm A B X Y rs zs F b i n); try done.
  - by apply (fs_rel_off disk Hdisk m).
  - lia.
  - by apply (kr_tame _ _ Hfits2).
  - intros h' m' Hc Hno Hfs. split; [|done]. apply (lr_no_task m X Y F nm m' h' b bn i n); [done|done| | |done].
    + intros E. by rewrite E in Hpos.
    + intros Hf. by apply Hno, (kr_fits _ _ Hfits2).
  - intros m' Hc Hrun Hfs Hif Hdev. split; [|done].
    apply (lr_runs m X Y F nm m' b bn i n); [done|done| |done]. intros E. by rewrite E in Hpos.
Qed.
End Programs.
