(* ===== verification/Startup.v ===== *)
(** * Starting up

    [load_app_to_fs] and [tasks_init] at boot: what they leave in a machine
    whose heaps and file system have just been initialised. *)

From Stdlib Require Import ZArith Lia.
From S2P Require Import Prelude Memory LibC AllocSpec Heaps Multitask TaskLogic TaskStack TaskInv TaskOps.
From S2P Require Import TaskCalls TaskCreate TaskSched TaskSys TaskProps Fs FsChain FsTree FsOps FsProps.
From S2P Require Import PortIO Keyboard Clock Vga Machine Loader.

(** ** Loading at boot *)

Section Boot.
Context {H : Type} `{!Heaps H, !HeapsOk H} (INIT disk : Z).

(** Only the disk, the screen and the file system's tables changed: the
    heaps hold what they held. *)
Record still (m m' : machine H) : Prop := {
  st_sched : m_sched m' = set_heaps (heaps (m_sched m')) (m_sched m);
  st_rel A B : hp_rel (heaps (m_sched m)) A B -> hp_rel (heaps (m_sched m')) A B;
  st_kfits ns : k_fits (heaps (m_sched m)) ns -> k_fits (heaps (m_sched m')) ns;
  st_ufits n : u_fits (heaps (m_sched m)) n -> u_fits (heaps (m_sched m')) n;
  st_devices : m_timer m' = m_timer m /\ m_kbd m' = m_kbd m /\ m_ports m' = m_ports m /\ m_idtr m' = m_idtr m;
  st_rest x : off_screen x -> ~ (disk <= x < disk + RAMDISK_SIZE) -> rb (memory m') x = rb (memory m) x
}.
#[export] Instance still_refl : Reflexive still.
Proof. intros m. split; try done. by destruct (m_sched m). Qed.
#[export] Instance still_trans : Transitive still.
Proof.
  intros m1 m2 m3 [E1 ? ? ? D1 R1] [E2 ? ? ? D2 R2]. split; eauto.
  - rewrite E2 at 1. by rewrite E1 at 1.
  - intuition congruence.
  - intros x Hs Hx. by rewrite R2, R1.
Qed.

Context `{!HeapsFrame H} (Hdisk : disk_apart disk).

Lemma still_put v m m' :
  same_on k_lo k_hi (memory m) v -> same_on u_lo u_hi (memory m) v ->
  (forall x, off_screen x -> ~ (disk <= x < disk + RAMDISK_SIZE) -> rb v x = rb (memory m) x) ->
  m_sched m' = m_sched (store_mem v m) ->
  m_timer m' = m_timer m /\ m_kbd m' = m_kbd m /\ m_ports m' = m_ports m /\ m_idtr m' = m_idtr m -> still m m'.
Proof using HeapsFrame0 HeapsOk0.
  intros Hk Hu Hx Es Ed. split; [by rewrite Es|..]; rewrite ?Es; cbn.
  - intros A B Hr. by apply hp_frame.
  - intros ns. by apply k_fits_mem.
  - intros n. by apply u_fits_mem.
  - done.
  - intros x H1 H2. unfold memory at 1. rewrite Es. cbn. rewrite hp_mem_with. by apply Hx.
Qed.

Lemma put_fs_still m s' :
  only_in disk (disk + RAMDISK_SIZE) (memory m) (fmem s') -> still m (put_fs s' m).
Proof using Hdisk HeapsFrame0 HeapsOk0.
  intros Ho. destruct Hdisk as [Hk Hu]. unfold off_disk in *.
  apply (still_put (fmem s')); try done.
  - eapply only_in_same; [exact Ho|lia].
  - eapply only_in_same; [exact Ho|lia].
  - intros x _ Hx. by apply Ho.
Qed.

Lemma mkdir_memory nm par s : fmem (fs_mkdir nm par s).2 = fmem s.
Proof using.
  unfold fs_mkdir. destruct nm; [|done]. repeat (destruct (_ : bool); [done|]). by destruct (scan_entries _ _); [|destruct (_ <? _)].
Qed.

(** [load_app_to_fs] keeps the file system well-formed, whatever room it has. *)
Lemma load_app_ok folder name ext data dat m F (Q : unit -> machine H -> Prop) :
  fs_rel disk (fs_of m) F -> 0 <= dat -> off_disk disk data dat ->
  (forall m' F', still m m' -> fs_rel disk (fs_of m') F' -> Q tt m') ->
  wk (load_app_to_fs disk folder name ext data dat) Q m.
Proof using Hdisk HeapsFrame0 HeapsOk0.
  intros Hrel Hd Hoff HQ. unfold load_app_to_fs, find_in_dir. ksteps.
  assert (Hdir : wk (if fs_find_in_dir (Some folder) None FS_ROOT_IDX (fs_of m) <? 0
     then on_fs (fun s => Some (fs_mkdir (Some folder) FS_ROOT_IDX s))
     else kret (fs_find_in_dir (Some folder) None FS_ROOT_IDX (fs_of m)))
     (fun _ m' => still m m' /\ exists F', fs_rel disk (fs_of m') F') m).
  { destruct (_ <? 0); [|apply wk_ret; split; [done|by exists F]].
    destruct (fs_mkdir (Some folder) FS_ROOT_IDX (fs_of m)) as [r s'] eqn:E.
    eapply wk_fs; [by rewrite E|]. pose proof (mkdir_memory (Some folder) FS_ROOT_IDX (fs_of m)) as Hm.
    rewrite E in Hm. cbn in Hm. split; [apply put_fs_still; rewrite Hm; reflexivity|].
    rewrite fs_of_put. destruct (mkdir_rel disk _ F _ _ _ _ Hrel E) as [(_ & _ & ->)|(nm & _ & _ & _ & _ & Hr)]; eauto. }
  eapply wk_mono; [exact Hdir|]. intros b m1 [H1 [F1 Hr1]].
  destruct (b <? 0); [apply wk_ret; by apply (HQ m1 F1)|]. ksteps.
  destruct (write_rel disk (fs_of m1) F1 (Some name) ext b data dat Hr1 Hd Hoff) as (r & s' & F2 & E & _ & Hr2 & Ho).
  eapply wk_fs; [exact E|]. ksteps. apply (HQ _ F2); [|by rewrite fs_of_put].
  etransitivity; [exact H1|]. by apply put_fs_still.
Qed.
End Boot.

(** ** The first tasks *)

Section FirstTasks.
Context {H : Type} `{!Heaps H, !HeapsOk H} (INIT disk : Z).

(** The tasks and kernel regions of before are still there. *)
Record grows (s s' : sched H) (A A' : regions) : Prop := {
  gr_regions : A ⊆ A';
  gr_tasks a T : tasks s !! a = Some T -> exists T', tasks s' !! a = Some T' /\ set_next 0 T' = set_next 0 T;
  gr_pid : next_pid s <= next_pid s' <= next_pid s + 1;
  gr_current : current s' = current s;
  gr_iflag : iflag s' = iflag s
}.

(** A ready task of pid [p] starts at [entry]. *)
Definition starts (s : sched H) (A : regions) (p entry : Z) : Prop :=
  exists t T d, tasks s !! t = Some T /\ pid T = p /\ state T = TASK_READY /\ A !! kstack T = Some d /\
    kstack T <= regs T /\ regs T + 176 <= kstack T + lenZ d /\ word_at 8 (kstack T) d (regs T + 8 * 17) entry.

Lemma starts_grows s s' A A' p entry : grows s s' A A' -> starts s A p entry -> starts s' A' p entry.
Proof.
  intros [HA Ht _ _ _] (t & T & d & HT & H1 & H2 & Hd & H3 & H4 & H5).
  destruct (Ht t T HT) as (T' & HT' & E). exists t, T', d.
  assert (pid T' = pid T /\ state T' = state T /\ kstack T' = kstack T /\ regs T' = regs T) as (-> & -> & -> & ->).
  { destruct T, T'. by injection E as -> -> -> -> -> -> -> -> ->. }
  split; [done|]. do 2 (split; [done|]). split; [|done]. by eapply lookup_weaken.
Qed.

Lemma created_grows entry sz um un s s' A A' t : created entry sz um un s s' A A' t -> grows s s' A A'.
Proof.
  intros [Hn Hp Hc Hi Hr _ Hk _]. split; try done; [|lia].
  intros a T HT. apply (sim_get _ _ _ a T Hr); [|done]. intros ->. congruence.
Qed.

Lemma created_starts entry sz um un s s' A A' t :
  stack_ok sz -> created entry sz um un s s' A A' t -> starts s' A' (next_pid s) entry.
Proof.
  intros Hst [_ _ _ _ _ _ _ (k & n & d & HT & Hd & Hl & Hsp & Hw)]. cbn zeta in *.
  exists t. eexists. exists d. split; [exact HT|]. cbn [pid state kstack regs set_next new_task].
  do 3 (split; [done|]). split; [done|]. split.
  - rewrite Hl. unfold frame_base in *. pose proof (Z.div_mod (k + sz) 16 ltac:(lia)).
    pose proof (Z.mod_pos_bound (k + sz) 16 ltac:(lia)). lia.
  - apply Hw. apply list_elem_of_In. cbn. tauto.
Qed.

(** The start address is in memory. *)
Lemma starts_word s A B p entry :
  hp_rel (heaps s) A B -> starts s A p entry -> 0 <= entry < 18446744073709551616 ->
  exists t T, tasks s !! t = Some T /\ pid T = p /\ state T = TASK_READY /\
    ld 8 (hp_mem (heaps s)) (regs T + 8 * 17) = entry.
Proof.
  intros Hr (t & T & d & HT & H1 & H2 & Hd & H3 & H4 & H5) He. exists t, T. do 3 (split; [done|]).
  destruct (hp_agrees _ _ _ Hr) as [Hag _].
  rewrite (word_at_ld 8 _ (kstack T) d _ entry); [|by apply Hag|lia|lia|done].
  change (256 ^ Z.of_nat 8) with 18446744073709551616. by apply Z.mod_small.
Qed.

Context (Hly : layout INIT disk).

(** [task_create] where there is room. *)
Lemma first_task_ok entry n ns m A B X Y rs zs F (Q : unit -> machine H -> Prop) :
  mt_ok INIT (m_sched m) A B X Y rs zs [] -> fs_rel disk (fs_of m) F -> stack_ok (stack_bytes n) ->
  k_fits (heaps (m_sched m)) (SIZEOF_TASK :: stack_bytes n :: ns) -> next_pid (m_sched m) < 2147483647 ->
  (forall m' A' rs', mt_ok INIT (m_sched m') A' B X Y rs' zs [] -> fs_rel disk (fs_of m') F ->
     k_fits (heaps (m_sched m')) ns -> (forall n, u_fits (heaps (m_sched m)) n -> u_fits (heaps (m_sched m')) n) ->
     grows (m_sched m) (m_sched m') A A' -> starts (m_sched m') A' (next_pid (m_sched m)) entry ->
     next_pid (m_sched m') = next_pid (m_sched m) + 1 -> devices m' = devices m -> Q tt m') ->
  wk (on_sched (task_create entry n)) Q m.
Proof using Hly HeapsOk0.
  intros Hok Hrel Hst Hf Hnp HQ. destruct Hly as [HIk [Hk1 Hk2] _ Hdisk]. apply wk_sched.
  pose proof (k_fits_app _ [SIZEOF_TASK; stack_bytes n] ns Hf) as Hf2.
  apply (create_framed INIT entry n A B X Y rs zs [] _ (m_sched m)); try done.
  - eapply fits_alloc_safe; [apply Hok| |done]. unfold stack_ok, FRAME_QWORDS in Hst. lia.
  - intros s' A' t Hok' Hc Ho. destruct (cr_room _ _ _ _ _ _ _ _ _ Hc) as [Hkr Hur].
    apply (HQ _ A' (rs ++ [t])); try done.
    + by apply (fs_rel_off disk Hdisk m).
    + by apply Hkr.
    + by eapply created_grows.
    + by eapply created_starts.
    + apply Hc.
Qed.

(** Room for [n] tasks with default stacks. *)
Fixpoint task_room (n : nat) : list Z :=
  match n with O => [] | S n => SIZEOF_TASK :: KSTACK_SIZE :: task_room n end.

(** The terminal's image becomes a task; no file or no user memory: nothing. *)
Lemma terminal_ok m A B X Y rs zs F (Q : unit -> machine H -> Prop) :
  mt_ok INIT (m_sched m) A B X Y rs zs [] -> fs_rel disk (fs_of m) F ->
  k_fits (heaps (m_sched m)) (task_room 2) -> next_pid (m_sched m) < 2147483647 ->
  (forall m' A' B' rs', mt_ok INIT (m_sched m') A' B' X Y rs' zs [] -> fs_rel disk (fs_of m') F ->
     k_fits (heaps (m_sched m')) (task_room 1) -> grows (m_sched m) (m_sched m') A A' ->
     devices m' = devices m -> Q tt m') ->
  wk (load_and_run_terminal disk) Q m.
Proof using Hly HeapsOk0.
  intros Hok Hrel Hf Hnp HQ. pose proof Hly as [HIk [Hk1 Hk2] [Hu1 Hu2] Hdisk].
  assert (Hone : k_fits (heaps (m_sched m)) (task_room 1)) by by apply (k_fits_app _ _ (task_room 1)).
  assert (Hs0 : slot 0) by (unfold slot; lia).
  assert (Hrefl : forall h, grows (m_sched m) (set_heaps h (m_sched m)) A A) by (split; try done; [by eauto|cbn; lia]).
  assert (Hsame : Q tt m).
  { apply (HQ m A B rs); try done. specialize (Hrefl (heaps (m_sched m))). by destruct (m_sched m). }
  unfold load_and_run_terminal, find_in_dir. ksteps. change FS_ROOT_IDX with 0.
  destruct (look_up _ _ _ s_bin None 0 Hrel Hs0) as [[-> _]|(-> & Hb & bn & Hbin & _)]; [by ksteps|].
  ksteps. destruct (look_up _ _ _ s_terminal (Some s_bin) _ Hrel Hb) as [[-> _]|(-> & Hi & n & Hfile & Hh)]; [by ksteps|].
  set (b := fs_find_in_dir (Some s_bin) _ 0 _) in *. set (i := fs_find_in_dir _ _ b _) in *. ksteps.
  pose proof (stored_bound _ _ _ _ (ho_data _ _ _ _ Hh)) as Hbound.
  rewrite (proj1 (ho_data _ _ _ _ Hh)). assert (H0 : 0 <= lenZ (n_data n)) by (unfold lenZ; lia).
  rewrite u32_small by lia. apply wk_sched.
  apply (user_alloc_ok INIT _ A B X Y rs zs [] _ _ Hok); [unfold MAX_REQ; lia| |].
  { intros h Hok2 Ho2 Hfits2 _. rw_test. ksteps.
    apply (HQ _ A B rs); try done; [by apply (fs_rel_off disk Hdisk m)|by apply (kr_fits _ _ Hfits2)|apply Hrefl]. }
  intros h p d Hp0 Hpn Hld Hp1 Hp2 Hok2 Ho2 Hfits2. rw_test. ksteps.
  set (m2 := put_sched (set_heaps h (m_sched m)) m).
  eapply (read_image INIT disk Hdisk m2 p d); [exact Hok2|apply lookup_insert_eq|by apply (fs_rel_off disk Hdisk m)
    |exact Hb|exact Hfile|done|lia|].
  intros v d' r m3 Hok3 Hl3 Ht3 Hrel3 Ho3 Hfits3. ksteps. apply wk_sched.
  assert (HY : if p =? 0 then Y = p :: Y else p :: Y ≡ₚ p :: Y) by by rw_test.
  assert (Hf3 : k_fits (heaps (m_sched m3)) (task_room 2)) by by apply (kr_fits _ _ Hfits3), (kr_fits _ _ Hfits2).
  eapply (ucreate_framed INIT p 0 p (lenZ (n_data n))); [done..|exact Hok3|by vm_compute| |exact Hnp|exact HY| |].
  - eapply fits_alloc_safe; [apply Hok3| |by apply (k_fits_app _ _ (task_room 1))]. by vm_compute.
  - intros s' _ _ Hno _. destruct Hno. by apply (k_fits_app _ _ (task_room 1)).
  - intros s' A' t Hok' Hc Ho. ksteps. eapply (HQ _ A'); [exact Hok'|by apply (fs_rel_off disk Hdisk m3)| | |done].
    + by apply (cr_room _ _ _ _ _ _ _ _ _ Hc).
    + destruct (created_grows _ _ _ _ _ _ _ _ _ Hc). by split.
Qed.

(** [tasks_init]: the clock task, the terminal if there is one, the reaper. *)
Lemma tasks_init_ok USER_TASK1 ZOMBIE_REAPER m A B X Y rs zs F (Q : unit -> machine H -> Prop) :
  mt_ok INIT (m_sched m) A B X Y rs zs [] -> fs_rel disk (fs_of m) F ->
  k_fits (heaps (m_sched m)) (task_room 3) -> next_pid (m_sched m) < 2147483640 ->
  (forall m' A' B' rs' p, mt_ok INIT (m_sched m') A' B' X Y rs' zs [] -> fs_rel disk (fs_of m') F ->
     starts (m_sched m') A' (next_pid (m_sched m)) USER_TASK1 ->
     next_pid (m_sched m) < p -> starts (m_sched m') A' p ZOMBIE_REAPER ->
     iflag (m_sched m') = iflag (m_sched m) -> devices m' = devices m -> Q tt m') ->
  wk (tasks_init disk USER_TASK1 ZOMBIE_REAPER) Q m.
Proof using Hly HeapsOk0.
  intros Hok Hrel Hf Hnp HQ. unfold tasks_init. ksteps.
  apply (first_task_ok USER_TASK1 0 (task_room 2) m A B X Y rs zs F); [done|done|by vm_compute|done|lia|].
  intros m1 A1 rs1 Hok1 Hrel1 Hf1 _ Hg1 Hst1 Hp1 Hd1. ksteps.
  apply (terminal_ok m1 A1 B X Y rs1 zs F); [done..|lia|].
  intros m2 A2 B2 rs2 Hok2 Hrel2 Hf2 Hg2 Hd2. pose proof (gr_pid _ _ _ _ Hg2) as Hp2.
  apply (first_task_ok ZOMBIE_REAPER 0 [] m2 A2 B2 X Y rs2 zs F); [done|done|by vm_compute|done|lia|].
  intros m3 A3 rs3 Hok3 Hrel3 _ _ Hg3 Hst3 _ Hd3.
  apply (HQ m3 A3 B2 rs3 (next_pid (m_sched m2))); try done.
  - by eapply starts_grows, starts_grows.
  - lia.
  - by rewrite (gr_iflag _ _ _ _ Hg3), (gr_iflag _ _ _ _ Hg2), (gr_iflag _ _ _ _ Hg1).
  - by rewrite Hd3, Hd2, Hd1.
Qed.
End FirstTasks.
