(* ===== verification/Syscall.v ===== *)
(** * syscall/syscall.c

    [uint_to_str] and the dispatcher of the int 0x80 gate, over the whole
    machine.  [load_and_run_program] is in Loader.v. *)

From Stdlib Require Import ZArith Lia.
From S2P Require Import Prelude Memory LibC AllocSpec HeapBlock Heaps Multitask TaskLogic Fs PortIO Keyboard Clock Vga KStats.
From S2P Require Import Power Machine Loader.

Definition SYSCALL_PRINT_CHAR_POSITION : Z := 0.
Definition SYSCALL_PRINT_STRING_POSITION : Z := 1.
Definition SYSCALL_PRINT_CHAR : Z := 2.
Definition SYSCALL_PRINT_STRING : Z := 3.
Definition SYSCALL_BACKSPACE : Z := 4.
Definition SYSCALL_GET_TIME : Z := 5.
Definition SYSCALL_CLEAN_SCREEN : Z := 6.
Definition SYSCALL_MALLOC : Z := 10.
Definition SYSCALL_REALLOC : Z := 11.
Definition SYSCALL_FREE : Z := 12.
Definition SYSCALL_KMALLOC_STATS : Z := 13.
Definition SYSCALL_GETCHAR : Z := 30.
Definition SYSCALL_SETPOSCURSOR : Z := 31.
Definition SYSCALL_POWER_OFF : Z := 100.
Definition SYSCALL_REBOOT : Z := 101.
Definition SYSCALL_TASK_CREATE : Z := 200.
Definition SYSCALL_TASK_LIST : Z := 201.
Definition SYSCALL_TASK_STOP : Z := 202.
Definition SYSCALL_REAP_ZOMBIES : Z := 203.
Definition SYSCALL_TASK_EXIT : Z := 204.
Definition SYSCALL_TASK_IS_ALIVE : Z := 205.

(** ** [uint_to_str] *)

(** [while (value > 0) tmp[len++] = ...]: the filled part of [tmp].  Ten
    turns are enough for 32 bits. *)
Fixpoint fill_tmp (fuel : nat) (value : Z) (tmp : list Z) : list Z :=
  match fuel with
  | O => tmp
  | S k => if 0 <? value then fill_tmp k (value / 10) (tmp ++ [u8 (48 + value mod 10)]) else tmp
  end.
Fixpoint copy_back (k : nat) (i len : Z) (tmp : list Z) (buf : Z) (m : mem) : mem :=
  match k with
  | O => m
  | S k => copy_back k (i + 1) len tmp buf (wb m (buf + i) (nthZ 0 tmp (len - 1 - i)))
  end.
Definition uint_to_str (value buf : Z) (m : mem) : Z * mem :=
  if value =? 0 then (buf, wb (wb m buf 48) (buf + 1) 0)
  else
    let tmp := fill_tmp 11 value [] in
    let len := lenZ tmp in
    let m := copy_back (Z.to_nat len) 0 len tmp buf m in
    (buf, wb m (buf + len) 0).

(** ** The dispatcher *)

(** What a system call returns in rax; [None]: it does not return. *)
Abbreviation outcome := (option Z).

Definition task_state_code (s : task_state) : Z :=
  match s with TASK_RUNNING => 0 | TASK_READY => 1 | TASK_BLOCKED => 2 | TASK_ZOMBIE => 3 end.

(** [buf[i].pid = ...; buf[i].state = ...;] *)
Fixpoint store_infos (buf : Z) (l : list (Z * task_state)) (m : mem) : mem :=
  match l with
  | [] => m
  | (p, s) :: l => store_infos (buf + 8) l (st 4 (st 4 m buf p) (buf + 4) (task_state_code s))
  end.
(** The seven [size_t] of [kmalloc_stats_t]. *)
Definition store_stats (p : Z) (s : stats) (m : mem) : mem :=
  let m := st 8 m p (total_managed s) in
  let m := st 8 m (p + 8) (used_payload s) in
  let m := st 8 m (p + 16) (free_payload s) in
  let m := st 8 m (p + 24) (largest_free s) in
  let m := st 8 m (p + 32) (num_blocks s) in
  let m := st 8 m (p + 40) (num_used s) in
  st 8 m (p + 48) (num_free s).

(** The characters of a string up to its NUL. *)
Fixpoint string_at (fuel : nat) (m : mem) (a : Z) : option (list Z) :=
  match fuel with
  | O => None
  | S k => if rb m a =? 0 then Some [] else s ← string_at k m (a + 1); Some (rb m a :: s)
  end.

Lemma string_at_cstr k v a s : cstr v a s -> (length s < k)%nat -> string_at k v a = Some s.
Proof.
  revert k a. induction s as [|c s IH]; intros [|k] a Hs Hk; cbn [string_at length] in *; try lia.
  - cbn in Hs. by rewrite Hs.
  - destruct Hs as (Hc & Hnz & Hs). rewrite Hc. rw_test. by rewrite (IH k (a + 1) Hs) by lia.
Qed.

Section Syscall.
Context {H : Type} `{!Heaps H}.
(** The devices; [&init_task], [ramdisk_base()]; turns allowed to the loops
    over strings and to the wait for the keyboard controller. *)
Context (dev : trace -> Z -> Z) (INIT disk : Z) (fuel : nat).

Definition kstuck {A} : K H A := fun _ => Stuck.
Definition lift {A} (o : option A) : K H A := match o with Some a => kret a | None => kstuck end.
Definition get_string (a : Z) : K H (list Z) :=
  let? s := kgets (fun m => string_at fuel (memory m) a) in lift s.
Definition screen (f : vga -> vga) : K H unit := on_vga (fun v => io_ret (f v)).

Definition sys_stats (p : Z) : K H unit :=
  if p =? 0 then kret tt else
  let? s := kgets (fun m => k_stats (heaps (m_sched m))) in
  let? s := lift s in
  on_memory (store_stats p s).

Definition sys_get_time (value buf : Z) : K H Z := fun m =>
  let '(r, v) := uint_to_str value buf (memory m) in Ok (r, store_mem v m).

Definition sys_task_list (buf max : Z) : K H Z :=
  let? l := on_sched (task_list max) in
  do? on_memory (store_infos buf l) in
  kret (lenZ l).

Definition sys_power_off : K H unit := fun m =>
  match power_off (memory m) (m_ports m) with
  | (Some v, t) => Ok (tt, put_ports t (store_mem v m))
  | (None, _) => Fault
  end.
Definition sys_reboot : K H unit := fun m =>
  let '(r, t) := reboot_system dev fuel (memory m) (m_ports m) in
  match r with Some _ => Ok (tt, put_ports t m) | None => Stuck end.

Definition syscall_handler (rax rdi rsi rdx r10 r8 : Z) : K H outcome :=
  let n := u32 rax in
  if n =? SYSCALL_PRINT_CHAR_POSITION then
    do? screen (print_char_position (s8 rdi) (u32 rsi) (u32 rdx) (u8 r10) (u8 r8)) in kret (Some 0)
  else if n =? SYSCALL_PRINT_STRING_POSITION then
    (* the loop ends at the right edge, after 81 characters at most *)
    let? s := kgets (fun m => chars_at 81 (memory m) rdi) in
    do? screen (print_string_position s (u32 rsi) (u32 rdx) (u8 r10) (u8 r8)) in kret (Some 0)
  else if n =? SYSCALL_PRINT_CHAR then
    do? on_vga (print_char (s8 rdi) (u8 rsi) (u8 rdx)) in kret (Some 0)
  else if n =? SYSCALL_PRINT_STRING then
    let? s := get_string rdi in do? on_vga (print_string s (u8 rsi) (u8 rdx)) in kret (Some 0)
  else if n =? SYSCALL_BACKSPACE then do? on_vga backspace in kret (Some 0)
  else if n =? SYSCALL_GET_TIME then let? r := sys_get_time (u32 rdi) rsi in kret (Some r)
  else if n =? SYSCALL_CLEAN_SCREEN then do? screen clean_screen in kret (Some 0)
  else if n =? SYSCALL_MALLOC then let? p := on_sched (kheap_do (CMalloc rdi)) in kret (Some p)
  else if n =? SYSCALL_FREE then do? on_sched (kheap_do (CFree rdi)) in kret (Some 0)
  else if n =? SYSCALL_REALLOC then let? p := on_sched (kheap_do (CRealloc rdi rsi)) in kret (Some p)
  else if n =? SYSCALL_KMALLOC_STATS then do? sys_stats rdi in kret (Some 0)
  else if n =? SYSCALL_GETCHAR then
    let? c := on_kbd kbd_getchar in kret (Some (u64 (if c =? -1 then 0 else c)))
  else if n =? SYSCALL_SETPOSCURSOR then
    do? on_ports (update_hardware_cursor (u8 rdi) (u8 rsi)) in kret (Some 0)
  else if n =? SYSCALL_POWER_OFF then do? sys_power_off in kret None
  else if n =? SYSCALL_REBOOT then do? sys_reboot in kret None
  else if n =? SYSCALL_TASK_CREATE then let? r := load_and_run_program disk rdi in kret (Some r)
  else if n =? SYSCALL_TASK_LIST then let? r := sys_task_list rdi rsi in kret (Some (u64 r))
  else if n =? SYSCALL_TASK_STOP then
    let? r := on_sched (task_stop INIT (s32 rdi)) in kret (match r with Some r => Some (u64 r) | None => None end)
  else if n =? SYSCALL_REAP_ZOMBIES then do? on_sched (reap_zombies INIT) in kret (Some 0)
  else if n =? SYSCALL_TASK_EXIT then do? on_sched (task_exit INIT (s32 rdi)) in kret (Some 0)
  else if n =? SYSCALL_TASK_IS_ALIVE then let? r := on_sched (task_is_alive INIT (s32 rdi)) in kret (Some (u64 r))
  else kret (Some (u64 (-1))).
End Syscall.

(** ** [uint_to_str] prints what [u32_to_dec] prints *)

Lemma fill_tmp_dec fuel v tmp : 0 <= v -> fill_tmp fuel v tmp = tmp ++ dec_loop fuel v.
Proof.
  revert v tmp. induction fuel as [|fuel IH]; intros v tmp Hv; cbn [fill_tmp dec_loop]; [by rewrite app_nil_r|].
  destruct (Z.eqb_spec v 0) as [->|Hne]; [by rewrite app_nil_r|]. rewrite (proj2 (Z.ltb_lt 0 v)) by lia.
  rewrite IH by (apply Z.div_pos; lia). by rewrite <- app_assoc.
Qed.

Lemma copy_back_rb k i tmp buf m x :
  0 <= i -> i + Z.of_nat k <= lenZ tmp ->
  rb (copy_back k i (lenZ tmp) tmp buf m) x =
    if (buf + i <=? x) && (x <? buf + i + Z.of_nat k) then u8 (nthZ 0 tmp (lenZ tmp - 1 - (x - buf))) else rb m x.
Proof.
  revert i m. induction k as [|k IH]; intros i m Hi Hk; cbn [copy_back].
  - replace (_ && _) with false; [done|]. symmetry. apply andb_false_iff. rewrite Z.leb_gt, Z.ltb_ge. lia.
  - rewrite IH by lia. rewrite rb_wb. repeat bcase; cbn [andb]; try lia; try done.
    subst x. f_equal. f_equal. lia.
Qed.

Lemma nthZ_reverse (l : list Z) i c : reverse l !! i = Some c -> nthZ 0 l (lenZ l - 1 - Z.of_nat i) = c.
Proof.
  intros Hi. pose proof (lookup_lt_Some _ _ _ Hi) as Hl. rewrite length_reverse in Hl.
  rewrite reverse_lookup in Hi by done. unfold nthZ, lenZ. rewrite (proj2 (Z.ltb_ge _ 0)) by lia.
  apply nth_lookup_Some. rewrite <- Hi. f_equal. lia.
Qed.

Lemma dec_digits v : 0 <= v < 4294967296 -> Forall digit (u32_to_dec v).
Proof.
  intros Hv. unfold u32_to_dec. destruct (v =? 0); [constructor; [unfold digit; lia|done]|].
  rewrite reverse_Permutation. destruct (dec_loop_ok 11 v) as (_ & Hd & _); [cbn; lia|done].
Qed.

Lemma uint_to_str_ok v buf m :
  0 <= v < 4294967296 ->
  exists m', uint_to_str v buf m = (buf, m') /\ cstr m' buf (u32_to_dec v) /\
    only_in buf (buf + lenZ (u32_to_dec v) + 1) m m'.
Proof.
  intros Hv. pose proof (dec_digits v Hv) as Hdig. unfold uint_to_str, u32_to_dec in *.
  destruct (Z.eqb_spec v 0) as [->|Hne].
  - eexists. split; [done|]. split.
    + cbn. mem_peel. done.
    + intros x Hx. unfold lenZ in Hx. cbn in Hx. by mem_peel.
  - rewrite fill_tmp_dec by lia. cbn [app]. set (l := dec_loop 11 v) in *.
    assert (Hr : lenZ (reverse l) = lenZ l) by (unfold lenZ; by rewrite length_reverse).
    assert (Hl : 0 <= lenZ l) by (unfold lenZ; lia).
    eexists. split; [done|]. rewrite Hr. split.
    + apply cstr_of.
      * intros i c Hi. pose proof (lookup_lt_Some _ _ _ Hi) as Hlt. rewrite length_reverse in Hlt.
        assert (Hd : digit c) by (eapply Forall_lookup_1 in Hdig; [exact Hdig|exact Hi]). unfold digit in Hd.
        rewrite rb_wb_ne by (unfold lenZ in *; lia).
        rewrite copy_back_rb by (unfold lenZ in *; lia).
        rewrite (proj2 (Z.leb_le _ _)), (proj2 (Z.ltb_lt _ _)) by (unfold lenZ in *; lia). cbn [andb].
        replace (buf + Z.of_nat i - buf) with (Z.of_nat i) by lia.
        rewrite (nthZ_reverse l i c Hi), u8_small by lia. lia.
      * rewrite Hr. apply rb_wb_eq.
    + intros x Hx. rewrite rb_wb_ne by lia. rewrite copy_back_rb by lia.
      rewrite Z2Nat.id by done. destruct ((_ <=? x) && _) eqn:E; [bsimp; lia|done].
Qed.

(** [uint_to_str] and the [u32_to_dec] of malloc.c are the same function:
    for every 32-bit number the buffer ends up holding, as a C string, what
    [u32_to_dec] prints, at most ten digits and the NUL are written, and the
    buffer is returned. *)
Theorem uint_to_str_dec v buf m :
  0 <= v < 4294967296 ->
  exists m', uint_to_str v buf m = (buf, m') /\ cstr m' buf (u32_to_dec v) /\ only_in buf (buf + 11) m m'.
Proof.
  intros Hv. destruct (uint_to_str_ok v buf m Hv) as (m' & E & Hs & Ho). exists m'. split; [done|]. split; [done|].
  pose proof (u32_to_dec_length v Hv). intros x Hx. apply Ho. lia.
Qed.

Lemma uint_to_str_dec_witness : exists m', uint_to_str 4096 100 ∅ = (100, m') /\ cstr m' 100 [52; 48; 57; 54] /\
  only_in 100 111 ∅ m'.
Proof. apply (uint_to_str_dec 4096 100 ∅). lia. Defined.
