(* ===== verification/Itoa.v ===== *)
(** * Numbers in any base

    [itoa] of kernel.c: the digits are stored last first, then the string is
    turned round in place.  A base of zero divides by zero; the properties ask
    for a base from 2 to 36. *)

From Stdlib Require Import ZArith Lia.
From S2P Require Import Prelude Memory LibC.

(** ** [itoa] *)

Fixpoint itoa_loop (fuel : nat) (num base str i : Z) (m : mem) : mem * Z :=
  match fuel with
  | O => (m, i)
  | S k =>
      if 0 <? num then
        let rem := num mod u32 base in
        itoa_loop k (num / u32 base) base str (i + 1)
          (wb m (str + i) (if 9 <? rem then rem - 10 + 65 else rem + 48))
      else (m, i)
  end.
(** [for (j = 0; j < i / 2; j++)] *)
Fixpoint swap_loop (k : nat) (j i str : Z) (m : mem) : mem :=
  match k with
  | O => m
  | S k =>
      let temp := rb m (str + j) in
      let m := wb m (str + j) (rb m (str + (i - j - 1))) in
      swap_loop k (j + 1) i str (wb m (str + (i - j - 1)) temp)
  end.
(** 32 turns are enough for any base. *)
Definition itoa (num str base : Z) (m : mem) : mem :=
  if num =? 0 then wb (wb m str 48) (str + 1) 0
  else
    let '(m, i) := itoa_loop 33 num base str 0 m in
    let m := wb m (str + i) 0 in
    swap_loop (Z.to_nat (i / 2)) 0 i str m.


(** ** The digits *)

Definition digit_char (d : Z) : Z := if 9 <? d then d - 10 + 65 else d + 48.
Definition char_digit (c : Z) : Z := if 65 <=? c then c - 55 else c - 48.

(** Least significant first. *)
Fixpoint digits (fuel : nat) (num base : Z) : list Z :=
  match fuel with
  | O => []
  | S k => if 0 <? num then num mod base :: digits k (num / base) base else []
  end.
(** What a reader of the string sees. *)
Definition number_of (base : Z) (s : list Z) : Z := fold_left (fun a c => a * base + char_digit c) s 0.

Lemma number_snoc base s c : number_of base (s ++ [c]) = number_of base s * base + char_digit c.
Proof. unfold number_of. by rewrite fold_left_app. Qed.

Lemma char_digit_char d : 0 <= d < 36 -> char_digit (digit_char d) = d.
Proof. intros Hd. unfold char_digit, digit_char. repeat bcase; lia. Qed.
Lemma digit_char_range d : 0 <= d < 36 -> 48 <= digit_char d <= 90.
Proof. intros Hd. unfold digit_char. bcase; lia. Qed.

Section Base.
Context (base : Z) (Hbase : 2 <= base <= 36).

Lemma digits_ok fuel num :
  0 <= num < base ^ Z.of_nat fuel ->
  number_of base (reverse (digit_char <$> digits fuel num base)) = num /\
  Forall (fun d => 0 <= d < base) (digits fuel num base) /\
  (0 < num -> exists r d, digits fuel num base = r ++ [d] /\ d <> 0).
Proof using Hbase.
  revert num. induction fuel as [|fuel IH]; intros num Hn; cbn [digits].
  - cbn in Hn. assert (num = 0) as -> by lia. by repeat split; [constructor|lia].
  - destruct (Z.ltb_spec 0 num) as [Hp|Hz]; [|assert (num = 0) as -> by lia; by repeat split; [constructor|lia]].
    rewrite Nat2Z.inj_succ, Z.pow_succ_r in Hn by lia.
    pose proof (Z.mod_pos_bound num base ltac:(lia)) as Hm. pose proof (Z.div_mod num base ltac:(lia)) as Hdm.
    assert (Hq : 0 <= num / base < base ^ Z.of_nat fuel).
    { split; [apply Z.div_pos; lia|apply Z.div_lt_upper_bound; lia]. }
    destruct (IH (num / base) Hq) as (H1 & H2 & H3). split; [|split].
    + rewrite fmap_cons, reverse_cons, number_snoc, H1, char_digit_char by lia. lia.
    + by constructor.
    + intros _. destruct (Z.eq_dec (num / base) 0) as [E|Hne].
      * exists [], (num mod base). rewrite E. split; [by destruct fuel|]. lia.
      * destruct H3 as (r & d & -> & Hd); [lia|]. by exists (num mod base :: r), d.
Qed.

Lemma digits_length fuel num : (length (digits fuel num base) <= fuel)%nat.
Proof using.
  clear. revert num. induction fuel as [|fuel IH]; intros num; cbn [digits]; [done|].
  destruct (0 <? num); cbn [length]; [|lia]. specialize (IH (num / base)). lia.
Qed.

Lemma itoa_loop_eq fuel num str i m :
  itoa_loop fuel num base str i m =
    (wbs m (str + i) (digit_char <$> digits fuel num base), i + lenZ (digits fuel num base)).
Proof using Hbase.
  unfold lenZ. revert num i m. induction fuel as [|fuel IH]; intros num i m; cbn [itoa_loop digits].
  - cbn. by rewrite Z.add_0_r.
  - rewrite u32_small by lia. destruct (0 <? num); [|cbn; by rewrite Z.add_0_r].
    rewrite IH, fmap_cons. cbn [wbs length]. f_equal; [|lia]. f_equal. lia.
Qed.
End Base.

(** ** Turning round *)

Lemma rb_swap m a b x :
  a <> b -> rb (wb (wb m a (rb m b)) b (rb m a)) x = if x =? a then rb m b else if x =? b then rb m a else rb m x.
Proof.
  intros Hne. pose proof (rb_range m a). pose proof (rb_range m b). rewrite !rb_wb, !u8_small by done.
  repeat bcase; subst; done || lia.
Qed.

Lemma swap_loop_rb k j i str m :
  0 <= j -> 2 * (j + Z.of_nat k) <= i -> forall x,
  (j <= x < j + Z.of_nat k \/ i - j - Z.of_nat k <= x < i - j ->
     rb (swap_loop k j i str m) (str + x) = rb m (str + (i - 1 - x))) /\
  (~ (j <= x < j + Z.of_nat k) -> ~ (i - j - Z.of_nat k <= x < i - j) ->
     rb (swap_loop k j i str m) (str + x) = rb m (str + x)).
Proof.
  revert j m. induction k as [|k IH]; intros j m Hj Hk x; cbn [swap_loop]; [split; [lia|done]|].
  set (m1 := wb _ _ _). assert (Hm1 : forall y, rb m1 (str + y) =
    if y =? j then rb m (str + (i - j - 1)) else if y =? i - j - 1 then rb m (str + j) else rb m (str + y)).
  { intros y. unfold m1. rewrite rb_swap by lia. repeat bcase; done || lia. }
  destruct (IH (j + 1) m1 ltac:(lia) ltac:(lia) x) as [H1 H2]. split.
  - intros Hx. destruct (decide (x = j)) as [->|N1]; [|destruct (decide (x = i - j - 1)) as [->|N2]].
    + rewrite H2, Hm1 by lia. rw_test. f_equal. lia.
    + rewrite H2, Hm1 by lia. do 2 rw_test. f_equal. lia.
    + rewrite H1, Hm1 by lia. by do 2 rw_test.
  - intros Hx1 Hx2. rewrite H2, Hm1 by lia. by do 2 rw_test.
Qed.

(** The whole string. *)
Lemma swapped i str m x :
  0 <= x < i -> rb (swap_loop (Z.to_nat (i / 2)) 0 i str m) (str + x) = rb m (str + (i - 1 - x)).
Proof.
  intros Hx. pose proof (Z.div_mod i 2 ltac:(lia)). pose proof (Z.mod_pos_bound i 2 ltac:(lia)).
  destruct (swap_loop_rb (Z.to_nat (i / 2)) 0 i str m ltac:(lia) ltac:(lia) x) as [H1 H2].
  destruct (decide (2 * x + 1 = i)) as [E|Hne]; [|apply H1; lia].
  rewrite H2 by lia. f_equal. lia.
Qed.
Lemma swapped_out i str m x :
  0 <= i -> ~ (str <= x < str + i) -> rb (swap_loop (Z.to_nat (i / 2)) 0 i str m) x = rb m x.
Proof.
  intros Hi Hx. pose proof (Z.div_mod i 2 ltac:(lia)). pose proof (Z.mod_pos_bound i 2 ltac:(lia)).
  destruct (swap_loop_rb (Z.to_nat (i / 2)) 0 i str m ltac:(lia) ltac:(lia) (x - str)) as [_ H2].
  replace (str + (x - str)) with x in H2 by lia. apply H2; lia.
Qed.

(** The digits [ds], stored last first and turned round. *)
Lemma turned ds str m :
  Forall (fun c => 48 <= c <= 90) ds ->
  let i := lenZ ds in
  let m' := swap_loop (Z.to_nat (i / 2)) 0 i str (wb (wbs m str ds) (str + i) 0) in
  cstr m' str (reverse ds) /\ only_in str (str + i + 1) m m'.
Proof.
  intros Hd i m'. assert (Hi : 0 <= i) by (unfold i, lenZ; lia).
  assert (Hr : lenZ (reverse ds) = i) by (unfold i, lenZ; by rewrite length_reverse). split.
  - apply cstr_of.
    + intros j c Hj. pose proof (lookup_lt_Some _ _ _ Hj) as Hlt. rewrite length_reverse in Hlt.
      rewrite reverse_lookup in Hj by done.
      assert (Hc : 48 <= c <= 90) by (eapply Forall_lookup_1 in Hd; [exact Hd|exact Hj]). split; [|lia].
      unfold m'. rewrite swapped by (unfold i, lenZ; lia). rewrite rb_wb_ne by (unfold i, lenZ; lia).
      replace (i - 1 - Z.of_nat j) with (Z.of_nat (length ds - S j)) by (unfold i, lenZ; lia).
      by apply rb_wbs_in; [|lia].
    + unfold m'. rewrite Hr, swapped_out by lia. by rewrite rb_wb_eq.
  - intros x Hx. unfold m'. rewrite swapped_out, rb_wb_ne by lia. apply rb_wbs_out. fold i. lia.
Qed.

(** [itoa] writes the number in the given base, 2 to 36: a C string of
    the digits 0-9 and A-Z below the base whose value is the number, without
    leading zeros, in at most 34 bytes, whatever the buffer held. *)
Theorem itoa_roundtrip num str base m :
  0 <= num < 4294967296 -> 2 <= base <= 36 ->
  exists s, cstr (itoa num str base m) str s /\ number_of base s = num /\
    Forall (fun c => 0 <= char_digit c < base) s /\ (hd 0 s = 48 -> s = [48]) /\
    1 <= lenZ s <= 33 /\ only_in str (str + lenZ s + 1) m (itoa num str base m).
Proof.
  intros Hn Hb. unfold itoa. destruct (Z.eqb_spec num 0) as [->|Hne].
  { exists [48]. split; [cbn; by mem_peel|]. split; [done|]. split; [repeat constructor; cbn; lia|]. split; [done|].
    split; [by unfold lenZ|]. intros x Hx. unfold lenZ in Hx. cbn in Hx. by mem_peel. }
  rewrite itoa_loop_eq, Z.add_0_r, Z.add_0_l by done. set (ds := digits 33 num base).
  assert (Hp : num < base ^ 33).
  { apply Z.lt_le_trans with (2 ^ 33); [lia|]. apply Z.pow_le_mono_l. lia. }
  destruct (digits_ok base Hb 33 num ltac:(cbn; lia)) as (Hv & Hd & Hl). fold ds in Hv, Hd, Hl.
  destruct Hl as (r & d & Er & Hd0); [lia|]. pose proof (digits_length base 33 num) as Hlen. fold ds in Hlen.
  set (s := digit_char <$> ds) in *.
  assert (Es : lenZ ds = lenZ s) by (unfold lenZ, s; by rewrite length_fmap).
  assert (Hch : Forall (fun c => 48 <= c <= 90 /\ 0 <= char_digit c < base) s).
  { apply Forall_fmap, (list.Forall_impl _ _ _ Hd). intros e He. cbn.
    pose proof (digit_char_range e ltac:(lia)). by rewrite char_digit_char by lia. }
  destruct (turned s str m) as [Hs Ho]; [by apply (list.Forall_impl _ _ _ Hch); intros ? []|].
  rewrite Es. exists (reverse s). assert (Hr : lenZ (reverse s) = lenZ s) by (unfold lenZ; by rewrite length_reverse).
  split; [exact Hs|]. split; [exact Hv|]. split; [|split; [|split]].
  - apply Forall_reverse, (list.Forall_impl _ _ _ Hch). by intros ? [].
  - unfold s. rewrite Er, fmap_app. cbn [fmap list_fmap]. rewrite reverse_snoc. cbn [hd]. intros E.
    rewrite Er in Hd. apply Forall_app in Hd as [_ Hd%Forall_singleton]. unfold digit_char in E. destruct (Z.ltb_spec 9 d); lia.
  - assert (Hl1 : (1 <= length ds)%nat) by (rewrite Er, length_app; cbn; lia). rewrite Hr, <- Es. unfold lenZ. lia.
  - by rewrite Hr.
Qed.

Lemma itoa_roundtrip_witness :
  exists s, cstr (itoa 48879 100 16 ∅) 100 s /\ number_of 16 s = 48879 /\
    Forall (fun c => 0 <= char_digit c < 16) s /\ (hd 0 s = 48 -> s = [48]) /\
    1 <= lenZ s <= 33 /\ only_in 100 (100 + lenZ s + 1) ∅ (itoa 48879 100 16 ∅).
Proof. apply (itoa_roundtrip 48879 100 16 ∅); lia. Defined.
(** "BEEF" *)
Example itoa_beef : rbs (itoa 48879 100 16 ∅) 100 5 = [66; 69; 69; 70; 0].
Proof. by vm_compute. Qed.
