(* ===== verification/Kernel.v ===== *)
(** * kernel.c and the interrupt entries

    [kmain] from the first instruction to the idle loop, and the timer and
    keyboard interrupts as the stubs call them.  A real-time clock that stays
    busy keeps [kmain] in its loop ([Stuck]). *)

From Stdlib Require Import ZArith Lia.
From S2P Require Import Prelude Memory LibC AllocSpec Heaps Multitask TaskLogic Fs PortIO Keyboard Clock Vga.
From S2P Require Import Idt Machine Loader.

(** ** Interrupts *)

Section Interrupts.
Context {H : Type} `{!Heaps H}.
(** The devices; [&init_task] and its static stack. *)
Context (dev : trace -> Z -> Z) (INIT INIT_STACK : Z).

Definition on_timer (f : timer -> timer) : K H unit := fun m => Ok (tt, put_timer (f (m_timer m)) m).

(** What isr32.asm calls: [timer_tick], then the scheduler; the stub switches
    to the frame this returns. *)
Definition timer_irq (regs_ptr : Z) : K H Z :=
  do? (fun m => let '(c, t) := timer_tick (m_timer m) (m_ports m) in Ok (tt, put_ports t (put_timer c m))) in
  on_sched (schedule_from_isr INIT INIT_STACK regs_ptr).

(** time/timer.c has the same in C, which no stub calls. *)
Definition isr_timer_dispatch (regs_ptr : Z) : K H Z :=
  do? on_timer count_tick in
  do? on_ports (pic_send_eoi 0) in
  on_sched (schedule_from_isr INIT INIT_STACK regs_ptr).

Lemma isr_timer_dispatch_same regs_ptr m : isr_timer_dispatch regs_ptr m = timer_irq regs_ptr m.
Proof using. done. Qed.

Definition keyboard_irq : K H unit := fun m =>
  let '(k, t) := keyboard_handler dev (kbd_of m) (m_ports m) in
  Ok (tt, put_ports t (put_kbd k m)).
End Interrupts.

(** ** [kmain] *)

(** The static IDT, the interrupt stubs and the program images linked into
    the kernel: address and length. *)
Record image_ref := Image { img_data : Z; img_len : Z }.
Record statics := Statics {
  IDT : Z; IDTP : Z; isr_stubs : list Z; isr32 : Z; isr33 : Z; isr80 : Z;
  terminal_bin : image_ref; htop_bin : image_ref; clear_bin : image_ref;
  shutdown_bin : image_ref; reboot_bin : image_ref;
  user_task1 : Z; zombie_reaper_task : Z }.

(** "htop", "clear", "shutdown", "reboot" *)
Definition s_htop : list Z := [104; 116; 111; 112].
Definition s_clear : list Z := [99; 108; 101; 97; 114].
Definition s_shutdown : list Z := [115; 104; 117; 116; 100; 111; 119; 110].
Definition s_reboot : list Z := [114; 101; 98; 111; 111; 116].

Section Start.
Context {H : Type} `{!Heaps H}.
Context (dev : trace -> Z -> Z) (INIT disk : Z) (rtc_fuel : nat) (st : statics).

Definition install_idt : K H unit := fun m =>
  let '(v, idtr, t) :=
    idt_install dev (IDT st) (IDTP st) (isr_stubs st) (isr32 st) (isr33 st) (isr80 st) (memory m) (m_ports m) in
  Ok (tt, put_ports t (put_idtr idtr (store_mem v m))).

(** [Stuck] while the real-time clock is busy: the loop of [rtc_wait_ready]
    has no other end. *)
Definition set_clock : K H unit := fun m =>
  match init_system_clock dev rtc_fuel (m_timer m) (m_ports m) with
  | (Some c, t) => Ok (tt, put_ports t (put_timer c m))
  | (None, _) => Stuck
  end.

Definition load_bin (name : list Z) (i : image_ref) : K H unit :=
  load_app_to_fs disk s_bin name s_bin (img_data i) (img_len i).

(** From [fs_init()] to the idle loop. *)
Definition start_system : K H unit :=
  do? on_fs (fun s => Some (tt, fs_init s)) in
  do? load_bin s_terminal (terminal_bin st) in
  do? load_bin s_htop (htop_bin st) in
  do? load_bin s_clear (clear_bin st) in
  do? load_bin s_shutdown (shutdown_bin st) in
  do? load_bin s_reboot (reboot_bin st) in
  do? on_vga (fun v => io_ret (clean_screen v)) in
  do? on_sched (scheduler_init INIT) in
  do? tasks_init disk (user_task1 st) (zombie_reaper_task st) in
  on_sched sti.

(** The whole of [kmain]; [init] is [malloc_init] and [user_malloc_init]. *)
Definition boot (init : H -> H) : K H unit :=
  do? install_idt in
  do? set_clock in
  do? on_ports (init_timer 1000) in
  do? on_ports (outb 33 252) in
  do? on_sched (modify (fun s => set_heaps (init (heaps s)) s)) in
  start_system.
End Start.

(** [kmain] on the kernel's own heaps: [_heap_start], [_user_start],
    [_user_end], [_heap_end]. *)
Definition kmain (heap_start user_start user_end heap_end : Z) (heap_fuel : nat)
    (dev : trace -> Z -> Z) (INIT disk : Z) (rtc_fuel : nat) (st : statics) : K heap_pair unit :=
  let _ := pair_heaps heap_start user_start user_end heap_end heap_fuel in
  boot dev INIT disk rtc_fuel st (boot_heaps heap_start user_start user_end heap_end).
