(* ===== verification/KernelInv.v ===== *)
(** * The kernel's invariant

    [kernel_ok] joins the invariants of the components over the one memory
    they share, and the lemmas here say which changes keep it: writes outside
    the heaps and the disk, writes into live regions, screen output, legal
    calls of the scheduler and the heaps. *)

From Stdlib Require Import ZArith Lia.
From S2P Require Import Prelude Memory LibC AllocSpec Heaps Multitask TaskLogic TaskStack TaskInv TaskOps.
From S2P Require Import TaskCalls TaskCreate TaskSched TaskSys TaskFrames TaskProps Fs FsChain FsTree FsOps FsProps.
From S2P Require Import PortIO Keyboard Clock Vga Machine Loader Startup.

(** The counters; what the RTC put into the clock is the device's affair. *)
Definition counters_ok (t : timer) : Prop := 0 <= tick_time t < 1000 /\ 0 <= seconds t < 4294967296.

Lemma count_tick_counters t : counters_ok t -> counters_ok (count_tick t).
Proof.
  intros [H1 H2]. unfold counters_ok, count_tick. cbn [tick_time seconds system_clock].
  rewrite u16_small by lia. bcase; cbn [tick_time seconds]; [|lia]. split; [lia|apply u32_range].
Qed.

Section Invariant.
Context {H : Type} `{!Heaps H, !HeapsOk H} (INIT disk : Z) (m0 : mem).

(** [layout], and the text buffer lies outside the heaps and the disk. *)
Record kernel_layout : Prop := {
  kl_layout : layout INIT disk;
  kl_heaps : forall x, ~ off_screen x -> ~ (k_lo <= x < k_hi) /\ ~ (u_lo <= x < u_hi);
  kl_disk : forall x, ~ off_screen x -> ~ (disk <= x < disk + RAMDISK_SIZE)
}.

(** [X] and [Y] are the kernel and user regions owned outside the scheduler,
    [F] is the directory tree and [m0] the memory after boot: outside the
    heaps and the screen it stays. *)
Record kernel_ok (m : machine H) (X Y : list Z) (F : afs) : Prop := {
  ko_sched : consistent INIT (m_sched m) X Y;
  ko_fs : fs_rel disk (fs_of m) F;
  ko_screen : vga_ok (vga_of m);
  ko_kbd : kbd_ok (kbd_of m);
  ko_timer : counters_ok (m_timer m);
  ko_rest x : ~ (k_lo <= x < k_hi) -> ~ (u_lo <= x < u_hi) -> off_screen x -> rb (memory m) x = rb m0 x
}.

Context (Hly : kernel_layout).

(** Only the scheduler's and the heaps' state changed. *)
Lemma kernel_sched m s X Y X' Y' F :
  kernel_ok m X Y F -> consistent INIT s X' Y' -> off_areas (memory m) (memory (put_sched s m)) ->
  kernel_ok (put_sched s m) X' Y' F.
Proof using Hly.
  intros [H1 H2 H3 H4 H5 H6] Hs Ho. pose proof (ly_disk _ _ (kl_layout Hly)) as Hd.
  split; try done; [by apply (fs_rel_off disk Hd m)|by destruct H4|].
  intros x Hk Hu Hx. rewrite Ho by done. by apply H6.
Qed.

(** *** Writes into live regions *)

Lemma core_fill_k h ts ring cur np zl A B X Y rs zs ps p d v :
  core_ok INIT h ts ring cur np zl A B X Y rs zs ps -> A !! p = Some d ->
  only_in p (p + lenZ d) (hp_mem h) v ->
  core_ok INIT (with_mem v h) ts ring cur np zl (<[p := rbs v p (length d)]> A) B X Y rs zs ps.
Proof.
  intros Hok Hp Ho. pose proof (k_fill _ _ _ _ _ _ (ok_heaps Hok) Hp Ho) as Hr.
  pose proof (ok_stack Hok) as Hst. destruct Hok. split; try done.
  - by rewrite (keys_update _ _ _ _ Hp).
  - intros a t Ha Ht. destruct (Hst a t Ha Ht) as (c & Hc & E). destruct (decide (p = kstack t)) as [->|Hne].
    + rewrite Hp in Hc. injection Hc as <-. eexists. rewrite lookup_insert_eq. split; [done|].
      unfold lenZ in *. by rewrite length_rbs.
    + exists c. by rewrite lookup_insert_ne.
Qed.
Lemma core_fill_u h ts ring cur np zl A B X Y rs zs ps p d v :
  core_ok INIT h ts ring cur np zl A B X Y rs zs ps -> B !! p = Some d ->
  only_in p (p + lenZ d) (hp_mem h) v ->
  core_ok INIT (with_mem v h) ts ring cur np zl A (<[p := rbs v p (length d)]> B) X Y rs zs ps.
Proof.
  intros Hok Hp Ho. pose proof (u_fill _ _ _ _ _ _ (ok_heaps Hok) Hp Ho) as Hr.
  destruct Hok. split; try done. by rewrite (keys_update _ _ _ _ Hp).
Qed.

(** [n] bytes at [a] inside a live region. *)
Definition buffer (m : machine H) (X Y : list Z) (a n : Z) : Prop :=
  exists A B rs zs, mt_ok INIT (m_sched m) A B X Y rs zs [] /\ in_region A B a n.

Lemma buffer_off m X Y a n : buffer m X Y a n -> 0 < n ->
  (k_lo <= a /\ a + n <= k_hi) \/ (u_lo <= a /\ a + n <= u_hi).
Proof.
  intros (A & B & rs & zs & Hok & q & d & [Hq|Hq] & H1 & H2) Hn.
  - left. destruct (k_inside _ _ _ _ _ (ok_heaps Hok) Hq). lia.
  - right. destruct (u_inside _ _ _ _ _ (ok_heaps Hok) Hq). lia.
Qed.

Lemma memory_put_with v m : memory (put_sched (set_heaps (with_mem v (heaps (m_sched m))) (m_sched m)) m) = v.
Proof. apply hp_mem_with. Qed.

Lemma kernel_fill m v a n X Y F :
  kernel_ok m X Y F -> buffer m X Y a n -> only_in a (a + n) (memory m) v -> kernel_ok (store_mem v m) X Y F.
Proof using Hly HeapsOk0.
  intros Hk (A & B & rs & zs & Hok & q & d & Hq & H1 & H2) Ho.
  assert (Ho' : only_in q (q + lenZ d) (memory m) v) by (intros x Hx; apply Ho; lia).
  assert (Hfs : off_areas (memory m) v).
  { intros x Hxk Hxu. apply Ho'. intros Hx. destruct Hq as [Hq|Hq].
    - destruct (k_inside _ _ _ _ _ (ok_heaps Hok) Hq). lia.
    - destruct (u_inside _ _ _ _ _ (ok_heaps Hok) Hq). lia. }
  apply (kernel_sched m (set_heaps (with_mem v (heaps (m_sched m))) (m_sched m)) X Y); [done| |].
  - destruct Hq as [Hq|Hq].
    + eexists _, B, rs, zs. exact (core_fill_k _ _ _ _ _ _ _ _ _ _ _ _ _ _ _ _ Hok Hq Ho').
    + eexists A, _, rs, zs. exact (core_fill_u _ _ _ _ _ _ _ _ _ _ _ _ _ _ _ _ Hok Hq Ho').
  - by rewrite memory_put_with.
Qed.

(** *** Screen output *)

Context `{!HeapsFrame H}.

Lemma screen_quiet m v :
  screen_only (memory m) v ->
  same_on k_lo k_hi (memory m) v /\ same_on u_lo u_hi (memory m) v /\ same_on disk (disk + RAMDISK_SIZE) (memory m) v.
Proof using Hly.
  destruct Hly as [_ Hh Hd]. intros Hs.
  assert (Hout : forall x, (~ off_screen x -> False) -> rb (memory m) x = rb v x).
  { intros x Hx. symmetry. apply Hs. unfold off_screen in *. lia. }
  split; [|split]; intros x Hx; apply Hout; intros Hn; destruct (Hh x Hn), (Hd x Hn); lia.
Qed.

Lemma kernel_draw m v X Y F :
  kernel_ok m X Y F -> screen_only (memory m) v -> kernel_ok (store_mem v m) X Y F.
Proof using Hly HeapsOk0 HeapsFrame0.
  intros [H1 H2 H3 H4 H5 H6] Hs. destruct (screen_quiet m v Hs) as (S1 & S2 & S3).
  split; try done.
  - destruct H1 as (A & B & rs & zs & Hok). exists A, B, rs, zs.
    eapply core_same_heaps; [exact Hok|]. by apply hp_frame; [apply Hok|..].
  - apply (mem_rel disk (fs_of m)); [done..|]. cbn [fmem fs_of]. by rewrite memory_store.
  - intros x Hk Hu Hx. rewrite memory_store, Hs by done. by apply H6.
Qed.

Lemma kernel_screen (f : vga -> io vga) m X Y F :
  kernel_ok m X Y F -> screen_op f -> wk (on_vga f) (fun _ m' => kernel_ok m' X Y F) m.
Proof using Hly HeapsOk0 HeapsFrame0.
  intros Hk Hf. unfold wk, on_vga. specialize (Hf (vga_of m) (m_ports m) (ko_screen _ _ _ _ Hk)).
  destruct (f (vga_of m) (m_ports m)) as [v t]. destruct Hf as [Hv Hs].
  destruct (kernel_draw m (vmem v) X Y F Hk Hs) as [K1 K2 K3 K4 K5 K6]. by split.
Qed.

(** *** Calls of the scheduler and the heaps *)

Lemma kernel_exec INIT_STACK o m X Y F :
  kernel_ok m X Y F -> legal o (m_sched m) X Y ->
  wk (on_sched (TaskSys.exec INIT INIT_STACK o))
    (fun r m' => forall X' Y', after o r X Y X' Y' -> kernel_ok m' X' Y' F) m.
Proof using Hly HeapsOk0.
  intros Hk Hl. apply wk_sched.
  destruct Hly as [[HIk [Hk1 Hk2] _ _] _ _].
  eapply wp_mono; [by apply (exec_framed INIT INIT_STACK HIk Hk1 Hk2 o _ X Y); [apply Hk|]|].
  intros r s' [Hc Ho] X' Y' Ha. by apply (kernel_sched m s' X Y); [|apply Hc|].
Qed.
End Invariant.
