(* ===== verification/KernelSys.v ===== *)
(** * The kernel as a whole

    Every event of the running system - a system call, the timer and the
    keyboard interrupt, a store of the running program, a turn of the kernel's
    own two tasks - returns and keeps [kernel_ok], when it is legal: programs
    write and pass buffers inside live regions, free what they own, and ask
    the kernel heap for what it can give without growing. *)

From Stdlib Require Import ZArith Lia.
From S2P Require Import Prelude Memory LibC AllocSpec HeapBlock Heaps Multitask TaskLogic TaskStack TaskInv TaskOps.
From S2P Require Import TaskCalls TaskCreate TaskSched TaskSys TaskFrames TaskProps Fs FsChain FsTree FsOps FsProps.
From S2P Require Import PortIO Keyboard Clock Vga KStats Power Machine Loader Startup Syscall Kernel KernelInv.

Inductive event :=
  | EvTimer (regs_ptr : Z)
  | EvKeyboard
  | EvSyscall (rax rdi rsi rdx r10 r8 : Z)
  | EvStore (a v : Z)
  | EvClockTask
  | EvReaperTask.

Section Events.
Context {H : Type} `{!Heaps H, !HeapsOk H, !HeapsFrame H}.
Context (dev : trace -> Z -> Z) (INIT INIT_STACK disk : Z) (fuel : nat) (m0 : mem).

(** One turn of [user_task1] and of [zombie_reaper_task] of tasks/tasks.c. *)
Definition clock_turn : K H unit :=
  let? t := kgets m_timer in
  do? screen (print_time t) in
  screen (print_systemup t).
Definition reaper_turn : K H unit := on_sched (reap_zombies INIT).

Definition handle (e : event) : K H outcome :=
  match e with
  | EvTimer r => let? x := timer_irq INIT INIT_STACK r in kret (Some x)
  | EvKeyboard => do? keyboard_irq dev in kret (Some 0)
  | EvSyscall rax rdi rsi rdx r10 r8 => syscall_handler dev INIT disk fuel rax rdi rsi rdx r10 r8
  | EvStore a v => do? on_memory (fun m => wb m a v) in kret (Some 0)
  | EvClockTask => do? clock_turn in kret (Some 0)
  | EvReaperTask => do? reaper_turn in kret (Some 0)
  end.

(** A string the caller may pass. *)
Definition text (m : machine H) (X Y : list Z) (a : Z) (s : list Z) : Prop :=
  exists A B rs zs, mt_ok INIT (m_sched m) A B X Y rs zs [] /\ text_at m A B a s.

(** The system calls whose arguments matter. *)
Definition legal_call (n rdi rsi rdx : Z) (m : machine H) (X Y : list Z) : Prop :=
  if n =? SYSCALL_PRINT_STRING_POSITION then u32 rsi < 80 /\ u32 rdx < 25
  else if n =? SYSCALL_PRINT_STRING then exists s, cstr (memory m) rdi s /\ (length s < fuel)%nat
  else if n =? SYSCALL_GET_TIME then buffer INIT m X Y rsi 11
  else if n =? SYSCALL_MALLOC then legal (Kheap (CMalloc rdi)) (m_sched m) X Y
  else if n =? SYSCALL_FREE then legal (Kheap (CFree rdi)) (m_sched m) X Y
  else if n =? SYSCALL_REALLOC then legal (Kheap (CRealloc rdi rsi)) (m_sched m) X Y
  else if n =? SYSCALL_KMALLOC_STATS then rdi = 0 \/ buffer INIT m X Y rdi 56
  else if (n =? SYSCALL_POWER_OFF) || (n =? SYSCALL_REBOOT) then False
  else if n =? SYSCALL_TASK_CREATE then
    (rdi = 0 \/ exists nm, text m X Y rdi nm) /\
    k_tame (heaps (m_sched m)) [SIZEOF_TASK; 16384] /\ next_pid (m_sched m) < 2147483647
  else if n =? SYSCALL_TASK_LIST then 0 < rsi < 268435456 /\ buffer INIT m X Y rdi (8 * rsi)
  else if (n =? SYSCALL_TASK_STOP) || (n =? SYSCALL_REAP_ZOMBIES) || (n =? SYSCALL_TASK_EXIT) ||
          (n =? SYSCALL_TASK_IS_ALIVE) then live (m_sched m)
  else True.

Definition legal_event (e : event) (m : machine H) (X Y : list Z) : Prop :=
  match e with
  | EvSyscall rax rdi rsi rdx _ _ => legal_call (u32 rax) rdi rsi rdx m X Y
  | EvStore a _ => buffer INIT m X Y a 1
  | EvReaperTask => live (m_sched m)
  | _ => True
  end.

(** The heap call a system call makes for its caller. *)
Definition heap_call (n rdi rsi : Z) : option call :=
  if n =? SYSCALL_MALLOC then Some (CMalloc rdi)
  else if n =? SYSCALL_FREE then Some (CFree rdi)
  else if n =? SYSCALL_REALLOC then Some (CRealloc rdi rsi)
  else None.
(** The regions owned outside the scheduler after the event. *)
Definition event_after (e : event) (r : outcome) (X Y X' Y' : list Z) : Prop :=
  match e with
  | EvSyscall rax rdi rsi _ _ _ =>
      match heap_call (u32 rax) rdi rsi with
      | Some c => owned_after c (default 0 r) X X' /\ Y' = Y
      | None => X' = X /\ Y' = Y
      end
  | _ => X' = X /\ Y' = Y
  end.

(** ** Pieces *)

Context (Hly : kernel_layout INIT disk).
Abbreviation ok := (kernel_ok INIT disk m0).

Lemma kernel_op {A} (c : M H A) (g : A -> option Z) o m X Y F :
  (forall s, TaskSys.exec INIT INIT_STACK o s = (let! x := c in ret (g x)) s) ->
  ok m X Y F -> legal o (m_sched m) X Y ->
  wk (on_sched c) (fun x m' => forall X' Y', after o (g x) X Y X' Y' -> ok m' X' Y' F) m.
Proof using Hly HeapsOk0.
  intros E Hk Hl. pose proof (kernel_exec INIT disk m0 Hly INIT_STACK o m X Y F Hk Hl) as Hw.
  unfold wk, on_sched in *. rewrite E in Hw. unfold bind, ret in *. by destruct (c (m_sched m)) as [[x s]| |].
Qed.

(** [after] of the calls that leave the outside's regions alone. *)
Lemma kernel_op_same {A} (c : M H A) (g : A -> option Z) o m X Y F :
  (forall s, TaskSys.exec INIT INIT_STACK o s = (let! x := c in ret (g x)) s) ->
  match o with Ucreate _ _ _ _ | Kheap _ | Uheap _ => False | _ => True end ->
  ok m X Y F -> legal o (m_sched m) X Y ->
  wk (on_sched c) (fun x m' => ok m' X Y F) m.
Proof using Hly HeapsOk0.
  intros E Ho Hk Hl. eapply wk_mono; [by eapply kernel_op|]. intros x m' HQ. apply HQ.
  destruct o, (g x); done.
Qed.

Lemma ok_timer m t X Y F : ok m X Y F -> counters_ok t -> ok (put_timer t m) X Y F.
Proof using. intros [H1 H2 H3 H4 H5 H6] Ht. by split. Qed.
Lemma ok_ports m t X Y F : ok m X Y F -> ok (put_ports t m) X Y F.
Proof using. intros [H1 H2 H3 H4 H5 H6]. by split. Qed.

Lemma timer_event r m X Y F :
  ok m X Y F -> wk (handle (EvTimer r)) (fun _ m' => ok m' X Y F) m.
Proof using Hly HeapsOk0.
  intros Hk. cbn [handle]. unfold timer_irq. ksteps. unfold wk at 1. cbn. ksteps.
  eapply wk_mono; [apply (kernel_op_same (schedule_from_isr INIT INIT_STACK r) Some (Tick r) _ X Y F)|]; try done.
  apply ok_ports, ok_timer; [done|]. apply count_tick_counters, Hk.
Qed.

Lemma put_kbd_ok k m X Y F :
  ok m X Y F -> kbd_ok k -> intr k = iflag (m_sched m) -> ok (put_kbd k m) X Y F.
Proof using.
  intros [H1 H2 H3 H4 H5 H6] Hkb Hi. assert (E : put_kbd k m = Machine (m_sched m) (m_entries m) (m_fat m)
    (m_vx m) (m_vy m) (m_timer m) k (m_ports m) (m_idtr m)).
  { unfold put_kbd. rewrite Hi. by destruct (m_sched m). }
  rewrite E. split; try done. by destruct Hkb.
Qed.

Lemma keyboard_event m X Y F : ok m X Y F -> wk (handle EvKeyboard) (fun _ m' => ok m' X Y F) m.
Proof using.
  intros Hk. cbn [handle]. ksteps. unfold keyboard_irq, wk at 1.
  pose proof (handler_ok dev (kbd_of m) (m_ports m) (ko_kbd _ _ _ _ _ _ _ Hk)) as Hh.
  destruct (keyboard_handler dev (kbd_of m) (m_ports m)) as [k t]. destruct Hh as (_ & Hkb & _ & Hi). ksteps.
  by apply ok_ports, put_kbd_ok.
Qed.

Lemma getchar_ok m X Y F : ok m X Y F -> wk (on_kbd kbd_getchar) (fun _ m' => ok m' X Y F) m.
Proof using.
  intros Hk. unfold wk, on_kbd.
  pose proof (getchar_queue (kbd_of m) (ko_kbd _ _ _ _ _ _ _ Hk)) as Hg.
  destruct (kbd_getchar (kbd_of m)) as [c k]. destruct Hg as (Hkb & Hi & _). by apply put_kbd_ok.
Qed.

Lemma vga_step f m X Y F : screen_op f -> ok m X Y F -> wk (on_vga f) (fun _ m' => ok m' X Y F) m.
Proof using Hly HeapsOk0 HeapsFrame0. intros Hf Hk. by apply kernel_screen. Qed.
Lemma draw_step f m X Y F : draw_op f -> ok m X Y F -> wk (screen f) (fun _ m' => ok m' X Y F) m.
Proof using Hly HeapsOk0 HeapsFrame0. intros Hf. by apply vga_step, draw_screen_op. Qed.

Lemma clock_event m X Y F : ok m X Y F -> wk (handle EvClockTask) (fun _ m' => ok m' X Y F) m.
Proof using Hly HeapsOk0 HeapsFrame0.
  intros Hk. cbn [handle]. unfold clock_turn. ksteps.
  eapply wk_mono; [apply draw_step; [by apply print_at_op|exact Hk]|]. intros [] m1 Hk1. ksteps.
  eapply wk_mono; [apply draw_step; [by apply print_at_op|exact Hk1]|]. intros [] m2 Hk2. by ksteps.
Qed.

Lemma fill_step f m a n X Y F :
  buffer INIT m X Y a n -> (forall v, only_in a (a + n) v (f v)) -> ok m X Y F ->
  wk (on_memory f) (fun _ m' => ok m' X Y F) m.
Proof using Hly HeapsOk0. intros Hb Hf Hk. apply wk_memory. by apply (kernel_fill INIT disk m0 Hly m _ a n). Qed.

(** *** Buffers the kernel fills *)

Lemma store_stats_only p s v : only_in p (p + 56) v (store_stats p s v).
Proof using. intros x Hx. unfold store_stats. cbv zeta. by mem_peel. Qed.

Lemma store_infos_only l buf v : only_in buf (buf + 8 * lenZ l) v (store_infos buf l v).
Proof using.
  unfold lenZ. revert buf v. induction l as [|[p s] l IH]; intros buf v x Hx; cbn [store_infos length] in *; [done|].
  rewrite IH by lia. by mem_peel.
Qed.

Lemma buffer_sub m X Y a n k : buffer INIT m X Y a n -> k <= n -> buffer INIT m X Y a k.
Proof using. intros (A & B & rs & zs & Hok & q & d & Hq & H1 & H2) Hk. exists A, B, rs, zs. split; [done|]. exists q, d. lia || (split; [done|lia]). Qed.

Lemma stats_call p m X Y F :
  p = 0 \/ buffer INIT m X Y p 56 -> ok m X Y F -> wk (sys_stats p) (fun _ m' => ok m' X Y F) m.
Proof using Hly HeapsOk0.
  intros Hp Hk. unfold sys_stats. destruct (Z.eqb_spec p 0) as [->|Hp0]; [by apply wk_ret|].
  destruct Hp as [?|Hb]; [done|]. ksteps. destruct (ko_sched _ _ _ _ _ _ _ Hk) as (A & B & rs & zs & Hok).
  destruct (k_stats_total _ _ _ (ok_heaps Hok)) as [s ->]. cbn [lift]. ksteps.
  eapply fill_step; [exact Hb|apply store_stats_only|done].
Qed.

Lemma get_time_call v buf m X Y F :
  0 <= v < 4294967296 -> buffer INIT m X Y buf 11 -> ok m X Y F ->
  wk (sys_get_time v buf) (fun r m' => r = buf /\ cstr (memory m') buf (u32_to_dec v) /\ ok m' X Y F) m.
Proof using Hly HeapsOk0.
  intros Hv Hb Hk. destruct (uint_to_str_ok v buf (memory m) Hv) as (w & E & Hs & Ho).
  unfold wk, sys_get_time. rewrite E, memory_store. split; [done|]. split; [done|].
  eapply kernel_fill; [done|done|exact Hb|]. pose proof (u32_to_dec_length v Hv). intros x Hx. apply Ho. lia.
Qed.

Lemma task_list_call buf max m X Y F :
  0 < max < 268435456 -> buffer INIT m X Y buf (8 * max) -> ok m X Y F ->
  wk (sys_task_list buf max) (fun _ m' => ok m' X Y F) m.
Proof using Hly HeapsOk0.
  intros Hm Hb Hk. unfold sys_task_list. ksteps. apply wk_sched.
  destruct (ko_sched _ _ _ _ _ _ _ Hk) as (A & B & rs & zs & Hok).
  apply (list_ok INIT max A B X Y rs zs []); [exact Hok|]. ksteps.
  set (l := take _ _). set (m1 := put_sched (set_iflag true (m_sched m)) m).
  assert (Hk1 : ok m1 X Y F).
  { apply (kernel_sched INIT disk m0 Hly m _ X Y); [done| |done]. by exists A, B, rs, zs. }
  assert (Hl : lenZ l <= max).
  { unfold l, lenZ. rewrite length_take, s32_small by lia. lia. }
  eapply wk_mono; [eapply (fill_step _ m1 buf (8 * lenZ l)); [|by intros v; apply store_infos_only|done]|].
  - apply (buffer_sub _ _ _ _ (8 * max)); [|lia]. destruct Hb as (A' & B' & rs' & zs' & Hok' & Hin).
    by exists A', B', rs', zs'.
  - intros [] m' Hk'. by ksteps.
Qed.

(** Loading a program writes inside the heaps only. *)
Lemma load_program_framed A B X Y rs zs F str nm m :
  mt_ok INIT (m_sched m) A B X Y rs zs [] -> fs_rel disk (fs_of m) F ->
  str = 0 /\ nm = [] \/ text_at m A B str nm ->
  k_tame (heaps (m_sched m)) [SIZEOF_TASK; 16384] -> next_pid (m_sched m) < 2147483647 ->
  wk (load_and_run_program disk str) (fun _ m' => consistent INIT (m_sched m') X Y /\
    off_areas (memory m) (memory m') /\ fs_rel disk (fs_of m') F /\ devices m' = devices m) m.
Proof using Hly HeapsOk0.
  intros Hok Hrel Ht Hf Hnp. set (v := memory m).
  assert (Hl : @layout H (framed_heaps v) INIT disk) by (destruct Hly as [[? ? ? ?] _ _]; by split).
  assert (Hok' : @core_ok H (framed_heaps v) INIT (heaps (m_sched m)) (tasks (m_sched m)) (task_ring (m_sched m))
    (current (m_sched m)) (next_pid (m_sched m)) (zombie_list (m_sched m)) A B X Y rs zs []) by by apply core_framed.
  assert (Ht' : str = 0 /\ nm = [] \/ @text_at H (framed_heaps v) m A B str nm).
  { destruct Ht as [?|[? ? ? ?]]; [by left|right]. by split. }
  pose proof (@load_program_ok H (framed_heaps v) (framed_heaps_ok v) INIT disk m A B X Y rs zs F str nm
    Hl Hok' Hrel Ht' Hf Hnp) as Hw.
  eapply wk_mono; [exact Hw|]. intros r m' (_ & Hg & Hfs & _ & Hd).
  apply (@grown_consistent H (framed_heaps v)), consistent_framed in Hg as [Hc Ho]. done.
Qed.

Lemma task_create_call str m X Y F :
  str = 0 \/ (exists nm, text m X Y str nm) -> k_tame (heaps (m_sched m)) [SIZEOF_TASK; 16384] ->
  next_pid (m_sched m) < 2147483647 -> ok m X Y F ->
  wk (load_and_run_program disk str) (fun _ m' => ok m' X Y F) m.
Proof using Hly HeapsOk0.
  intros Hs Hf Hnp Hk. assert (Hpre : exists A B rs zs nm, mt_ok INIT (m_sched m) A B X Y rs zs [] /\
    (str = 0 /\ nm = [] \/ text_at m A B str nm)).
  { destruct Hs as [->|(nm & A & B & rs & zs & Hok & Ht)].
    - destruct (ko_sched _ _ _ _ _ _ _ Hk) as (A & B & rs & zs & Hok). exists A, B, rs, zs, []. auto.
    - exists A, B, rs, zs, nm. auto. }
  destruct Hpre as (A & B & rs & zs & nm & Hok & Ht).
  eapply wk_mono; [by apply (load_program_framed A B X Y rs zs F str nm m); [done|apply Hk|..]|].
  intros r m' (Hc & Ho & Hfs & Hd). destruct Hk as [K1 K2 K3 K4 K5 K6]. unfold devices in Hd.
  injection Hd as E1 E2 E3 E4 E5 E6. split; [done|done| | | |].
  - unfold vga_ok, vga_of in *. cbn in *. by rewrite E1, E2.
  - unfold kbd_of. rewrite E4. by destruct K4.
  - by rewrite E3.
  - intros x Hxk Hxu Hx. rewrite Ho by done. by apply K6.
Qed.

(** *** The dispatcher *)

Lemma heap_step c m X Y F :
  ok m X Y F -> legal (Kheap c) (m_sched m) X Y ->
  wk (on_sched (kheap_do c)) (fun x m' => forall X' Y', owned_after c x X X' /\ Y' = Y -> ok m' X' Y' F) m.
Proof using Hly HeapsOk0 INIT_STACK. intros Hk Hl. by apply (kernel_op (kheap_do c) Some (Kheap c)). Qed.

(** A call that does not concern the caller's regions. *)
Lemma plain_call {A} (c : K H A) (g : A -> outcome) m X Y F :
  wk c (fun _ m' => ok m' X Y F) m ->
  wk (let? x := c in kret (g x)) (fun r m' => forall X' Y', X' = X /\ Y' = Y -> ok m' X' Y' F) m.
Proof using.
  intros Hc. apply wk_bind. eapply wk_mono; [exact Hc|]. intros x m' Hk. ksteps. by intros X' Y' [-> ->].
Qed.

Lemma string_call (f : list Z -> vga -> io vga) a m X Y F :
  (forall s, screen_op (f s)) -> (exists s, cstr (memory m) a s /\ (length s < fuel)%nat) -> ok m X Y F ->
  wk (let? s := get_string fuel a in do? on_vga (f s) in kret (Some 0))
    (fun r m' => forall X' Y', X' = X /\ Y' = Y -> ok m' X' Y' F) m.
Proof using Hly HeapsOk0 HeapsFrame0.
  intros Hf (s & Hs & Hl) Hk. unfold get_string. ksteps. rewrite (string_at_cstr _ _ _ _ Hs Hl). cbn [lift].
  ksteps. eapply wk_mono; [by apply vga_step|]. intros [] m' Hk'. ksteps. by intros X' Y' [-> ->].
Qed.

Lemma syscall_ok rax rdi rsi rdx r10 r8 m X Y F :
  legal_call (u32 rax) rdi rsi rdx m X Y -> ok m X Y F ->
  wk (syscall_handler dev INIT disk fuel rax rdi rsi rdx r10 r8)
    (fun r m' => forall X' Y', event_after (EvSyscall rax rdi rsi rdx r10 r8) r X Y X' Y' -> ok m' X' Y' F) m.
Proof using Hly HeapsOk0 HeapsFrame0 INIT_STACK.
  unfold syscall_handler, legal_call, event_after, heap_call. generalize (u32 rax) as n. intros n Hl Hk.
  unfold SYSCALL_PRINT_CHAR_POSITION, SYSCALL_PRINT_STRING_POSITION, SYSCALL_PRINT_CHAR, SYSCALL_PRINT_STRING,
    SYSCALL_BACKSPACE, SYSCALL_GET_TIME, SYSCALL_CLEAN_SCREEN, SYSCALL_MALLOC, SYSCALL_REALLOC, SYSCALL_FREE,
    SYSCALL_KMALLOC_STATS, SYSCALL_GETCHAR, SYSCALL_SETPOSCURSOR, SYSCALL_POWER_OFF, SYSCALL_REBOOT,
    SYSCALL_TASK_CREATE, SYSCALL_TASK_LIST, SYSCALL_TASK_STOP, SYSCALL_REAP_ZOMBIES, SYSCALL_TASK_EXIT,
    SYSCALL_TASK_IS_ALIVE in *.
  destruct (Z.eqb_spec n 0) as [E|N0]; [subst n|]; cbn [Z.eqb Pos.eqb orb] in Hl |- *.
  { apply (plain_call _ _ m X Y F), draw_step; [|done]. apply print_char_position_op; apply u32_range. }
  destruct (Z.eqb_spec n 1) as [E|N1]; [subst n|]; cbn [Z.eqb Pos.eqb orb] in Hl |- *.
  { apply wk_bind, wk_gets, (plain_call _ _ m X Y F), draw_step; [|done]. pose proof (u32_range rsi). pose proof (u32_range rdx).
    apply print_string_position_op; lia. }
  destruct (Z.eqb_spec n 2) as [E|N2]; [subst n|]; cbn [Z.eqb Pos.eqb orb] in Hl |- *.
  { apply (plain_call _ _ m X Y F), vga_step; [|done]. apply print_char_op. }
  destruct (Z.eqb_spec n 3) as [E|N3]; [subst n|]; cbn [Z.eqb Pos.eqb orb] in Hl |- *.
  { apply (string_call (fun s => print_string s (u8 rsi) (u8 rdx))); [|done..]. intros s. apply print_string_op. }
  destruct (Z.eqb_spec n 4) as [E|N4]; [subst n|]; cbn [Z.eqb Pos.eqb orb] in Hl |- *.
  { apply (plain_call _ _ m X Y F), vga_step; [|done]. apply backspace_op. }
  destruct (Z.eqb_spec n 5) as [E|N5]; [subst n|]; cbn [Z.eqb Pos.eqb orb] in Hl |- *.
  { apply (plain_call _ _ m X Y F). eapply wk_mono; [apply get_time_call; [apply u32_range|done|done]|]. by intros r m' (_ & _ & ?). }
  destruct (Z.eqb_spec n 6) as [E|N6]; [subst n|]; cbn [Z.eqb Pos.eqb orb] in Hl |- *.
  { apply (plain_call _ _ m X Y F), vga_step; [|done]. apply clean_op. }
  destruct (Z.eqb_spec n 10) as [E|N10]; [subst n|]; cbn [Z.eqb Pos.eqb orb] in Hl |- *.
  { apply wk_bind. eapply wk_mono; [by apply heap_step|]. intros x m' HQ. ksteps.
    exact HQ. }
  destruct (Z.eqb_spec n 12) as [E|N12]; [subst n|]; cbn [Z.eqb Pos.eqb orb] in Hl |- *.
  { apply wk_bind. eapply wk_mono; [by apply heap_step|]. intros x m' HQ. ksteps.
    exact HQ. }
  destruct (Z.eqb_spec n 11) as [E|N11]; [subst n|]; cbn [Z.eqb Pos.eqb orb] in Hl |- *.
  { apply wk_bind. eapply wk_mono; [by apply heap_step|]. intros x m' HQ. ksteps.
    exact HQ. }
  destruct (Z.eqb_spec n 13) as [E|N13]; [subst n|]; cbn [Z.eqb Pos.eqb orb] in Hl |- *.
  { by apply (plain_call _ _ m X Y F), stats_call. }
  destruct (Z.eqb_spec n 30) as [E|N30]; [subst n|]; cbn [Z.eqb Pos.eqb orb] in Hl |- *.
  { by apply (plain_call _ _ m X Y F), getchar_ok. }
  destruct (Z.eqb_spec n 31) as [E|N31]; [subst n|]; cbn [Z.eqb Pos.eqb orb] in Hl |- *.
  { apply (plain_call _ _ m X Y F), wk_ports. by apply ok_ports. }
  destruct (Z.eqb_spec n 100) as [E|N100]; [subst n|]; cbn [Z.eqb Pos.eqb orb] in Hl |- *; [done|].
  destruct (Z.eqb_spec n 101) as [E|N101]; [subst n|]; cbn [Z.eqb Pos.eqb orb] in Hl |- *; [done|].
  destruct (Z.eqb_spec n 200) as [E|N200]; [subst n|]; cbn [Z.eqb Pos.eqb orb] in Hl |- *.
  { destruct Hl as (? & ? & ?). by apply (plain_call _ _ m X Y F), task_create_call. }
  destruct (Z.eqb_spec n 201) as [E|N201]; [subst n|]; cbn [Z.eqb Pos.eqb orb] in Hl |- *.
  { destruct Hl as (? & ?). apply (plain_call _ _ m X Y F). by apply (task_list_call rdi rsi). }
  destruct (Z.eqb_spec n 202) as [E|N202]; [subst n|]; cbn [Z.eqb Pos.eqb orb] in Hl |- *.
  { apply (plain_call _ _ m X Y F). apply (kernel_op_same (task_stop INIT (s32 rdi)) id (Stop (s32 rdi))); try done.
    intros s. unfold TaskSys.exec, bind, ret. by destruct (task_stop INIT (s32 rdi) s) as [[]| |]. }
  destruct (Z.eqb_spec n 203) as [E|N203]; [subst n|]; cbn [Z.eqb Pos.eqb orb] in Hl |- *.
  { apply (plain_call _ _ m X Y F). by apply (kernel_op_same (reap_zombies INIT) (fun _ => Some 0) Reap). }
  destruct (Z.eqb_spec n 204) as [E|N204]; [subst n|]; cbn [Z.eqb Pos.eqb orb] in Hl |- *.
  { apply (plain_call _ _ m X Y F). by apply (kernel_op_same (task_exit INIT (s32 rdi)) (fun _ => Some 0) (Exit (s32 rdi))). }
  destruct (Z.eqb_spec n 205) as [E|N205]; [subst n|]; cbn [Z.eqb Pos.eqb orb] in Hl |- *.
  { apply (plain_call _ _ m X Y F). by apply (kernel_op_same (task_is_alive INIT (s32 rdi)) Some (Alive (s32 rdi))). }
  ksteps. by intros X' Y' [-> ->].
Qed.

Lemma event_ok e m X Y F :
  legal_event e m X Y -> ok m X Y F ->
  wk (handle e) (fun r m' => forall X' Y', event_after e r X Y X' Y' -> ok m' X' Y' F) m.
Proof using Hly HeapsOk0 HeapsFrame0.
  intros Hl Hk. assert (Hplain : wk (handle e) (fun _ m' => ok m' X Y F) m ->
    match e with EvSyscall _ _ _ _ _ _ => False | _ => True end ->
    wk (handle e) (fun r m' => forall X' Y', event_after e r X Y X' Y' -> ok m' X' Y' F) m).
  { intros Hw He. eapply wk_mono; [exact Hw|]. intros r m' Hk' X' Y'.
    destruct e; try done; by intros [-> ->]. }
  destruct e; try (apply Hplain; [|done]).
  - by apply timer_event.
  - by apply keyboard_event.
  - by apply syscall_ok.
  - cbn [handle]. apply wk_bind. eapply wk_mono; [eapply (fill_step _ m a 1); [done| |exact Hk]|by intros [] m' ?; ksteps].
    intros v' x Hx. apply rb_wb_ne. lia.
  - by apply clock_event.
  - cbn [handle]. apply wk_bind. eapply wk_mono; [by apply (kernel_op_same (reap_zombies INIT) (fun _ => Some 0) Reap)|].
    intros [] m' ?. by ksteps.
Qed.

Lemma event_after_ex e m X Y r : legal_event e m X Y -> exists X' Y', event_after e r X Y X' Y'.
Proof using.
  intros Hl. destruct e as [| |rax rdi rsi rdx r10 r8| | |]; try by exists X, Y.
  cbn [event_after]. destruct (heap_call (u32 rax) rdi rsi) as [c|] eqn:Ec; [|by exists X, Y].
  assert (Hc : own_call c X).
  { cbn [legal_event] in Hl. unfold legal_call, heap_call in *. revert Hl Ec. generalize (u32 rax). intros n Hl Ec.
    destruct (Z.eqb_spec n SYSCALL_MALLOC) as [E1|]; [subst n; injection Ec as <-; apply Hl|].
    destruct (Z.eqb_spec n SYSCALL_FREE) as [E1|]; [subst n; injection Ec as <-; apply Hl|].
    destruct (Z.eqb_spec n SYSCALL_REALLOC) as [E1|]; [subst n; injection Ec as <-; apply Hl|done]. }
  destruct (owned_after_ex c (default 0 r) X Hc) as [X' HX]. by exists X', Y.
Qed.

(** The system runs: the events so far were legal and returned. *)
Inductive runs : machine H -> list Z -> list Z -> machine H -> list Z -> list Z -> Prop :=
  | runs_refl m X Y : runs m X Y m X Y
  | runs_step m X Y m1 X1 Y1 e r m2 X2 Y2 :
      runs m X Y m1 X1 Y1 -> legal_event e m1 X1 Y1 -> handle e m1 = Ok (r, m2) -> event_after e r X1 Y1 X2 Y2 ->
      runs m X Y m2 X2 Y2.

Lemma runs_ok m X Y m' X' Y' F : runs m X Y m' X' Y' -> ok m X Y F -> ok m' X' Y' F.
Proof using Hly HeapsOk0 HeapsFrame0.
  induction 1 as [|m X Y m1 X1 Y1 e r m2 X2 Y2 _ IH Hl E Ha]; [done|]. intros Hk.
  pose proof (event_ok e m1 X1 Y1 F Hl (IH Hk)) as Hw. unfold wk in Hw. rewrite E in Hw. by apply Hw.
Qed.
End Events.
