(* ===== verification/Boot.v ===== *)
(** * Booting

    [kmain] brings the machine into a state the kernel's invariant holds in:
    the heaps, the file system, the screen, the scheduler and the first tasks
    one after the other, in one memory. *)

From Stdlib Require Import ZArith Lia.
From S2P Require Import Prelude Memory LibC AllocSpec HeapBlock Heaps Multitask TaskLogic TaskStack TaskInv TaskOps.
From S2P Require Import TaskCalls TaskCreate TaskSched TaskSys TaskFrames TaskProps Fs FsChain FsTree FsOps FsProps.
From S2P Require Import PortIO Keyboard Clock Vga Idt Machine Loader Startup Kernel KernelInv.

Section BootProof.
Context {H : Type} `{!Heaps H, !HeapsOk H, !HeapsFrame H}.
Context (dev : trace -> Z -> Z) (INIT disk : Z) (rtc_fuel : nat) (st : statics).

(** The program images lie outside the disk. *)
Definition images_ok : Prop :=
  Forall (fun i => 0 <= img_len i /\ off_disk disk (img_data i) (img_len i))
    [terminal_bin st; htop_bin st; clear_bin st; shutdown_bin st; reboot_bin st].

(** A ready task of pid [p] whose frame starts it at [entry]. *)
Definition ready_at (m : machine H) (p entry : Z) : Prop :=
  exists t T, tasks (m_sched m) !! t = Some T /\ pid T = p /\ state T = TASK_READY /\
    ld 8 (memory m) (regs T + 8 * 17) = entry.

(** The booted system; [v] is the memory before. *)
Record booted (v : mem) (m : machine H) (F : afs) : Prop := {
  bt_ok : kernel_ok INIT disk (memory m) m [] [] F;
  bt_iflag : iflag (m_sched m) = true;
  bt_clock : ready_at m 1 (user_task1 st);
  bt_reaper : exists p, 1 < p /\ ready_at m p (zombie_reaper_task st);
  bt_rest x : ~ (k_lo <= x < k_hi) -> ~ (u_lo <= x < u_hi) -> off_screen x ->
    ~ (disk <= x < disk + RAMDISK_SIZE) -> rb (memory m) x = rb v x
}.

(** What [kmain] finds: the static variables are zero, nothing runs. *)
Record cold (m : machine H) : Prop := {
  cd_tasks : tasks (m_sched m) = ∅;
  cd_zombies : zombie_list (m_sched m) = 0;
  cd_kbd : kbd_ok (kbd_of m);
  cd_timer : counters_ok (m_timer m)
}.

Context (Hly : kernel_layout INIT disk) (HI : INIT <> 0) (Himg : images_ok).
Context (Hut : 0 <= user_task1 st < 18446744073709551616).
Context (Hzr : 0 <= zombie_reaper_task st < 18446744073709551616).

(** [tasks_init] writes inside the heaps only. *)
Lemma tasks_init_framed m A B X Y rs zs F (Q : unit -> machine H -> Prop) :
  mt_ok INIT (m_sched m) A B X Y rs zs [] -> fs_rel disk (fs_of m) F ->
  k_fits (heaps (m_sched m)) (task_room 3) -> next_pid (m_sched m) < 2147483640 ->
  (forall m' A' B' rs' p, mt_ok INIT (m_sched m') A' B' X Y rs' zs [] -> fs_rel disk (fs_of m') F ->
     off_areas (memory m) (memory m') ->
     starts (m_sched m') A' (next_pid (m_sched m)) (user_task1 st) ->
     next_pid (m_sched m) < p -> starts (m_sched m') A' p (zombie_reaper_task st) ->
     iflag (m_sched m') = iflag (m_sched m) -> devices m' = devices m -> Q tt m') ->
  wk (tasks_init disk (user_task1 st) (zombie_reaper_task st)) Q m.
Proof using Hly HeapsOk0.
  intros Hok Hrel Hf Hnp HQ. set (v := memory m).
  assert (Hl : @layout H (framed_heaps v) INIT disk) by (destruct Hly as [[? ? ? ?] _ _]; by split).
  assert (Hok' : @core_ok H (framed_heaps v) INIT (heaps (m_sched m)) (tasks (m_sched m)) (task_ring (m_sched m))
    (current (m_sched m)) (next_pid (m_sched m)) (zombie_list (m_sched m)) A B X Y rs zs []) by by apply core_framed.
  refine (@tasks_init_ok H (framed_heaps v) (framed_heaps_ok v) INIT disk Hl _ _ m A B X Y rs zs F Q
    Hok' Hrel Hf Hnp _).
  intros m' A' B' rs' p [Hok2 Ho]%core_framed Hfs Hs1 Hp Hs2 Hi Hd. by apply (HQ m' A' B' rs' p).
Qed.

Lemma load_bin_ok name i m F (Q : unit -> machine H -> Prop) :
  fs_rel disk (fs_of m) F -> 0 <= img_len i -> off_disk disk (img_data i) (img_len i) ->
  (forall m' F', still disk m m' -> fs_rel disk (fs_of m') F' -> Q tt m') -> wk (load_bin disk name i) Q m.
Proof using Hly HeapsOk0 HeapsFrame0.
  intros Hrel H1 H2 HQ. pose proof (ly_disk _ _ (kl_layout _ _ Hly)) as Hd. unfold load_bin.
  exact (load_app_ok disk Hd s_bin name s_bin _ _ m F Q Hrel H1 H2 HQ).
Qed.

Lemma clean_still m F (Q : unit -> machine H -> Prop) :
  fs_rel disk (fs_of m) F ->
  (forall m', still disk m m' -> fs_rel disk (fs_of m') F -> vga_ok (vga_of m') -> Q tt m') ->
  wk (on_vga (fun v => io_ret (clean_screen v))) Q m.
Proof using Hly HeapsOk0 HeapsFrame0.
  intros Hrel HQ. unfold wk, on_vga, io_ret. destruct (clean_view (vga_of m)) as (_ & Hv & Hs).
  set (w := clean_screen (vga_of m)) in *. clearbody w.
  destruct (screen_quiet INIT disk Hly m _ Hs) as (S1 & S2 & S3).
  apply HQ; [|apply (mem_rel disk (fs_of m)); [done..|]|exact Hv].
  - apply (still_put disk (vmem w)); try done. intros x Hx _. by apply Hs.
  - change (fmem (fs_of (put_ports (m_ports m) (put_vga w m)))) with (hp_mem (with_mem (vmem w) (heaps (m_sched m)))).
    by rewrite hp_mem_with.
Qed.

(** From [fs_init()] on. *)
Lemma start_system_ok m :
  cold m -> hp_rel (heaps (m_sched m)) ∅ ∅ -> k_fits (heaps (m_sched m)) (task_room 3) ->
  wk (start_system INIT disk st) (fun _ m' => exists F, booted (memory m) m' F /\
    m_ports m' = m_ports m /\ m_idtr m' = m_idtr m) m.
Proof using All.
  intros [Ct Cz Ck Cti] Hr Hf. unfold start_system. ksteps. pose proof (ly_disk _ _ (kl_layout _ _ Hly)) as Hd.
  destruct (Forall_cons_1 _ _ _ Himg) as [[I1 J1] H1]. destruct (Forall_cons_1 _ _ _ H1) as [[I2 J2] H2].
  destruct (Forall_cons_1 _ _ _ H2) as [[I3 J3] H3]. destruct (Forall_cons_1 _ _ _ H3) as [[I4 J4] H4].
  destruct (Forall_cons_1 _ _ _ H4) as [[I5 J5] _]. clear H1 H2 H3 H4.
  eapply wk_fs; [reflexivity|]. set (m1 := put_fs (fs_init (fs_of m)) m).
  assert (S1 : still disk m m1) by by apply put_fs_still.
  assert (R1 : fs_rel disk (fs_of m1) {[ 0 := root_node ]}) by (unfold m1; rewrite fs_of_put; apply fs_init_rel).
  ksteps. apply (load_bin_ok _ _ m1 _ _ R1 I1 J1). intros m2 F2 S2 R2.
  ksteps. apply (load_bin_ok _ _ m2 _ _ R2 I2 J2). intros m3 F3 S3 R3.
  ksteps. apply (load_bin_ok _ _ m3 _ _ R3 I3 J3). intros m4 F4 S4 R4.
  ksteps. apply (load_bin_ok _ _ m4 _ _ R4 I4 J4). intros m5 F5 S5 R5.
  ksteps. apply (load_bin_ok _ _ m5 _ _ R5 I5 J5). intros m6 F6 S6 R6.
  ksteps. apply (clean_still m6 F6 _ R6). intros m7 S7 R7 V7.
  assert (S : still disk m m7) by (do 6 (etransitivity; [eassumption|]); exact S7).
  clear S1 S2 S3 S4 S5 S6 S7 R1 R2 R3 R4 R5 R6 m1 m2 m3 m4 m5 m6. destruct S as [Es Srel Sfit _ (D1 & D2 & D3 & D4) Srest].
  ksteps. apply wk_sched. apply (init_ok INIT ∅ ∅); try done.
  { by apply Srel. }
  { by rewrite Es. }
  { by rewrite Es. }
  intros s8 Hok _ Hi8 Hh8 Hp8. set (m8 := put_sched s8 m7).
  assert (R8 : fs_rel disk (fs_of m8) F6) by (apply (mem_rel disk (fs_of m7)); [done..|]; cbn; unfold memory; cbn; by rewrite Hh8).
  ksteps. apply (tasks_init_framed m8 ∅ ∅ [] [] [INIT] [] F6); [exact Hok|exact R8| | |].
  { cbn. rewrite Hh8. by apply Sfit. }
  { cbn. rewrite Hp8. lia. }
  intros m9 A B rs p Hok9 R9 Ho9 Hut9 Hp Hzr9 Hi9 Dev9. apply wk_sched, wp_modify. exists F6.
  unfold devices in Dev9. injection Dev9 as E1 E2 E3 E4 E5 E6. set (m10 := put_sched _ m9).
  assert (P10 : m_ports m10 = m_ports m) by (etransitivity; [exact E5|exact D3]).
  assert (I10 : m_idtr m10 = m_idtr m) by (etransitivity; [exact E6|exact D4]).
  assert (Hat : forall p e, starts (m_sched m9) A p e -> 0 <= e < 18446744073709551616 -> ready_at m10 p e).
  { intros q e Hs He. exact (starts_word _ _ _ _ _ (ok_heaps Hok9) Hs He). }
  split; [|done]. split.
  - split.
    + by exists A, B, rs, [].
    + exact R9.
    + unfold vga_ok, vga_of in *. cbn in V7 |- *. by rewrite E1, E2.
    + unfold kbd_of. cbn. rewrite E4. cbn. rewrite D2. by destruct Ck.
    + cbn. rewrite E3. cbn. by rewrite D1.
    + done.
  - done.
  - apply Hat; [|done]. cbn in Hut9. by rewrite Hp8 in Hut9.
  - exists p. cbn in Hp. rewrite Hp8 in Hp. split; [done|]. by apply Hat.
  - intros x Hk Hu Hs Hx. change (memory m10) with (memory m9). rewrite Ho9 by done.
    change (memory m8) with (hp_mem (heaps s8)). rewrite Hh8. by apply Srest.
Qed.

(** The interrupt table is clear of everything that is written later. *)
Definition idt_apart : Prop :=
  forall x, IDT st <= x < IDT st + 4096 ->
    ~ (k_lo <= x < k_hi) /\ ~ (u_lo <= x < u_hi) /\ off_screen x /\ ~ (disk <= x < disk + RAMDISK_SIZE).
Record idt_static : Prop := {
  is_stubs : length (isr_stubs st) = 32%nat;
  is_addr : Forall address (IDT st :: isr32 st :: isr33 st :: isr80 st :: isr_stubs st);
  is_idtp : IDTP st + 10 <= IDT st \/ IDT st + 4096 <= IDTP st;
  is_apart : idt_apart
}.

(** The gates of the memory are the kernel's. *)
Definition gates_set (v : mem) : Prop :=
  forall k h ty, vector (isr_stubs st) (isr32 st) (isr33 st) (isr80 st) k = Some (h, ty) ->
    gate_of (IDT st) v k = Gate h 8 0 ty.

Lemma vector_range k h ty :
  idt_static -> vector (isr_stubs st) (isr32 st) (isr33 st) (isr80 st) k = Some (h, ty) -> 0 <= k < 256.
Proof using.
  intros [Hl _ _ _]. unfold vector, INTERRUPT, KEYBOARD, TIMER.
  destruct (Z.eqb_spec k 128); [lia|]. destruct (Z.eqb_spec k 33); [lia|]. destruct (Z.eqb_spec k 32); [lia|].
  destruct (Z.ltb_spec k 0); [done|]. destruct (isr_stubs st !! Z.to_nat k) eqn:E; [|done].
  apply lookup_lt_Some in E. lia.
Qed.

Lemma gates_kept v w : idt_static -> gates_set v ->
  (forall x, ~ (k_lo <= x < k_hi) -> ~ (u_lo <= x < u_hi) -> off_screen x ->
    ~ (disk <= x < disk + RAMDISK_SIZE) -> rb w x = rb v x) -> gates_set w.
Proof using.
  intros Hs Hv Hr k h ty Hk. rewrite <- (Hv k h ty Hk). pose proof (vector_range _ _ _ Hs Hk).
  apply gate_of_ext. intros x Hx. unfold gate_addr in Hx.
  destruct (is_apart Hs x) as (? & ? & ? & ?); [lia|]. by apply Hr.
Qed.

(** The timer's and the interrupt mask's port writes, the last of the boot. *)
Definition boot_ports : trace := [Out 67 54; Out 64 169; Out 64 4; Out 33 252].

(** The real-time clock answers one of the polls, which begin when the
    interrupt controllers have been set up. *)
Definition rtc_answers (m : machine H) : Prop :=
  exists n, (n < rtc_fuel)%nat /\ rtc_ready dev (polled dev n (pic_remap dev 32 40 (m_ports m)).2) = true.

Lemma idt_static_install v t : idt_static ->
  exists v', idt_install dev (IDT st) (IDTP st) (isr_stubs st) (isr32 st) (isr33 st) (isr80 st) v t =
    (v', (4095, IDT st), (pic_remap dev 32 40 t).2) /\ gates_set v'.
Proof using.
  intros [Hl Ha Hp _]. repeat (apply Forall_cons_1 in Ha; destruct Ha as [? Ha]).
  destruct (idt_install_ok dev (IDT st) (IDTP st) (isr_stubs st) (isr32 st) (isr33 st) (isr80 st) v t)
    as (v' & E & Hg & _); [done..|]. exists v'. split; [done|]. intros k h ty Hk. by rewrite Hg, Hk.
Qed.

(** While it is busy [kmain] does not get past [init_system_clock]. *)
Lemma boot_busy init m :
  idt_static -> ~ rtc_answers m -> boot dev INIT disk rtc_fuel st init m = Stuck.
Proof using.
  intros Hidt Hb. destruct (idt_static_install (memory m) (m_ports m) Hidt) as (v & E & _).
  unfold boot, kbind at 1, install_idt. rewrite E. unfold kbind at 1, set_clock.
  edestruct (init_clock_busy dev rtc_fuel) as [t' ->]; [|done]. intros n Hn.
  destruct (rtc_ready _ _) eqn:Er; [|done]. destruct Hb. by exists n.
Qed.

Lemma boot_ok init m :
  cold m -> idt_static -> rtc_answers m ->
  (forall v, let h := init (with_mem v (heaps (m_sched m))) in
     hp_rel h ∅ ∅ /\ k_fits h (task_room 3) /\ off_areas v (hp_mem h)) ->
  wk (boot dev INIT disk rtc_fuel st init) (fun _ m' => exists v F t, booted v m' F /\
    gates_set (memory m') /\ m_idtr m' = (4095, IDT st) /\ m_ports m' = t ++ boot_ports) m.
Proof using All.
  intros [Ct Cz Ck Cti] Hidt (n & Hn & Hrdy) Hinit. unfold boot. ksteps. unfold install_idt, wk at 1.
  destruct (idt_static_install (memory m) (m_ports m) Hidt) as (v & E & Hset). rewrite E.
  set (m1 := put_ports _ _). ksteps. unfold set_clock, wk at 1.
  destruct (init_clock_ready dev n rtc_fuel (m_timer m1) (m_ports m1) Hn Hrdy) as (hms & t & ->).
  set (c := Timer _ _ _). assert (Hc : counters_ok c) by exact Cti.
  set (m2 := put_ports t (put_timer c m1)). ksteps. apply wk_ports. ksteps. apply wk_ports.
  ksteps. apply wk_sched, wp_modify.
  set (m3 := put_sched _ _). destruct (Hinit v) as (Hr & Hf & Ho).
  eapply wk_mono; [apply (start_system_ok m3); [by split|exact Hr|exact Hf]|].
  intros [] m' (F & Hb & Hp & Hi). exists v, F, t.
  assert (Hrest : forall x, ~ (k_lo <= x < k_hi) -> ~ (u_lo <= x < u_hi) -> off_screen x ->
    ~ (disk <= x < disk + RAMDISK_SIZE) -> rb (memory m') x = rb v x).
  { intros x Hk Hu Hs Hx. rewrite (bt_rest _ _ _ Hb) by done. by apply Ho. }
  destruct Hb as [B1 B2 B3 B4 _]. split; [by split|]. split; [by eapply gates_kept|].
  rewrite Hi, Hp. split; [done|]. cbn. unfold io_bind. cbn. by rewrite <- !app_assoc.
Qed.
End BootProof.
