(* ===== verification/KernelProps.v ===== *)
(** * Properties of the whole kernel

    What [kmain] brings up, what stays true while the system runs, what
    loading a program does and what the interrupt table holds. *)

From Stdlib Require Import ZArith Lia.
From S2P Require Import Prelude Memory LibC AllocSpec HeapBlock Heaps Multitask TaskLogic TaskStack TaskInv TaskOps.
From S2P Require Import TaskCalls TaskCreate TaskSched TaskSys TaskProps Fs FsChain FsTree FsOps FsProps.
From S2P Require Import PortIO Keyboard Clock Vga KStats Idt Power Machine Loader Startup Syscall Kernel KernelInv.
From S2P Require Import KernelSys Boot.

Section Safety.
Context {H : Type} `{!Heaps H, !HeapsOk H, !HeapsFrame H}.
Context (dev : trace -> Z -> Z) (INIT INIT_STACK disk : Z) (fuel : nat) (st : statics).


End Safety.

(** ** Loading programs *)

Section Programs.
Context {H : Type} `{!Heaps H, !HeapsOk H}.
Context (INIT disk : Z) (m0 : mem).

(** What [kmalloc] gave to a caller it may write to. *)
Lemma malloc_buffer n m X Y F :
  kernel_layout INIT disk -> kernel_ok INIT disk m0 m X Y F -> legal (Kheap (CMalloc n)) (m_sched m) X Y ->
  wk (on_sched (kheap_do (CMalloc n)))
    (fun p m' => p <> 0 -> kernel_ok INIT disk m0 m' (p :: X) Y F /\ buffer INIT m' (p :: X) Y p n) m.
Proof using HeapsOk0.
  intros Hly Hk Hl. pose proof (kernel_exec INIT disk m0 Hly 0 _ m X Y F Hk Hl) as Hw.
  destruct (ko_sched _ _ _ _ _ _ _ Hk) as (A & B & rs & zs & Hok). destruct Hl as (_ & Hc & Hs).
  assert (Hb : wp (kheap_do (CMalloc n)) (fun p s' => p <> 0 ->
    buffer INIT (put_sched s' m) (p :: X) Y p n) (m_sched m)).
  { apply (wp_kheap _ A B); [apply Hok|exact Hc|exact Hs|]. intros p h A' _ Hstep Hr _ Hp.
    assert (Ha : owned_after (CMalloc n) p X (p :: X)) by (cbn; by rw_test).
    pose proof (core_kheap INIT _ _ _ _ _ _ _ _ _ _ _ _ _ _ _ _ _ _ Hok Hr Hc Hstep Ha) as Hok'.
    inversion Hstep; subst; [|done].
    exists (<[p := d]> A), B, rs, zs. split; [exact Hok'|]. exists p, d. split; [left; apply lookup_insert_eq|lia]. }
  unfold wk, wp, on_sched, TaskSys.exec, bind, ret in *.
  destruct (kheap_do (CMalloc n) (m_sched m)) as [[p s']| |]; [|done..]. intros Hp. split; [|by apply Hb].
  apply Hw. cbn. by rw_test.
Qed.

(** A string put into a buffer. *)
Lemma buffer_text m v p nm X Y n :
  buffer INIT m X Y p n -> lenZ nm + 1 <= n -> p <> 0 -> lenZ nm <= 64 ->
  only_in p (p + n) (memory m) v -> cstr v p nm -> text INIT (store_mem v m) X Y p nm.
Proof using HeapsOk0.
  intros (A & B & rs & zs & Hok & q & d & Hq & H1 & H2) Hn Hp Hl Ho Hs.
  assert (Ho' : only_in q (q + lenZ d) (memory m) v) by (intros x Hx; apply Ho; lia).
  assert (Hlen : lenZ (rbs v q (length d)) = lenZ d) by (unfold lenZ; by rewrite length_rbs).
  destruct Hq as [Hq|Hq]; eexists _, _, rs, zs; (split;
    [first [exact (core_fill_k _ _ _ _ _ _ _ _ _ _ _ _ _ _ _ _ _ Hok Hq Ho')|
            exact (core_fill_u _ _ _ _ _ _ _ _ _ _ _ _ _ _ _ _ _ Hok Hq Ho')]|]);
    (split; [done|by rewrite memory_store|done|]); exists q, (rbs v q (length d)); rewrite Hlen.
  - split; [left; apply lookup_insert_eq|lia].
  - split; [right; apply lookup_insert_eq|lia].
Qed.

(** C3.  [load_and_run_program] starts the program its caller named, and does
    nothing else on any path: an empty name gives -1, a name [/bin] does not
    hold or an empty file 0, no room for the image in the user heap 0, no room
    for the task in the kernel heap 0 (the image is given back), each with the
    tasks and the files as before; otherwise the file's bytes stand
    in a fresh region of the user heap and a new ready task, last in the ring,
    starts at the first of them, and its pid is the result.  Interrupts are on
    again in every case, and the region belongs to the new task.  The kernel
    heap serves or refuses the task's two requests ([k_tame]; what happens
    when it grows instead is C38), and the pids have not run out. *)
Theorem load_program_result (m : machine H) X Y F str nm :
  layout INIT disk -> fs_rel disk (fs_of m) F ->
  (str = 0 /\ nm = [] /\ consistent INIT (m_sched m) X Y \/ text INIT m X Y str nm) ->
  k_tame (heaps (m_sched m)) [SIZEOF_TASK; 16384] -> next_pid (m_sched m) < 2147483647 ->
  exists r m', load_and_run_program disk str m = Ok (r, m') /\
    load_result m X Y F nm r m' /\ consistent INIT (m_sched m') X Y /\ fs_rel disk (fs_of m') F /\
    iflag (m_sched m') = true /\ devices m' = devices m.
Proof using HeapsOk0.
  intros Hly Hrel Ht Hf Hnp. apply wk_ok.
  destruct Ht as [(-> & -> & A & B & rs & zs & Hok)|(A & B & rs & zs & Hok & Ht)];
    (eapply wk_mono; [eapply (load_program_ok INIT disk m A B X Y rs zs); eauto|]);
    (intros r m' (H1 & H2 & H3); split; [exact H1|split; [by eapply grown_consistent|exact H3]]).
Qed.
End Programs.

(** ** Booting *)

Section Booting.
Context (heap_start user_start user_end heap_end : Z) (heap_fuel : nat).
Context (dev : trace -> Z -> Z) (INIT disk : Z) (rtc_fuel : nat) (st : statics).
#[local] Instance boot_pair : Heaps heap_pair := pair_heaps heap_start user_start user_end heap_end heap_fuel.

Lemma kmain_ok m :
  0 < heap_start -> heap_start + 40 + room_for (task_room 3) <= heap_end -> heap_end <= user_start ->
  user_start + 40 <= user_end < 9223372036854775808 ->
  heap_end - heap_start < 40 * Z.of_nat heap_fuel -> user_end - user_start < 40 * Z.of_nat heap_fuel ->
  kernel_layout INIT disk -> INIT <> 0 -> images_ok disk st -> idt_static disk st ->
  0 <= user_task1 st < 18446744073709551616 -> 0 <= zombie_reaper_task st < 18446744073709551616 ->
  cold m -> uhead (heaps (m_sched m)) = 0 -> rtc_answers dev rtc_fuel m ->
  wk (kmain heap_start user_start user_end heap_end heap_fuel dev INIT disk rtc_fuel st)
    (fun _ m' => exists v F t, booted INIT disk st v m' F /\ gates_set st (memory m') /\
       m_idtr m' = (4095, IDT st) /\ m_ports m' = t ++ boot_ports) m.
Proof using.
  intros H1 H2 H3 H4 H5 H6 Hly HI Himg Hst Hut Hzr Hc Hu Hrtc.
  pose proof (room_for_pos (task_room 3)) as Hroom.
  pose proof (heap_pair_ok heap_start user_start user_end heap_end heap_fuel H5 H6 H3) as Hok.
  pose proof (heap_pair_frame heap_start user_start user_end heap_end heap_fuel) as Hfr.
  assert (Hinit : forall v, let h := boot_heaps heap_start user_start user_end heap_end
      (with_mem v (heaps (m_sched m))) in
    hp_rel h ∅ ∅ /\ k_fits h (task_room 3) /\ off_areas v (hp_mem h)).
  { intros v h. split; [|split].
    - apply boot_heaps_rel; done || lia.
    - apply (boot_heaps_fits heap_start user_start user_end heap_end heap_fuel H3 _ _ 0); try done || lia.
      + apply (serves_room _ _ [] (heap_end - heap_start - 40)); [constructor|lia].
      + change (align_up 0) with 0. lia.
    - apply boot_heaps_frame; lia. }
  exact (boot_ok dev INIT disk rtc_fuel st Hly HI Himg Hut Hzr
    (boot_heaps heap_start user_start user_end heap_end) m Hc Hst Hrtc Hinit).
Qed.

(** C2.  [kmain] boots exactly when the real-time clock answers.  On a cold
    machine whose kernel heap has room for three tasks, whatever the memory
    holds and whatever the program images contain: if the clock is ready at one
    of the first [rtc_fuel] polls, [kmain] returns, and then every component's
    invariant holds at once in the one memory: the directory tree is stored on
    the disk, the scheduler owns its records and stacks, the clock task (pid 1)
    and the reaper task wait in the ring at their entry points, interrupts are
    on.  The CPU's table register points to the IDT, its gates lead to the
    stubs, and the last port writes program the timer for 1000 Hz and unmask
    the timer and the keyboard alone.  If the clock is busy at all of them,
    [kmain] is still in the loop of [rtc_wait_ready]; so with a clock that
    stays busy it never returns, however many polls it makes. *)
Theorem kmain_boots m :
  0 < heap_start -> heap_start + 40 + room_for (task_room 3) <= heap_end -> heap_end <= user_start ->
  user_start + 40 <= user_end < 9223372036854775808 ->
  heap_end - heap_start < 40 * Z.of_nat heap_fuel -> user_end - user_start < 40 * Z.of_nat heap_fuel ->
  kernel_layout INIT disk -> INIT <> 0 -> images_ok disk st -> idt_static disk st ->
  0 <= user_task1 st < 18446744073709551616 -> 0 <= zombie_reaper_task st < 18446744073709551616 ->
  cold m -> uhead (heaps (m_sched m)) = 0 ->
  let run := kmain heap_start user_start user_end heap_end heap_fuel dev INIT disk rtc_fuel st m in
  (rtc_answers dev rtc_fuel m -> exists v m' F t,
    run = Ok (tt, m') /\
    booted INIT disk st v m' F /\ gates_set st (memory m') /\ m_idtr m' = (4095, IDT st) /\
    m_ports m' = t ++ [Out 67 54; Out 64 169; Out 64 4; Out 33 252]) /\
  (~ rtc_answers dev rtc_fuel m -> run = Stuck).
Proof using.
  intros H1 H2 H3 H4 H5 H6 Hly HI Himg Hst Hut Hzr Hc Hu run. split; [|by apply boot_busy]. intros Hrtc.
  destruct (wk_ok _ _ _ (kmain_ok m H1 H2 H3 H4 H5 H6 Hly HI Himg Hst Hut Hzr Hc Hu Hrtc))
    as ([] & m' & E & v & F & t & HQ).
  by exists v, m', F, t.
Qed.
End Booting.

(** ** A machine that boots *)

Section KernelDemo.
Definition zero_dev : trace -> Z -> Z := fun _ _ => 0.
Definition demo_statics : statics :=
  Statics 200704 196608 ((fun i => 300000 + 16 * i) <$> seqZ 0 32) 301000 301016 301032
    (Image 210000 3) (Image 210100 2) (Image 210200 1) (Image 210300 1) (Image 210400 0) 302000 303000.
Definition demo_memory : mem :=
  wbs (wbs (wbs (wbs ∅ 210000 [205; 128; 144]) 210100 [235; 254]) 210200 [195]) 210300 [244].
Definition demo_cold : machine heap_pair :=
  Machine (Sched ∅ 0 0 1 0 false 0 (HeapPair demo_memory 0 0 0 0 0 0 0)) ∅ ∅ 0 0
    (Timer 0 0 (Clock 0 0 0)) (kbd0 false) [] (0, 0).
Abbreviation demo_kmain := (kmain 4096 106496 110592 102400 2600 zero_dev 64 268435456 5 demo_statics).
Definition demo_run_k {A} (c : K heap_pair A) (m : machine heap_pair) : machine heap_pair :=
  match c m with Ok (_, m') => m' | _ => m end.
Definition demo_up : machine heap_pair := demo_run_k demo_kmain demo_cold.
#[local] Instance kernel_heaps : Heaps heap_pair := pair_heaps 4096 106496 110592 102400 2600.
#[local] Instance kernel_heaps_ok : HeapsOk heap_pair.
Proof. apply heap_pair_ok; vm_compute; congruence. Defined.

Lemma demo_layout : kernel_layout 64 268435456.
Proof.
  split.
  - split; [vm_compute; intuition congruence..|]. split; unfold off_disk; vm_compute; intuition congruence.
  - intros x Hx. unfold off_screen, VGA_BUF in Hx. change k_lo with 4096. change k_hi with 102400.
    change u_lo with 106496. change u_hi with 110592. lia.
  - intros x Hx. unfold off_screen, VGA_BUF in Hx. lia.
Qed.
Lemma demo_images : images_ok 268435456 demo_statics.
Proof. repeat constructor; vm_compute; intuition congruence. Qed.
Lemma demo_idt : idt_static 268435456 demo_statics.
Proof.
  split; [done| |vm_compute; left; congruence|].
  - repeat constructor; vm_compute; intuition congruence.
  - intros x Hx. change (IDT demo_statics) with 200704 in Hx. unfold off_screen, VGA_BUF.
    change k_lo with 4096. change k_hi with 102400. change u_lo with 106496. change u_hi with 110592. lia.
Qed.
Lemma demo_cold_ok : cold demo_cold.
Proof. split; [done..| |]; split; cbn; lia || done. Qed.

(** The clock of [zero_dev] is never busy, that of [busy_dev] always. *)
Lemma demo_clock : rtc_answers zero_dev 5 demo_cold.
Proof. exists 0%nat. split; [lia|done]. Qed.
Definition busy_dev : trace -> Z -> Z := fun _ _ => 128.
Lemma busy_clock : ~ rtc_answers busy_dev 5 demo_cold.
Proof. by intros (n & _ & E). Qed.

Lemma demo_after {A} (c : K heap_pair A) Q m :
  wk c Q m -> exists a, c m = Ok (a, demo_run_k c m) /\ Q a (demo_run_k c m).
Proof. unfold wk, demo_run_k. destruct (c m) as [[a m']| |]; [by exists a|done..]. Qed.

Lemma demo_result {A} (c : K heap_pair A) Q m a :
  wk c Q m -> match c m with Ok (r, _) => r = a | _ => False end -> Q a (demo_run_k c m).
Proof. unfold wk, demo_run_k. destruct (c m) as [[r m']| |]; [by intros H <-|done..]. Qed.

Lemma demo_up_ok : exists v F t,
  booted 64 268435456 demo_statics v demo_up F /\ gates_set demo_statics (memory demo_up) /\
  m_idtr demo_up = (4095, 200704) /\ m_ports demo_up = t ++ boot_ports.
Proof.
  pose proof (kmain_ok 4096 106496 110592 102400 2600 zero_dev 64 268435456 5 demo_statics demo_cold) as Hw.
  do 6 (specialize (Hw ltac:(clear; vm_compute; intuition congruence))). specialize (Hw demo_layout ltac:(done)).
  specialize (Hw demo_images demo_idt). do 2 (specialize (Hw ltac:(clear; vm_compute; intuition congruence))).
  destruct (demo_after _ _ _ (Hw demo_cold_ok eq_refl demo_clock)) as (_ & _ & HQ). exact HQ.
Qed.

(** A caller asks for 16 bytes and writes "htop" into them. *)
Definition demo_typed : machine heap_pair := demo_run_k (on_sched (kheap_do (CMalloc 16))) demo_up.
Definition demo_named : machine heap_pair :=
  store_mem (wbs (memory demo_typed) 29168 (s_htop ++ [0])) demo_typed.

Lemma demo_typed_ok F m0 : kernel_ok 64 268435456 m0 demo_up [] [] F ->
  kernel_ok 64 268435456 m0 demo_typed [29168] [] F /\ buffer 64 demo_typed [29168] [] 29168 16.
Proof.
  intros Hk. assert (Hl : legal (Kheap (CMalloc 16)) (m_sched demo_up) [] []).
  { split; [left; vm_compute; reflexivity|]. split; [vm_compute; intuition congruence|]. intros n [= <-].
    destruct (ko_sched _ _ _ _ _ _ _ Hk) as (A & B & rs & zs & Hok).
    apply (fits_now_safe 4096 106496 110592 102400 2600 ltac:(vm_compute; congruence) _ _ A B);
      [apply Hok|by vm_compute]. }
  assert (Hr : match on_sched (kheap_do (CMalloc 16)) demo_up with Ok (r, _) => r = 29168 | _ => False end)
    by by vm_compute.
  pose proof (malloc_buffer 64 268435456 m0 16 demo_up [] [] F demo_layout Hk Hl) as Hw.
  pose proof (demo_result (on_sched (kheap_do (CMalloc 16))) _ demo_up 29168 Hw Hr) as HQ.
  cbv beta in HQ.
  specialize (HQ ltac:(clear; lia)).
  exact HQ.
Qed.

Lemma demo_named_ok F m0 : kernel_ok 64 268435456 m0 demo_up [] [] F ->
  kernel_ok 64 268435456 m0 demo_named [29168] [] F /\ text 64 demo_named [29168] [] 29168 s_htop.
Proof.
  intros [Hk Hb]%demo_typed_ok. set (v := memory demo_typed) in *.
  assert (Ho : only_in 29168 (29168 + 16) v (wbs v 29168 (s_htop ++ [0]))).
  { clear. intros x Hx. apply rb_wbs_out. change (lenZ (s_htop ++ [0])) with 5. lia. }
  split; [by apply (kernel_fill 64 268435456 m0 demo_layout demo_typed _ 29168 16)|].
  apply (buffer_text 64 demo_typed _ 29168 s_htop _ _ 16); done.
Qed.

Lemma demo_named_tame F m0 : kernel_ok 64 268435456 m0 demo_named [29168] [] F ->
  k_tame (heaps (m_sched demo_named)) [SIZEOF_TASK; 16384].
Proof.
  intros Hk. apply k_fits_tame. destruct (ko_sched _ _ _ _ _ _ _ Hk) as (A & B & rs & zs & Hok).
  apply (fits_all_ok 4096 106496 110592 102400 2600 ltac:(vm_compute; congruence) _ A B); [apply Hok| |by vm_compute].
  repeat constructor; vm_compute; congruence.
Qed.

(** *** Witnesses *)


Lemma kmain_boots_witness :
  (exists v m' F t, demo_kmain demo_cold = Ok (tt, m') /\
    booted 64 268435456 demo_statics v m' F /\ gates_set demo_statics (memory m') /\
    m_idtr m' = (4095, IDT demo_statics) /\
    m_ports m' = t ++ [Out 67 54; Out 64 169; Out 64 4; Out 33 252]) /\
  kmain 4096 106496 110592 102400 2600 busy_dev 64 268435456 5 demo_statics demo_cold = Stuck.
Proof.
  split.
  - apply (kmain_boots 4096 106496 110592 102400 2600 zero_dev 64 268435456 5 demo_statics demo_cold);
      first [exact demo_layout|exact demo_images|exact demo_idt|exact demo_cold_ok|exact demo_clock
            |vm_compute; intuition congruence].
  - apply (kmain_boots 4096 106496 110592 102400 2600 busy_dev 64 268435456 5 demo_statics demo_cold);
      first [exact demo_layout|exact demo_images|exact demo_idt|exact demo_cold_ok|exact busy_clock
            |vm_compute; intuition congruence].
Defined.

Lemma load_program_result_witness :
  exists F r m', load_and_run_program 268435456 29168 demo_named = Ok (r, m') /\
    load_result demo_named [29168] [] F s_htop r m' /\ consistent 64 (m_sched m') [29168] [] /\
    fs_rel 268435456 (fs_of m') F /\ iflag (m_sched m') = true /\ devices m' = devices demo_named.
Proof.
  destruct demo_up_ok as (v & F & t & Hb & _). exists F.
  destruct (demo_named_ok F _ (bt_ok _ _ _ _ _ _ Hb)) as [Hk Ht].
  apply (load_program_result 64 268435456 demo_named [29168] [] F 29168 s_htop);
    [exact (kl_layout _ _ demo_layout)|exact (ko_fs _ _ _ _ _ _ _ Hk)|by right
    |exact (demo_named_tame F _ Hk)|by vm_compute].
Defined.

(** In that state the program starts, as the fourth task. *)
Example demo_htop_starts :
  match load_and_run_program 268435456 29168 demo_named with Ok (r, _) => r = 4 | _ => False end.
Proof. by vm_compute. Qed.
End KernelDemo.
