(* ===== verification/Cpu.v ===== *)
(** * The processor, as far as the assembly stubs use it

    The registers, the instructions of the interrupt stubs, the delivery of an
    interrupt in 64-bit mode and [iretq], over the byte memory of Memory.v. *)

From Stdlib Require Import ZArith Lia.
From S2P Require Import Prelude Memory.

Inductive reg :=
  | RAX | RBX | RCX | RDX | RBP | RSI | RDI | R8 | R9 | R10 | R11 | R12 | R13 | R14 | R15.
#[export] Instance reg_eq_dec : EqDecision reg.
Proof. solve_decision. Defined.

(** The general registers, the stack pointer, what an interrupt saves, and
    the memory. *)
Record cpu := Cpu { gpr : reg -> Z; rsp : Z; rip : Z; cs : Z; rflags : Z; ss : Z; mm : mem }.

Definition set_gpr (r : reg) (v : Z) (c : cpu) : cpu :=
  Cpu (fun r' => if decide (r' = r) then v else gpr c r') (rsp c) (rip c) (cs c) (rflags c) (ss c) (mm c).
Definition set_rsp (v : Z) (c : cpu) : cpu := Cpu (gpr c) v (rip c) (cs c) (rflags c) (ss c) (mm c).
Definition set_rip (v : Z) (c : cpu) : cpu := Cpu (gpr c) (rsp c) v (cs c) (rflags c) (ss c) (mm c).
Definition set_rflags (v : Z) (c : cpu) : cpu := Cpu (gpr c) (rsp c) (rip c) (cs c) v (ss c) (mm c).
Definition set_mm (m : mem) (c : cpu) : cpu := Cpu (gpr c) (rsp c) (rip c) (cs c) (rflags c) (ss c) m.

Definition push (v : Z) (c : cpu) : cpu :=
  let sp := u64 (rsp c - 8) in set_mm (st 8 (mm c) sp v) (set_rsp sp c).

Definition push_all (vs : list Z) (c : cpu) : cpu := fold_left (fun c v => push v c) vs c.

(** ** Instructions of the stubs *)

Inductive instr :=
  | Push (r : reg)
  | Push_imm (v : Z)
  | Pop (r : reg)
  | Mov (d s : reg)
  | Mov_imm (d : reg) (v : Z)
  | Mov_rsp (d : reg)            (* mov d, rsp *)
  | Set_rsp (s : reg)            (* mov rsp, s *)
  | Lea (d : reg) (off : Z)      (* lea d, [rsp + off] *)
  | Load (d : reg) (off : Z)     (* mov d, [rsp + off] *)
  | Store (off : Z) (s : reg)    (* mov [rsp + off], s *)
  | And_imm (d : reg) (v : Z)
  | Add_rsp (v : Z)              (* add rsp, v; sub for a negative v *)
  | Cli.

(** Bit 9 of the flags. *)
Definition IF_MASK : Z := 512.
Definition clear_if (fl : Z) : Z := Z.land fl (Z.lnot IF_MASK).

Definition step (i : instr) (c : cpu) : cpu :=
  match i with
  | Push r => push (gpr c r) c
  | Push_imm v => push v c
  | Pop r => set_gpr r (ld 8 (mm c) (rsp c)) (set_rsp (u64 (rsp c + 8)) c)
  | Mov d s => set_gpr d (gpr c s) c
  | Mov_imm d v => set_gpr d v c
  | Mov_rsp d => set_gpr d (rsp c) c
  | Set_rsp s => set_rsp (gpr c s) c
  | Lea d off => set_gpr d (u64 (rsp c + off)) c
  | Load d off => set_gpr d (ld 8 (mm c) (u64 (rsp c + off))) c
  | Store off s => set_mm (st 8 (mm c) (u64 (rsp c + off)) (gpr c s)) c
  | And_imm d v => set_gpr d (Z.land (gpr c d) v) c
  | Add_rsp v => set_rsp (u64 (rsp c + v)) c
  | Cli => set_rflags (clear_if (rflags c)) c
  end.
Definition run (l : list instr) (c : cpu) : cpu := fold_left (fun c i => step i c) l c.

(** ** Interrupts

    In 64-bit mode the stack pointer is aligned down to 16 before the frame is
    pushed; an interrupt gate clears IF; some exceptions push an error code on
    top of the frame. *)
Definition align16 (x : Z) : Z := Z.land x (u64 (Z.lnot 15)).

Definition deliver (handler : Z) (err : option Z) (c : cpu) : cpu :=
  let c1 := push_all [ss c; rsp c; rflags c; cs c; rip c] (set_rsp (align16 (rsp c)) c) in
  let c1 := match err with Some e => push e c1 | None => c1 end in
  set_rip handler (set_rflags (clear_if (rflags c1)) c1).

Definition iretq (c : cpu) : cpu :=
  let f i := ld 8 (mm c) (u64 (rsp c + 8 * i)) in
  Cpu (gpr c) (f 3) (f 0) (f 1) (f 2) (f 4) (mm c).

(** ** Registers hold 64-bit words *)

Definition word64 (v : Z) : Prop := 0 <= v < 18446744073709551616.
Record words (c : cpu) : Prop := {
  w_gpr r : word64 (gpr c r);
  w_rsp : word64 (rsp c); w_rip : word64 (rip c); w_cs : word64 (cs c);
  w_rflags : word64 (rflags c); w_ss : word64 (ss c)
}.
(** All but the memory. *)
Record same_cpu (c c' : cpu) : Prop := {
  sc_gpr r : gpr c' r = gpr c r;
  sc_rsp : rsp c' = rsp c; sc_rip : rip c' = rip c; sc_cs : cs c' = cs c;
  sc_rflags : rflags c' = rflags c; sc_ss : ss c' = ss c
}.

Lemma run_app l l' c : run (l ++ l') c = run l' (run l c).
Proof. apply fold_left_app. Qed.

Lemma align16_eq x : word64 x -> align16 x = x - x mod 16.
Proof.
  intros Hx. unfold align16, word64 in *.
  assert (E : u64 (Z.lnot 15) = Z.lnot (Z.ones 4) mod 2 ^ 64) by done. rewrite E.
  rewrite <- Z.land_ones, Z.land_assoc by lia. rewrite (Z.land_comm x), <- Z.land_assoc.
  rewrite (Z.land_ones x) by lia. rewrite (Z.mod_small x) by lia.
  rewrite Z.land_comm, <- Z.ldiff_land, Z.ldiff_ones_r by lia.
  rewrite Z.shiftr_div_pow2, Z.shiftl_mul_pow2 by lia. change (2 ^ 4) with 16.
  pose proof (Z.div_mod x 16 ltac:(lia)). lia.
Qed.

(** ** Saving and restoring registers *)

Record pushed (n : Z) (c c' : cpu) : Prop := {
  pu_rsp : rsp c' = rsp c - 8 * n;
  pu_gpr : gpr c' = gpr c;
  pu_rest : rip c' = rip c /\ cs c' = cs c /\ rflags c' = rflags c /\ ss c' = ss c;
  pu_mem : only_in (rsp c - 8 * n) (rsp c) (mm c) (mm c')
}.
Lemma pushed_refl c : pushed 0 c c.
Proof. split; [lia|done|done|done]. Qed.

Lemma push_ok v c : 8 <= rsp c -> word64 (rsp c) -> word64 v ->
  pushed 1 c (push v c) /\ ld 8 (mm (push v c)) (rsp c - 8) = v.
Proof.
  intros H8 Hr Hv. unfold word64 in *. unfold push. rewrite u64_small by lia. split; [split|].
  - cbn. lia.
  - done.
  - done.
  - intros x Hx. cbn [mm set_mm]. apply rb_st_out. lia.
  - cbn [mm set_mm]. by apply ld_st_small.
Qed.

Lemma pushed_trans n k c c1 c2 : pushed n c c1 -> pushed k c1 c2 -> 0 <= n -> 0 <= k -> pushed (n + k) c c2.
Proof.
  intros [P1 P2 (P3 & P4 & P5 & P6) P7] [Q1 Q2 (Q3 & Q4 & Q5 & Q6) Q7] Hn Hk. split.
  - lia.
  - congruence.
  - intuition congruence.
  - intros x Hx. rewrite Q7 by lia. apply P7. lia.
Qed.

Lemma push_all_ok vs c :
  8 * lenZ vs <= rsp c -> word64 (rsp c) -> Forall word64 vs ->
  pushed (lenZ vs) c (push_all vs c) /\
  forall i v, vs !! i = Some v -> ld 8 (mm (push_all vs c)) (rsp c - 8 * (Z.of_nat i + 1)) = v.
Proof.
  unfold lenZ. intros Hl Hw Hv. revert c Hl Hw. induction Hv as [|v vs Hv _ IH]; intros c Hl Hw.
  - split; [apply pushed_refl|done].
  - cbn [length] in Hl. change (push_all (v :: vs) c) with (push_all vs (push v c)).
    destruct (push_ok v c ltac:(lia) Hw Hv) as [Hp Hld]. set (c1 := push v c) in *. clearbody c1.
    pose proof (pu_rsp _ _ _ Hp) as P1.
    destruct (IH c1 ltac:(lia) ltac:(unfold word64 in *; lia)) as [Hq Hi]. split.
    + replace (Z.of_nat (length (v :: vs))) with (1 + Z.of_nat (length vs)) by (cbn; lia).
      eapply pushed_trans; [exact Hp|exact Hq|lia|lia].
    + intros [|i] w E.
      * injection E as <-. rewrite <- Hld. apply ld_ext. intros x Hx. apply Hq. rewrite P1. simpl in Hx. lia.
      * cbn in E. rewrite <- (Hi i w E). f_equal. lia.
Qed.

Lemma run_push rs c : run (Push <$> rs) c = push_all (gpr c <$> rs) c.
Proof. revert c. induction rs as [|r rs IH]; intros c; [done|]. exact (IH (push (gpr c r) c)). Qed.

Lemma pushes_ok rs c :
  8 * lenZ rs <= rsp c -> words c ->
  let c' := run (Push <$> rs) c in
  pushed (lenZ rs) c c' /\ forall i r, rs !! i = Some r -> ld 8 (mm c') (rsp c - 8 * (Z.of_nat i + 1)) = gpr c r.
Proof.
  intros Hl Hw. cbv zeta. rewrite run_push.
  assert (E : lenZ (gpr c <$> rs) = lenZ rs) by (unfold lenZ; by rewrite length_fmap).
  destruct (push_all_ok (gpr c <$> rs) c) as [Hp Hi].
  { by rewrite E. }
  { apply Hw. }
  { apply Forall_fmap, Forall_true. intros r. apply Hw. }
  rewrite E in Hp. split; [done|]. intros i r Hr. apply Hi. by rewrite list_lookup_fmap, Hr.
Qed.

Lemma pops_ok rs c :
  base.NoDup rs -> 0 <= rsp c -> rsp c + 8 * lenZ rs < 18446744073709551616 ->
  let c' := run (Pop <$> rs) c in
  rsp c' = rsp c + 8 * lenZ rs /\ mm c' = mm c /\
  rip c' = rip c /\ cs c' = cs c /\ rflags c' = rflags c /\ ss c' = ss c /\
  (forall i r, rs !! i = Some r -> gpr c' r = ld 8 (mm c) (rsp c + 8 * Z.of_nat i)) /\
  (forall r, r ∉ rs -> gpr c' r = gpr c r).
Proof.
  unfold lenZ. revert c. induction rs as [|r rs IH]; intros c Hnd H0 Hl.
  - cbn. repeat split; try done; lia.
  - cbn [length] in Hl. rewrite fmap_cons. change (run (?a :: ?b) c) with (run b (step a c)). cbn [step].
    rewrite u64_small by lia. set (c1 := set_gpr _ _ _). apply list.NoDup_cons in Hnd as [Hr Hnd].
    assert (E1 : rsp c1 = rsp c + 8) by done.
    destruct (IH c1 Hnd ltac:(lia) ltac:(rewrite E1; lia)) as (Q1 & Q2 & Q3 & Q4 & Q5 & Q6 & Q7 & Q8).
    split; [rewrite Q1, E1; cbn [length]; lia|]. do 5 (split; [done|]). split.
    + intros [|i] r' E.
      * injection E as <-. rewrite Q8 by done. cbn [gpr c1 set_gpr]. rewrite decide_True by done. f_equal. cbn. lia.
      * cbn in E. rewrite (Q7 i r' E). cbn [mm set_gpr set_rsp c1]. f_equal. rewrite E1. lia.
    + intros r' Hn. rewrite elem_of_cons in Hn. rewrite Q8 by tauto. cbn. rewrite decide_False by tauto. done.
Qed.

(** ** The frame of an interrupt *)

(** The five words [iretq] pops stand at [a]. *)
Record saved (c : cpu) (a : Z) (v : mem) : Prop := {
  sv_rip : ld 8 v a = rip c;
  sv_cs : ld 8 v (a + 8) = cs c;
  sv_rflags : ld 8 v (a + 16) = rflags c;
  sv_rsp : ld 8 v (a + 24) = rsp c;
  sv_ss : ld 8 v (a + 32) = ss c
}.
Lemma saved_ext c a v w : saved c a v -> same_on a (a + 40) v w -> saved c a w.
Proof.
  intros [S1 S2 S3 S4 S5] Hs. split; (rewrite <- ?S1, <- ?S2, <- ?S3, <- ?S4, <- ?S5; symmetry; apply ld_ext;
    intros x Hx; simpl in Hx; apply Hs; lia).
Qed.

Lemma iretq_saved c c2 :
  saved c (rsp c2) (mm c2) -> 0 <= rsp c2 -> rsp c2 + 40 < 18446744073709551616 ->
  same_cpu (Cpu (gpr c2) (rsp c) (rip c) (cs c) (rflags c) (ss c) (mm c2)) (iretq c2) /\ mm (iretq c2) = mm c2.
Proof.
  intros [S1 S2 S3 S4 S5] H0 H1. split; [|done].
  split; cbn [gpr rsp rip cs rflags ss iretq]; try done; rewrite u64_small by lia; rewrite ?Z.add_0_r; done.
Qed.

Lemma clear_if_word fl : word64 fl -> word64 (clear_if fl).
Proof.
  unfold word64, clear_if. intros Hf. change 18446744073709551616 with (2 ^ 64) in *.
  rewrite <- (Z.mod_small fl (2 ^ 64)) by lia. rewrite <- Z.land_ones, <- Z.land_assoc by lia.
  rewrite (Z.land_comm (Z.ones 64)), Z.land_assoc, Z.land_ones by lia. apply Z.mod_pos_bound. lia.
Qed.

Definition frame_of (c : cpu) : cpu := push_all [ss c; rsp c; rflags c; cs c; rip c] (set_rsp (align16 (rsp c)) c).

(** The handler's first state, from the one after the pushes. *)
Record entered (h : Z) (c c' : cpu) : Prop := {
  en_gpr : gpr c' = gpr c;
  en_rsp : rsp c' = rsp c;
  en_rest : rip c' = h /\ cs c' = cs c /\ rflags c' = clear_if (rflags c) /\ ss c' = ss c;
  en_mm : mm c' = mm c
}.
Lemma entered_ok h c : entered h c (set_rip h (set_rflags (clear_if (rflags c)) c)).
Proof. by split. Qed.
Lemma deliver_none h c : entered h (frame_of c) (deliver h None c).
Proof. apply entered_ok. Qed.
Lemma deliver_some h e c : entered h (push e (frame_of c)) (deliver h (Some e) c).
Proof. apply entered_ok. Qed.

Lemma deliver_frame c :
  64 <= rsp c -> words c ->
  let a := align16 (rsp c) in
  pushed 5 (set_rsp a c) (frame_of c) /\ saved c (a - 40) (mm (frame_of c)) /\ 40 <= a <= rsp c /\
  (a - 40) mod 16 = 8.
Proof.
  intros H64 [W1 W2 W3 W4 W5 W6]. cbv zeta. pose proof (align16_eq (rsp c) W2) as Ea.
  pose proof (Z.mod_pos_bound (rsp c) 16 ltac:(lia)) as Hm. pose proof (Z.div_mod (rsp c) 16 ltac:(lia)) as Hd.
  set (a := align16 (rsp c)) in *. assert (Ha : 40 <= a <= rsp c) by lia.
  destruct (push_all_ok [ss c; rsp c; rflags c; cs c; rip c] (set_rsp a c)) as [Hp Hi].
  { unfold lenZ. cbn. lia. }
  { unfold word64 in *. cbn. lia. }
  { do 5 (apply Forall_cons_2; [assumption|]). constructor. }
  split; [exact Hp|]. unfold frame_of. fold a. set (c1 := push_all _ _) in *. clearbody c1. cbn [rsp set_rsp] in Hi. split; [|split; [done|]].
  - split.
    + rewrite <- (Hi 4%nat (rip c) eq_refl); f_equal; lia.
    + rewrite <- (Hi 3%nat (cs c) eq_refl); f_equal; lia.
    + rewrite <- (Hi 2%nat (rflags c) eq_refl); f_equal; lia.
    + rewrite <- (Hi 1%nat (rsp c) eq_refl); f_equal; lia.
    + rewrite <- (Hi 0%nat (ss c) eq_refl); f_equal; lia.
  - rewrite Ea. replace (rsp c - rsp c mod 16 - 40) with (8 + (rsp c / 16 - 3) * 16) by lia. by rewrite Z.mod_add by lia.
Qed.

Lemma set_rsp_rsp v c : rsp (set_rsp v c) = v.
Proof. done. Qed.

(** What [pushed] and [entered] leave of the words. *)
Lemma words_after n c c1 h c2 :
  words c -> pushed n (set_rsp (align16 (rsp c)) c) c1 -> entered h c1 c2 -> word64 h -> word64 (rsp c1) -> words c2.
Proof.
  intros [W1 W2 W3 W4 W5 W6] [P1 P2 (P3 & P4 & P5 & P6) _] [E1 E2 (E3 & E4 & E5 & E6) _] Hh Hr.
  cbn [gpr cs rflags ss set_rsp] in *. split; rewrite ?E1, ?E2, ?E3, ?E4, ?E5, ?E6, ?P2, ?P4, ?P5, ?P6; try done.
  by apply clear_if_word.
Qed.

(** The handler's first state after an interrupt of [c]. *)
Record handling (c c1 : cpu) : Prop := {
  hd_rsp : rsp c1 = align16 (rsp c) - 40;
  hd_gpr : gpr c1 = gpr c;
  hd_saved : saved c (align16 (rsp c) - 40) (mm c1);
  hd_words : words c1;
  hd_mem : only_in (align16 (rsp c) - 40) (align16 (rsp c)) (mm c) (mm c1)
}.

Lemma align16_low c : words c -> align16 (rsp c) <= rsp c < align16 (rsp c) + 16 /\ align16 (rsp c) mod 16 = 0.
Proof.
  intros Hw. rewrite (align16_eq _ (w_rsp _ Hw)). pose proof (Z.mod_pos_bound (rsp c) 16 ltac:(lia)).
  pose proof (Z.div_mod (rsp c) 16 ltac:(lia)). split; [lia|].
  replace (rsp c - rsp c mod 16) with (rsp c / 16 * 16) by lia. by apply Z.mod_mul.
Qed.

(** An interrupt that pushes no error code. *)
Lemma deliver_ok h c : 64 <= rsp c -> words c -> word64 h -> handling c (deliver h None c).
Proof.
  intros H64 Hw Hh. destruct (deliver_frame c H64 Hw) as (Hp & Hs & Ha & _).
  pose proof (deliver_none h c) as He. set (c0 := frame_of c) in *. clearbody c0.
  set (c1 := deliver h None c) in *. clearbody c1. pose proof (w_rsp _ Hw) as Wr.
  pose proof (pu_rsp _ _ _ Hp) as P1. pose proof (pu_mem _ _ _ Hp) as P7. pose proof (pu_gpr _ _ _ Hp) as P2.
  rewrite set_rsp_rsp in P1, P7.
  assert (Hw1 : words c1) by (eapply words_after; [exact Hw|exact Hp|exact He|done|unfold word64 in *; lia]).
  destruct He as [E1 E2 _ E4]. split; rewrite ?E1, ?E2, ?E4, ?P2; done.
Qed.

Lemma cli_ok c : gpr (step Cli c) = gpr c /\ rsp (step Cli c) = rsp c /\ mm (step Cli c) = mm c.
Proof. done. Qed.
Lemma cli_words c : words c -> words (step Cli c).
Proof. intros [W1 W2 W3 W4 W5 W6]. split; try done. by apply clear_if_word. Qed.
Lemma cli_handling c c1 : handling c c1 -> handling c (step Cli c1).
Proof.
  intros [H1 H2 H3 H4 H5]. destruct (cli_ok c1) as (E1 & E2 & E3). split; rewrite ?E1, ?E2, ?E3; try done.
  by apply cli_words.
Qed.

(** One that does. *)
Record handling_error (e : Z) (c c1 : cpu) : Prop := {
  he_rsp : rsp c1 = align16 (rsp c) - 48;
  he_gpr : gpr c1 = gpr c;
  he_code : ld 8 (mm c1) (align16 (rsp c) - 48) = e;
  he_saved : saved c (align16 (rsp c) - 40) (mm c1);
  he_words : words c1
}.
Lemma deliver_error_ok h e c :
  64 <= rsp c -> words c -> word64 h -> word64 e -> handling_error e c (deliver h (Some e) c).
Proof.
  intros H64 Hw Hh Hew. destruct (deliver_frame c H64 Hw) as (Hp & Hs & Ha & Hm).
  pose proof (deliver_some h e c) as He. set (c1 := deliver h (Some e) c) in *. clearbody c1.
  set (c0 := frame_of c) in *. clearbody c0. pose proof (w_rsp _ Hw) as Wr.
  pose proof (pu_rsp _ _ _ Hp) as P1. rewrite set_rsp_rsp in P1.
  pose proof (align16_eq _ Wr) as Ea. pose proof (Z.mod_pos_bound (rsp c) 16 ltac:(lia)) as Hmb. unfold word64 in Wr.
  destruct (push_ok e c0) as [Hq Hld]; [lia|unfold word64; lia|done|].
  pose proof (pushed_trans 5 1 _ _ _ Hp Hq ltac:(lia) ltac:(lia)) as Hpq.
  set (c2 := push e c0) in *. clearbody c2. pose proof (pu_rsp _ _ _ Hq) as Q1. pose proof (pu_gpr _ _ _ Hpq) as P2.
  assert (Hw1 : words c1) by (eapply words_after; [exact Hw|exact Hpq|exact He|done|unfold word64 in *; lia]).
  destruct He as [E1 E2 _ E4]. split; rewrite ?E1, ?E2, ?E4, ?P2; try done; [lia| |].
  - rewrite <- Hld. f_equal. lia.
  - apply (saved_ext _ _ _ _ Hs). intros x Hx. symmetry. apply Hq. lia.
Qed.
