(* ===== verification/Stubs.v ===== *)
(** * The assembly stubs of the interrupts

    interrupt/isr_stubs.asm, isr32.asm, isr33.asm and isr80.asm between the
    delivery of the interrupt and [iretq].  The C function a stub calls is an
    argument: what the compiled code does to the processor.  [returns] is what
    the System V ABI promises of it. *)

From Stdlib Require Import ZArith Lia.
From S2P Require Import Prelude Memory Cpu.

(** ** The stubs *)

Definition stub_regs : list reg := [RAX; RCX; RDX; RBX; RBP; RSI; RDI; R8; R9; R10; R11; R12; R13; R14; R15].
Definition stub_pops : list reg := [R15; R14; R13; R12; R11; R10; R9; R8; RDI; RSI; RBP; RBX; RDX; RCX; RAX].

(** [ISR_STUB i] *)
Definition isr_stub (c : cpu) : cpu := iretq (run (Pop <$> stub_pops) (run (Push <$> stub_regs) c)).

(** isr33: up to the call of [keyboard_handler], and from its return. *)
Definition isr33_regs : list reg := [RAX; RBX; RCX; RDX; RBP; RSI; RDI; R8; R9; R10; R11; R12; R13; R14; R15].
Definition isr33_pops : list reg := [R15; R14; R13; R12; R11; R10; R9; R8; RDI; RSI; RBP; RDX; RCX; RBX; RAX].
Definition isr33_entry (c : cpu) : cpu := run (Push <$> isr33_regs) (step Cli c).
Definition isr33_exit (c : cpu) : cpu := iretq (run (Pop <$> isr33_pops) c).

(** isr32: up to the call of [timer_tick], from there to the call of
    [schedule_from_isr], and from its return. *)
Definition isr32_entry (c : cpu) : cpu :=
  run [Push_imm 0; Push_imm 32] (run (Push <$> stub_regs) (step Cli c)).
Definition isr32_switch (c : cpu) : cpu := run [Add_rsp (-8); Lea RDI 8; Lea RSI 0] c.
Definition isr32_exit (c : cpu) : cpu :=
  iretq (run (Pop <$> stub_pops) (run [Load RAX 0; Add_rsp 8; Set_rsp RAX; Pop RAX; Pop RAX] c)).

(** isr80: up to the call of [syscall_handler], and from its return. *)
Definition isr80_regs : list reg := [RAX; RCX; RDX; RSI; RDI; R8; R9; R10; R11; RBX; RBP; R12; R13; R14; R15].
Definition isr80_pops : list reg := [R15; R14; R13; R12; RBP; RBX; R11; R10; R9; R8; RDI; RSI; RDX; RCX; RAX].
Definition isr80_args : list instr :=
  [Mov R11 RDI; Mov R12 RSI; Mov R13 RDX; Mov R14 R10; Mov R15 R8; Mov RBX R9;
   Mov RDI RAX; Mov RSI R11; Mov RDX R12; Mov RCX R13; Mov R8 R14; Mov R9 R15].
Definition isr80_align (c : cpu) : cpu :=
  let c := run [Mov_rsp RAX; And_imm RAX 15] c in
  if gpr c RAX =? 8 then run [Mov_imm R12 0] c
  else run [Add_rsp (-8); Mov_imm R12 1] c.
Definition isr80_entry (c : cpu) : cpu :=
  isr80_align (step (Push RBX) (run isr80_args (run (Push <$> isr80_regs) (step Cli c)))).
Definition isr80_exit (c : cpu) : cpu :=
  let c := if gpr c R12 =? 0 then step (Store 120 RAX) c else step (Store 128 RAX) c in
  let c := if gpr c R12 =? 0 then c else step (Add_rsp 8) c in
  iretq (run (Pop <$> isr80_pops) (step (Add_rsp 8) c)).

(** ** What a C function leaves alone *)

Definition callee_saved : list reg := [RBX; RBP; R12; R13; R14; R15].

(** From the call in [c] to the return in [c'], with [args] bytes of arguments
    on the stack, which belong to the function, and a caller's frame above
    them that ends at [top]. *)
Record returns (args top : Z) (c c' : cpu) : Prop := {
  rt_rsp : rsp c' = rsp c;
  rt_saved r : r ∈ callee_saved -> gpr c' r = gpr c r;
  rt_rax : word64 (gpr c' RAX);
  rt_frame : same_on (rsp c + args) top (mm c) (mm c')
}.

(** ** Saved registers *)

(** The words below [top] hold the registers [rs] of [f], the first one on
    top. *)
Definition holds (v : mem) (top : Z) (rs : list reg) (f : reg -> Z) : Prop :=
  forall i r, rs !! i = Some r -> ld 8 v (top - 8 * (Z.of_nat i + 1)) = f r.

Lemma holds_ext v w top rs f : holds v top rs f -> same_on (top - 8 * lenZ rs) top v w -> holds w top rs f.
Proof.
  intros Hv Hs i r Hr. rewrite <- (Hv i r Hr). symmetry. apply ld_ext. intros x Hx. simpl in Hx.
  apply lookup_lt_Some in Hr. apply Hs. unfold lenZ. lia.
Qed.

Lemma saves_ok rs c c1 :
  c1 = run (Push <$> rs) c -> 8 * lenZ rs <= rsp c -> words c ->
  pushed (lenZ rs) c c1 /\ holds (mm c1) (rsp c) rs (gpr c).
Proof. intros ->. apply pushes_ok. Qed.

Lemma restore_ok rs pops c c1 top f :
  c1 = run (Pop <$> pops) c -> pops = reverse rs -> base.NoDup rs -> holds (mm c) top rs f ->
  rsp c = top - 8 * lenZ rs -> 0 <= rsp c -> top < 18446744073709551616 ->
  rsp c1 = top /\ mm c1 = mm c /\ forall r, r ∈ rs -> gpr c1 r = f r.
Proof.
  intros -> -> Hnd Hh Hr H0 Ht.
  assert (Hl : lenZ (reverse rs) = lenZ rs) by (unfold lenZ; by rewrite length_reverse).
  destruct (pops_ok (reverse rs) c) as (P1 & P2 & _ & _ & _ & _ & P7 & _).
  { by rewrite reverse_Permutation. }
  { done. }
  { lia. }
  split; [lia|]. split; [done|]. intros r [i Hi]%list_elem_of_lookup.
  pose proof (lookup_lt_Some _ _ _ Hi) as Hlt.
  assert (Hrev : reverse rs !! (length rs - S i)%nat = Some r).
  { rewrite reverse_lookup by lia. rewrite <- Hi. f_equal. lia. }
  rewrite (P7 _ _ Hrev), <- (Hh i r Hi). f_equal. unfold lenZ in *. lia.
Qed.

(** Every register is saved. *)
Definition complete (rs : list reg) : Prop := base.NoDup rs /\ forall r, r ∈ rs.
Lemma complete_dec rs : bool_decide (base.NoDup rs) && forallb (fun r => bool_decide (r ∈ rs))
  [RAX; RBX; RCX; RDX; RBP; RSI; RDI; R8; R9; R10; R11; R12; R13; R14; R15] = true -> complete rs.
Proof.
  intros [H1 H2]%andb_true_iff. split; [by apply bool_decide_eq_true in H1|].
  rewrite forallb_forall in H2. intros r. eapply bool_decide_eq_true_1, H2. destruct r; cbn; tauto.
Qed.
Lemma stub_complete : complete stub_regs.
Proof. by apply complete_dec. Qed.
Lemma isr33_complete : complete isr33_regs.
Proof. by apply complete_dec. Qed.
Lemma isr80_complete : complete isr80_regs.
Proof. by apply complete_dec. Qed.

(** ** Leaving through [iretq] *)

(** [c'] goes on where [c] was interrupted, with the registers [f]. *)
Record resumes (f : reg -> Z) (c c' : cpu) : Prop := {
  rs_gpr r : gpr c' r = f r;
  rs_rsp : rsp c' = rsp c; rs_rip : rip c' = rip c; rs_cs : cs c' = cs c;
  rs_rflags : rflags c' = rflags c; rs_ss : ss c' = ss c
}.

Lemma leave_ok c0 rs pops c c1 f a :
  c1 = iretq (run (Pop <$> pops) c) -> pops = reverse rs -> complete rs -> holds (mm c) a rs f ->
  rsp c = a - 8 * lenZ rs -> 0 <= rsp c -> a + 40 < 18446744073709551616 -> saved c0 a (mm c) ->
  resumes f c0 c1 /\ mm c1 = mm c.
Proof.
  intros -> Hp [Hnd Hall] Hh Hr H0 Ha Hs.
  destruct (restore_ok rs pops c _ a f eq_refl Hp Hnd Hh Hr H0 ltac:(lia)) as (R1 & R2 & R3).
  set (c2 := run (Pop <$> pops) c) in *. clearbody c2.
  assert (Hl : 0 <= lenZ rs) by (unfold lenZ; lia).
  destruct (iretq_saved c0 c2) as [[S1 S2 S3 S4 S5 S6] S7]; [by rewrite R1, R2|lia|lia|].
  cbn [gpr rsp rip cs rflags ss] in *. split; [|congruence]. split; try done. intros r. rewrite S1. by apply R3.
Qed.

(** ** An interrupt without an error code *)

Section Entry.
Context (c0 : cpu) (Hlow : 512 <= rsp c0) (Hw : words c0).
Abbreviation base := (align16 (rsp c0) - 40).

Lemma base_ok : 256 <= base /\ base + 40 < 18446744073709551616 /\ base mod 16 = 8.
Proof using All.
  destruct (align16_low c0 Hw) as [Ha Hm]. pose proof (w_rsp _ Hw) as Wr. unfold word64 in Wr.
  split; [lia|]. split; [lia|]. replace base with (8 + (align16 (rsp c0) / 16 - 3) * 16); [by rewrite Z.mod_add|].
  pose proof (Z.div_mod (align16 (rsp c0)) 16 ltac:(lia)). lia.
Qed.

(** Everything a stub relies on when the registers [rs] have been saved. *)
Record entry (rs : list reg) (c2 : cpu) : Prop := {
  ey_rsp : rsp c2 = base - 8 * lenZ rs;
  ey_gpr : gpr c2 = gpr c0;
  ey_words : words c2;
  ey_holds : holds (mm c2) base rs (gpr c0);
  ey_saved : saved c0 base (mm c2);
  ey_mem : only_in (base - 8 * lenZ rs) (align16 (rsp c0)) (mm c0) (mm c2)
}.
Lemma entry_ok rs c1 c2 : lenZ rs <= 20 -> handling c0 c1 -> c2 = run (Push <$> rs) c1 -> entry rs c2.
Proof using All.
  intros Hrs [D1 D2 D3 D4 D5] E2. destruct base_ok as (B1 & B2 & _).
  assert (Hl : 0 <= lenZ rs) by (unfold lenZ; lia).
  destruct (saves_ok rs c1 c2 E2 ltac:(lia) D4) as [[P1 P2 (P3 & P4 & P5 & P6) P7] Hh1]. rewrite D1, D2 in *.
  split; try done.
  - destruct D4 as [W1 W2 W3 W4 W5 W6]. split; rewrite ?P2, ?P3, ?P4, ?P5, ?P6; try done.
    + intros r. rewrite <- D2. apply W1.
    + unfold word64 in *. lia.
  - apply (saved_ext _ _ _ _ D3). intros x Hx. symmetry. apply P7. lia.
  - intros x Hx. rewrite P7 by lia. apply D5. lia.
Qed.
End Entry.

(** ** The exception stubs *)

Lemma isr_stub_ok c0 c1 : 512 <= rsp c0 -> words c0 -> handling c0 c1 -> resumes (gpr c0) c0 (isr_stub c1).
Proof.
  intros Hl Hw Hh. destruct (entry_ok c0 Hl Hw stub_regs c1 _ ltac:(done) Hh eq_refl) as [E1 _ _ E4 E5 E6].
  destruct (base_ok c0 Hl Hw) as (B1 & B2 & _). unfold isr_stub.
  set (c2 := run (Push <$> stub_regs) _) in *. clearbody c2. change (lenZ stub_regs) with 15 in E1.
  apply (leave_ok c0 stub_regs stub_pops c2 _ (gpr c0) (align16 (rsp c0) - 40)); try done; [apply stub_complete|lia].
Qed.

(** ** The keyboard *)

Lemma isr33_ok c0 c1 cc c3 :
  512 <= rsp c0 -> words c0 -> handling c0 c1 ->
  cc = isr33_entry c1 -> returns 0 (align16 (rsp c0)) cc c3 ->
  resumes (gpr c0) c0 (isr33_exit c3) /\ mm (isr33_exit c3) = mm c3.
Proof.
  intros Hl Hw Hh Ec [T1 T2 T3 T4].
  destruct (entry_ok c0 Hl Hw isr33_regs _ cc ltac:(done) (cli_handling _ _ Hh) Ec) as [E1 _ _ E4 E5 E6].
  destruct (base_ok c0 Hl Hw) as (B1 & B2 & _). clear Ec. change (lenZ isr33_regs) with 15 in E1.
  apply (leave_ok c0 isr33_regs isr33_pops c3 _ (gpr c0) (align16 (rsp c0) - 40)); try done.
  - apply isr33_complete.
  - apply (holds_ext _ _ _ _ _ E4). intros x Hx. apply T4. change (lenZ isr33_regs) with 15 in Hx. lia.
  - by rewrite T1, E1.
  - lia.
  - apply (saved_ext _ _ _ _ E5). intros x Hx. apply T4. lia.
Qed.

(** ** System calls *)

Lemma args_ok c :
  let c' := run isr80_args c in
  rsp c' = rsp c /\ mm c' = mm c /\
  gpr c' RDI = gpr c RAX /\ gpr c' RSI = gpr c RDI /\ gpr c' RDX = gpr c RSI /\ gpr c' RCX = gpr c RDX /\
  gpr c' R8 = gpr c R10 /\ gpr c' R9 = gpr c R8 /\ gpr c' RBX = gpr c R9.
Proof. done. Qed.

(** The stack is off by eight when the frame of the interrupt was aligned. *)
Lemma align_ok c :
  rsp c mod 16 = 8 ->
  let c' := isr80_align c in
  rsp c' = rsp c /\ mm c' = mm c /\ gpr c' R12 = 0 /\ forall r, r <> RAX -> r <> R12 -> gpr c' r = gpr c r.
Proof.
  intros Hm. assert (E : isr80_align c = run [Mov_imm R12 0] (run [Mov_rsp RAX; And_imm RAX 15] c)).
  { unfold isr80_align. replace (gpr (run [Mov_rsp RAX; And_imm RAX 15] c) RAX) with 8; [done|].
    cbn. change 15 with (Z.ones 4). rewrite Z.land_ones by lia. done. }
  cbv zeta. rewrite E. do 3 (split; [done|]). intros r H1 H2. cbn. by rewrite !decide_False by done.
Qed.

(** The state in which [syscall_handler] is called: its seven parameters are
    rdi, rsi, rdx, rcx, r8, r9 and the word on top of the stack. *)
Record called80 (c0 cc : cpu) : Prop := {
  ca_rsp : rsp cc = align16 (rsp c0) - 168;
  ca_rax : gpr cc RDI = gpr c0 RAX;
  ca_rdi : gpr cc RSI = gpr c0 RDI;
  ca_rsi : gpr cc RDX = gpr c0 RSI;
  ca_rdx : gpr cc RCX = gpr c0 RDX;
  ca_r10 : gpr cc R8 = gpr c0 R10;
  ca_r8 : gpr cc R9 = gpr c0 R8;
  ca_r9 : ld 8 (mm cc) (rsp cc) = gpr c0 R9;
  ca_pad : gpr cc R12 = 0;
  ca_holds : holds (mm cc) (align16 (rsp c0) - 40) isr80_regs (gpr c0);
  ca_saved : saved c0 (align16 (rsp c0) - 40) (mm cc)
}.

Lemma isr80_entry_ok c0 c1 : 512 <= rsp c0 -> words c0 -> handling c0 c1 -> called80 c0 (isr80_entry c1).
Proof.
  intros Hl Hw Hh. unfold isr80_entry.
  destruct (entry_ok c0 Hl Hw isr80_regs _ _ ltac:(done) (cli_handling _ _ Hh) eq_refl) as [E1 E2 E3 E4 E5 _].
  destruct (base_ok c0 Hl Hw) as (B1 & B2 & B3).
  set (c2 := run (Push <$> isr80_regs) _) in *. clearbody c2. change (lenZ isr80_regs) with 15 in E1.
  set (base := align16 (rsp c0) - 40) in *.
  destruct (args_ok c2) as (A1 & A2 & A3 & A4 & A5 & A6 & A7 & A8 & A9).
  set (c3 := run isr80_args c2) in *. clearbody c3. cbn [step]. rewrite E2 in *.
  destruct (push_ok (gpr c3 RBX) c3) as [[P1 P2 (P3 & P4 & P5 & P6) P7] P8].
  { lia. }
  { unfold word64. lia. }
  { rewrite A9. apply Hw. }
  set (c4 := push (gpr c3 RBX) c3) in *. clearbody c4.
  assert (Hr : rsp c4 = base - 128) by lia.
  assert (Hm : rsp c4 mod 16 = 8).
  { rewrite Hr. replace (base - 128) with (base + -8 * 16) by lia. by rewrite Z.mod_add. }
  destruct (align_ok c4 Hm) as (L1 & L2 & L3 & L4).
  set (cc := isr80_align c4) in *. clearbody cc.
  assert (Hs : same_on base (base + 40) (mm c2) (mm cc)).
  { intros x Hx. rewrite L2, P7, A2 by lia. done. }
  split; rewrite ?L4, ?P2 by done; try congruence; try lia.
  - rewrite L1, L2, <- A9, <- P8. f_equal. lia.
  - apply (holds_ext _ _ _ _ _ E4). intros x Hx. change (lenZ isr80_regs) with 15 in Hx. rewrite L2, P7, A2 by lia. done.
  - by apply (saved_ext _ _ _ _ E5).
Qed.

(** The registers the caller gets back. *)
Definition with_rax (v : Z) (f : reg -> Z) (r : reg) : Z := if decide (r = RAX) then v else f r.

Lemma store_slot v top rs f r x :
  holds v top (r :: rs) f -> r ∉ rs -> word64 x ->
  holds (st 8 v (top - 8) x) top (r :: rs) (fun r' => if decide (r' = r) then x else f r').
Proof.
  intros Hh Hr Hx [|i] r' E.
  - injection E as <-. rewrite decide_True by done. change (top - 8 * (Z.of_nat 0 + 1)) with (top - 8).
    by apply ld_st_small.
  - rewrite ld_st_out by lia. cbn in E. rewrite decide_False; [by apply (Hh (S i))|].
    intros ->. apply Hr. by eapply list_elem_of_lookup_2.
Qed.

Lemma isr80_exit_ok c0 cc c3 :
  512 <= rsp c0 -> words c0 -> called80 c0 cc -> returns 8 (align16 (rsp c0)) cc c3 ->
  resumes (with_rax (gpr c3 RAX) (gpr c0)) c0 (isr80_exit c3) /\
  only_in (align16 (rsp c0) - 48) (align16 (rsp c0) - 40) (mm c3) (mm (isr80_exit c3)).
Proof.
  intros Hl Hw [C1 _ _ _ _ _ _ _ C9 C10 C11] [T1 T2 T3 T4].
  destruct (base_ok c0 Hl Hw) as (B1 & B2 & _). set (base := align16 (rsp c0) - 40) in *.
  assert (Hp : gpr c3 R12 = 0) by (rewrite T2, C9; [done|repeat (try (by left); right)]).
  set (c4 := step (Store 120 RAX) c3). set (c5 := step (Add_rsp 8) c4).
  assert (E : isr80_exit c3 = iretq (run (Pop <$> isr80_pops) c5)).
  { unfold isr80_exit. rewrite Hp. cbn [Z.eqb]. change (gpr (step (Store 120 RAX) c3) R12) with (gpr c3 R12).
    by rewrite Hp. }
  assert (R5 : rsp c5 = base - 120).
  { unfold c5. cbn [step]. rewrite set_rsp_rsp. change (rsp c4) with (rsp c3). rewrite T1, C1, u64_small by lia. lia. }
  assert (M5 : mm c5 = st 8 (mm c3) (base - 8) (gpr c3 RAX)).
  { unfold c5, c4. cbn [step mm set_mm set_rsp]. rewrite T1, C1, u64_small by lia. f_equal. lia. }
  clearbody c5. clear c4. rewrite E.
  assert (Hh : holds (mm c5) base isr80_regs (with_rax (gpr c3 RAX) (gpr c0))).
  { rewrite M5. apply store_slot; [|by apply (bool_decide_eq_false_1 _)|exact T3].
    apply (holds_ext _ _ _ _ _ C10). intros x Hx. apply T4. change (lenZ _) with 15 in Hx. lia. }
  destruct (leave_ok c0 isr80_regs isr80_pops c5 _ (with_rax (gpr c3 RAX) (gpr c0)) base eq_refl) as [R M];
    try done; [apply isr80_complete|lia| |].
  - apply (saved_ext _ _ _ _ C11). intros x Hx. rewrite M5, rb_st_out by lia. apply T4. lia.
  - split; [done|]. rewrite M, M5. intros x Hx. apply rb_st_out. lia.
Qed.

(** ** The timer *)

(** The frame at [p] is that of the context [c]: vector and error code, the
    registers, and what [iretq] pops. *)
Record frame_at (c : cpu) (p : Z) (v : mem) : Prop := {
  fr_regs : holds v (p + 136) stub_regs (gpr c);
  fr_iret : saved c (p + 136) v
}.
Lemma frame_ext c p v w : frame_at c p v -> same_on p (p + 176) v w -> frame_at c p w.
Proof.
  intros [H1 H2] Hs. split.
  - apply (holds_ext _ _ _ _ _ H1). intros x Hx. change (lenZ stub_regs) with 15 in Hx. apply Hs. lia.
  - apply (saved_ext _ _ _ _ H2). intros x Hx. apply Hs. lia.
Qed.

Lemma two_pushes a b c :
  run [Push_imm a; Push_imm b] c = push_all [a; b] c.
Proof. done. Qed.

Lemma isr32_entry_ok c0 c1 :
  512 <= rsp c0 -> words c0 -> handling c0 c1 ->
  rsp (isr32_entry c1) = align16 (rsp c0) - 176 /\ frame_at c0 (align16 (rsp c0) - 176) (mm (isr32_entry c1)) /\
  only_in (align16 (rsp c0) - 176) (align16 (rsp c0)) (mm c0) (mm (isr32_entry c1)).
Proof.
  intros Hl Hw Hh. unfold isr32_entry.
  destruct (entry_ok c0 Hl Hw stub_regs _ _ ltac:(done) (cli_handling _ _ Hh) eq_refl) as [E1 _ _ E4 E5 E6].
  destruct (base_ok c0 Hl Hw) as (B1 & B2 & B3).
  set (c2 := run (Push <$> stub_regs) _) in *. clearbody c2. change (lenZ stub_regs) with 15 in E1.
  rewrite two_pushes. destruct (push_all_ok [0; 32] c2) as [[P1 _ _ P7] _].
  { change (lenZ [0; 32]) with 2. lia. }
  { unfold word64. lia. }
  { repeat (apply Forall_cons_2; [unfold word64; lia|]). constructor. }
  set (c3 := push_all _ _) in *. clearbody c3. change (lenZ [0; 32]) with 2 in *. split; [lia|].
  replace (align16 (rsp c0) - 176) with (align16 (rsp c0) - 40 - 136) by lia.
  assert (Hs : same_on (align16 (rsp c0) - 160) (align16 (rsp c0)) (mm c2) (mm c3)).
  { intros x Hx. symmetry. apply P7. lia. }
  split; [|intros x Hx; rewrite P7 by lia; apply E6; change (lenZ stub_regs) with 15; lia].
  split.
  - replace (align16 (rsp c0) - 40 - 136 + 136) with (align16 (rsp c0) - 40) by lia.
    apply (holds_ext _ _ _ _ _ E4). intros x Hx. change (lenZ stub_regs) with 15 in Hx. apply Hs. lia.
  - replace (align16 (rsp c0) - 40 - 136 + 136) with (align16 (rsp c0) - 40) by lia.
    apply (saved_ext _ _ _ _ E5). intros x Hx. apply Hs. lia.
Qed.

Lemma isr32_switch_ok c :
  8 <= rsp c < 18446744073709551616 ->
  let c' := isr32_switch c in
  gpr c' RDI = rsp c /\ gpr c' RSI = rsp c - 8 /\ rsp c' = rsp c - 8 /\ mm c' = mm c.
Proof.
  intros Hr. cbv zeta. set (c' := isr32_switch c).
  assert (E : gpr c' RDI = u64 (u64 (rsp c + -8) + 8) /\ gpr c' RSI = u64 (u64 (rsp c + -8) + 0) /\
    rsp c' = u64 (rsp c + -8) /\ mm c' = mm c) by done.
  clearbody c'. destruct E as (-> & -> & -> & ->). rewrite (u64_small (rsp c + -8)), !u64_small by lia.
  repeat split; lia.
Qed.

Lemma isr32_exit_ok c0 c n :
  word64 (rsp c) -> ld 8 (mm c) (rsp c) = n -> 0 <= n -> n + 176 < 18446744073709551616 -> frame_at c0 n (mm c) ->
  resumes (gpr c0) c0 (isr32_exit c) /\ mm (isr32_exit c) = mm c.
Proof.
  intros Hr Hn H0 H1 [F1 F2]. unfold isr32_exit. set (c2 := run [Load RAX 0; _; _; _; _] c).
  assert (E : rsp c2 = n + 16 /\ mm c2 = mm c).
  { assert (E : rsp c2 = u64 (u64 (ld 8 (mm c) (u64 (rsp c + 0)) + 8) + 8) /\ mm c2 = mm c) by done.
    clearbody c2. destruct E as [-> ->]. rewrite Z.add_0_r, (u64_small (rsp c)), Hn by done.
    rewrite (u64_small (n + 8)), u64_small by lia. split; [lia|done]. }
  destruct E as [E1 E2]. clearbody c2. rewrite <- E2 in *.
  apply (leave_ok c0 stub_regs stub_pops c2 _ (gpr c0) (n + 136)); try done; [apply stub_complete|..];
    change (lenZ stub_regs) with 15; lia.
Qed.

(** ** Exceptions with an error code *)

Lemma isr_stub_error_ok e c0 c1 :
  512 <= rsp c0 -> words c0 -> handling_error e c0 c1 ->
  rip (isr_stub c1) = e /\ cs (isr_stub c1) = rip c0 /\ rflags (isr_stub c1) = cs c0 /\
  rsp (isr_stub c1) = rflags c0.
Proof.
  intros Hl Hw [H1 H2 H3 H4 H5]. destruct (base_ok c0 Hl Hw) as (B1 & B2 & _).
  destruct (saves_ok stub_regs c1 _ eq_refl) as [[P1 _ _ P7] Hh]; [change (lenZ stub_regs) with 15; lia|done|].
  unfold isr_stub. set (c2 := run (Push <$> stub_regs) c1) in *. clearbody c2. change (lenZ stub_regs) with 15 in *.
  destruct (restore_ok stub_regs stub_pops c2 _ (rsp c1) (gpr c1) eq_refl eq_refl) as (R1 & R2 & _);
    [apply stub_complete|done|done|lia|lia|].
  set (c3 := run (Pop <$> stub_pops) c2) in *. clearbody c3.
  assert (Hs : forall k x, 0 <= k <= 32 -> x = rsp c1 + k -> ld 8 (mm c3) (u64 x) = ld 8 (mm c1) (align16 (rsp c0) - 48 + k)).
  { intros k x Hk ->. rewrite u64_small, R2, H1 by lia. apply ld_ext. intros y Hy. simpl in Hy. apply P7. lia. }
  destruct H4 as [S1 S2 S3 _ _].
  split; [|split; [|split]]; cbn [iretq rip cs rflags rsp]; rewrite R1.
  - rewrite (Hs 0) by lia. by rewrite Z.add_0_r.
  - rewrite (Hs 8), <- S1 by lia. f_equal. lia.
  - rewrite (Hs 16), <- S2 by lia. f_equal. lia.
  - rewrite (Hs 24), <- S3 by lia. f_equal. lia.
Qed.
