(* ===== verification/StubProps.v ===== *)
(** * What the interrupt stubs guarantee

    The properties of the assembly stubs, for every C function that keeps the
    ABI, and how they fit the frames the scheduler builds. *)

From Stdlib Require Import ZArith Lia.
From S2P Require Import Prelude Memory Heaps Multitask Cpu Stubs.

(** C17. The system call gate is transparent: [syscall_handler] is called with
    the caller's rax, rdi, rsi, rdx, r10, r8 and r9 as its parameters, in this
    order, and whatever it does to the caller-saved registers and to memory
    outside the stub's frame, the caller goes on after its int 0x80 with every
    register, the flags and the stack as they were, and rax alone holding the
    result.  The stack is misaligned at the call: its pointer is 8 modulo 16
    where the ABI asks for 0. *)
Theorem syscall_stub_transparent c0 h c3 :
  512 <= rsp c0 -> words c0 -> word64 h ->
  let cc := isr80_entry (deliver h None c0) in
  returns 8 (align16 (rsp c0)) cc c3 ->
  (gpr cc RDI = gpr c0 RAX /\ gpr cc RSI = gpr c0 RDI /\ gpr cc RDX = gpr c0 RSI /\ gpr cc RCX = gpr c0 RDX /\
   gpr cc R8 = gpr c0 R10 /\ gpr cc R9 = gpr c0 R8 /\ ld 8 (mm cc) (rsp cc) = gpr c0 R9) /\
  rsp cc mod 16 = 8 /\
  let c' := isr80_exit c3 in
  gpr c' RAX = gpr c3 RAX /\ (forall r, r <> RAX -> gpr c' r = gpr c0 r) /\
  rsp c' = rsp c0 /\ rip c' = rip c0 /\ cs c' = cs c0 /\ rflags c' = rflags c0 /\ ss c' = ss c0 /\
  only_in (align16 (rsp c0) - 48) (align16 (rsp c0) - 40) (mm c3) (mm c').
Proof.
  intros Hl Hw Hh cc Hr.
  pose proof (isr80_entry_ok c0 _ Hl Hw (deliver_ok h c0 ltac:(lia) Hw Hh)) as Hc. fold cc in Hc. clearbody cc.
  destruct (isr80_exit_ok c0 cc c3 Hl Hw Hc Hr) as [[R1 R2 R3 R4 R5 R6] Hm].
  destruct (align16_low c0 Hw) as [_ Ha]. destruct Hc as [C1 C2 C3 C4 C5 C6 C7 C8 _ _ _].
  split; [done|]. split.
  { rewrite C1. replace (align16 (rsp c0) - 168) with (align16 (rsp c0) - 11 * 16 + 8) by lia.
    rewrite Z.add_mod, Zminus_mod, Ha, Z.mod_mul by lia. done. }
  cbv zeta. split; [rewrite R1; unfold with_rax; by rewrite decide_True|]. split; [|done].
  intros r Hne. rewrite R1. unfold with_rax. by rewrite decide_False.
Qed.

(** C18. A context switch is a round trip.  The timer stub calls
    [schedule_from_isr] with the address of the interrupted context's frame,
    and whenever the stub later leaves through a slot that holds this address,
    on whatever stack and after whatever other tasks did, the processor goes
    on exactly where it was interrupted, as long as the 176 bytes of the frame
    are unchanged. *)
Theorem context_switch_roundtrip c0 h c3 :
  512 <= rsp c0 -> words c0 -> word64 h ->
  returns 0 (align16 (rsp c0)) (isr32_entry (deliver h None c0)) c3 ->
  let p := align16 (rsp c0) - 176 in
  let cc := isr32_switch c3 in
  gpr cc RDI = p /\ gpr cc RSI = p - 8 /\ rsp cc = p - 8 /\ mm cc = mm c3 /\
  forall c, word64 (rsp c) -> ld 8 (mm c) (rsp c) = p -> same_on p (p + 176) (mm c3) (mm c) ->
    same_cpu c0 (isr32_exit c).
Proof.
  intros Hl Hw Hh [T1 _ _ T4] p cc.
  destruct (isr32_entry_ok c0 _ Hl Hw (deliver_ok h c0 ltac:(lia) Hw Hh)) as (E1 & E2 & _).
  set (ce := isr32_entry _) in *. clearbody ce. fold p in E1, E2.
  destruct (align16_low c0 Hw) as [Ha _]. pose proof (w_rsp _ Hw) as Wr. unfold word64 in Wr.
  destruct (isr32_switch_ok c3) as (S1 & S2 & S3 & S4); [lia|]. fold cc in S1, S2, S3, S4. clearbody cc.
  rewrite S1, S2, S3, S4, T1, E1. do 4 (split; [done|]). intros c Hc Hn Hs.
  assert (Hf : frame_at c0 p (mm c)).
  { apply (frame_ext _ _ _ _ (frame_ext _ _ _ (mm c3) E2 ltac:(intros x Hx; apply T4; lia)) Hs). }
  destruct (isr32_exit_ok c0 c p Hc Hn ltac:(lia) ltac:(lia) Hf) as [[R1 R2 R3 R4 R5 R6] _]. by split.
Qed.

(** The words [prepare_initial_stack] writes are the frame of this context. *)
Definition start_cpu (entry top : Z) : cpu := Cpu (fun _ => 0) top entry 8 514 16 ∅.

Lemma start_frame entry top n v :
  (forall i w, (i, w) ∈ frame_words entry top -> ld 8 v (n + 8 * i) = w) -> frame_at (start_cpu entry top) n v.
Proof.
  intros Hf. assert (Hw : forall i w, List.In (i, w) (frame_words entry top) -> ld 8 v (n + 8 * i) = w).
  { intros i w Hin. apply Hf. by apply list_elem_of_In. }
  split.
  - intros i r Hi. pose proof (lookup_lt_Some _ _ _ Hi) as Hlt. cbn in Hlt.
    replace (n + 136 - 8 * (Z.of_nat i + 1)) with (n + 8 * (16 - Z.of_nat i)) by lia. apply Hw.
    do 15 (destruct i as [|i]; [cbn; tauto|]). lia.
  - split; cbn [rip cs rflags rsp ss start_cpu]; rewrite <- ?Z.add_assoc;
      [apply (Hw 17)|apply (Hw 18)|apply (Hw 19)|apply (Hw 20)|apply (Hw 21)]; cbn; tauto.
Qed.

(** A new task starts as it was created: when the timer stub leaves
    through a frame that holds the words [prepare_initial_stack] writes, the
    processor is at the entry point in kernel mode, with the stack at its top,
    interrupts on and all registers zero. *)
Theorem new_task_enters entry top n c :
  word64 (rsp c) -> ld 8 (mm c) (rsp c) = n -> 0 <= n -> n + 176 < 18446744073709551616 ->
  (forall i v, (i, v) ∈ frame_words entry top -> ld 8 (mm c) (n + 8 * i) = v) ->
  let c' := isr32_exit c in
  rip c' = entry /\ rsp c' = top /\ cs c' = 8 /\ ss c' = 16 /\ rflags c' = 514 /\ (forall r, gpr c' r = 0) /\
  mm c' = mm c.
Proof.
  intros Hc Hn H0 H1 Hf.
  destruct (isr32_exit_ok (start_cpu entry top) c n Hc Hn H0 H1 (start_frame _ _ _ _ Hf)) as [[R1 R2 R3 R4 R5 R6] Hm].
  by repeat split.
Qed.

(** C34. The exception stubs return to the interrupted instruction for the
    exceptions without an error code, and go astray for those with one: the
    error code stays on the stack, so [iretq] takes it for the address to go
    on at, the old rip for cs and the old flags for the stack pointer (the
    processor refuses such a selector with a further exception, which has an
    error code again; [iretq] here does not check selectors). *)
Theorem exception_stub_error_code c0 h e :
  512 <= rsp c0 -> words c0 -> word64 h -> word64 e ->
  same_cpu c0 (isr_stub (deliver h None c0)) /\
  let c' := isr_stub (deliver h (Some e) c0) in
  rip c' = e /\ cs c' = rip c0 /\ rflags c' = cs c0 /\ rsp c' = rflags c0.
Proof.
  intros Hl Hw Hh He. split.
  - destruct (isr_stub_ok c0 _ Hl Hw (deliver_ok h c0 ltac:(lia) Hw Hh)) as [R1 R2 R3 R4 R5 R6]. by split.
  - exact (isr_stub_error_ok e c0 _ Hl Hw (deliver_error_ok h e c0 ltac:(lia) Hw Hh He)).
Qed.

(** The keyboard's stub is transparent. *)
Theorem keyboard_stub_transparent c0 h c3 :
  512 <= rsp c0 -> words c0 -> word64 h ->
  returns 0 (align16 (rsp c0)) (isr33_entry (deliver h None c0)) c3 -> same_cpu c0 (isr33_exit c3).
Proof.
  intros Hl Hw Hh Hr.
  destruct (isr33_ok c0 _ _ c3 Hl Hw (deliver_ok h c0 ltac:(lia) Hw Hh) eq_refl Hr) as [[R1 R2 R3 R4 R5 R6] _].
  by split.
Qed.

(** ** Witnesses *)

Definition demo_cpu : cpu :=
  Cpu (fun r => match r with RAX => 10 | RDI => 64 | RBX => 77 | R9 => 9 | _ => 1 end) 8200 4198400 8 514 16 ∅.
Lemma demo_words : words demo_cpu.
Proof. split; [intros []|..]; unfold word64; cbn; lia. Qed.

(** A C function that only sets its result. *)
Lemma returns_value n top c v : word64 v -> returns n top c (set_gpr RAX v c).
Proof.
  intros Hv. split; [done| |done|done]. intros r Hr. cbn. rewrite decide_False; [done|].
  intros ->. by apply (bool_decide_eq_true_2 _) in Hr.
Qed.

Lemma syscall_stub_transparent_witness :
  let cc := isr80_entry (deliver 301032 None demo_cpu) in
  let c' := isr80_exit (set_gpr RAX 4136 cc) in
  gpr cc RDI = 10 /\ gpr cc RSI = 64 /\ rsp cc mod 16 = 8 /\
  gpr c' RAX = 4136 /\ gpr c' RBX = 77 /\ rip c' = 4198400 /\ rsp c' = 8200.
Proof.
  cbv zeta. set (cc := isr80_entry (deliver 301032 None demo_cpu)).
  assert (H0 : 512 <= rsp demo_cpu) by (cbn; lia). assert (Hh : word64 301032) by (unfold word64; lia).
  assert (Hr : returns 8 (align16 (rsp demo_cpu)) cc (set_gpr RAX 4136 cc)).
  { apply returns_value. unfold word64. lia. }
  destruct (syscall_stub_transparent demo_cpu 301032 (set_gpr RAX 4136 cc) H0 demo_words Hh Hr)
    as ((A1 & A2 & _) & A3 & B1 & B2 & B3 & B4 & _).
  split; [exact A1|]. split; [exact A2|]. split; [exact A3|]. split; [exact B1|].
  split; [exact (B2 RBX ltac:(discriminate))|]. split; [exact B4|exact B3].
Defined.

Lemma context_switch_roundtrip_witness :
  let cc := isr32_switch (set_gpr RAX 0 (isr32_entry (deliver 301000 None demo_cpu))) in
  gpr cc RDI = 8016 /\ rsp cc = 8008 /\
  forall c, word64 (rsp c) -> ld 8 (mm c) (rsp c) = 8016 -> same_on 8016 8192 (mm cc) (mm c) ->
    same_cpu demo_cpu (isr32_exit c).
Proof.
  cbv zeta. set (ce := isr32_entry (deliver 301000 None demo_cpu)).
  assert (H0 : 512 <= rsp demo_cpu) by (cbn; lia). assert (Hh : word64 301000) by (unfold word64; lia).
  assert (Hr : returns 0 (align16 (rsp demo_cpu)) ce (set_gpr RAX 0 ce)) by (apply returns_value; unfold word64; lia).
  destruct (context_switch_roundtrip demo_cpu 301000 (set_gpr RAX 0 ce) H0 demo_words Hh Hr) as (A1 & _ & A3 & A4 & A5).
  split; [exact A1|]. split; [exact A3|]. rewrite A4. exact A5.
Defined.

(** A frame at 4096 and a slot at 2048 that points to it. *)
Definition demo_frame : mem :=
  fold_left (fun m w => st 8 m (4096 + 8 * w.1) w.2) (frame_words 65536 12288) (st 8 ∅ 2048 4096).
Definition demo_leaving : cpu := Cpu (fun _ => 3) 2048 0 0 0 0 demo_frame.

Lemma new_task_enters_witness :
  let c' := isr32_exit demo_leaving in
  rip c' = 65536 /\ rsp c' = 12288 /\ cs c' = 8 /\ ss c' = 16 /\ rflags c' = 514 /\ (forall r, gpr c' r = 0) /\
  mm c' = demo_frame.
Proof.
  apply (new_task_enters 65536 12288 4096 demo_leaving); [unfold word64; cbn; lia|vm_compute; reflexivity|lia|lia|].
  intros i v Hin%list_elem_of_In. cbn in Hin.
  repeat (destruct Hin as [[= <- <-]|Hin]; [vm_compute; reflexivity|]). destruct Hin.
Defined.

(** A page fault: the error code 2 becomes the instruction pointer. *)
Lemma exception_stub_error_code_witness :
  same_cpu demo_cpu (isr_stub (deliver 300000 None demo_cpu)) /\
  let c' := isr_stub (deliver 300224 (Some 2) demo_cpu) in
  rip c' = 2 /\ cs c' = 4198400 /\ rflags c' = 8 /\ rsp c' = 514.
Proof.
  split.
  - apply (exception_stub_error_code demo_cpu 300000 0); [cbn; lia|apply demo_words|unfold word64; lia..].
  - apply (exception_stub_error_code demo_cpu 300224 2); [cbn; lia|apply demo_words|unfold word64; lia..].
Defined.

(** The interrupted stack's red zone is overwritten: eight bytes below the
    stack pointer of a leaf function stands its local variable. *)
Example red_zone_lost :
  let c := set_mm (st 8 ∅ 8184 1234) (set_rsp 8192 demo_cpu) in
  ld 8 (mm c) 8184 = 1234 /\ ld 8 (mm (deliver 301000 None c)) 8184 = 16.
Proof. by vm_compute. Qed.
