(* ===== verification/Preempt.v ===== *)
(** * Preemption: the scheduler and the timer stub together

    One processor and one memory, the scheduler of Multitask.v and the timer
    stub of Stubs.v.  A task computes, calls the kernel, and is interrupted;
    the compiled [timer_tick] and [schedule_from_isr] are arguments, bound to
    the ABI and to what their source does.  [parked] is a history variable:
    for every task, the context in which the timer last interrupted it, or
    the one it was created with. *)

From Stdlib Require Import ZArith Lia.
From S2P Require Import Prelude Memory AllocSpec Heaps HeapFill Multitask TaskLogic TaskStack TaskInv TaskOps.
From S2P Require Import TaskCalls TaskCreate TaskSched TaskSys TaskFrames TaskProps Cpu Stubs StubProps.

Section Preempt.
Context {H : Type} `{!Heaps H} (INIT INIT_STACK : Z).
(** The stack [kmain] runs on (kernel.asm), which init keeps, and the timer's
    gate. *)
Context (b_lo b_hi isr : Z).

Record rig := Rig { core : cpu; sch : sched H; xs : list Z; ys : list Z; parked : gmap Z cpu }.

Definition with_memory (m : mem) (s : sched H) : sched H := set_heaps (with_mem m (heaps s)) s.

Definition stack_lo (a : Z) (t : task) : Z := if a =? INIT then b_lo else kstack t.
Definition stack_hi (a : Z) (t : task) : Z := if a =? INIT then b_hi else kstack t + kstack_size t.

(** Neither heap nor the boot stack: static data, the screen, ... *)
Definition outside (x : Z) : Prop := ~ (k_lo <= x < k_hi) /\ ~ (u_lo <= x < u_hi) /\ ~ (b_lo <= x < b_hi).
(** A byte of a kernel region at one of the addresses [l]. *)
Definition region_of (A : regions) (l : list Z) (x : Z) : Prop := exists p d, p ∈ l /\ A !! p = Some d /\ p <= x < p + lenZ d.
(** The [task_t] objects. *)
Definition objects (s : sched H) : list Z := base.filter (fun a => a <> INIT) (keys (tasks s)).
(** What the kernel's code writes besides the heaps' own data: static data
    and tasks. *)
Definition kernel_data (A : regions) (s : sched H) (x : Z) : Prop := outside x \/ region_of A (objects s) x.
(** What the running task and its system calls write: also its stack, the
    kernel regions [X] and every user region. *)
Definition writable (A B : regions) (X : list Z) (s : sched H) (x : Z) : Prop :=
  kernel_data A s x \/ region_of A X x \/ in_live B x \/
  exists t, tasks s !! running INIT s = Some t /\ stack_lo (running INIT s) t <= x < stack_hi (running INIT s) t.
Definition writes (P : Z -> Prop) (m m' : mem) : Prop := forall x, ~ P x -> rb m' x = rb m x.

Definition park_new (o : op) (s s' : sched H) (P : gmap Z cpu) : gmap Z cpu :=
  match entry_of o, tasks s !! task_ring s', tasks s' !! task_ring s' with
  | Some e, None, Some T => <[task_ring s' := start_cpu e (kstack T + kstack_size T)]> P
  | _, _, _ => P
  end.

(** A step of the running task. *)
Inductive work : rig -> rig -> Prop :=
  | w_run c s X Y P c' A B rs zs :
      mt_ok INIT s A B X Y rs zs [] -> words c' -> writes (writable A B X s) (mm c) (mm c') ->
      work (Rig c s X Y P) (Rig c' (with_memory (mm c') s) X Y P)
  | w_call c s X Y P o r s1 X' Y' c' A B rs zs :
      (forall r, o <> Tick r) -> (forall e, entry_of o = Some e -> 0 <= e < 18446744073709551616) ->
      legal o s X Y -> exec INIT INIT_STACK o s = Ok (r, s1) -> after o r X Y X' Y' ->
      mt_ok INIT s1 A B X' Y' rs zs [] -> words c' -> writes (writable A B X' s1) (hp_mem (heaps s1)) (mm c') ->
      work (Rig c s X Y P) (Rig c' (with_memory (mm c') s1) X' Y' (park_new o s s1 P)).

(** The timer interrupt, to the call of the scheduler: [c2] is where
    [timer_tick] returns. *)
Record ticked (c : cpu) (s : sched H) (c2 : cpu) : Prop := {
  tk_stack t : tasks s !! running INIT s = Some t ->
    stack_lo (running INIT s) t + 512 <= rsp c /\ rsp c <= stack_hi (running INIT s) t;
  tk_returns : returns 0 (align16 (rsp c)) (isr32_entry (deliver isr None c)) c2;
  tk_writes t : tasks s !! running INIT s = Some t ->
    writes (fun x => outside x \/ stack_lo (running INIT s) t <= x < rsp c2) (mm (isr32_entry (deliver isr None c))) (mm c2)
}.
(** ... and from there: [c4] is where [schedule_from_isr] returns, with its
    result in the slot the stub reserved. *)
Record scheduled (A : regions) (s s' : sched H) (n : Z) (c3 c4 : cpu) : Prop := {
  sd_rsp : rsp c4 = rsp c3;
  sd_slot : ld 8 (mm c4) (rsp c3) = n;
  sd_writes t : tasks s !! running INIT s = Some t ->
    writes (fun x => kernel_data A s' x \/ stack_lo (running INIT s) t <= x < rsp c3 + 8) (mm c3) (mm c4)
}.
Inductive tick : rig -> rig -> Prop :=
  | t_tick c s X Y P c2 n s' c4 A B rs zs :
      mt_ok INIT s A B X Y rs zs [] -> ticked c s c2 ->
      schedule_from_isr INIT INIT_STACK (gpr (isr32_switch c2) RDI) (with_memory (mm c2) s) = Ok (n, s') ->
      scheduled A s s' n (isr32_switch c2) c4 ->
      tick (Rig c s X Y P) (Rig (isr32_exit c4) (with_memory (mm c4) s') X Y (<[running INIT s := c]> P)).

Inductive preempted : rig -> rig -> Prop :=
  | p_refl g : preempted g g
  | p_work g g1 g2 : preempted g g1 -> work g1 g2 -> preempted g g2
  | p_tick g g1 g2 : preempted g g1 -> tick g1 g2 -> preempted g g2.

(** Just after [scheduler_init]. *)
Record started (g : rig) : Prop := {
  st_mem : hp_mem (heaps (sch g)) = mm (core g);
  st_words : words (core g);
  st_cons : consistent INIT (sch g) (xs g) (ys g);
  st_current : current (sch g) = 0;
  st_alone a : is_Some (tasks (sch g) !! a) -> a = INIT
}.

(** ** Who may write where *)

Context `{!HeapsOk H, !HeapsFill H}.
Context (HIk : ~ (k_lo <= INIT < k_hi)) (Hklo : 0 <= k_lo) (Hkhi : k_hi < 18446744073709551616).
Context (Hboot : 0 <= b_lo /\ b_hi < 18446744073709551616).
Context (Hboot_k : b_hi <= k_lo \/ k_hi <= b_lo) (Hboot_u : b_hi <= u_lo \/ u_hi <= b_lo) (Hisr : word64 isr).

Definition touchable (A B : regions) (x : Z) : Prop :=
  ~ (k_lo <= x < k_hi \/ u_lo <= x < u_hi) \/ in_live A x \/ in_live B x.

Lemma region_live A l x : region_of A l x -> in_live A x.
Proof using. intros (p & d & _ & ? & ?). by exists p, d. Qed.
Lemma region_refill m A l x : region_of (refill m A) l x <-> region_of A l x.
Proof using.
  split; intros (p & d & Hl & Hp & Hx).
  - apply refill_some in Hp as (c & Hc & ->). unfold lenZ in *. rewrite length_rbs in Hx. by exists p, c.
  - exists p, (rbs m p (length d)). split; [done|]. rewrite refill_lookup, Hp. unfold lenZ in *. by rewrite length_rbs.
Qed.

Lemma keys_refill m A : keys (refill m A) ≡ₚ keys A.
Proof using.
  apply NoDup_Permutation; [apply keys_nodup..|]. intros x. rewrite !elem_of_keys. apply refill_dom.
Qed.

Lemma written_ok s m A B X Y rs zs :
  mt_ok INIT s A B X Y rs zs [] -> writes (touchable A B) (hp_mem (heaps s)) m ->
  mt_ok INIT (with_memory m s) (refill m A) (refill m B) X Y rs zs [].
Proof using All.
  intros Hok Hw. assert (Hr : hp_rel (with_mem m (heaps s)) (refill m A) (refill m B)).
  { apply hp_refill; [apply Hok|]. intros x Hx HA HB. apply Hw. unfold touchable. tauto. }
  pose proof (ok_k Hok) as HA. pose proof (ok_u Hok) as HB. pose proof (ok_stack Hok) as Hst.
  destruct Hok. split; try done.
  - by rewrite keys_refill.
  - by rewrite keys_refill.
  - intros a t Ha Ht. destruct (Hst a t Ha Ht) as (d & Hd & E). exists (rbs m (kstack t) (length d)).
    rewrite refill_lookup, Hd. split; [done|]. unfold lenZ in *. by rewrite length_rbs.
Qed.

(** A task's stack is no other object's. *)
Lemma stack_apart s A B X Y rs zs b u :
  mt_ok INIT s A B X Y rs zs [] -> b <> INIT -> tasks s !! b = Some u ->
  (kstack u ∉ X) /\ forall a t, a <> INIT -> tasks s !! a = Some t -> a <> kstack u /\ (a <> b -> kstack t <> kstack u).
Proof using.
  intros Hok Hb Hu. pose proof (keys_nodup A) as Hnd. rewrite <- (ok_k Hok), (owned_delete _ _ b u Hu) in Hnd.
  unfold kown in Hnd at 1. rewrite (proj2 (Z.eqb_neq _ _) Hb) in Hnd. rewrite <- app_assoc in Hnd.
  apply list.NoDup_app in Hnd as ([Hn1 _]%list.NoDup_cons & Hd & Hnd).
  assert (Hk : forall x, x ∈ owned (kown INIT) (delete b (tasks s)) \/ x ∈ X -> x <> kstack u).
  { intros x Hx ->. apply (Hd (kstack u)); [right; by left|by apply elem_of_app]. }
  split; [intros Hx; by apply (Hk (kstack u)); [right|]|]. intros a t Ha Ht. destruct (decide (a = b)) as [->|Hne].
  - split; [|done]. intros E. apply Hn1. rewrite E. by left.
  - assert (Ho : forall x, x ∈ kown INIT a t -> x <> kstack u).
    { intros x Hx. apply Hk. left. apply elem_of_owned. exists a, t. by rewrite lookup_delete_ne. }
    unfold kown in Ho. rewrite (proj2 (Z.eqb_neq _ _) Ha) in Ho.
    split; [apply Ho; by left|intros _; apply Ho; right; by left].
Qed.

Lemma object_spec s a : a ∈ objects s <-> a <> INIT /\ is_Some (tasks s !! a).
Proof using. unfold objects. by rewrite list_elem_of_filter, elem_of_keys. Qed.

(** What the kernel writes for itself, and the running task's stack, are none
    of another task's stack. *)
Lemma data_private s A B X Y rs zs b u x :
  mt_ok INIT s A B X Y rs zs [] -> tasks s !! b = Some u -> stack_lo b u <= x < stack_hi b u -> ~ kernel_data A s x.
Proof using All.
  intros Hok Hu Hx. unfold stack_lo, stack_hi in Hx. destruct (Z.eqb_spec b INIT) as [->|Hb].
  - intros [(_ & _ & Ho)|(p & d & _ & Hp & Hi)]; [lia|]. pose proof (k_inside _ _ _ _ _ (ok_heaps Hok) Hp). lia.
  - destruct (ok_stack Hok b u Hb Hu) as (du & Hdu & El). destruct (stack_apart _ _ _ _ _ _ _ _ _ Hok Hb Hu) as [_ Hap].
    pose proof (k_inside _ _ _ _ _ (ok_heaps Hok) Hdu) as Hin.
    intros [(Ho & _)|(p & d & [Hp0 [tp Htp]]%object_spec & Hp & Hi)]; [lia|].
    destruct (Hap p tp Hp0 Htp) as [Hne _]. destruct (k_disjoint _ _ _ (ok_heaps Hok) _ _ _ _ Hp Hdu Hne); lia.
Qed.

Lemma stack_private s A B X Y rs zs b u x :
  mt_ok INIT s A B X Y rs zs [] -> tasks s !! b = Some u -> b <> running INIT s ->
  stack_lo b u <= x < stack_hi b u -> ~ writable A B X s x.
Proof using All.
  intros Hok Hu Hbr Hx. pose proof (data_private _ _ _ _ _ _ _ _ _ x Hok Hu Hx) as Hd.
  intros [?|[(p & d & HpX & Hp & Hi)|[(p & d & Hp & Hi)|(t & Ht & Hi)]]]; [done|..];
    unfold stack_lo, stack_hi in *; destruct (Z.eqb_spec b INIT) as [->|Hb].
  - pose proof (k_inside _ _ _ _ _ (ok_heaps Hok) Hp). lia.
  - destruct (ok_stack Hok b u Hb Hu) as (du & Hdu & El). destruct (stack_apart _ _ _ _ _ _ _ _ _ Hok Hb Hu) as [HX _].
    assert (Hne : p <> kstack u) by (intros ->; done).
    destruct (k_disjoint _ _ _ (ok_heaps Hok) _ _ _ _ Hp Hdu Hne); lia.
  - pose proof (u_inside _ _ _ _ _ (ok_heaps Hok) Hp). lia.
  - destruct (ok_stack Hok b u Hb Hu) as (du & Hdu & El). pose proof (k_inside _ _ _ _ _ (ok_heaps Hok) Hdu).
    pose proof (u_inside _ _ _ _ _ (ok_heaps Hok) Hp). destruct areas_apart; lia.
  - rewrite (proj2 (Z.eqb_neq _ _)) in Hi by congruence. destruct (ok_stack Hok (running INIT s) t) as (dt & Hdt & El); [congruence|done|].
    pose proof (k_inside _ _ _ _ _ (ok_heaps Hok) Hdt). lia.
  - destruct (ok_stack Hok b u Hb Hu) as (du & Hdu & El). pose proof (k_inside _ _ _ _ _ (ok_heaps Hok) Hdu).
    destruct (Z.eqb_spec (running INIT s) INIT) as [|Hr]; [lia|].
    destruct (ok_stack Hok _ t Hr Ht) as (dt & Hdt & El'). destruct (stack_apart _ _ _ _ _ _ _ _ _ Hok Hb Hu) as [_ Hap].
    destruct (Hap _ t Hr Ht) as [_ Hne]. specialize (Hne ltac:(congruence)).
    destruct (k_disjoint _ _ _ (ok_heaps Hok) _ _ _ _ Hdt Hdu Hne); lia.
Qed.

(** ** The invariant *)

(** The frame of the task [b] lies in its stack and holds its context. *)
Definition parked_ok (m : mem) (P : gmap Z cpu) (b : Z) (u : task) : Prop :=
  exists f, P !! b = Some f /\ words f /\ stack_lo b u <= regs u /\ regs u + 176 <= stack_hi b u /\ frame_at f (regs u) m.

Definition same_place (b : Z) (u u' : task) : Prop :=
  regs u' = regs u /\ stack_lo b u' = stack_lo b u /\ stack_hi b u' = stack_hi b u.
Lemma same_place_next b u u' : set_next 0 u' = set_next 0 u -> same_place b u u'.
Proof using.
  intros Hu. assert (E : regs u' = regs u /\ kstack u' = kstack u /\ kstack_size u' = kstack_size u).
  { destruct u, u'. by injection Hu. }
  destruct E as (E1 & E2 & E3). unfold same_place, stack_lo, stack_hi. by rewrite E2, E3.
Qed.

Lemma parked_keep m m' P P' b u u' :
  parked_ok m P b u -> P' !! b = P !! b -> same_place b u u' ->
  same_on (stack_lo b u) (stack_hi b u) m m' -> parked_ok m' P' b u'.
Proof using.
  intros (f & Hf & Hw & H1 & H2 & Hfr) HP (E1 & E2 & E3) Hs. exists f. rewrite HP, E1, E2, E3.
  repeat (split; [done|]). apply (frame_ext _ _ _ _ Hfr). intros x Hx. apply Hs. lia.
Qed.

Record rig_ok (g : rig) : Prop := {
  rk_mem : hp_mem (heaps (sch g)) = mm (core g);
  rk_words : words (core g);
  rk_cons : consistent INIT (sch g) (xs g) (ys g);
  rk_parked b u : b <> running INIT (sch g) -> tasks (sch g) !! b = Some u -> state u <> TASK_ZOMBIE ->
    parked_ok (mm (core g)) (parked g) b u
}.

Lemma started_ok g : started g -> rig_ok g.
Proof using All.
  intros [H1 H2 H3 H4 H5]. split; [done|done|done|]. intros b u Hb Hu. exfalso. apply Hb.
  unfold running. rewrite H4. apply H5. by exists u.
Qed.

Lemma region_touch A B l x : region_of A l x -> touchable A B x.
Proof using All. intros ?%region_live. right. by left. Qed.
Lemma data_touch A B s x : kernel_data A s x -> touchable A B x.
Proof using All. intros [(H1 & H2 & _)|?]; [left; tauto|by eapply region_touch]. Qed.
Lemma stack_touch s A B X Y rs zs b u x :
  mt_ok INIT s A B X Y rs zs [] -> tasks s !! b = Some u -> stack_lo b u <= x < stack_hi b u -> touchable A B x.
Proof using All.
  intros Hok Hu Hx. unfold stack_lo, stack_hi in Hx. destruct (Z.eqb_spec b INIT) as [->|Hb]; [left; lia|].
  destruct (ok_stack Hok b u Hb Hu) as (d & Hd & El). right. left. exists (kstack u), d. split; [done|lia].
Qed.
Lemma writable_touch s A B X Y rs zs x :
  mt_ok INIT s A B X Y rs zs [] -> writable A B X s x -> touchable A B x.
Proof using All.
  intros Hok [?|[?|[?|(t & Ht & Hx)]]]; [by eapply data_touch|by eapply region_touch|by right; right|].
  by eapply stack_touch.
Qed.
Lemma writes_mono (P Q : Z -> Prop) m m' : (forall x, P x -> Q x) -> writes P m m' -> writes Q m m'.
Proof using All. intros HPQ Hw x Hx. apply Hw. auto. Qed.
Lemma writes_stack (Q : Z -> Prop) lo hi m m' : writes Q m m' -> (forall x, lo <= x < hi -> ~ Q x) -> same_on lo hi m m'.
Proof using All. intros Hw Hn x Hx. symmetry. apply Hw. by apply Hn. Qed.

(** ** The running task *)

Lemma parked_new o s s' P b u : tasks s !! b = Some u -> park_new o s s' P !! b = P !! b.
Proof using All.
  intros Hu. unfold park_new. destruct (entry_of o); [|done].
  destruct (tasks s !! task_ring s') eqn:E; [done|]. destruct (tasks s' !! task_ring s'); [|done].
  apply lookup_insert_ne. congruence.
Qed.

Lemma start_words e top : word64 e -> word64 top -> words (start_cpu e top).
Proof using All. intros ? ?. split; cbn; try done; unfold word64; lia. Qed.

(** Computing. *)
Lemma run_ok c s X Y P c' A B rs zs :
  mt_ok INIT s A B X Y rs zs [] -> words c' -> writes (writable A B X s) (mm c) (mm c') ->
  rig_ok (Rig c s X Y P) -> rig_ok (Rig c' (with_memory (mm c') s) X Y P).
Proof using All.
  intros Hok Hwd' Hwr [Hm _ _ Hp]. cbn [core sch xs ys parked] in *. rewrite <- Hm in Hwr.
  split; cbn [core sch xs ys parked].
  - by apply hp_mem_with.
  - done.
  - exists (refill (mm c') A), (refill (mm c') B), rs, zs. apply written_ok; [done|].
    eapply writes_mono; [|exact Hwr]. intros x. by eapply writable_touch.
  - intros b u Hb Hu Hs. apply (parked_keep (mm c) _ P _ b u); [by apply Hp|done|done|].
    rewrite <- Hm. eapply writes_stack; [exact Hwr|]. intros x Hx. by eapply stack_private.
Qed.

(** A call, before the last writes. *)
Lemma exec_parked o s s1 r X Y X' Y' P m A B rs zs :
  (forall r, o <> Tick r) -> (forall e, entry_of o = Some e -> 0 <= e < 18446744073709551616) ->
  legal o s X Y -> exec INIT INIT_STACK o s = Ok (r, s1) -> mt_ok INIT s1 A B X' Y' rs zs [] ->
  consistent INIT s X Y -> hp_mem (heaps s) = m ->
  (forall b u, b <> running INIT s -> tasks s !! b = Some u -> state u <> TASK_ZOMBIE -> parked_ok m P b u) ->
  forall b u, b <> running INIT s1 -> tasks s1 !! b = Some u -> state u <> TASK_ZOMBIE ->
    parked_ok (hp_mem (heaps s1)) (park_new o s s1 P) b u.
Proof using All.
  intros Ht He Hl E Hok Hc Hm Hp b u Hb Hu Hs.
  pose proof (exec_keeps INIT INIT_STACK HIk Hklo Hkhi o s X Y Hc Hl Ht He) as Hk.
  pose proof (exec_framed INIT INIT_STACK HIk Hklo Hkhi o s X Y Hc Hl) as Hfr. unfold kept_by, wp in Hk, Hfr.
  rewrite E in Hk, Hfr. destruct Hk as [Hcur Hk], Hfr as [_ Hoff].
  assert (Hrun : running INIT s1 = running INIT s) by (unfold running; by rewrite Hcur).
  destruct (Hk b u) as [(u0 & Hu0 & Eu & Hst)|(Hn & Hr & e & Ee & F1 & F2 & _ & F4)]; [congruence|done| |].
  - assert (Es : state u = state u0) by (destruct u, u0; by injection Eu).
    apply (parked_keep m _ P _ b u0); [apply Hp; congruence|by eapply parked_new|by apply same_place_next|].
    rewrite <- Hm. unfold stack_lo, stack_hi. destruct (Z.eqb_spec b INIT) as [->|Hb']; [|by apply Hst].
    intros x Hx. symmetry. apply Hoff; lia.
  - assert (HbI : b <> INIT).
    { intros ->. destruct Hc as (A0 & B0 & rs0 & zs0 & Hok0). destruct (ok_init Hok0) as [Hi _].
      destruct (ring_in _ _ _ _ (ok_ring Hok0) Hi) as [ti Hti]. congruence. }
    destruct (ok_stack Hok b u HbI Hu) as (d & Hd & El). pose proof (k_inside _ _ _ _ _ (ok_heaps Hok) Hd).
    exists (start_cpu e (kstack u + kstack_size u)). split.
    { unfold park_new. rewrite Ee, <- Hr, Hn, Hu. apply lookup_insert_eq. }
    split; [apply start_words; [by apply He|unfold word64; lia]|].
    unfold stack_lo, stack_hi. rewrite (proj2 (Z.eqb_neq _ _) HbI). do 2 (split; [done|]). by apply start_frame.
Qed.

Lemma work_ok g g' : work g g' -> rig_ok g -> rig_ok g'.
Proof using All.
  intros Hw Hg. destruct Hw as [c s X Y P c' A B rs zs Hok Hwd' Hwr|c s X Y P o r s1 X' Y' c' A B rs zs Ht He Hl E Ha Hok Hwd' Hwr].
  { by eapply run_ok. }
  destruct Hg as [Hm Hwd Hc Hp]. cbn [core sch xs ys parked] in *.
  split; cbn [core sch xs ys parked].
  - by apply hp_mem_with.
  - done.
  - exists (refill (mm c') A), (refill (mm c') B), rs, zs. apply written_ok; [done|].
    eapply writes_mono; [|exact Hwr]. intros x. by eapply writable_touch.
  - intros b u Hb Hu Hs.
    apply (parked_keep (hp_mem (heaps s1)) _ (park_new o s s1 P) _ b u); [by eapply exec_parked|done|done|].
    eapply writes_stack; [exact Hwr|]. intros x Hx. by eapply stack_private.
Qed.

(** ** The interrupt *)

Section Tick.
Context (c : cpu) (s : sched H) (c2 : cpu) (A B : regions) (X Y rs zs : list Z) (tc : task).
Context (Hok : mt_ok INIT s A B X Y rs zs []) (Htc : tasks s !! running INIT s = Some tc).
Context (Hm : hp_mem (heaps s) = mm c) (Hwd : words c) (Htk : ticked c s c2).
Abbreviation a := (running INIT s).
Abbreviation p := (align16 (rsp c) - 176).

Lemma stack_range : 0 <= stack_lo a tc /\ stack_hi a tc < 18446744073709551616.
Proof using All.
  unfold stack_lo, stack_hi. destruct (Z.eqb_spec a INIT) as [E|E]; [lia|].
  destruct (ok_stack Hok _ tc E Htc) as (d & Hd & El). pose proof (k_inside _ _ _ _ _ (ok_heaps Hok) Hd). lia.
Qed.

(** Where the scheduler is called. *)
Lemma ticked_ok :
  rsp c2 = p /\ frame_at c p (mm c2) /\ stack_lo a tc + 8 <= p /\ p + 176 <= stack_hi a tc /\
  writes (fun x => outside x \/ stack_lo a tc <= x < stack_hi a tc) (mm c) (mm c2).
Proof using All.
  destruct Htk as [Hst [T1 _ _ T4] Hw]. destruct (Hst tc Htc) as [H1 H2]. specialize (Hw tc Htc).
  destruct stack_range as [H3 H4]. destruct (align16_low c Hwd) as [Ha _].
  destruct (isr32_entry_ok c _ ltac:(lia) Hwd (deliver_ok isr c ltac:(lia) Hwd Hisr)) as (E1 & E2 & E3).
  set (c1 := isr32_entry _) in *. clearbody c1. rewrite E1 in *. rewrite T1 in *.
  split; [done|]. split; [|split; [lia|split; [lia|]]].
  - apply (frame_ext _ _ _ _ E2). intros x Hx. apply T4. lia.
  - intros x Hx. rewrite Hw, E3; [done|lia|]. intros [?|?]; apply Hx; [by left|right; lia].
Qed.

(** The tasks after the switch: the interrupted one and the others. *)
Lemma chosen (s' : sched H) nx tn b u :
  nx ∈ rs -> nx ∉ zs ->
  <[a := leave INIT_STACK (current s =? 0) p tc]> (tasks s) !! nx = Some tn ->
  tasks s' = <[nx := set_state TASK_RUNNING tn]> (<[a := leave INIT_STACK (current s =? 0) p tc]> (tasks s)) ->
  tasks s' !! b = Some u -> state u <> TASK_ZOMBIE ->
  (b = a /\ regs u = p /\ stack_lo b u = stack_lo a tc /\ stack_hi b u = stack_hi a tc) \/
  (b <> a /\ exists u0, tasks s !! b = Some u0 /\ state u0 <> TASK_ZOMBIE /\ same_place b u0 u).
Proof using All.
  intros Hnr Hnz Htn -> Hu Hs.
  assert (Hl : let u := leave INIT_STACK (current s =? 0) p tc in
    regs u = p /\ stack_lo a u = stack_lo a tc /\ stack_hi a u = stack_hi a tc).
  { destruct (leave_same INIT_STACK (current s =? 0) p tc) as (_ & _ & _ & _ & L5 & L6). split; [done|].
    unfold stack_lo, stack_hi, running in *. destruct (Z.eqb_spec (current s) 0) as [E|E]; [by rewrite Z.eqb_refl|].
    destruct (L6 eq_refl) as [-> ->]. done. }
  apply lookup_insert_Some in Hu as [[<- <-]|[Hne Hu]].
  - apply lookup_insert_Some in Htn as [[<- <-]|[Hne Htn]]; [left; by split|right].
    split; [done|]. exists tn. split; [done|]. split; [|done]. intros Ez. apply Hnz.
    pose proof (ok_listed Hok nx tn Hnr Htn Ez) as Hin. by rewrite app_nil_r in Hin.
  - apply lookup_insert_Some in Hu as [[<- <-]|[Hne' Hu]]; [left; by split|right].
    split; [done|]. by exists u.
Qed.

Abbreviation s0 := (with_memory (mm c2) s).
Lemma synced_ok : mt_ok INIT s0 (refill (mm c2) A) (refill (mm c2) B) X Y rs zs [].
Proof using All.
  destruct ticked_ok as (_ & _ & _ & _ & K5). apply written_ok; [done|]. rewrite Hm. eapply writes_mono; [|exact K5].
  intros x [[H5 H6]|Hx]; [left; tauto|]. by eapply (stack_touch s A B).
Qed.

(** What the scheduler picks. *)
Record picked (n : Z) (s' : sched H) (tn t : task) : Prop := {
  pk_ok : mt_ok INIT s' (refill (mm c2) A) (refill (mm c2) B) X Y rs zs [];
  pk_mem : hp_mem (heaps s') = mm c2;
  pk_ring : current s' ∈ rs /\ (current s' ∉ zs) /\ current s' <> 0;
  pk_old : <[a := leave INIT_STACK (current s =? 0) p tc]> (tasks s) !! current s' = Some tn;
  pk_tasks : tasks s' = <[current s' := set_state TASK_RUNNING tn]> (<[a := leave INIT_STACK (current s =? 0) p tc]> (tasks s));
  pk_new : tasks s' !! current s' = Some t;
  pk_regs : n = regs t
}.
Lemma picks : wp (schedule_from_isr INIT INIT_STACK p) (fun n s' => exists tn t, picked n s' tn t) s0.
Proof using All.
  pose proof synced_ok as Hok0. destruct (visits_exist INIT _ _ _ _ _ _ _ _ Hok0) as [order Hv].
  apply (schedule_ok INIT INIT_STACK p _ _ X Y rs zs order _ s0 Hok0 Hv).
  intros s' nx t o1 o2 Hok' (tc' & tn & Htc' & Htn & Ets & _ & _ & _ & _ & Hh & Hcur & _) _ Hnr Hnz _ _ Ht.
  change (tasks s0) with (tasks s) in *. change (running INIT s0) with a in *. change (current s0) with (current s) in *.
  rewrite Htc in Htc'. injection Htc' as <-. subst nx. exists tn, t. split; try done.
  - rewrite Hh. apply hp_mem_with.
  - do 2 (split; [done|]). apply (ok_nz Hok'). by exists t.
Qed.

(** The memory after the scheduler. *)
Definition after_schedule (s' : sched H) (m : mem) : Prop :=
  writes (fun x => kernel_data A s' x \/ stack_lo a tc <= x < p) (mm c2) m.

Lemma switched_ok n s' tn t m : picked n s' tn t -> after_schedule s' m -> consistent INIT (with_memory m s') X Y.
Proof using All.
  intros [Hok' Hm' _ _ _ _ _] S3. destruct ticked_ok as (_ & _ & K3 & K4 & _).
  eexists _, _, rs, zs. apply written_ok; [exact Hok'|]. rewrite Hm'. eapply writes_mono; [|exact S3].
  intros x [[Ho|Hx%(region_refill (mm c2))]|Hx].
  - left. destruct Ho. tauto.
  - by eapply region_touch.
  - destruct (stack_touch s A B X Y rs zs a tc x Hok Htc ltac:(lia)) as [?|[(q & d & Hq & Hx')|(q & d & Hq & Hx')]];
      [by left|right; left|right; right]; exists q, (rbs (mm c2) q (length d)); rewrite refill_lookup, Hq;
      (split; [done|unfold lenZ in *; by rewrite length_rbs]).
Qed.

(** The frames of all the tasks are in place. *)
Lemma switched_parked P n s' tn t m b u :
  (forall b u, b <> a -> tasks s !! b = Some u -> state u <> TASK_ZOMBIE -> parked_ok (mm c) P b u) ->
  picked n s' tn t -> after_schedule s' m -> tasks s' !! b = Some u -> state u <> TASK_ZOMBIE ->
  parked_ok m (<[a := c]> P) b u.
Proof using All.
  intros Hp [Hok' _ (Hnr & Hnz & _) Htn Ets _ _] S3 Hu Hs. destruct ticked_ok as (_ & K2 & K3 & K4 & K5).
  assert (Hdata : forall x, stack_lo b u <= x < stack_hi b u -> ~ kernel_data A s' x).
  { intros x Hx Hd. eapply (data_private s' _ _ _ _ _ _ b u x Hok' Hu Hx). destruct Hd as [?|Hd]; [by left|].
    right. by apply region_refill. }
  destruct (chosen s' _ tn b u Hnr Hnz Htn Ets Hu Hs) as [(-> & E1 & E2 & E3)|(Hne & u0 & Hu0 & Hs0 & Hpl)].
  - rewrite E2, E3 in Hdata. exists c. rewrite lookup_insert_eq. do 2 (split; [done|]).
    rewrite E1, E2, E3. split; [lia|]. split; [done|]. apply (frame_ext _ _ _ _ K2).
    eapply writes_stack; [exact S3|]. intros x Hx [Hd|Hd]; [|lia]. apply (Hdata x); [lia|done].
  - pose proof Hpl as (_ & E2 & E3). rewrite E2, E3 in Hdata.
    apply (parked_keep (mm c) _ P _ b u0); [by apply Hp|by rewrite lookup_insert_ne|done|].
    etransitivity; (eapply writes_stack; [first [exact K5|exact S3]|]); intros x Hx Hd;
      (eapply (stack_private s A B); [exact Hok|exact Hu0|exact Hne|exact Hx|]).
    + destruct Hd as [Ho|Ho]; [by left; left|]. right. right. right. by exists tc.
    + destruct Hd as [Ho|Ho]; [by destruct (Hdata x Hx)|]. right. right. right. exists tc. split; [done|lia].
Qed.

(** The registers at the two calls. *)
Lemma switch_regs : gpr (isr32_switch c2) RDI = p /\ rsp (isr32_switch c2) = p - 8 /\ mm (isr32_switch c2) = mm c2.
Proof using All.
  destruct ticked_ok as (K1 & _ & K3 & K4 & _). destruct stack_range as [H3 H4].
  destruct (isr32_switch_ok c2) as (D1 & _ & D3 & D4); [lia|]. by rewrite D1, D3, D4, K1.
Qed.

Lemma switch_ok P n s' c4 :
  (forall b u, b <> a -> tasks s !! b = Some u -> state u <> TASK_ZOMBIE -> parked_ok (mm c) P b u) ->
  schedule_from_isr INIT INIT_STACK (gpr (isr32_switch c2) RDI) s0 = Ok (n, s') ->
  scheduled A s s' n (isr32_switch c2) c4 ->
  consistent INIT (with_memory (mm c4) s') X Y /\
  (forall b u, tasks s' !! b = Some u -> state u <> TASK_ZOMBIE -> parked_ok (mm c4) (<[a := c]> P) b u) /\
  rsp c4 = p - 8 /\ ld 8 (mm c4) (p - 8) = n /\
  exists t, tasks s' !! current s' = Some t /\ state t <> TASK_ZOMBIE /\ regs t = n /\ current s' <> 0.
Proof using All.
  intros Hp E [S1 S2 S3]. specialize (S3 tc Htc). destruct switch_regs as (D1 & D3 & D4).
  rewrite D1, D3, D4 in *. replace (p - 8 + 8) with p in S3 by lia.
  pose proof picks as Hpk. unfold wp in Hpk. rewrite E in Hpk. destruct Hpk as (tn & t & Hpk).
  split; [by eapply switched_ok|]. split; [intros b u; by eapply switched_parked|]. split; [done|]. split; [done|].
  destruct Hpk as [Hok' _ (Hnr & Hnz & Hn0) _ _ Ht ->]. exists t. split; [done|]. split; [|done].
  intros Ez. apply Hnz. pose proof (ok_listed Hok' _ t Hnr Ht Ez) as Hin. by rewrite app_nil_r in Hin.
Qed.
End Tick.

Lemma resumed_words f c' : resumes (gpr f) f c' -> words f -> words c'.
Proof using.
  intros [R1 R2 R3 R4 R5 R6] [W1 W2 W3 W4 W5 W6]. split; [intros r; by rewrite R1|congruence..].
Qed.

Lemma running_task s X Y : consistent INIT s X Y -> exists t, tasks s !! running INIT s = Some t.
Proof using.
  intros (A & B & rs & zs & Hok). destruct (visits_exist INIT _ _ _ _ _ _ _ _ Hok) as (o & [_ _ (t & Ht & _)]).
  by exists t.
Qed.

Lemma tick_ok g g' : tick g g' -> rig_ok g ->
  rig_ok g' /\ exists f, parked g' !! current (sch g') = Some f /\ same_cpu f (core g').
Proof using All.
  intros Hstep [Hm Hwd Hc Hp]. destruct Hstep as [c s X Y P c2 n s' c4 A B rs zs Hok Htk E Hs].
  cbn [core sch xs ys parked] in *. destruct (running_task _ _ _ Hc) as [tc Htc].
  destruct (switch_ok c s c2 A B X Y rs zs tc Hok Htc Hm Hwd Htk P n s' c4 Hp E Hs)
    as (Hc' & Hp' & Hr4 & Hn & t & Ht & Hlive & Hrg & Hc0).
  destruct (Hp' _ t Ht Hlive) as (f & Hf & Hwf & L1 & L2 & Hfr). rewrite Hrg in *.
  assert (Ht' : tasks (with_memory (mm c4) s') !! running INIT s' = Some t).
  { unfold running. by rewrite (proj2 (Z.eqb_neq _ _) Hc0). }
  destruct (ticked_ok c s c2 A B X Y rs zs tc Hok Htc Hm Hwd Htk) as (_ & _ & K3 & _ & _).
  destruct (stack_range c s c2 A B X Y rs zs tc Hok Htc Hm Hwd Htk) as [H3 _].
  destruct (align16_low c Hwd) as [Ha _]. pose proof (w_rsp _ Hwd) as Wr. unfold word64 in Wr.
  assert (Hrange : 0 <= n /\ n + 176 < 18446744073709551616).
  { destruct Hc' as (A' & B' & rs' & zs' & Hok').
    unfold stack_lo, stack_hi in L1, L2. destruct (Z.eqb_spec (current s') INIT) as [E'|E']; [lia|].
    destruct (ok_stack Hok' _ t E' Ht) as (d & Hd & El). pose proof (k_inside _ _ _ _ _ (ok_heaps Hok') Hd). lia. }
  destruct (isr32_exit_ok f c4 n) as [Hres Hmm]; [rewrite Hr4; unfold word64; lia|by rewrite Hr4|lia|lia|done|].
  split.
  - split; cbn [core sch xs ys parked].
    + rewrite Hmm. apply hp_mem_with.
    + by eapply resumed_words.
    + exact Hc'.
    + intros b u _ Hu Hs'. rewrite Hmm. by apply Hp'.
  - exists f. split; [exact Hf|]. by destruct Hres as [R1 R2 R3 R4 R5 R6].
Qed.

(** The scheduler always has a task to switch to. *)
Lemma schedule_returns g c2 :
  rig_ok g -> ticked (core g) (sch g) c2 ->
  exists n s', schedule_from_isr INIT INIT_STACK (gpr (isr32_switch c2) RDI) (with_memory (mm c2) (sch g)) = Ok (n, s').
Proof using All.
  intros [Hm Hwd (A & B & rs & zs & Hok) _] Htk. destruct g as [c s X Y P]. cbn [core sch xs ys] in *.
  destruct (running_task s X Y) as [tc Htc]; [by exists A, B, rs, zs|].
  destruct (switch_regs c s c2 A B X Y rs zs tc Hok Htc Hm Hwd Htk) as (-> & _).
  destruct (wp_ok _ _ _ (picks c s c2 A B X Y rs zs tc Hok Htc Hm Hwd Htk)) as (n & s' & E & _). by exists n, s'.
Qed.

Lemma preempted_ok g g' : preempted g g' -> rig_ok g -> rig_ok g'.
Proof using All.
  induction 1 as [|g g1 g2 _ IH Hw|g g1 g2 _ IH Ht]; intros Hg; [done|by eapply work_ok; [|apply IH]|].
  by apply (tick_ok g1 g2 Ht), IH.
Qed.

(** C4. Preemption is transparent.  However the tasks compute, call the kernel and
    are interrupted after [scheduler_init], as long as they write only what is
    theirs and their stacks have room for the interrupt: the scheduler called
    from a timer interrupt always returns, and the stub then continues some
    task in exactly the context in which the timer had last interrupted it -
    every register, the flags and the stack pointer, and nothing has touched
    the frame since - or, if it never ran, at the entry point it was created
    with. *)
Theorem preemption_transparent g0 g :
  started g0 -> preempted g0 g ->
  (forall g', tick g g' -> exists f, parked g' !! current (sch g') = Some f /\ same_cpu f (core g')) /\
  (forall c2, ticked (core g) (sch g) c2 -> exists n s',
     schedule_from_isr INIT INIT_STACK (gpr (isr32_switch c2) RDI) (with_memory (mm c2) (sch g)) = Ok (n, s')).
Proof using All.
  intros H0 Hp. pose proof (preempted_ok _ _ Hp (started_ok _ H0)) as Hg. split.
  - intros g' Ht. by apply (tick_ok g g' Ht).
  - intros c2. by apply schedule_returns.
Qed.
End Preempt.

(** ** A run

    On the kernel of TaskProps.v, init creates a task that starts at 1000 and
    is interrupted. *)
Section Demo.
#[local] Existing Instance demo_heaps.
#[local] Existing Instance demo_heaps_ok.
#[local] Instance demo_heaps_fill : HeapsFill heap_pair.
Proof. apply heap_pair_fill. lia. Qed.

Definition demo_create : op := Create 1000 4096.
Definition demo_core (m : mem) : cpu := Cpu (fun _ => 7) 65000 1048576 8 514 16 m.
Definition demo_g0 : rig := Rig (demo_core (hp_mem (heaps demo_init))) demo_init [] [] ∅.
Definition demo_m1 : mem := hp_mem (heaps demo_one).
Definition demo_p1 : gmap Z cpu := park_new demo_create demo_init demo_one ∅.
Definition demo_g1 : rig := Rig (demo_core demo_m1) (with_memory demo_m1 demo_one) [] [] demo_p1.
(** [timer_tick] only returns. *)
Definition demo_c2 : cpu := set_gpr RAX 0 (isr32_entry (deliver 301000 None (core demo_g1))).
(** [schedule_from_isr] only writes its result. *)
Definition demo_c4 (n : Z) : cpu :=
  let c3 := isr32_switch demo_c2 in set_mm (st 8 (mm c3) (rsp c3) n) c3.

Lemma demo_core_words m : words (demo_core m).
Proof. split; unfold word64; cbn; lia. Qed.
Lemma demo_started : started 64 demo_g0.
Proof.
  split; [done|apply demo_core_words|apply demo_init_ok|done|]. intros a [t Ht]. cbn in Ht. revert Ht.
  change (tasks demo_init) with ({[64 := Task 0 TASK_RUNNING 0 0 0 0 64 0 0 0]} : gmap Z task).
  by intros [<- _]%lookup_singleton_Some.
Qed.

Lemma demo_one_ok : legal demo_create demo_init [] [] /\ consistent 64 demo_one [] [].
Proof.
  assert (Hl : legal demo_create demo_init [] []).
  { split; [by left|]. apply (demo_create_safe _ _ [] []); [apply demo_init_ok|by vm_compute..]. }
  split; [exact Hl|]. apply (demo_step _ _ [] []); [apply demo_init_ok|exact Hl|by vm_compute].
Qed.

(** A call after which nothing else is written. *)
Lemma plain_work o s r s1 c c' m P :
  (forall r, o <> Tick r) -> (forall e, entry_of o = Some e -> 0 <= e < 18446744073709551616) ->
  legal o s [] [] -> exec 64 128 o s = Ok (r, s1) -> after o r [] [] [] [] -> consistent 64 s1 [] [] ->
  words c' -> mm c' = m -> m = hp_mem (heaps s1) ->
  work 64 128 49152 65536 (Rig c s [] [] P) (Rig c' (with_memory m s1) [] [] (park_new o s s1 P)).
Proof.
  intros Ht He Hl E Ha (A & B & rs & zs & Hok) Hw <- Em. eapply w_call; try done. by intros x _; rewrite Em.
Qed.
Lemma demo_m1_eq : demo_m1 = hp_mem (heaps demo_one).
Proof. unfold demo_m1. reflexivity. Qed.
Lemma demo_core_mm m : mm (demo_core m) = m.
Proof. done. Qed.

Lemma demo_work : work 64 128 49152 65536 demo_g0 demo_g1.
Proof.
  destruct demo_one_ok as [Hl Hc].
  assert (E : exec 64 128 demo_create demo_init = Ok (Some 0, demo_one)) by by vm_compute.
  unfold demo_g0, demo_g1, demo_p1. apply (plain_work demo_create demo_init (Some 0) demo_one).
  - done.
  - intros e [= <-]. lia.
  - exact Hl.
  - exact E.
  - split; reflexivity.
  - exact Hc.
  - apply demo_core_words.
  - apply demo_core_mm.
  - exact demo_m1_eq.
Qed.

(** A [timer_tick] that only returns, and a scheduler that only writes its
    result. *)
Lemma set_gpr_mm r v c : mm (set_gpr r v c) = mm c.
Proof. done. Qed.
Lemma plain_tick c s c1 :
  c1 = isr32_entry (deliver 301000 None c) ->
  (forall t, tasks s !! running 64 s = Some t ->
     stack_lo 64 49152 (running 64 s) t + 512 <= rsp c /\ rsp c <= stack_hi 64 65536 (running 64 s) t) ->
  ticked 64 49152 65536 301000 c s (set_gpr RAX 0 c1).
Proof.
  intros E Hs. split; [exact Hs| |]; rewrite <- E; [|intros t _ x _; by rewrite set_gpr_mm].
  apply returns_value. unfold word64. lia.
Qed.

Lemma plain_schedule (A : regions) (s s' : sched heap_pair) n c3 c4 :
  c4 = set_mm (st 8 (mm c3) (rsp c3) n) c3 -> word64 n ->
  (forall t, tasks s !! running 64 s = Some t -> stack_lo 64 49152 (running 64 s) t <= rsp c3) ->
  scheduled 64 49152 65536 A s s' n c3 c4.
Proof.
  intros -> Hn Hs. split; [done|by apply ld_st_small|]. intros t Ht x Hx. specialize (Hs t Ht). cbn [mm set_mm].
  apply rb_st_out. destruct (decide (rsp c3 <= x < rsp c3 + 8)) as [Hin|Hout]; [|lia].
  exfalso. apply Hx. right. lia.
Qed.

Lemma demo_init_runs : running 64 (sch demo_g1) = 64.
Proof. by vm_compute. Qed.
Lemma demo_ticked : ticked 64 49152 65536 301000 (core demo_g1) (sch demo_g1) demo_c2.
Proof.
  unfold demo_c2. apply plain_tick; [reflexivity|]. intros t _. rewrite demo_init_runs. unfold stack_lo, stack_hi. cbn. lia.
Qed.

Lemma plain_switch c s P c2 n s' c4 :
  consistent 64 s [] [] -> running 64 s = 64 -> ticked 64 49152 65536 301000 c s c2 ->
  schedule_from_isr 64 128 (gpr (isr32_switch c2) RDI) (with_memory (mm c2) s) = Ok (n, s') ->
  c4 = set_mm (st 8 (mm (isr32_switch c2)) (rsp (isr32_switch c2)) n) (isr32_switch c2) ->
  word64 n -> 49152 <= rsp (isr32_switch c2) ->
  tick 64 128 49152 65536 301000 (Rig c s [] [] P)
    (Rig (isr32_exit c4) (with_memory (mm c4) s') [] [] (<[64 := c]> P)).
Proof.
  intros (A & B & rs & zs & Hok) Hr Ht E E4 Hn Hs.
  pose proof (t_tick 64 128 49152 65536 301000 c s [] [] P c2 n s' c4 A B rs zs Hok Ht E) as Hstep.
  rewrite Hr in Hstep. apply Hstep. apply plain_schedule; [exact E4|exact Hn|]. intros t _. by rewrite Hr.
Qed.

Lemma res_ok {T} (x : res (Z * T)) (Q : Z -> T -> Prop) :
  match x with Ok (n, s') => Q n s' | _ => False end -> exists n s', x = Ok (n, s') /\ Q n s'.
Proof. destruct x as [[n s']| |]; [by exists n, s'|done..]. Qed.

(** The scheduler picks the new task at 4136, whose frame lies at 8160. *)
Lemma demo_switch_ok : exists n s',
  schedule_from_isr 64 128 (gpr (isr32_switch demo_c2) RDI) (with_memory (mm demo_c2) (sch demo_g1)) = Ok (n, s') /\
  n = 8160 /\ current s' = 4136.
Proof. apply res_ok. vm_compute. by split. Qed.
Lemma demo_switch_rsp : rsp (isr32_switch demo_c2) = 64808.
Proof. by vm_compute. Qed.
Lemma demo_start : (<[64 := core demo_g1]> demo_p1) !! 4136 = Some (start_cpu 1000 8344).
Proof. rewrite lookup_insert_ne by done. by vm_compute. Qed.

Lemma same_memory (s : sched heap_pair) : with_memory (hp_mem (heaps s)) s = s.
Proof. by destruct s as [? ? ? ? ? ? ? []]. Qed.
Lemma demo_g1_ok : consistent 64 (sch demo_g1) [] [].
Proof.
  change (consistent 64 (with_memory demo_m1 demo_one) [] []). rewrite demo_m1_eq, same_memory. apply demo_one_ok.
Qed.
Lemma demo_g1_eta : Rig (core demo_g1) (sch demo_g1) [] [] demo_p1 = demo_g1.
Proof. unfold demo_g1. cbn [core sch]. reflexivity. Qed.
Lemma demo_c4_eq n : demo_c4 n = set_mm (st 8 (mm (isr32_switch demo_c2)) (rsp (isr32_switch demo_c2)) n) (isr32_switch demo_c2).
Proof. unfold demo_c4. reflexivity. Qed.
Lemma demo_preempted : preempted 64 128 49152 65536 301000 demo_g0 demo_g1.
Proof. eapply p_work; [apply p_refl|apply demo_work]. Qed.

Lemma preemption_transparent_witness :
  exists g', tick 64 128 49152 65536 301000 demo_g1 g' /\
    rip (core g') = 1000 /\ rsp (core g') = 8344 /\ rflags (core g') = 514 /\ gpr (core g') RBX = 0.
Proof.
  assert (Hgen : forall g1 c s P c2 n s' a c4, Rig c s [] [] P = g1 ->
    preempted 64 128 49152 65536 301000 demo_g0 g1 ->
    consistent 64 s [] [] -> running 64 s = 64 -> ticked 64 49152 65536 301000 c s c2 ->
    schedule_from_isr 64 128 (gpr (isr32_switch c2) RDI) (with_memory (mm c2) s) = Ok (n, s') ->
    c4 = set_mm (st 8 (mm (isr32_switch c2)) (rsp (isr32_switch c2)) n) (isr32_switch c2) ->
    word64 n -> 49152 <= rsp (isr32_switch c2) ->
    current s' = a -> (<[64 := c]> P) !! a = Some (start_cpu 1000 8344) ->
    exists g', tick 64 128 49152 65536 301000 g1 g' /\
      rip (core g') = 1000 /\ rsp (core g') = 8344 /\ rflags (core g') = 514 /\ gpr (core g') RBX = 0).
  { intros g1 c s P c2 n s' a c4 <- Hp H1 H2 H3 H4 H5 H6 H7 Ha HP.
    pose proof (plain_switch c s P c2 n s' c4 H1 H2 H3 H4 H5 H6 H7) as Ht.
    assert (L1 : ~ (@k_lo _ demo_heaps <= 64 < @k_hi _ demo_heaps)) by (cbn; lia).
    assert (L2 : 0 <= @k_lo _ demo_heaps) by (cbn; lia).
    assert (L3 : @k_hi _ demo_heaps < 18446744073709551616) by (cbn; lia).
    assert (L4 : 0 <= 49152 /\ 65536 < 18446744073709551616) by lia.
    assert (L5 : 65536 <= @k_lo _ demo_heaps \/ @k_hi _ demo_heaps <= 49152) by (cbn; lia).
    assert (L6 : 65536 <= @u_lo _ demo_heaps \/ @u_hi _ demo_heaps <= 49152) by (cbn; lia).
    assert (L7 : word64 301000) by (unfold word64; lia).
    destruct (preemption_transparent 64 128 49152 65536 301000 L1 L2 L3 L4 L5 L6 L7 demo_g0 _ demo_started Hp) as [Hall _].
    eexists. split; [exact Ht|]. destruct (Hall _ Ht) as (f & Hf & [S1 S2 S3 S4 S5 S6]).
    change ((<[64 := c]> P) !! current s' = Some f) in Hf. rewrite Ha, HP in Hf. injection Hf as <-.
    split; [exact S3|]. split; [exact S2|]. split; [exact S5|]. exact (S1 RBX). }
  destruct demo_switch_ok as (n & s' & E & Hn & Hc).
  apply (Hgen demo_g1 (core demo_g1) (sch demo_g1) demo_p1 demo_c2 n s' 4136 (demo_c4 n)).
  - exact demo_g1_eta.
  - exact demo_preempted.
  - exact demo_g1_ok.
  - exact demo_init_runs.
  - exact demo_ticked.
  - exact E.
  - exact (demo_c4_eq n).
  - rewrite Hn. unfold word64; lia.
  - rewrite demo_switch_rsp; lia.
  - exact Hc.
  - exact demo_start.
Defined.
End Demo.
