(* ===== verification/Start.v ===== *)
(** * kernel.asm

    What runs before [kmain]: the descriptor table, the page tables, and the
    switch from the boot loader's 32-bit mode to 64-bit mode.  The processor
    is modelled as far as this code uses it: control registers, segment
    selectors, descriptor lookup and the four-level address translation; what
    would fault is [None]. *)

From Stdlib Require Import ZArith Lia.
From S2P Require Import Prelude Memory.

(** ** Fields of a word *)

Definition field (off len w : Z) : Z := Z.land (Z.shiftr w off) (Z.ones len).
Lemma field_eq off len w : 0 <= off -> 0 <= len -> field off len w = w / 2 ^ off mod 2 ^ len.
Proof. intros H1 H2. unfold field. by rewrite Z.land_ones, Z.shiftr_div_pow2. Qed.

(** ** The data section *)

(** The assembler fills the space before an aligned label with nops. *)
Definition NOPS : Z := 0x9090909090909090.
Definition gdt : list Z :=
  [0; 0x00AF9A000000FFFF; 0x00AF92000000FFFF; 0x00AFFA000000FFFF; 0x00AFF2000000FFFF].
Definition pml4_table (pdpt : Z) : list Z := (pdpt + 0x007) :: replicate 511 NOPS.
Definition pdpt_table (pd : Z) : list Z := (pd + 0x007) :: replicate 511 NOPS.
Definition pd_table : list Z := (fun j => j * 0x200000 + 0x087) <$> seqZ 0 512.

(** The image as the boot loader left it: the tables at [data], one page each,
    the descriptors at [g], their size and address at [desc]. *)
Definition words_at (m : mem) (a : Z) (ws : list Z) : Prop :=
  forall i w, ws !! i = Some w -> ld 8 m (a + 8 * Z.of_nat i) = w.
Record image (data g desc : Z) (m : mem) : Prop := {
  im_pml4 : words_at m data (pml4_table (data + 4096));
  im_pdpt : words_at m (data + 4096) (pdpt_table (data + 8192));
  im_pd : words_at m (data + 8192) pd_table;
  im_gdt : words_at m g gdt;
  im_limit : ld 2 m desc = 8 * lenZ gdt - 1;
  im_base : ld 8 m (desc + 2) = g
}.

(** ** Address translation in 64-bit mode *)

Definition PRESENT (e : Z) : bool := Z.testbit e 0.
Definition LARGE (e : Z) : bool := Z.testbit e 7.
Definition base_of (e : Z) : Z := Z.shiftl (field 12 40 e) 12.
Definition entry (m : mem) (table i : Z) : Z := ld 8 m (table + 8 * i).
Definition canonical (v : Z) : bool := (v <? 2 ^ 47) || (2 ^ 64 - 2 ^ 47 <=? v).

Definition translate (m : mem) (cr3 v : Z) : option Z :=
  if negb (canonical v) then None else
  let e4 := entry m (base_of cr3) (field 39 9 v) in
  if negb (PRESENT e4) then None else
  let e3 := entry m (base_of e4) (field 30 9 v) in
  if negb (PRESENT e3) then None else
  if LARGE e3 then Some (Z.shiftl (field 30 22 e3) 30 + field 0 30 v) else
  let e2 := entry m (base_of e3) (field 21 9 v) in
  if negb (PRESENT e2) then None else
  if LARGE e2 then Some (Z.shiftl (field 21 31 e2) 21 + field 0 21 v) else
  let e1 := entry m (base_of e2) (field 12 9 v) in
  if negb (PRESENT e1) then None else Some (base_of e1 + field 0 12 v).

(** ** Descriptors *)

Record descriptor := Descriptor { d_present : bool; d_dpl : Z; d_exec : bool; d_write : bool; d_long : bool; d_32 : bool }.
(** A code or data descriptor (S set). *)
Definition decode (d : Z) : option descriptor :=
  if Z.testbit d 44
  then Some (Descriptor (Z.testbit d 47) (field 45 2 d) (Z.testbit d 43) (Z.testbit d 41) (Z.testbit d 53) (Z.testbit d 54))
  else None.
(** The null selector and those past the limit name none. *)
Definition descriptor_of (m : mem) (limit base sel : Z) : option descriptor :=
  let i := field 3 13 sel in
  if (i =? 0) || (limit <? 8 * i + 7) || Z.testbit sel 2 then None else decode (ld 8 m (base + 8 * i)).

(** ** The mode switch *)

Inductive mode := Legacy32 | Compat32 | Long64.
Record bcpu := BCpu {
  cr0 : Z; cr3 : Z; cr4 : Z; efer : Z; md : mode; gdt_limit : Z; gdt_base : Z;
  bcs : Z; bds : Z; bes : Z; bss : Z; brsp : Z; brip : Z; bif : bool; bmem : mem }.

Definition b_cr0 v c := BCpu v (cr3 c) (cr4 c) (efer c) (md c) (gdt_limit c) (gdt_base c) (bcs c) (bds c) (bes c) (bss c) (brsp c) (brip c) (bif c) (bmem c).
Definition b_cr3 v c := BCpu (cr0 c) v (cr4 c) (efer c) (md c) (gdt_limit c) (gdt_base c) (bcs c) (bds c) (bes c) (bss c) (brsp c) (brip c) (bif c) (bmem c).
Definition b_cr4 v c := BCpu (cr0 c) (cr3 c) v (efer c) (md c) (gdt_limit c) (gdt_base c) (bcs c) (bds c) (bes c) (bss c) (brsp c) (brip c) (bif c) (bmem c).
Definition b_efer v c := BCpu (cr0 c) (cr3 c) (cr4 c) v (md c) (gdt_limit c) (gdt_base c) (bcs c) (bds c) (bes c) (bss c) (brsp c) (brip c) (bif c) (bmem c).
Definition b_mode v c := BCpu (cr0 c) (cr3 c) (cr4 c) (efer c) v (gdt_limit c) (gdt_base c) (bcs c) (bds c) (bes c) (bss c) (brsp c) (brip c) (bif c) (bmem c).
Definition b_gdtr l b c := BCpu (cr0 c) (cr3 c) (cr4 c) (efer c) (md c) l b (bcs c) (bds c) (bes c) (bss c) (brsp c) (brip c) (bif c) (bmem c).
Definition b_cs v ip c := BCpu (cr0 c) (cr3 c) (cr4 c) (efer c) (md c) (gdt_limit c) (gdt_base c) v (bds c) (bes c) (bss c) (brsp c) ip (bif c) (bmem c).
Definition b_data v c := BCpu (cr0 c) (cr3 c) (cr4 c) (efer c) (md c) (gdt_limit c) (gdt_base c) (bcs c) v v v (brsp c) (brip c) (bif c) (bmem c).
Definition b_rsp v c := BCpu (cr0 c) (cr3 c) (cr4 c) (efer c) (md c) (gdt_limit c) (gdt_base c) (bcs c) (bds c) (bes c) (bss c) v (brip c) (bif c) (bmem c).
Definition b_rip v c := BCpu (cr0 c) (cr3 c) (cr4 c) (efer c) (md c) (gdt_limit c) (gdt_base c) (bcs c) (bds c) (bes c) (bss c) (brsp c) v (bif c) (bmem c).
Definition b_if v c := BCpu (cr0 c) (cr3 c) (cr4 c) (efer c) (md c) (gdt_limit c) (gdt_base c) (bcs c) (bds c) (bes c) (bss c) (brsp c) (brip c) v (bmem c).
Definition b_mem v c := BCpu (cr0 c) (cr3 c) (cr4 c) (efer c) (md c) (gdt_limit c) (gdt_base c) (bcs c) (bds c) (bes c) (bss c) (brsp c) (brip c) (bif c) v.

Definition PE (c : bcpu) : bool := Z.testbit (cr0 c) 0.
Definition PG (c : bcpu) : bool := Z.testbit (cr0 c) 31.
Definition PAE (c : bcpu) : bool := Z.testbit (cr4 c) 5.
Definition LME (c : bcpu) : bool := Z.testbit (efer c) 8.

(** [lgdt] in 32-bit mode loads a 32-bit base. *)
Definition lgdt (desc : Z) (c : bcpu) : bcpu := b_gdtr (ld 2 (bmem c) desc) (ld 4 (bmem c) (desc + 2)) c.
(** EFER.LME may not change under paging. *)
Definition wrmsr_efer (v : Z) (c : bcpu) : option bcpu :=
  if PG c && negb (Bool.eqb (Z.testbit v 8) (LME c)) then None else Some (b_efer v c).
(** Turning paging on: with LME the processor enters long mode, which needs
    PAE, and goes on in 32-bit code; the next instruction is fetched through
    the page tables. *)
Definition mov_cr0 (v : Z) (c : bcpu) : option bcpu :=
  let on := Z.testbit v 31 in
  if on && negb (Z.testbit v 0) then None else
  if on && negb (PG c) then
    if LME c then
      if negb (PAE c) then None else
      match translate (bmem c) (cr3 c) (brip c) with
      | Some p => if p =? brip c then Some (b_mode Compat32 (b_cr0 v c)) else None
      | None => None
      end
    else Some (b_cr0 v c)
  else Some (b_cr0 v c).
(** A far jump to a ring-0 code segment. *)
Definition jmp_far (sel off : Z) (c : bcpu) : option bcpu :=
  match descriptor_of (bmem c) (gdt_limit c) (gdt_base c) sel with
  | Some d =>
      if d_present d && d_exec d && (d_dpl d =? 0) then
        match md c with
        | Legacy32 => Some (b_cs sel off c)
        | _ => if d_long d && d_32 d then None
               else Some (b_mode (if d_long d then Long64 else Compat32) (b_cs sel off c))
        end
      else None
  | None => None
  end.
(** [mov ds, ax; mov es, ax; mov ss, ax] *)
Definition mov_data_segs (sel : Z) (c : bcpu) : option bcpu :=
  match descriptor_of (bmem c) (gdt_limit c) (gdt_base c) sel with
  | Some d => if d_present d && d_write d && negb (d_exec d) && (d_dpl d =? 0) && (field 0 2 sel =? 0)
              then Some (b_data sel c) else None
  | None => None
  end.

Definition obind {A B} (o : option A) (f : A -> option B) : option B := match o with Some a => f a | None => None end.
Notation "'opt' x := c 'in' k" := (obind c (fun x => k)) (at level 10, x name, c at level 100, k at level 200).

Section Start.
(** Where the linker puts the labels. *)
Context (pml4 gdt_desc long_mode_entry stack64_top kmain : Z).

Definition start32 (c : bcpu) : option bcpu :=
  let c := b_if false c in
  let c := lgdt gdt_desc c in
  let c := b_cr4 (Z.setbit (cr4 c) 5) c in
  let c := b_cr3 pml4 c in
  opt c := wrmsr_efer (Z.setbit (efer c) 8) c in
  opt c := mov_cr0 (Z.setbit (cr0 c) 31) c in
  jmp_far 0x08 long_mode_entry c.

(** [ret] is the address after the call. *)
Definition long_mode (ret : Z) (c : bcpu) : option bcpu :=
  match md c with
  | Long64 =>
      opt c := mov_data_segs 0x10 c in
      let c := b_rsp (Z.land stack64_top (-16)) c in
      let sp := u64 (brsp c - 8) in
      Some (b_rip kmain (b_rsp sp (b_mem (st 8 (bmem c) sp ret) c)))
  | _ => None
  end.

Definition start (ret : Z) (c : bcpu) : option bcpu := opt c := start32 c in long_mode ret c.
End Start.

(** ** Entries *)

Lemma testbit_div x n : 0 <= n -> Z.testbit x n = Z.odd (x / 2 ^ n).
Proof. intros Hn. rewrite Z.testbit_odd, Z.shiftr_div_pow2 by done. done. Qed.
Lemma odd_mod x : Z.odd x = (x mod 2 =? 1).
Proof. rewrite Zmod_odd. by destruct (Z.odd x). Qed.

(** A table's address with the flags present, writable, user. *)
Lemma table_entry t :
  t mod 4096 = 0 -> 0 <= t < 2 ^ 52 ->
  PRESENT (t + 0x007) = true /\ LARGE (t + 0x007) = false /\ base_of (t + 0x007) = t /\ base_of t = t.
Proof.
  intros Hm Ht. pose proof (Z.div_mod t 4096 ltac:(lia)) as Hd. rewrite Hm, Z.add_0_r in Hd. set (k := t / 4096) in *.
  unfold PRESENT, LARGE, base_of. rewrite !testbit_div, !odd_mod, !field_eq, !Z.shiftl_mul_pow2 by lia.
  split; [|split; [|split]].
  - rewrite Hd, Z.pow_0_r, Z.div_1_r. replace (4096 * k + 7) with (1 + (2048 * k + 3) * 2) by lia. by rewrite Z.mod_add.
  - rewrite Hd. replace (4096 * k + 7) with (7 + (32 * k) * 2 ^ 7) by lia. rewrite Z.div_add by lia.
    change (7 / 2 ^ 7) with 0. replace (0 + 32 * k) with (0 + (16 * k) * 2) by lia. by rewrite Z.mod_add.
  - rewrite Hd. replace (4096 * k + 7) with (7 + k * 2 ^ 12) by lia. rewrite Z.div_add by lia.
    change (7 / 2 ^ 12) with 0. rewrite Z.mod_small by lia. lia.
  - rewrite Hd. replace (4096 * k) with (k * 2 ^ 12) by lia. rewrite Z.div_mul, Z.mod_small by lia. lia.
Qed.

(** A 2 MiB page. *)
Lemma page_entry j v :
  0 <= j < 512 ->
  PRESENT (j * 0x200000 + 0x087) = true /\ LARGE (j * 0x200000 + 0x087) = true /\
  Z.shiftl (field 21 31 (j * 0x200000 + 0x087)) 21 + field 0 21 v = j * 2 ^ 21 + v mod 2 ^ 21.
Proof.
  intros Hj. unfold PRESENT, LARGE. rewrite !testbit_div, !odd_mod, !field_eq, !Z.shiftl_mul_pow2 by lia.
  rewrite Z.pow_0_r, !Z.div_1_r. split; [|split].
  - replace (j * 0x200000 + 0x087) with (1 + (j * 0x100000 + 0x043) * 2) by lia. by rewrite Z.mod_add.
  - replace (j * 0x200000 + 0x087) with (0x087 + (j * 0x4000) * 2 ^ 7) by lia. rewrite Z.div_add by lia.
    change (0x087 / 2 ^ 7) with 1. replace (1 + j * 0x4000) with (1 + (j * 0x2000) * 2) by lia. by rewrite Z.mod_add.
  - replace (j * 0x200000 + 0x087) with (0x087 + j * 2 ^ 21) by lia. rewrite Z.div_add by lia.
    change (0x087 / 2 ^ 21) with 0. rewrite (Z.mod_small (0 + j)) by lia. lia.
Qed.

Lemma nops_absent : PRESENT NOPS = false.
Proof. done. Qed.

Lemma words_entry m a ws i w : words_at m a ws -> 0 <= i -> ws !! Z.to_nat i = Some w -> entry m a i = w.
Proof. intros Hw Hi E. unfold entry. rewrite <- (Hw _ _ E). do 2 f_equal. lia. Qed.

(** A one-entry table maps nothing at the other indices. *)
Lemma single_entry m a e i :
  words_at m a (e :: replicate 511 NOPS) -> 0 <= i < 512 -> entry m a i = if i =? 0 then e else NOPS.
Proof.
  intros Hw Hi. destruct (Z.eqb_spec i 0) as [->|Hne]; [by apply (words_entry m a _ 0 e Hw)|].
  apply (words_entry m a _ i NOPS Hw); [lia|]. replace (Z.to_nat i) with (S (Z.to_nat (i - 1))) by lia. cbn [lookup list_lookup].
  apply lookup_replicate. split; [done|lia].
Qed.
Lemma pd_entry m a j : words_at m a pd_table -> 0 <= j < 512 -> entry m a j = j * 0x200000 + 0x087.
Proof.
  intros Hw Hj. apply (words_entry m a _ j _ Hw); [lia|]. unfold pd_table.
  rewrite list_lookup_fmap, lookup_seqZ_lt by lia. cbn. f_equal. lia.
Qed.

Section Image.
Context (data g desc : Z) (m : mem).
Context (Him : image data g desc m) (Hdata : data mod 4096 = 0) (Hlow : 0 <= data /\ data + 12288 <= 4294967296).

(** The upper half has no entry in the top table. *)
Lemma high_index v : 2 ^ 64 - 2 ^ 47 <= v < 2 ^ 64 -> v / 2 ^ 39 mod 2 ^ 9 <> 0.
Proof using.
  intros Hv. change (2 ^ 9) with 512.
  assert (H1 : 2 ^ 25 - 256 <= v / 2 ^ 39) by (apply Z.div_le_lower_bound; lia).
  assert (H2 : v / 2 ^ 39 < 2 ^ 25) by (apply Z.div_lt_upper_bound; lia).
  replace (v / 2 ^ 39) with (v / 2 ^ 39 - (2 ^ 25 - 512) + 65535 * 512) by lia. rewrite Z.mod_add by lia.
  rewrite Z.mod_small by lia. lia.
Qed.
(** In the lower half an index is zero below its entry's reach. *)
Lemma low_index v k : 0 <= v < 2 ^ (k + 9) -> 0 <= k ->
  v / 2 ^ k mod 2 ^ 9 = v / 2 ^ k /\ (v / 2 ^ k =? 0) = (v <? 2 ^ k).
Proof using.
  intros Hv Hk. rewrite Z.pow_add_r in Hv by lia. pose proof (Z.pow_pos_nonneg 2 k ltac:(lia) Hk) as Hp. split.
  - apply Z.mod_small. split; [apply Z.div_pos; lia|by apply Z.div_lt_upper_bound; lia].
  - destruct (Z.ltb_spec v (2 ^ k)) as [Hl|Hl].
    + rewrite Z.div_small by lia. done.
    + apply Z.eqb_neq. assert (1 <= v / 2 ^ k) by (apply Z.div_le_lower_bound; lia). lia.
Qed.

(** C20. The page tables map the first gigabyte of the address space to itself and
    nothing else: the kernel, its heaps and the screen are reached at their
    physical addresses, and an access above (say to the ACPI tables of a
    machine with more memory) is a page fault. *)
Theorem identity_map v :
  0 <= v < 2 ^ 64 -> translate m data v = if v <? 2 ^ 30 then Some v else None.
Proof using All.
  intros Hv. destruct Him as [H4 H3 H2 _ _ _]. unfold translate.
  assert (A3 : (data + 4096) mod 4096 = 0) by (rewrite Z.add_mod, Hdata by lia; done).
  assert (A2 : (data + 8192) mod 4096 = 0) by (rewrite Z.add_mod, Hdata by lia; done).
  destruct (table_entry data Hdata ltac:(lia)) as (_ & _ & _ & ->).
  destruct (table_entry _ A3 ltac:(lia)) as (P3 & L3 & B3 & _). destruct (table_entry _ A2 ltac:(lia)) as (P2 & L2 & B2 & _).
  assert (Hi : forall k, 0 <= k -> 0 <= field k 9 v < 512).
  { intros k Hk. rewrite field_eq by lia. apply Z.mod_pos_bound. lia. }
  rewrite (single_entry m data _ _ H4) by (apply Hi; lia). rewrite (field_eq 39 9) by lia.
  unfold canonical. destruct (Z.ltb_spec v (2 ^ 47)) as [Hl|Hl]; cbn [orb negb].
  2: { rewrite (proj2 (Z.ltb_ge v (2 ^ 30))) by lia. destruct (Z.leb_spec (2 ^ 64 - 2 ^ 47) v) as [Hh|Hh]; [|done]. cbn [negb].
       by rewrite (proj2 (Z.eqb_neq _ _) (high_index v ltac:(lia))), nops_absent. }
  destruct (low_index v 39) as [-> ->]; [lia|lia|]. destruct (Z.ltb_spec v (2 ^ 39)) as [H39|H39].
  2: { rewrite nops_absent. cbn [negb]. by rewrite (proj2 (Z.ltb_ge v (2 ^ 30))) by lia. }
  rewrite P3, B3. cbn [negb]. rewrite (single_entry m _ _ _ H3) by (apply Hi; lia). rewrite (field_eq 30 9) by lia.
  destruct (low_index v 30) as [-> ->]; [lia|lia|]. destruct (Z.ltb_spec v (2 ^ 30)) as [H30|H30].
  2: { by rewrite nops_absent. }
  rewrite P2, L2, B2. cbn [negb]. rewrite (pd_entry m _ _ H2) by (apply Hi; lia). rewrite (field_eq 21 9) by lia.
  destruct (low_index v 21) as [-> _]; [lia|lia|].
  destruct (page_entry (v / 2 ^ 21) v) as (-> & -> & ->).
  { split; [apply Z.div_pos; lia|apply Z.div_lt_upper_bound; lia]. }
  cbn [negb]. f_equal. rewrite Z.mul_comm. symmetry. apply Z.div_mod. lia.
Qed.
End Image.

(** ** The descriptors *)

Lemma ld_low k n m a : ld n m a = ld (n + k) m a mod 256 ^ Z.of_nat n.
Proof.
  revert a. induction n as [|n IH]; intros a; [by rewrite Z.mod_1_r|]. cbn [ld Nat.add]. rewrite (IH (a + 1)).
  rewrite Nat2Z.inj_succ, Z.pow_succ_r by lia. pose proof (rb_range m a).
  rewrite Z.rem_mul_r, (Z.mul_comm 256 (ld (n + k) m (a + 1))), Z.mod_add, Z.div_add by lia.
  by rewrite (Z.mod_small (rb m a)), (Z.div_small (rb m a)) by lia.
Qed.

Definition kernel_code : descriptor := Descriptor true 0 true true true false.
Definition kernel_data_seg : descriptor := Descriptor true 0 false true true false.

(** The selectors the kernel uses: 0x08 is ring-0 64-bit code, 0x10 ring-0
    data; 0x18 and 0x20 are their ring-3 copies, which no code selects. *)
Lemma selectors g limit m :
  words_at m g gdt -> limit = 39 ->
  descriptor_of m limit g 0x08 = Some kernel_code /\ descriptor_of m limit g 0x10 = Some kernel_data_seg /\
  descriptor_of m limit g 0x18 = Some (Descriptor true 3 true true true false) /\
  descriptor_of m limit g 0x20 = Some (Descriptor true 3 false true true false) /\
  descriptor_of m limit g 0 = None /\ descriptor_of m limit g 0x28 = None.
Proof.
  intros Hg ->. unfold descriptor_of.
  assert (E : forall i w, gdt !! i = Some w -> ld 8 m (g + 8 * Z.of_nat i) = w) by exact Hg.
  pose proof (E 1%nat _ eq_refl) as E1. pose proof (E 2%nat _ eq_refl) as E2.
  pose proof (E 3%nat _ eq_refl) as E3. pose proof (E 4%nat _ eq_refl) as E4.
  change (8 * Z.of_nat 1) with 8 in E1. change (8 * Z.of_nat 2) with 16 in E2.
  change (8 * Z.of_nat 3) with 24 in E3. change (8 * Z.of_nat 4) with 32 in E4.
  change (field 3 13 0x08) with 1. change (field 3 13 0x10) with 2. change (field 3 13 0x18) with 3.
  change (field 3 13 0x20) with 4. change (field 3 13 0) with 0. change (field 3 13 0x28) with 5.
  change (8 * 1) with 8. change (8 * 2) with 16. change (8 * 3) with 24. change (8 * 4) with 32.
  rewrite E1, E2, E3, E4. by repeat split.
Qed.

Lemma setbit_same a n : 0 <= n -> Z.testbit (Z.setbit a n) n = true.
Proof. intros Hn. by rewrite Z.setbit_eqb, Z.eqb_refl. Qed.
Lemma setbit_other a n k : 0 <= n -> n <> k -> Z.testbit (Z.setbit a n) k = Z.testbit a k.
Proof. intros Hn Hk. rewrite Z.setbit_eqb by done. by rewrite (proj2 (Z.eqb_neq _ _) Hk). Qed.

Section Switch.
Context (data g desc lme top kmain ret : Z) (c : bcpu).
Context (Him : image data g desc (bmem c)) (Hdata : data mod 4096 = 0) (Hlow : 0 <= data /\ data + 12288 <= 4294967296).
Context (Hg : 0 <= g < 4294967296) (Htop : 16 <= top < 2 ^ 64) (Hip : 0 <= brip c < 2 ^ 30).
Context (Hmd : md c = Legacy32) (Hpe : PE c = true) (Hpg : PG c = false).

Lemma gdtr_ok : ld 2 (bmem c) desc = 39 /\ ld 4 (bmem c) (desc + 2) = g.
Proof using Him Hg.
  destruct Him as [_ _ _ _ Hl Hb]. split; [exact Hl|]. rewrite (ld_low 4 4). change (4 + 4)%nat with 8%nat. rewrite Hb.
  apply Z.mod_small. cbn. lia.
Qed.

(** To the 64-bit code. *)
Lemma start32_ok :
  exists c', start32 data desc lme c = Some c' /\ md c' = Long64 /\ bif c' = false /\ bcs c' = 8 /\
    cr3 c' = data /\ PG c' = true /\ PAE c' = true /\ LME c' = true /\
    Z.testbit (efer c') 0 = Z.testbit (efer c) 0 /\ bmem c' = bmem c /\ gdt_limit c' = 39 /\ gdt_base c' = g.
Proof using All.
  destruct gdtr_ok as [Hl Hb]. pose proof (im_gdt _ _ _ _ Him) as Hgd.
  destruct (selectors g 39 (bmem c) Hgd eq_refl) as (D1 & _).
  pose proof (identity_map data g desc (bmem c) Him Hdata Hlow (brip c) ltac:(lia)) as Htr.
  rewrite (proj2 (Z.ltb_lt (brip c) (2 ^ 30))) in Htr by lia.
  unfold PE, PG in *. unfold start32, lgdt, wrmsr_efer, obind, PG. cbn [b_if b_gdtr b_cr4 b_cr3 b_efer bmem cr0 cr4 cr3 efer].
  rewrite Hpg. cbn [andb]. unfold mov_cr0, PG, LME, PAE.
  cbn [b_if b_gdtr b_cr4 b_cr3 b_efer b_mode b_cr0 bmem cr0 cr4 cr3 efer brip md].
  rewrite !setbit_same by lia. rewrite setbit_other, Hpe, Hpg by lia. cbn [andb negb]. rewrite Htr, Z.eqb_refl.
  unfold jmp_far. cbn [b_if b_gdtr b_cr4 b_cr3 b_efer b_mode b_cr0 b_cs bmem gdt_limit gdt_base md].
  rewrite Hl, Hb, D1. eexists. split; [reflexivity|].
  cbn [b_mode b_cs b_cr0 b_efer b_cr3 b_cr4 b_gdtr b_if md bif bcs cr3 cr0 cr4 efer bmem gdt_limit gdt_base].
  rewrite !setbit_same by lia. rewrite setbit_other by lia. by repeat split.
Qed.

(** C12. The kernel is entered in 64-bit mode: from the state a Multiboot loader
    leaves, [start] does not fault and calls [kmain] with interrupts off, in
    ring-0 64-bit code and data segments, under the page tables of this file,
    on its own stack with the alignment the ABI asks for at a function's
    entry.  EFER.SCE is left as it was: the instruction [syscall] is not
    enabled. *)
Theorem start_enters_long_mode :
  exists c', start data desc lme top kmain ret c = Some c' /\
    md c' = Long64 /\ bif c' = false /\ bcs c' = 8 /\ bds c' = 16 /\ bes c' = 16 /\ bss c' = 16 /\
    cr3 c' = data /\ PG c' = true /\ PAE c' = true /\ LME c' = true /\
    brip c' = kmain /\ brsp c' = top / 16 * 16 - 8 /\ brsp c' mod 16 = 8 /\
    Z.testbit (efer c') 0 = Z.testbit (efer c) 0 /\ bmem c' = st 8 (bmem c) (brsp c') ret.
Proof using All.
  destruct start32_ok as (c1 & E & M & I & S & C3 & P1 & P2 & P3 & P4 & Mm & L & B).
  pose proof (im_gdt _ _ _ _ Him) as Hgd. destruct (selectors g 39 (bmem c) Hgd eq_refl) as (_ & D2 & _).
  unfold start. rewrite E. unfold obind, long_mode, mov_data_segs. rewrite M, L, B, Mm, D2. cbn [obind kernel_data_seg d_present d_write d_exec d_dpl].
  change (field 0 2 0x10) with 0. cbn [andb negb Z.eqb].
  assert (Et : Z.land top (-16) = top / 16 * 16).
  { change (-16) with (Z.lnot (Z.ones 4)). rewrite <- Z.ldiff_land, Z.ldiff_ones_r by lia.
    by rewrite Z.shiftr_div_pow2, Z.shiftl_mul_pow2 by lia. }
  pose proof (Z.div_mod top 16 ltac:(lia)) as Hdm. pose proof (Z.mod_pos_bound top 16 ltac:(lia)).
  eexists. split; [reflexivity|]. cbn [b_rip b_rsp b_mem b_data md bif bcs bds bes bss cr3 cr0 cr4 efer brip brsp bmem].
  unfold PG, PAE, LME. cbn [b_rip b_rsp b_mem b_data cr0 cr4 efer].
  rewrite Et, Mm. rewrite u64_small by lia. repeat (split; [done|]). split; [|done].
  replace (top / 16 * 16 - 8) with (8 + (top / 16 - 1) * 16) by lia. by rewrite Z.mod_add.
Qed.
End Switch.

(** ** An image *)

Fixpoint put_words (m : mem) (a : Z) (ws : list Z) : mem :=
  match ws with [] => m | w :: ws => put_words (st 8 m a w) (a + 8) ws end.
Lemma put_words_out k m a ws b :
  b + Z.of_nat k <= a \/ a + 8 * lenZ ws <= b -> ld k (put_words m a ws) b = ld k m b.
Proof.
  unfold lenZ. revert m a. induction ws as [|w ws IH]; intros m a Hb; [done|]. cbn [put_words length] in *.
  rewrite IH by lia. apply ld_st_out. lia.
Qed.
Lemma put_words_at m a ws : Forall (fun w => 0 <= w < 2 ^ 64) ws -> words_at (put_words m a ws) a ws.
Proof.
  intros Hws. revert m a. induction Hws as [|w ws Hw _ IH]; intros m a i w' E; [done|]. cbn [put_words].
  destruct i as [|i]; [|rewrite <- (IH (st 8 m a w) (a + 8) i w' E); f_equal; lia].
  injection E as <-. change (8 * Z.of_nat 0) with 0. rewrite Z.add_0_r, put_words_out by lia. apply ld_st_small. lia.
Qed.
Lemma put_words_keep m a ws b vs :
  words_at m a ws -> a + 8 * lenZ ws <= b \/ b + 8 * lenZ vs <= a -> words_at (put_words m b vs) a ws.
Proof.
  intros Hw Hs i w E. rewrite <- (Hw i w E). pose proof (lookup_lt_Some _ _ _ E). apply put_words_out. unfold lenZ in *. lia.
Qed.

Definition demo_image : mem :=
  let m := st 2 (st 8 ∅ 1048642 1048600) 1048640 39 in
  let m := put_words m 1048600 gdt in
  let m := put_words m 2097152 (pml4_table (2097152 + 4096)) in
  let m := put_words m (2097152 + 4096) (pdpt_table (2097152 + 8192)) in
  put_words m (2097152 + 8192) pd_table.

Lemma words64 ws : forallb (fun w => (0 <=? w) && (w <? 2 ^ 64)) ws = true -> Forall (fun w => 0 <= w < 2 ^ 64) ws.
Proof.
  intros Hf. apply List.Forall_forall. intros w Hw. rewrite forallb_forall in Hf. specialize (Hf w Hw).
  apply andb_true_iff in Hf as [H1 H2]. lia.
Qed.

Lemma demo_image_ok : image 2097152 1048600 1048640 demo_image.
Proof.
  assert (L4 : lenZ (pml4_table (2097152 + 4096)) = 512) by done. assert (L3 : lenZ (pdpt_table (2097152 + 8192)) = 512) by done.
  assert (L2 : lenZ pd_table = 512) by done. assert (Lg : lenZ gdt = 5) by done.
  assert (W4 : Forall (fun w => 0 <= w < 2 ^ 64) (pml4_table (2097152 + 4096))) by by apply words64.
  assert (W3 : Forall (fun w => 0 <= w < 2 ^ 64) (pdpt_table (2097152 + 8192))) by by apply words64.
  assert (W2 : Forall (fun w => 0 <= w < 2 ^ 64) pd_table) by by apply words64.
  assert (Wg : Forall (fun w => 0 <= w < 2 ^ 64) gdt) by by apply words64.
  unfold demo_image. set (m0 := st 2 _ _ _). cbv zeta.
  assert (E0 : ld 2 m0 1048640 = 39 /\ ld 8 m0 1048642 = 1048600).
  { unfold m0. rewrite ld_st_small by lia. split; [done|]. rewrite ld_st_out by lia. apply ld_st_small. lia. }
  clearbody m0. destruct E0 as [E1 E2].
  set (t4 := pml4_table _) in *. set (t3 := pdpt_table _) in *. set (t2 := pd_table) in *. set (tg := gdt) in *.
  split; fold t4 t3 t2 tg; clearbody t4 t3 t2 tg.
  - do 2 (apply put_words_keep; [|lia]). by apply put_words_at.
  - apply put_words_keep; [|lia]. by apply put_words_at.
  - by apply put_words_at.
  - do 3 (apply put_words_keep; [|lia]). by apply put_words_at.
  - rewrite !put_words_out, Lg by lia. lia.
  - by rewrite !put_words_out by lia.
Qed.

Lemma identity_map_witness :
  translate demo_image 2097152 0xB8000 = Some 0xB8000 /\ translate demo_image 2097152 0x40000000 = None.
Proof.
  split.
  - rewrite (identity_map 2097152 1048600 1048640 demo_image demo_image_ok eq_refl ltac:(lia) 0xB8000 ltac:(lia)). reflexivity.
  - rewrite (identity_map 2097152 1048600 1048640 demo_image demo_image_ok eq_refl ltac:(lia) 0x40000000 ltac:(lia)). reflexivity.
Defined.

(** As a Multiboot loader leaves the processor: protected mode, flat
    segments, no paging. *)
Definition demo_loader : bcpu := BCpu 1 0 0 0 Legacy32 0 0 16 24 24 24 0 1048620 true demo_image.

Lemma start_enters_long_mode_witness :
  exists c', start 2097152 1048640 1048700 1200000 1100000 1048730 demo_loader = Some c' /\
    md c' = Long64 /\ bif c' = false /\ bcs c' = 8 /\ bss c' = 16 /\ cr3 c' = 2097152 /\ brip c' = 1100000 /\
    brsp c' mod 16 = 8.
Proof.
  destruct (start_enters_long_mode 2097152 1048600 1048640 1048700 1200000 1100000 1048730 demo_loader
    demo_image_ok eq_refl ltac:(lia) ltac:(lia) ltac:(lia) ltac:(cbn [brip demo_loader]; lia) eq_refl eq_refl eq_refl)
    as (c' & E & H1 & H2 & H3 & _ & _ & H6 & H7 & _ & _ & _ & H11 & _ & H13 & _).
  exists c'. by repeat split.
Defined.
