(* ===== verification/Wrappers.v ===== *)
(** * The wrappers of syscall/syscall.h

    Each inline function loads the call's number and its arguments into
    registers and executes [syscall].  The instruction enters the kernel only
    when EFER.SCE is set; [start] of kernel.asm, the one place that writes
    EFER, leaves that bit as the reset left it, so the processor raises the
    invalid-opcode exception instead: vector 6, whose stub of isr_stubs.asm
    goes back to the same instruction. *)

From Stdlib Require Import ZArith Lia.
From S2P Require Import Prelude Memory LibC PortIO Idt Syscall Cpu Stubs StubProps Start.

(** ** The register part of a wrapper *)

(** The registers loaded, in the order of the instructions. *)
Definition loads (l : list (reg * Z)) (c : cpu) : cpu := run ((fun p => Mov_imm p.1 p.2) <$> l) c.

(** A [char] is signed: widening it copies the sign. *)
Definition syscall_print_char (ch x y fg bg : Z) : cpu -> cpu :=
  loads [(RAX, SYSCALL_PRINT_CHAR_POSITION); (RDI, u64 (s8 ch)); (RSI, u32 x); (RDX, u32 y);
       (R10, u8 fg); (R8, u8 bg)].
Definition syscall_print_string (str x y fg bg : Z) : cpu -> cpu :=
  loads [(RAX, SYSCALL_PRINT_STRING_POSITION); (RDI, str); (RSI, u32 x); (RDX, u32 y);
       (R10, u8 fg); (R8, u8 bg)].
Definition syscall_get_time (buf : Z) : cpu -> cpu := loads [(RAX, SYSCALL_GET_TIME); (RDI, buf)].
Definition syscall_malloc (size : Z) : cpu -> cpu := loads [(RAX, SYSCALL_MALLOC); (RDI, size)].
Definition syscall_free (ptr : Z) : cpu -> cpu := loads [(RAX, SYSCALL_FREE); (RDI, ptr)].
Definition syscall_realloc (ptr size : Z) : cpu -> cpu :=
  loads [(RAX, SYSCALL_REALLOC); (RDI, ptr); (RSI, size)].
Definition syscall_kmalloc_stats (stats : Z) : cpu -> cpu :=
  loads [(RAX, SYSCALL_KMALLOC_STATS); (RDI, stats)].
Definition syscall_getchar : cpu -> cpu := loads [(RAX, SYSCALL_GETCHAR)].
Definition syscall_setposcursor (x y : Z) : cpu -> cpu :=
  loads [(RAX, SYSCALL_SETPOSCURSOR); (RDI, u8 x); (RSI, u8 y)].
Definition syscall_power_off : cpu -> cpu := loads [(RAX, SYSCALL_POWER_OFF)].
Definition syscall_reboot : cpu -> cpu := loads [(RAX, SYSCALL_REBOOT)].
Definition syscall_task_create (entry stack_size : Z) : cpu -> cpu :=
  loads [(RAX, SYSCALL_TASK_CREATE); (RDI, entry); (RSI, stack_size)].
Definition syscall_task_list (buf max : Z) : cpu -> cpu :=
  loads [(RAX, SYSCALL_TASK_LIST); (RDI, buf); (RSI, max)].
(** An [int] is widened with its sign. *)
Definition syscall_task_stop (pid : Z) : cpu -> cpu := loads [(RAX, SYSCALL_TASK_STOP); (RDI, u64 (s32 pid))].
Definition syscall_reap_zombies : cpu -> cpu := loads [(RAX, SYSCALL_REAP_ZOMBIES)].
Definition syscall_task_exit (exit_code : Z) : cpu -> cpu :=
  loads [(RAX, SYSCALL_TASK_EXIT); (RDI, u64 (s32 exit_code))].

(** The wrappers, each with the number it loads. *)
Inductive wrapper : Z -> (cpu -> cpu) -> Prop :=
  | w_print_char ch x y fg bg : wrapper SYSCALL_PRINT_CHAR_POSITION (syscall_print_char ch x y fg bg)
  | w_print_string str x y fg bg : word64 str -> wrapper SYSCALL_PRINT_STRING_POSITION (syscall_print_string str x y fg bg)
  | w_get_time buf : word64 buf -> wrapper SYSCALL_GET_TIME (syscall_get_time buf)
  | w_malloc size : word64 size -> wrapper SYSCALL_MALLOC (syscall_malloc size)
  | w_free ptr : word64 ptr -> wrapper SYSCALL_FREE (syscall_free ptr)
  | w_realloc ptr size : word64 ptr -> word64 size -> wrapper SYSCALL_REALLOC (syscall_realloc ptr size)
  | w_kmalloc_stats p : word64 p -> wrapper SYSCALL_KMALLOC_STATS (syscall_kmalloc_stats p)
  | w_getchar : wrapper SYSCALL_GETCHAR syscall_getchar
  | w_setposcursor x y : wrapper SYSCALL_SETPOSCURSOR (syscall_setposcursor x y)
  | w_power_off : wrapper SYSCALL_POWER_OFF syscall_power_off
  | w_reboot : wrapper SYSCALL_REBOOT syscall_reboot
  | w_task_create entry n : word64 entry -> word64 n -> wrapper SYSCALL_TASK_CREATE (syscall_task_create entry n)
  | w_task_list buf max : word64 buf -> word64 max -> wrapper SYSCALL_TASK_LIST (syscall_task_list buf max)
  | w_task_stop pid : wrapper SYSCALL_TASK_STOP (syscall_task_stop pid)
  | w_reap_zombies : wrapper SYSCALL_REAP_ZOMBIES syscall_reap_zombies
  | w_task_exit code : wrapper SYSCALL_TASK_EXIT (syscall_task_exit code).

(** ** The instruction *)

(** The registers it looks at: the enable bit, the selectors, the entry point
    and the mask of the flags. *)
Record msrs := Msrs { m_efer : Z; m_star : Z; m_lstar : Z; m_fmask : Z }.
Definition SCE (e : Z) : bool := Z.testbit e 0.

(** [rip] is the address of the instruction, two bytes long; [ud] is the
    handler of vector 6, a fault: the saved address is that of the
    instruction. *)
Definition syscall_insn (ud : Z) (r : msrs) (c : cpu) : cpu :=
  if SCE (m_efer r) then
    let sel := field 32 16 (m_star r) in
    let c1 := set_gpr R11 (rflags c) (set_gpr RCX (u64 (rip c + 2)) c) in
    Cpu (gpr c1) (rsp c1) (m_lstar r) (Z.land sel 65532) (Z.land (rflags c) (Z.lnot (m_fmask r))) (sel + 8) (mm c1)
  else deliver ud None c.

(** The wrapper's [syscall] executed [n] times, the exception's stub run each
    time. *)
Fixpoint attempts (ud : Z) (r : msrs) (n : nat) (c : cpu) : cpu :=
  match n with
  | O => c
  | S n => attempts ud r n (isr_stub (syscall_insn ud r c))
  end.

(** ** No wrapper enters the kernel *)

Lemma word_u64 x : word64 (u64 x).
Proof. apply u64_range. Qed.
Lemma word_u32 x : word64 (u32 x).
Proof. pose proof (u32_range x). unfold word64. lia. Qed.
Lemma word_u8 x : word64 (u8 x).
Proof. pose proof (u8_range x). unfold word64. lia. Qed.
Lemma word_imm n : (0 <=? n) && (n <? 18446744073709551616) = true -> word64 n.
Proof. unfold word64. intros H. apply andb_true_iff in H as [H1 H2]. lia. Qed.

(** Only registers are loaded. *)
Lemma loads_ok l c :
  words c -> Forall (fun p => word64 p.2) l ->
  words (loads l c) /\ rsp (loads l c) = rsp c /\ rip (loads l c) = rip c /\ mm (loads l c) = mm c.
Proof.
  intros Hc Hl. revert c Hc. induction Hl as [|[r v] l Hv Hl IH]; intros c Hc; [by split_and!|].
  change (loads ((r, v) :: l) c) with (loads l (set_gpr r v c)).
  assert (Hw : words (set_gpr r v c)).
  { destruct Hc as [Hg]. split; [|done..]. intros r'. cbn. case_decide; [done|apply Hg]. }
  exact (IH _ Hw).
Qed.

(** The number is loaded first and stays in rax. *)
Lemma loads_rax n l c : Forall (fun p => p.1 <> RAX) l -> gpr (loads ((RAX, n) :: l) c) RAX = n.
Proof.
  intros Hl. change (gpr (loads l (set_gpr RAX n c)) RAX = n).
  assert (H : gpr (set_gpr RAX n c) RAX = n) by (cbn; by rewrite decide_True).
  revert H. generalize (set_gpr RAX n c). induction Hl as [|[r v] l Hr Hl IH]; intros c1 H; [done|].
  change (gpr (loads l (set_gpr r v c1)) RAX = n). apply IH. cbn in Hr |- *. rewrite decide_False; [done|congruence].
Qed.

Ltac is_word := first [assumption|apply word_u64|apply word_u32|apply word_u8|apply word_imm; reflexivity].

Lemma wrapper_loads n w : wrapper n w ->
  exists l, (forall c, w c = loads ((RAX, n) :: l) c) /\ Forall (fun p => p.1 <> RAX) l /\
    Forall (fun p => word64 p.2) ((RAX, n) :: l).
Proof.
  destruct 1; (eexists; split; [reflexivity|]); (split; repeat apply Forall_cons_2; try apply Forall_nil_2); cbn [fst snd]; first [discriminate|is_word].
Qed.

Lemma word_same c c' : words c -> same_cpu c c' -> words c'.
Proof.
  intros [W1 W2 W3 W4 W5 W6] [S1 S2 S3 S4 S5 S6]. split; [intros r; by rewrite S1|by rewrite ?S2, ?S3, ?S4, ?S5, ?S6..].
Qed.

(** What an attempt writes. *)
Lemma iretq_mm c : mm (iretq c) = mm c.
Proof. done. Qed.
Lemma stub_mem c c1 c2 c3 :
  512 <= rsp c -> words c -> handling c c1 -> c2 = run (Push <$> stub_regs) c1 -> c3 = run (Pop <$> stub_pops) c2 ->
  only_in (rsp c - 256) (rsp c) (mm c) (mm (iretq c3)).
Proof.
  intros Hl Hw Hh E2 E3. destruct (align16_low c Hw) as [Ha _]. pose proof (w_rsp _ Hw) as Wr. unfold word64 in Wr.
  destruct (entry_ok c Hl Hw stub_regs c1 c2 ltac:(done) Hh E2) as [E1 _ _ E4 _ E6].
  change (lenZ stub_regs) with 15 in *.
  destruct (restore_ok stub_regs stub_pops c2 c3 (align16 (rsp c) - 40) (gpr c) E3 eq_refl) as (_ & R2 & _);
    [apply stub_complete|done|change (lenZ stub_regs) with 15; lia|lia..|].
  rewrite iretq_mm, R2. intros x Hx. apply E6. lia.
Qed.
Lemma attempt_mem c ud : 512 <= rsp c -> words c -> word64 ud ->
  only_in (rsp c - 256) (rsp c) (mm c) (mm (isr_stub (deliver ud None c))).
Proof.
  intros Hl Hw Hu. by apply (stub_mem c _ _ _ Hl Hw (deliver_ok ud c ltac:(lia) Hw Hu) eq_refl eq_refl).
Qed.

(** With the instruction disabled each attempt is undone by the stub. *)
Lemma attempts_same ud r n c :
  SCE (m_efer r) = false -> word64 ud -> 512 <= rsp c -> words c ->
  same_cpu c (attempts ud r n c) /\ only_in (rsp c - 256) (rsp c) (mm c) (mm (attempts ud r n c)).
Proof.
  intros Hs Hu. revert c. induction n as [|n IH]; intros c Hl Hw; [by split|]. cbn [attempts].
  assert (E : syscall_insn ud r c = deliver ud None c) by (unfold syscall_insn; by rewrite Hs). rewrite E. clear E.
  destruct (isr_stub_ok c _ Hl Hw (deliver_ok ud c ltac:(lia) Hw Hu)) as [R1 R2 R3 R4 R5 R6].
  pose proof (attempt_mem c ud Hl Hw Hu) as Hm.
  revert R1 R2 R3 R4 R5 R6 Hm. generalize (isr_stub (deliver ud None c)). intros c1 R1 R2 R3 R4 R5 R6 Hm.
  assert (S1 : same_cpu c c1) by by split.
  destruct (IH c1 ltac:(lia) (word_same c c1 Hw S1)) as ([T1 T2 T3 T4 T5 T6] & Tm).
  split; [split; [intros r0; by rewrite T1, R1|by rewrite ?T2, ?T3, ?T4, ?T5, ?T6..]|].
  etransitivity; [exact Hm|]. by rewrite R2 in Tm.
Qed.

(** [start] writes EFER once and keeps its low bit. *)
Ltac some_branch := repeat case_match; try discriminate; match goal with E : Some _ = Some _ |- _ => by inversion E end.
Lemma wrmsr_keeps v c c' : wrmsr_efer v c = Some c' -> efer c' = v.
Proof. unfold wrmsr_efer. intros E. some_branch. Qed.
Lemma cr0_keeps v c c' : mov_cr0 v c = Some c' -> efer c' = efer c.
Proof. unfold mov_cr0. intros E. some_branch. Qed.
Lemma jmp_keeps sel off c c' : jmp_far sel off c = Some c' -> efer c' = efer c.
Proof. unfold jmp_far. intros E. some_branch. Qed.
Lemma segs_keeps sel c c' : mov_data_segs sel c = Some c' -> efer c' = efer c.
Proof. unfold mov_data_segs. intros E. some_branch. Qed.
Lemma obind_some {A B} (o : option A) (f : A -> option B) y : obind o f = Some y -> exists x, o = Some x /\ f x = Some y.
Proof. destruct o as [x|]; [|discriminate]. intros E. by exists x. Qed.

Lemma start_keeps_sce pml4 desc lme top kmain ret b b' :
  start pml4 desc lme top kmain ret b = Some b' -> SCE (efer b') = SCE (efer b).
Proof.
  intros (b1 & E1 & E)%obind_some.
  apply obind_some in E1 as (b2 & E2 & (b3 & E3 & E4)%obind_some).
  apply wrmsr_keeps in E2. apply cr0_keeps in E3. apply jmp_keeps in E4.
  unfold long_mode in E. destruct (md b1); [discriminate..|].
  apply obind_some in E as (b4 & E5%segs_keeps & [= <-]).
  change (SCE (efer b4) = SCE (efer b)). rewrite E5, E4, E3, E2. apply setbit_other; lia.
Qed.

Section Wrappers.
Context (dev : trace -> Z -> Z) (IDT IDTP : Z) (isr_stubs : list Z) (isr32 isr33 isr80 : Z).
Context (Hstubs : length isr_stubs = 32%nat /\ Forall address isr_stubs).
Context (Hentries : address isr32 /\ address isr33 /\ address isr80).
Context (Hidt : address IDT /\ (IDTP + 10 <= IDT \/ IDT + 4096 <= IDTP)).

Lemma ud_gate m t : word64 (g_handler (gate_of IDT (idt_install dev IDT IDTP isr_stubs isr32 isr33 isr80 m t).1.1 6)).
Proof using Hstubs Hentries Hidt.
  destruct Hstubs as [Hl Hs], Hentries as (H32 & H33 & H80), Hidt as [HI Ha].
  destruct (idt_install_ok dev IDT IDTP isr_stubs isr32 isr33 isr80 m t Hl Hs H32 H33 H80 HI Ha) as (m' & -> & Hg & _).
  cbn [fst]. rewrite Hg. unfold vector, INTERRUPT, KEYBOARD, TIMER. cbn [Z.eqb Pos.eqb Z.ltb Z.compare].
  destruct (lookup_lt_is_Some_2 isr_stubs (Z.to_nat 6)) as [h Hh]; [rewrite Hl; cbn; lia|].
  rewrite Hh. cbn. exact (Forall_lookup_1 _ _ _ _ Hs Hh).
Qed.

(** C19. No wrapper of syscall.h enters the kernel: after [start] the
    instruction [syscall] is as disabled as it was at reset, so it raises the
    invalid-opcode exception, whose gate in the table of [idt_install] leads to
    a stub that goes back to it.  However often the processor tries, it stands
    at the same [syscall] with the registers the wrapper loaded, the call's
    number in rax, on the same stack; only what lies below the stack pointer
    is overwritten. *)
Theorem wrappers_never_enter pml4 desc lme top kmain ret b b' r m t number w c :
  start pml4 desc lme top kmain ret b = Some b' -> SCE (efer b) = false -> m_efer r = efer b' ->
  wrapper number w -> 512 <= rsp c -> words c ->
  let ud := g_handler (gate_of IDT (idt_install dev IDT IDTP isr_stubs isr32 isr33 isr80 m t).1.1 6) in
  forall n, let c' := attempts ud r n (w c) in
    same_cpu (w c) c' /\ rip c' = rip c /\ gpr c' RAX = number /\ rsp c' = rsp c /\
    only_in (rsp c - 256) (rsp c) (mm c) (mm c').
Proof using Hstubs Hentries Hidt.
  intros Hst Hb Hr Hwr Hl Hw ud n c'. destruct (wrapper_loads _ _ Hwr) as (l & E & Hn & Hv).
  destruct (loads_ok _ c Hw Hv) as (W & Es & Ei & Em). pose proof (loads_rax number l c Hn) as Ex. rewrite <- E in *.
  assert (Hs : SCE (m_efer r) = false) by (rewrite Hr, (start_keeps_sce _ _ _ _ _ _ _ _ Hst); exact Hb).
  destruct (attempts_same ud r n (w c) Hs (ud_gate m t) ltac:(lia) W) as [S Hm]. fold c' in S, Hm.
  rewrite Es, Em in Hm. destruct S as [S1 S2 S3 S4 S5 S6].
  split; [by split|]. split; [congruence|]. split; [by rewrite S1|]. split; [congruence|exact Hm].
Qed.
End Wrappers.

(** ** Witness *)

Definition demo_stubs : list Z := (fun i => 300000 + 16 * i) <$> seqZ 0 32.
Definition demo_idt : mem * (Z * Z) := (idt_install (fun _ _ => 0) 400000 399000 demo_stubs 301000 301100 301200 ∅ []).1.

Lemma demo_start_runs : exists b, start 2097152 1048640 1048700 1200000 1100000 1048730 demo_loader = Some b.
Proof.
  destruct (start _ _ _ _ _ _ demo_loader) as [b|] eqn:E; [by exists b|exfalso].
  assert (H : bool_decide (is_Some (start 2097152 1048640 1048700 1200000 1100000 1048730 demo_loader)) = true)
    by by vm_compute.
  rewrite E in H. discriminate.
Qed.

Lemma wrappers_never_enter_witness :
  exists b, start 2097152 1048640 1048700 1200000 1100000 1048730 demo_loader = Some b /\
    forall n, let c' := attempts (g_handler (gate_of 400000 demo_idt.1 6)) (Msrs (efer b) 0 0 0) n (syscall_malloc 64 demo_cpu) in
      rip c' = 4198400 /\ gpr c' RAX = 10 /\ rsp c' = 8200.
Proof.
  destruct demo_start_runs as [b E]. exists b. split; [exact E|]. intros n c'.
  assert (Hst : Forall address demo_stubs).
  { apply Forall_fmap, Forall_seqZ. intros i Hi. unfold address. cbn. lia. }
  destruct (wrappers_never_enter (fun _ _ => 0) 400000 399000 demo_stubs 301000 301100 301200 (conj eq_refl Hst)
    ltac:(unfold address; lia) ltac:(unfold address; lia)
    2097152 1048640 1048700 1200000 1100000 1048730 demo_loader b (Msrs (efer b) 0 0 0) ∅ [] SYSCALL_MALLOC (syscall_malloc 64)
    demo_cpu E eq_refl eq_refl (w_malloc 64 ltac:(unfold word64; lia)) ltac:(cbn; lia) demo_words n)
    as (_ & H1 & H2 & H3 & _).
  split; [exact H1|]. split; [exact H2|exact H3].
Defined.
