(* ===== verification/StackProtector.v ===== *)
(** * libc/stack_protector.c

    What the compiler's stack check calls when a frame's canary has changed:
    two lines on the screen, then [cli; hlt], after which nothing of the
    kernel runs; [None] is that end, as for the power-off calls. *)

From Stdlib Require Import ZArith Lia.
From S2P Require Import Prelude Memory LibC AllocSpec Heaps Multitask TaskLogic PortIO Keyboard Clock Vga Machine Syscall.

Definition __stack_chk_guard : Z := 0xBAAAD00D.

(** "STACK SMASHING DETECTED", "in __stack_chk_fail()",
    "in __stack_chk_fail_local()" *)
Definition s_smashing : list Z :=
  [83; 84; 65; 67; 75; 32; 83; 77; 65; 83; 72; 73; 78; 71; 32; 68; 69; 84; 69; 67; 84; 69; 68].
Definition s_in_fail : list Z :=
  [105; 110; 32; 95; 95; 115; 116; 97; 99; 107; 95; 99; 104; 107; 95; 102; 97; 105; 108; 40; 41].
Definition s_in_fail_local : list Z :=
  [105; 110; 32; 95; 95; 115; 116; 97; 99; 107; 95; 99; 104; 107; 95; 102; 97; 105; 108; 95; 108; 111; 99; 97; 108; 40; 41].

Section Panic.
Context {H : Type} `{!Heaps H}.

Definition kstack_panic (msg : list Z) : K H outcome :=
  do? screen (print_string_position s_smashing 20 2 WHITE RED) in
  do? screen (print_string_position msg 20 3 WHITE RED) in
  do? on_sched cli in
  kret None.
Definition __stack_chk_fail : K H outcome := kstack_panic s_in_fail.
Definition __stack_chk_fail_local : K H outcome := kstack_panic s_in_fail_local.

(** The cells of row [y] from column [x] show the text in white on red. *)
Definition shows (m : mem) (x y : Z) (text : list Z) : Prop :=
  forall i c, text !! i = Some c -> vget m (y * 80 + x + Z.of_nat i) = cell_of c 0x4F.

Context `{!HeapsOk H}.

(** One line of the report. *)
Lemma report_line (text : list Z) y v :
  0 <= y < 25 -> 20 + lenZ text <= 80 -> Forall (fun c => c <> 9) text ->
  let v' := print_string_position text 20 y WHITE RED v in
  shows (vmem v') 20 y text /\ row_only y 20 (vmem v) (vmem v') /\ vx v' = vx v /\ vy v' = vy v.
Proof.
  intros Hy Hl Ht. unfold print_string_position. rewrite offset_eq by lia. cbn zeta.
  destruct (print_string_loop_ok text (vmem v) y 20 (make_color WHITE RED)) as [H1 H2]; [lia|lia|].
  split; [|done]. intros i c E. pose proof (lookup_lt_Some _ _ _ E). apply (H2 Ht i c E). unfold lenZ in Hl. lia.
Qed.

Lemma wk_screen f (Q : unit -> machine H -> Prop) m : Q tt (put_ports (m_ports m) (put_vga (f (vga_of m)) m)) -> wk (screen f) Q m.
Proof using. done. Qed.

Lemma vga_of_put t v (m : machine H) : vga_of (put_ports t (put_vga v m)) = v.
Proof. unfold vga_of, memory. cbn. rewrite hp_mem_with. by destruct v. Qed.

(** What the report leaves. *)
Record reported (msg : list Z) (m m' : machine H) : Prop := {
  rp_masked : iflag (m_sched m') = false;
  rp_title : shows (memory m') 20 2 s_smashing;
  rp_msg : shows (memory m') 20 3 msg;
  rp_screen : screen_only (memory m) (memory m');
  rp_cursor : m_vx m' = m_vx m /\ m_vy m' = m_vy m;
  rp_tasks : tasks (m_sched m') = tasks (m_sched m) /\ current (m_sched m') = current (m_sched m)
}.

Lemma kstack_panic_ok msg m :
  20 + lenZ msg <= 80 -> Forall (fun c => c <> 9) msg ->
  exists m', kstack_panic msg m = Ok (None, m') /\ reported msg m m'.
Proof using HeapsOk0.
  intros Hl Hf.
  assert (Hw : wk (kstack_panic msg) (fun r m' => r = None /\ reported msg m m') m).
  { unfold kstack_panic. ksteps. apply wk_screen. ksteps. apply wk_screen. ksteps. apply wk_sched, wp_modify. ksteps.
    split; [done|]. set (v1 := print_string_position s_smashing 20 2 WHITE RED (vga_of m)).
    set (m1 := put_ports (m_ports m) (put_vga v1 m)).
    destruct (report_line s_smashing 2 (vga_of m)) as (S1 & R1 & X1 & Y1); [lia|unfold lenZ; cbn; lia| |].
    { repeat (apply Forall_cons_2; [done|]). constructor. }
    assert (Ev : vga_of m1 = v1) by apply vga_of_put. rewrite Ev. destruct (report_line msg 3 v1) as (S2 & R2 & X2 & Y2); [lia|done|done|].
    set (v2 := print_string_position msg 20 3 WHITE RED v1) in *. fold v1 in S1, R1, X1, Y1.
    set (m2 := put_ports _ (put_vga v2 m1)).
    assert (Em : memory (put_sched (set_iflag false (m_sched m2)) m2) = vmem v2) by apply hp_mem_with.
    split; rewrite ?Em.
    - done.
    - intros i c E. pose proof (lookup_lt_Some _ _ _ E) as Hi. destruct R2 as [_ R2]. cbn in Hi.
      rewrite R2 by (unfold on_screen; lia). by apply S1.
    - done.
    - etransitivity; [apply R1|apply R2].
    - cbn. split; congruence.
    - done. }
  apply wk_ok in Hw as (r & m' & E & -> & Hr). by exists m'.
Qed.
End Panic.

(** A failed stack check is reported and the kernel stops: whatever the
    machine's state, [__stack_chk_fail] and its local copy return to nobody,
    interrupts are off, rows 2 and 3 show the report in white on red, and
    nothing but the screen was written. *)
Theorem stack_check_reports {H : Type} `{!Heaps H, !HeapsOk H} (m : machine H) :
  (exists m', __stack_chk_fail m = Ok (None, m') /\ reported s_in_fail m m') /\
  (exists m', __stack_chk_fail_local m = Ok (None, m') /\ reported s_in_fail_local m m').
Proof.
  split; (apply kstack_panic_ok; [unfold lenZ; cbn; lia|repeat (apply Forall_cons_2; [done|]); constructor]).
Qed.

(** An empty machine, with interrupts on. *)
#[local] Instance demo_heaps : Heaps heap_pair := pair_heaps 4096 40960 45056 36864 900.
#[local] Instance demo_heaps_ok : HeapsOk heap_pair.
Proof. apply heap_pair_ok; vm_compute; congruence. Defined.
Definition demo_machine : machine heap_pair :=
  Machine (Sched ∅ 0 0 1 0 true 0 (HeapPair ∅ 0 0 0 0 0 0 0)) ∅ ∅ 0 0
    (Timer 0 0 (Clock 0 0 0)) (kbd0 false) [] (0, 0).

Lemma stack_check_reports_witness :
  exists m', __stack_chk_fail demo_machine = Ok (None, m') /\ iflag (m_sched m') = false /\
    shows (memory m') 20 2 s_smashing.
Proof.
  destruct (stack_check_reports demo_machine) as [(m' & E & [H1 H2 _ _ _ _]) _]. by exists m'.
Defined.
