(* ===== verification/Uasm.v ===== *)
(** * The assembler of the user programs

    The instructions the programs under user/ use, their machine code, the
    assembly of a source with labels and sections into the flat image
    [nasm -f bin] makes: jumps start short and grow until all targets are in
    reach. *)

From Stdlib Require Import ZArith Lia.
From stdpp Require Import strings.
From S2P Require Import Prelude Memory Cpu.

(** ** Instructions

    [A] is what addresses and targets are written with: a label and an offset
    in the source, a number in the machine code. *)

Inductive mref (A : Type) :=
  | Abs (a : A)              (* [a] *)
  | Rel (a : A)              (* [rel a] *)
  | At (b : reg) (d : Z)     (* [b + d] *)
  | Sum (b i : reg).         (* [b + i] *)
Arguments Abs {A}. Arguments Rel {A}. Arguments At {A}. Arguments Sum {A}.

Inductive jump := JMP | JE | JNE.
Inductive ins (A : Type) :=
  | IMov (r : reg) (v : Z)             (* mov r, v: 32 bits, zero extended *)
  | IMovr (d s : reg)
  | IMov_al (v : Z)
  | IMovzx_al (d : reg)
  | ILoad (d : reg) (m : mref A)
  | IStore (m : mref A) (s : reg)
  | IStore_q (m : mref A) (v : Z)      (* mov qword m, v *)
  | IStore_b (m : mref A) (v : Z)      (* mov byte m, v *)
  | IStore_al (m : mref A)
  | IStore_dl (m : mref A)
  | ILea (d : reg) (m : mref A)
  | ICmp_al (v : Z)
  | ICmp (r : reg) (v : Z)
  | ICmp_q (m : mref A) (v : Z)
  | IAdd_q (m : mref A) (v : Z)
  | ISub_q (m : mref A) (v : Z)
  | IAdd_dl (v : Z)
  | IXor (d s : reg)
  | IDiv (r : reg)
  | IInc (r : reg)
  | IDec (r : reg)
  | IPush (r : reg)
  | IPop (r : reg)
  | IInt (n : Z)
  | IHlt | ICld | IRep_movsb | IRet
  | ICall (t : A)
  | IJ (c : jump) (near : bool) (t : A)
  | ILoop (t : A).
Arguments IMov {A}. Arguments IMovr {A}. Arguments IMov_al {A}. Arguments IMovzx_al {A}. Arguments ILoad {A}.
Arguments IStore {A}. Arguments IStore_q {A}. Arguments IStore_b {A}. Arguments IStore_al {A}. Arguments IStore_dl {A}.
Arguments ILea {A}. Arguments ICmp_al {A}. Arguments ICmp {A}. Arguments ICmp_q {A}. Arguments IAdd_q {A}. Arguments ISub_q {A}.
Arguments IAdd_dl {A}. Arguments IXor {A}. Arguments IDiv {A}. Arguments IInc {A}. Arguments IDec {A}. Arguments IPush {A}.
Arguments IPop {A}. Arguments IInt {A}. Arguments IHlt {A}. Arguments ICld {A}. Arguments IRep_movsb {A}. Arguments IRet {A}.
Arguments ICall {A}. Arguments IJ {A}. Arguments ILoop {A}.

(** ** Machine code *)

Definition reg_num (r : reg) : Z :=
  match r with
  | RAX => 0 | RCX => 1 | RDX => 2 | RBX => 3 | RBP => 5 | RSI => 6 | RDI => 7
  | R8 => 8 | R9 => 9 | R10 => 10 | R11 => 11 | R12 => 12 | R13 => 13 | R14 => 14 | R15 => 15
  end.
Definition hi3 (r : reg) : Z := Z.shiftr (reg_num r) 3.
Definition lo3 (r : reg) : Z := Z.land (reg_num r) 7.

(** [n] bytes of [v], the lowest first. *)
Fixpoint bytes_of (n : nat) (v : Z) : list Z :=
  match n with O => [] | S n => v mod 256 :: bytes_of n (v / 256) end.

Definition REXW (r x b : Z) : Z := 0x48 + 4 * r + 2 * x + b.
Definition modrm (mod_ reg rm : Z) : Z := 64 * mod_ + 8 * reg + rm.

(** ModRM, SIB and displacement.  ([rbp], [r12] and [r13] as a base need
    other forms, which the programs do not use.) *)
Definition enc_mref (reg : Z) (m : mref Z) : list Z :=
  match m with
  | Abs a => modrm 0 reg 4 :: 0x25 :: bytes_of 4 a
  | Rel d => modrm 0 reg 5 :: bytes_of 4 d
  | At b d => if d =? 0 then [modrm 0 reg (lo3 b)] else [modrm 1 reg (lo3 b); u8 d]
  | Sum b i => [modrm 0 reg 4; 8 * lo3 i + lo3 b]
  end.
Definition rex_mref (r : Z) (m : mref Z) : Z :=
  match m with
  | Abs _ | Rel _ => REXW r 0 0
  | At b _ => REXW r 0 (hi3 b)
  | Sum b i => REXW r (hi3 i) (hi3 b)
  end.
(** Opcodes with a 64-bit memory or register operand. *)
Definition enc_m (op reg : Z) (m : mref Z) : list Z := rex_mref 0 m :: op :: enc_mref reg m.
Definition enc_rm (op : Z) (r : reg) (m : mref Z) : list Z := rex_mref (hi3 r) m :: op :: enc_mref (lo3 r) m.
Definition enc_r (op ext : Z) (r : reg) : list Z := [REXW 0 0 (hi3 r); op; modrm 3 ext (lo3 r)].
Definition enc_rr (op : Z) (d s : reg) : list Z := [REXW (hi3 s) 0 (hi3 d); op; modrm 3 (lo3 s) (lo3 d)].
(** Opcodes that hold a register. *)
Definition enc_o (op : Z) (r : reg) : list Z := if hi3 r =? 0 then [op + lo3 r] else [0x41; op + lo3 r].

Definition encode (i : ins Z) : list Z :=
  match i with
  | IMov r v => enc_o 0xb8 r ++ bytes_of 4 v
  | IMovr d s => enc_rr 0x89 d s
  | IMov_al v => [0xb0; u8 v]
  | IMovzx_al d => [REXW (hi3 d) 0 0; 0x0f; 0xb6; modrm 3 (lo3 d) 0]
  | ILoad d m => enc_rm 0x8b d m
  | IStore m s => enc_rm 0x89 s m
  | IStore_q m v => enc_m 0xc7 0 m ++ bytes_of 4 v
  | IStore_b m v => 0xc6 :: enc_mref 0 m ++ [u8 v]
  | IStore_al m => 0x88 :: enc_mref 0 m
  | IStore_dl m => 0x88 :: enc_mref 2 m
  | ILea d m => enc_rm 0x8d d m
  | ICmp_al v => [0x3c; u8 v]
  | ICmp r v => enc_r 0x83 7 r ++ [u8 v]
  | ICmp_q m v => enc_m 0x83 7 m ++ [u8 v]
  | IAdd_q m v => enc_m 0x83 0 m ++ [u8 v]
  | ISub_q m v => enc_m 0x83 5 m ++ [u8 v]
  | IAdd_dl v => [0x80; 0xc2; u8 v]
  | IXor d s => enc_rr 0x31 d s
  | IDiv r => enc_r 0xf7 6 r
  | IInc r => enc_r 0xff 0 r
  | IDec r => enc_r 0xff 1 r
  | IPush r => enc_o 0x50 r
  | IPop r => enc_o 0x58 r
  | IInt n => [0xcd; u8 n]
  | IHlt => [0xf4]
  | ICld => [0xfc]
  | IRep_movsb => [0xf3; 0xa4]
  | IRet => [0xc3]
  | ICall t => 0xe8 :: bytes_of 4 t
  | IJ JMP false t => [0xeb; u8 t]
  | IJ JE false t => [0x74; u8 t]
  | IJ JNE false t => [0x75; u8 t]
  | IJ JMP true t => 0xe9 :: bytes_of 4 t
  | IJ JE true t => 0x0f :: 0x84 :: bytes_of 4 t
  | IJ JNE true t => 0x0f :: 0x85 :: bytes_of 4 t
  | ILoop t => [0xe2; u8 t]
  end.

(** ** Assembly *)

(** A label and an offset; the empty label stands for 0. *)
Abbreviation sym := (string * Z)%type.
(** No label: an address that is a number. *)
Definition nolabel : string := EmptyString.
(** The bytes of a string. *)
Definition chars (s : string) : list Z := (fun c => Z.of_N (Ascii.N_of_ascii c)) <$> String.list_ascii_of_string s.

Inductive line := Lab (l : string) | Ins (i : ins sym).
Record source := Source { s_text : list line; s_data : list (string * list Z); s_bss : list (string * Z) }.

(** [fa] on absolute addresses, [fr] on targets and relative addresses. *)
Definition map_mref {A B} (fa fr : A -> B) (m : mref A) : mref B :=
  match m with Abs a => Abs (fa a) | Rel a => Rel (fr a) | At b d => At b d | Sum b i => Sum b i end.
Definition map_ins {A B} (fa fr : A -> B) (near : bool) (i : ins A) : ins B :=
  let f := map_mref fa fr in
  match i with
  | ILoad d m => ILoad d (f m) | IStore m s => IStore (f m) s | IStore_q m v => IStore_q (f m) v
  | IStore_b m v => IStore_b (f m) v | IStore_al m => IStore_al (f m) | IStore_dl m => IStore_dl (f m)
  | ILea d m => ILea d (f m) | ICmp_q m v => ICmp_q (f m) v | IAdd_q m v => IAdd_q (f m) v | ISub_q m v => ISub_q (f m) v
  | ICall t => ICall (fr t) | IJ c _ t => IJ c near (fr t) | ILoop t => ILoop (fr t)
  | IMov r v => IMov r v | IMovr d s => IMovr d s | IMov_al v => IMov_al v | IMovzx_al d => IMovzx_al d
  | ICmp_al v => ICmp_al v | ICmp r v => ICmp r v | IAdd_dl v => IAdd_dl v | IXor d s => IXor d s | IDiv r => IDiv r
  | IInc r => IInc r | IDec r => IDec r | IPush r => IPush r | IPop r => IPop r | IInt n => IInt n
  | IHlt => IHlt | ICld => ICld | IRep_movsb => IRep_movsb | IRet => IRet
  end.
Definition ins_len (near : bool) (i : ins sym) : Z := lenZ (encode (map_ins (fun _ => 0) (fun _ => 0) near i)).

(** The addresses of the labels and of the instructions, when the [k]-th
    instruction is a near jump for [k] in [ns]. *)
Fixpoint place (ns : list nat) (k : nat) (pc : Z) (t : list line) : list (string * Z) * list (Z * nat * ins sym) * Z :=
  match t with
  | [] => ([], [], pc)
  | Lab l :: t => let '(ls, cs, e) := place ns k pc t in ((l, pc) :: ls, cs, e)
  | Ins i :: t =>
      let '(ls, cs, e) := place ns (S k) (pc + ins_len (bool_decide (k ∈ ns)) i) t in (ls, (pc, k, i) :: cs, e)
  end.
Fixpoint place_data (pc : Z) (d : list (string * list Z)) : list (string * Z) * Z :=
  match d with
  | [] => ([], pc)
  | (l, bs) :: d => let '(ls, e) := place_data (pc + lenZ bs) d in ((l, pc) :: ls, e)
  end.
Fixpoint place_bss (pc : Z) (d : list (string * Z)) : list (string * Z) :=
  match d with [] => [] | (l, n) :: d => (l, pc) :: place_bss (pc + n) d end.

Fixpoint find_label (ls : list (string * Z)) (l : string) : Z :=
  match ls with [] => 0 | (l', a) :: ls => if bool_decide (l = l') then a else find_label ls l end.
Definition value (ls : list (string * Z)) (s : sym) : Z := find_label ls s.1 + s.2.
Definition resolve (ls : list (string * Z)) (ns : list nat) (x : Z * nat * ins sym) : Z * ins Z :=
  let '(pc, k, i) := x in
  let near := bool_decide (k ∈ ns) in
  (pc, map_ins (value ls) (fun s => value ls s - (pc + ins_len near i)) near i).

(** Sections begin at multiples of four. *)
Definition align4 (a : Z) : Z := (a + 3) / 4 * 4.
Definition labels_of (s : source) (ns : list nat) : list (string * Z) :=
  let '(ls, _, te) := place ns 0 0 (s_text s) in
  let '(lds, de) := place_data (align4 te) (s_data s) in
  ls ++ lds ++ place_bss (align4 de) (s_bss s).
Definition code_of (s : source) (ns : list nat) : list (Z * ins Z) :=
  resolve (labels_of s ns) ns <$> (place ns 0 0 (s_text s)).1.2.

(** A jump that does not reach its target in one byte becomes a near jump,
    until all reach. *)
Definition too_far (x : nat * (Z * ins Z)) : bool :=
  match x.2.2 with IJ _ false d => negb ((-128 <=? d) && (d <? 128)) | _ => false end.
Fixpoint relax (fuel : nat) (s : source) (ns : list nat) : list nat :=
  match fuel with
  | O => ns
  | S fuel =>
      let far := fst <$> filter (fun x => too_far x = true) (imap pair (code_of s ns)) in
      match far with [] => ns | _ => relax fuel s (far ++ ns) end
  end.
Definition nears (s : source) : list nat := relax (length (s_text s)) s [].

Definition code (s : source) : list (Z * ins Z) := code_of s (nears s).
Definition label (s : source) (l : string) : Z := find_label (labels_of s (nears s)) l.
Definition assemble (s : source) : list Z :=
  let text := concat (encode ∘ snd <$> code s) in
  let data := concat (snd <$> s_data s) in
  match s_data s with
  | [] => text
  | _ => text ++ replicate (Z.to_nat (align4 (lenZ text) - lenZ text)) 0 ++ data
  end.
