(* ===== verification/Programs.v ===== *)
(** * The user programs

    The six programs under user/: their assembly sources, and the images the
    kernel embeds (the byte arrays of the headers), which are what the sources
    assemble to. *)

From Stdlib Require Import ZArith.
From stdpp Require Import strings.
From S2P Require Import Prelude Memory Vga Syscall Cpu Uasm.

(** ** terminal.asm *)

Definition terminal_text : list line := [
   Lab "_start"; Ins (IMov RDI 8192); Ins (IMov RAX SYSCALL_MALLOC); Ins (IInt 128);
   Ins (IStore (Rel ("input_buffer_ptr", 0)) RAX); Ins (IStore_q (Abs ("input_len", 0)) 0); Ins (IMov R15 0);
   Ins (ILea RDI (Rel ("welcome_msg", 0))); Ins (IMov RSI WHITE); Ins (IMov RDX BLACK);
   Ins (IMov RAX SYSCALL_PRINT_STRING); Ins (IInt 128);
   Ins (ILea RDI (Rel ("prompt_msg", 0))); Ins (IMov RSI WHITE); Ins (IMov RDX BLACK);
   Ins (IMov RAX SYSCALL_PRINT_STRING); Ins (IInt 128);
   Lab ".loop"; Ins (IMov RAX SYSCALL_GETCHAR); Ins (IInt 128); Ins (ICmp_al 0); Ins (IJ JE false (".wait_char", 0));
   Ins (ICmp_al 32); Ins (IJ JE false (".wait_char", 0)); Ins (ICmp_al 3); Ins (IJ JNE false (".not_ctrl_c", 0));
   Ins (ICmp R15 0); Ins (IJ JE false (".not_ctrl_c", 0)); Ins (IMovr RDI R15); Ins (IMov RAX SYSCALL_TASK_STOP);
   Ins (IInt 128);
   Ins (IMov R15 0);
   Lab ".not_ctrl_c"; Ins (ICmp_al 10); Ins (IJ JNE false (".not_newline", 0));
   Ins (ILoad RBX (Abs ("input_len", 0))); Ins (ILoad RDI (Rel ("input_buffer_ptr", 0)));
   Ins (IStore_b (Sum RDI RBX) 0); Ins (ICall ("new_line", 0)); Ins (IStore_q (Abs ("input_len", 0)) 0);
   Ins (ILoad RDI (Rel ("input_buffer_ptr", 0))); Ins (IMov RAX SYSCALL_TASK_CREATE); Ins (IInt 128);
   Ins (ICmp RAX 0);
   Ins (IJ JE false (".child_ended", 0)); Ins (IMovr R15 RAX); Ins (IJ JMP false (".poll_child_alive", 0));
   Lab ".poll_child_alive"; Ins (IMovr RDI R15); Ins (IMov RAX SYSCALL_TASK_IS_ALIVE); Ins (IInt 128);
   Ins (ICmp RAX 0);
   Ins (IJ JNE false (".still_running", 0)); Ins (IJ JMP false (".child_ended", 0));
   Lab ".still_running"; Ins IHlt; Ins (IJ JMP false (".poll_child_alive", 0));
   Lab ".child_ended"; Ins (ILea RDI (Rel ("prompt_msg", 0))); Ins (IMov RSI WHITE); Ins (IMov RDX BLACK);
   Ins (IMov RAX SYSCALL_PRINT_STRING); Ins (IInt 128); Ins (IJ JMP false (".wait_char", 0));
   Lab ".not_newline"; Ins (ICmp_al 8); Ins (IJ JNE false (".not_backspace", 0));
   Ins (ICmp_q (Abs ("input_len", 0)) 0); Ins (IJ JE false (".wait_char", 0));
   Ins (ISub_q (Abs ("input_len", 0)) 1); Ins (IMov RAX SYSCALL_BACKSPACE); Ins (IInt 128);
   Ins (IJ JMP false (".wait_char", 0));
   Lab ".not_backspace"; Ins (ICmp_al 1); Ins (IJ JNE false (".no_replace", 0)); Ins (IMov_al 32);
   Lab ".no_replace"; Ins (ILoad RBX (Abs ("input_len", 0))); Ins (ILoad RDI (Rel ("input_buffer_ptr", 0)));
   Ins (IStore_al (Sum RDI RBX)); Ins (IAdd_q (Abs ("input_len", 0)) 1); Ins (IMovzx_al RDI); Ins (IMov RSI WHITE);
   Ins (IMov RDX BLACK); Ins (IMov RAX SYSCALL_PRINT_CHAR); Ins (IInt 128);
   Lab ".wait_char"; Ins IHlt; Ins (IJ JMP false (".loop", 0));
   Lab "new_line"; Ins (ILea RDI (Abs (nolabel, 10))); Ins (IMov RSI WHITE); Ins (IMov RDX BLACK);
   Ins (IMov RAX SYSCALL_PRINT_CHAR);
   Ins (IInt 128); Ins IRet].
Definition terminal_data : list (string * list Z) := [
   ("prompt_msg", chars "$: " ++ [0]);
   ("welcome_msg", chars "SimpleTerm v0.1" ++ [10; 0])].
Definition terminal_asm : source := Source terminal_text terminal_data [("input_len", 8); ("input_buffer_ptr", 8)].
Definition terminal_bin : list Z := [
   0xbf; 0; 0x20; 0; 0; 0xb8; 0xa; 0; 0; 0; 0xcd; 0x80; 0x48; 0x89; 5; 0x7d; 1; 0; 0; 0x48; 0xc7; 4;
   0x25; 0x88; 1; 0; 0; 0; 0; 0; 0; 0x41; 0xbf; 0; 0; 0; 0; 0x48; 0x8d; 0x3d; 0x48; 1; 0; 0; 0xbe;
   0xf; 0; 0; 0; 0xba; 0; 0; 0; 0; 0xb8; 3; 0; 0; 0; 0xcd; 0x80; 0x48; 0x8d; 0x3d; 0x2c; 1; 0; 0;
   0xbe; 0xf; 0; 0; 0; 0xba; 0; 0; 0; 0; 0xb8; 3; 0; 0; 0; 0xcd; 0x80; 0xb8; 0x1e; 0; 0; 0; 0xcd;
   0x80; 0x3c; 0; 0xf; 0x84; 0xe9; 0; 0; 0; 0x3c; 0x20; 0xf; 0x84; 0xe1; 0; 0; 0; 0x3c; 3; 0x75;
   0x16; 0x49; 0x83; 0xff; 0; 0x74; 0x10; 0x4c; 0x89; 0xff; 0xb8; 0xca; 0; 0; 0; 0xcd; 0x80; 0x41;
   0xbf; 0; 0; 0; 0; 0x3c; 0xa; 0x75; 0x6c; 0x48; 0x8b; 0x1c; 0x25; 0x88; 1; 0; 0; 0x48; 0x8b; 0x3d;
   0xf7; 0; 0; 0; 0xc6; 4; 0x1f; 0; 0xe8; 0xb1; 0; 0; 0; 0x48; 0xc7; 4; 0x25; 0x88; 1; 0; 0; 0; 0;
   0; 0; 0x48; 0x8b; 0x3d; 0xdb; 0; 0; 0; 0xb8; 0xc8; 0; 0; 0; 0xcd; 0x80; 0x48; 0x83; 0xf8; 0;
   0x74; 0x1a; 0x49; 0x89; 0xc7; 0xeb; 0; 0x4c; 0x89; 0xff; 0xb8; 0xcd; 0; 0; 0; 0xcd; 0x80; 0x48;
   0x83; 0xf8; 0; 0x75; 2; 0xeb; 3; 0xf4; 0xeb; 0xeb; 0x48; 0x8d; 0x3d; 0x8d; 0; 0; 0; 0xbe; 0xf; 0;
   0; 0; 0xba; 0; 0; 0; 0; 0xb8; 3; 0; 0; 0; 0xcd; 0x80; 0xeb; 0x57; 0x3c; 8; 0x75; 0x1d; 0x48;
   0x83; 0x3c; 0x25; 0x88; 1; 0; 0; 0; 0x74; 0x48; 0x48; 0x83; 0x2c; 0x25; 0x88; 1; 0; 0; 1; 0xb8;
   4; 0; 0; 0; 0xcd; 0x80; 0xeb; 0x36; 0x3c; 1; 0x75; 2; 0xb0; 0x20; 0x48; 0x8b; 0x1c; 0x25; 0x88;
   1; 0; 0; 0x48; 0x8b; 0x3d; 0x64; 0; 0; 0; 0x88; 4; 0x1f; 0x48; 0x83; 4; 0x25; 0x88; 1; 0; 0; 1;
   0x48; 0xf; 0xb6; 0xf8; 0xbe; 0xf; 0; 0; 0; 0xba; 0; 0; 0; 0; 0xb8; 2; 0; 0; 0; 0xcd; 0x80; 0xf4;
   0xe9; 2; 0xff; 0xff; 0xff; 0x48; 0x8d; 0x3c; 0x25; 0xa; 0; 0; 0; 0xbe; 0xf; 0; 0; 0; 0xba; 0; 0;
   0; 0; 0xb8; 2; 0; 0; 0; 0xcd; 0x80; 0xc3; 0; 0; 0; 0x24; 0x3a; 0x20; 0; 0x53; 0x69; 0x6d; 0x70;
   0x6c; 0x65; 0x54; 0x65; 0x72; 0x6d; 0x20; 0x76; 0x30; 0x2e; 0x31; 0xa; 0].

(** ** htop.asm *)

Definition htop_text : list line := [
   Lab "_start"; Ins (ILea RDI (Rel ("kmalloc_stats", 0))); Ins (IMov RAX SYSCALL_KMALLOC_STATS); Ins (IInt 128);
   Ins (ILea RDI (Rel ("lbl_total_managed", 0))); Ins (ILea RSI (Rel ("kmalloc_stats", 0)));
   Ins (ICall ("print_field", 0)); Ins (ILea RDI (Rel ("lbl_used_payload", 0)));
   Ins (ILea RSI (Rel ("kmalloc_stats", 8))); Ins (ICall ("print_field", 0));
   Ins (ILea RDI (Rel ("lbl_free_payload", 0))); Ins (ILea RSI (Rel ("kmalloc_stats", 16)));
   Ins (ICall ("print_field", 0)); Ins (ILea RDI (Rel ("lbl_largest_free", 0)));
   Ins (ILea RSI (Rel ("kmalloc_stats", 24))); Ins (ICall ("print_field", 0));
   Ins (ILea RDI (Rel ("lbl_num_blocks", 0))); Ins (ILea RSI (Rel ("kmalloc_stats", 32)));
   Ins (ICall ("print_field", 0)); Ins (ILea RDI (Rel ("lbl_num_used", 0)));
   Ins (ILea RSI (Rel ("kmalloc_stats", 40))); Ins (ICall ("print_field", 0));
   Ins (ILea RDI (Rel ("lbl_num_free", 0))); Ins (ILea RSI (Rel ("kmalloc_stats", 48)));
   Ins (ICall ("print_field", 0)); Ins (IMov RAX SYSCALL_TASK_EXIT); Ins (IXor RDI RDI); Ins (IInt 128);
   Lab ".halt"; Ins (IJ JMP false (".halt", 0));
   Lab "u64_to_dec"; Ins (IPush RBX); Ins (IPush R12); Ins (IPush R13); Ins (ILoad RAX (At RDI 0));
   Ins (ICmp RAX 0); Ins (IJ JNE false (".conv_loop", 0)); Ins (IStore_b (At RSI 0) 48);
   Ins (IStore_b (At RSI 1) 0); Ins (IJ JMP false (".done", 0));
   Lab ".conv_loop"; Ins (ILea RBX (At RSI 31)); Ins (IMov R12 0);
   Lab ".loop_div"; Ins (IXor RDX RDX); Ins (IMov R13 10); Ins (IDiv R13); Ins (IAdd_dl 48); Ins (IDec RBX);
   Ins (IStore_dl (At RBX 0)); Ins (IInc R12); Ins (ICmp RAX 0); Ins (IJ JNE false (".loop_div", 0));
   Ins (IMovr RCX R12); Ins (IMovr RDI RSI); Ins (IMovr RSI RBX); Ins ICld; Ins IRep_movsb;
   Ins (IStore_b (At RDI 0) 0);
   Lab ".done"; Ins (IPop R13); Ins (IPop R12); Ins (IPop RBX); Ins IRet;
   Lab "helper_print"; Ins (IMov RAX SYSCALL_PRINT_STRING); Ins (IInt 128); Ins IRet;
   Lab "print_field"; Ins (IPush RBP); Ins (IPush RBX); Ins (IPush R12); Ins (IMovr RBX RSI);
   Ins (IMov RAX SYSCALL_PRINT_STRING);
   Ins (IMov RSI WHITE); Ins (IMov RDX BLACK); Ins (IInt 128); Ins (IMovr RDI RBX);
   Ins (ILea RSI (Rel ("numbuf_out", 0)));
   Ins (ICall ("u64_to_dec", 0)); Ins (ILea RDI (Rel ("numbuf_out", 0))); Ins (IMov RSI WHITE); Ins (IMov RDX BLACK);
   Ins (IMov RAX SYSCALL_PRINT_STRING); Ins (IInt 128); Ins (ILea RDI (Rel ("newline", 0))); Ins (IMov RSI WHITE);
   Ins (IMov RDX BLACK);
   Ins (IMov RAX SYSCALL_PRINT_STRING); Ins (IInt 128); Ins (IPop R12); Ins (IPop RBX); Ins (IPop RBP); Ins IRet].
Definition htop_data : list (string * list Z) := [
   ("lbl_total_managed", chars "total_managed: " ++ [0]);
   ("lbl_used_payload", chars "used_payload:    " ++ [0]);
   ("lbl_free_payload", chars "free_payload:    " ++ [0]);
   ("lbl_largest_free", chars "largest_free:    " ++ [0]);
   ("lbl_num_blocks", chars "num_blocks:      " ++ [0]);
   ("lbl_num_used", chars "num_used:        " ++ [0]);
   ("lbl_num_free", chars "num_free:        " ++ [0]);
   ("newline", [10; 0])].
Definition htop_asm : source := Source htop_text htop_data [("kmalloc_stats", 56); ("numbuf_out", 32)].
Definition htop_bin : list Z := [
   0x48; 0x8d; 0x3d; 0xd1; 1; 0; 0; 0xb8; 0xd; 0; 0; 0; 0xcd; 0x80; 0x48; 0x8d; 0x3d; 0x43; 1; 0; 0;
   0x48; 0x8d; 0x35; 0xbc; 1; 0; 0; 0xe8; 0xd9; 0; 0; 0; 0x48; 0x8d; 0x3d; 0x40; 1; 0; 0; 0x48;
   0x8d; 0x35; 0xb1; 1; 0; 0; 0xe8; 0xc6; 0; 0; 0; 0x48; 0x8d; 0x3d; 0x3f; 1; 0; 0; 0x48; 0x8d;
   0x35; 0xa6; 1; 0; 0; 0xe8; 0xb3; 0; 0; 0; 0x48; 0x8d; 0x3d; 0x3e; 1; 0; 0; 0x48; 0x8d; 0x35;
   0x9b; 1; 0; 0; 0xe8; 0xa0; 0; 0; 0; 0x48; 0x8d; 0x3d; 0x3d; 1; 0; 0; 0x48; 0x8d; 0x35; 0x90; 1;
   0; 0; 0xe8; 0x8d; 0; 0; 0; 0x48; 0x8d; 0x3d; 0x3c; 1; 0; 0; 0x48; 0x8d; 0x35; 0x85; 1; 0; 0;
   0xe8; 0x7a; 0; 0; 0; 0x48; 0x8d; 0x3d; 0x3b; 1; 0; 0; 0x48; 0x8d; 0x35; 0x7a; 1; 0; 0; 0xe8;
   0x67; 0; 0; 0; 0xb8; 0xcc; 0; 0; 0; 0x48; 0x31; 0xff; 0xcd; 0x80; 0xeb; 0xfe; 0x53; 0x41; 0x54;
   0x41; 0x55; 0x48; 0x8b; 7; 0x48; 0x83; 0xf8; 0; 0x75; 9; 0xc6; 6; 0x30; 0xc6; 0x46; 1; 0; 0xeb;
   0x36; 0x48; 0x8d; 0x5e; 0x1f; 0x41; 0xbc; 0; 0; 0; 0; 0x48; 0x31; 0xd2; 0x41; 0xbd; 0xa; 0; 0; 0;
   0x49; 0xf7; 0xf5; 0x80; 0xc2; 0x30; 0x48; 0xff; 0xcb; 0x88; 0x13; 0x49; 0xff; 0xc4; 0x48; 0x83;
   0xf8; 0; 0x75; 0xe3; 0x4c; 0x89; 0xe1; 0x48; 0x89; 0xf7; 0x48; 0x89; 0xde; 0xfc; 0xf3; 0xa4;
   0xc6; 7; 0; 0x41; 0x5d; 0x41; 0x5c; 0x5b; 0xc3; 0xb8; 3; 0; 0; 0; 0xcd; 0x80; 0xc3; 0x55; 0x53;
   0x41; 0x54; 0x48; 0x89; 0xf3; 0xb8; 3; 0; 0; 0; 0xbe; 0xf; 0; 0; 0; 0xba; 0; 0; 0; 0; 0xcd; 0x80;
   0x48; 0x89; 0xdf; 0x48; 0x8d; 0x35; 0xf4; 0; 0; 0; 0xe8; 0x7e; 0xff; 0xff; 0xff; 0x48; 0x8d;
   0x3d; 0xe8; 0; 0; 0; 0xbe; 0xf; 0; 0; 0; 0xba; 0; 0; 0; 0; 0xb8; 3; 0; 0; 0; 0xcd; 0x80; 0x48;
   0x8d; 0x3d; 0x94; 0; 0; 0; 0xbe; 0xf; 0; 0; 0; 0xba; 0; 0; 0; 0; 0xb8; 3; 0; 0; 0; 0xcd; 0x80;
   0x41; 0x5c; 0x5b; 0x5d; 0xc3; 0; 0; 0x74; 0x6f; 0x74; 0x61; 0x6c; 0x5f; 0x6d; 0x61; 0x6e; 0x61;
   0x67; 0x65; 0x64; 0x3a; 0x20; 0; 0x75; 0x73; 0x65; 0x64; 0x5f; 0x70; 0x61; 0x79; 0x6c; 0x6f;
   0x61; 0x64; 0x3a; 0x20; 0x20; 0x20; 0x20; 0; 0x66; 0x72; 0x65; 0x65; 0x5f; 0x70; 0x61; 0x79;
   0x6c; 0x6f; 0x61; 0x64; 0x3a; 0x20; 0x20; 0x20; 0x20; 0; 0x6c; 0x61; 0x72; 0x67; 0x65; 0x73;
   0x74; 0x5f; 0x66; 0x72; 0x65; 0x65; 0x3a; 0x20; 0x20; 0x20; 0x20; 0; 0x6e; 0x75; 0x6d; 0x5f;
   0x62; 0x6c; 0x6f; 0x63; 0x6b; 0x73; 0x3a; 0x20; 0x20; 0x20; 0x20; 0x20; 0x20; 0; 0x6e; 0x75;
   0x6d; 0x5f; 0x75; 0x73; 0x65; 0x64; 0x3a; 0x20; 0x20; 0x20; 0x20; 0x20; 0x20; 0x20; 0x20; 0;
   0x6e; 0x75; 0x6d; 0x5f; 0x66; 0x72; 0x65; 0x65; 0x3a; 0x20; 0x20; 0x20; 0x20; 0x20; 0x20; 0x20;
   0x20; 0; 0xa; 0].

(** ** clear.asm *)

Definition clear_text : list line := [
   Lab "_start";
   Lab ".loop"; Ins (IMov RAX SYSCALL_CLEAN_SCREEN); Ins (IInt 128); Ins (IMov RAX SYSCALL_TASK_EXIT);
   Ins (IXor RDI RDI); Ins (IInt 128);
   Lab ".halt"; Ins (IJ JMP false (".halt", 0))].
Definition clear_asm : source := Source clear_text [] [].
Definition clear_bin : list Z := [
   0xb8; 6; 0; 0; 0; 0xcd; 0x80; 0xb8; 0xcc; 0; 0; 0; 0x48; 0x31; 0xff; 0xcd; 0x80; 0xeb; 0xfe].

(** ** reboot.asm *)

Definition reboot_text : list line := [
   Lab "_start"; Ins (IMov RAX SYSCALL_REBOOT); Ins (IInt 128);
   Lab ".loop"; Ins (IJ JMP false (".loop", 0))].
Definition reboot_asm : source := Source reboot_text [] [].
Definition reboot_bin : list Z := [
   0xb8; 0x65; 0; 0; 0; 0xcd; 0x80; 0xeb; 0xfe].

(** ** shutdown.asm *)

Definition shutdown_text : list line := [
   Lab "_start"; Ins (IMov RAX SYSCALL_POWER_OFF); Ins (IInt 128);
   Lab ".loop"; Ins (IJ JMP false (".loop", 0))].
Definition shutdown_asm : source := Source shutdown_text [] [].
Definition shutdown_bin : list Z := [
   0xb8; 0x64; 0; 0; 0; 0xcd; 0x80; 0xeb; 0xfe].

(** ** user_prog.asm *)

Definition user_prog_text : list line := [
   Lab "_start";
   Lab ".loop"; Ins (ILea RDI (Rel ("msg", 0))); Ins (IMov RSI 10); Ins (IMov RDX 3); Ins (IMov R10 14);
   Ins (IMov R8 0); Ins (IMov RAX SYSCALL_PRINT_STRING_POSITION); Ins (IInt 128); Ins (IMov RCX 10000);
   Lab ".delay"; Ins (ILoop (".delay", 0)); Ins (IJ JMP false (".loop", 0))].
Definition user_prog_data : list (string * list Z) := [
   ("msg", chars "Hello from user mode!" ++ [0])].
Definition user_prog_asm : source := Source user_prog_text user_prog_data [].
Definition user_prog_bin : list Z := [
   0x48; 0x8d; 0x3d; 0x29; 0; 0; 0; 0xbe; 0xa; 0; 0; 0; 0xba; 3; 0; 0; 0; 0x41; 0xba; 0xe; 0; 0; 0;
   0x41; 0xb8; 0; 0; 0; 0; 0xb8; 1; 0; 0; 0; 0xcd; 0x80; 0xb9; 0x10; 0x27; 0; 0; 0xe2; 0xfe; 0xeb;
   0xd3; 0; 0; 0; 0x48; 0x65; 0x6c; 0x6c; 0x6f; 0x20; 0x66; 0x72; 0x6f; 0x6d; 0x20; 0x75; 0x73;
   0x65; 0x72; 0x20; 0x6d; 0x6f; 0x64; 0x65; 0x21; 0].

(** C16. The images the kernel embeds are what the sources assemble to, byte for
    byte. *)
Theorem images_assembled :
  assemble terminal_asm = terminal_bin /\ assemble htop_asm = htop_bin /\ assemble clear_asm = clear_bin /\
  assemble reboot_asm = reboot_bin /\ assemble shutdown_asm = shutdown_bin /\ assemble user_prog_asm = user_prog_bin.
Proof. by vm_compute. Qed.
