(* ===== verification/Ucpu.v ===== *)
(** * The processor of the user programs

    Decoding, and what an instruction does to the registers and the memory.
    [hlt] waits for an interrupt, which is not visible here; [int 0x80] is
    left to the kernel (Ulogic.v). *)

From Stdlib Require Import ZArith Lia.
From S2P Require Import Prelude Memory Cpu Uasm.

(** ** Decoding *)

Definition reg_of (n : Z) : option reg :=
  match n with
  | 0 => Some RAX | 1 => Some RCX | 2 => Some RDX | 3 => Some RBX | 5 => Some RBP | 6 => Some RSI | 7 => Some RDI
  | 8 => Some R8 | 9 => Some R9 | 10 => Some R10 | 11 => Some R11 | 12 => Some R12 | 13 => Some R13 | 14 => Some R14
  | 15 => Some R15 | _ => None
  end.
Fixpoint of_bytes (bs : list Z) : Z := match bs with [] => 0 | b :: bs => b + 256 * of_bytes bs end.

(** A number of [n] bytes and the rest. *)
Definition imm (n : nat) (bs : list Z) : option (Z * list Z) :=
  if bool_decide (n <= length bs)%nat then Some (of_bytes (take n bs), drop n bs) else None.
Definition simm (n : nat) (bs : list Z) : option (Z * list Z) :=
  '(v, r) ← imm n bs; Some (sext (8 * Z.of_nat n) v, r).

(** The operand of a ModRM byte: the register field, and a register or an
    address. *)
Inductive opnd := OReg (n : Z) | OMem (m : mref Z).
Definition modrm_of (rex : Z) (bs : list Z) : option (Z * opnd * list Z) :=
  let r := 8 * (rex / 4 mod 2) in let x := 8 * (rex / 2 mod 2) in let b := 8 * (rex mod 2) in
  '(c, bs) ← imm 1 bs;
  let md := c / 64 in let reg := r + c / 8 mod 8 in let rm := c mod 8 in
  if md =? 3 then Some (reg, OReg (b + rm), bs)
  else if rm =? 4 then
    '(s, bs) ← imm 1 bs;
    if md =? 0 then
      if s =? 0x25 then '(a, bs) ← simm 4 bs; Some (reg, OMem (Abs a), bs)
      else if s / 64 =? 0 then
        bs_ ← reg_of (b + s mod 8); ix ← reg_of (x + s / 8 mod 8); Some (reg, OMem (Sum bs_ ix), bs)
      else None
    else None
  else if md =? 0 then
    if rm =? 5 then '(d, bs) ← simm 4 bs; Some (reg, OMem (Rel d), bs)
    else base ← reg_of (b + rm); Some (reg, OMem (At base 0), bs)
  else if md =? 1 then base ← reg_of (b + rm); '(d, bs) ← simm 1 bs; Some (reg, OMem (At base d), bs)
  else None.

(** Opcodes with a ModRM operand: 64-bit ones have REX.W, byte ones no REX. *)
Definition byte_op (op : Z) : bool := (op =? 0x88) || (op =? 0xc6) || (op =? 0x80).
Definition decode_m (rex op : Z) (bs : list Z) : option (ins Z * list Z) :=
  if negb (if byte_op op then rex =? 0 else 8 <=? rex) then None else
  '(reg, o, bs) ← modrm_of rex bs;
  match o with
  | OReg n =>
      r ← reg_of n;
      if op =? 0x89 then s ← reg_of reg; Some (IMovr r s, bs)
      else if op =? 0x31 then s ← reg_of reg; Some (IXor r s, bs)
      else if op =? 0x83 then '(v, bs) ← simm 1 bs; if reg =? 7 then Some (ICmp r v, bs) else None
      else if op =? 0x80 then '(v, bs) ← imm 1 bs; if (n =? 2) && (reg =? 0) then Some (IAdd_dl v, bs) else None
      else if op =? 0xf7 then if reg =? 6 then Some (IDiv r, bs) else None
      else if op =? 0xff then if reg =? 0 then Some (IInc r, bs) else if reg =? 1 then Some (IDec r, bs) else None
      else None
  | OMem m =>
      if op =? 0x89 then s ← reg_of reg; Some (IStore m s, bs)
      else if op =? 0x8b then d ← reg_of reg; Some (ILoad d m, bs)
      else if op =? 0x8d then d ← reg_of reg; Some (ILea d m, bs)
      else if op =? 0xc7 then '(v, bs) ← simm 4 bs; if reg =? 0 then Some (IStore_q m v, bs) else None
      else if op =? 0xc6 then '(v, bs) ← imm 1 bs; if reg =? 0 then Some (IStore_b m v, bs) else None
      else if op =? 0x88 then
        if reg =? 0 then Some (IStore_al m, bs) else if reg =? 2 then Some (IStore_dl m, bs) else None
      else if op =? 0x83 then
        '(v, bs) ← simm 1 bs;
        if reg =? 7 then Some (ICmp_q m v, bs) else if reg =? 0 then Some (IAdd_q m v, bs)
        else if reg =? 5 then Some (ISub_q m v, bs) else None
      else None
  end.

Definition short (c : jump) (bs : list Z) : option (ins Z * list Z) := '(d, bs) ← simm 1 bs; Some (IJ c false d, bs).
Definition near (c : jump) (bs : list Z) : option (ins Z * list Z) := '(d, bs) ← simm 4 bs; Some (IJ c true d, bs).
Definition decode_0f (rex : Z) (bs : list Z) : option (ins Z * list Z) :=
  '(op, bs) ← imm 1 bs;
  if op =? 0x84 then near JE bs
  else if op =? 0x85 then near JNE bs
  else if (op =? 0xb6) && (8 <=? rex) then
    '(reg, o, bs) ← modrm_of rex bs;
    d ← reg_of reg;
    match o with OReg n => if n =? 0 then Some (IMovzx_al d, bs) else None | OMem _ => None end
  else None.
Definition decode_op (rex op : Z) (bs : list Z) : option (ins Z * list Z) :=
  let b := 8 * (rex mod 2) in
  if op =? 0x0f then decode_0f rex bs
  else if op =? 0x3c then '(v, bs) ← imm 1 bs; Some (ICmp_al v, bs)
  else if op =? 0xb0 then '(v, bs) ← imm 1 bs; Some (IMov_al v, bs)
  else if op =? 0xcd then '(v, bs) ← imm 1 bs; Some (IInt v, bs)
  else if op =? 0xf4 then Some (IHlt, bs)
  else if op =? 0xfc then Some (ICld, bs)
  else if op =? 0xc3 then Some (IRet, bs)
  else if op =? 0xe8 then '(d, bs) ← simm 4 bs; Some (ICall d, bs)
  else if op =? 0xeb then short JMP bs
  else if op =? 0x74 then short JE bs
  else if op =? 0x75 then short JNE bs
  else if op =? 0xe9 then near JMP bs
  else if op =? 0xe2 then '(d, bs) ← simm 1 bs; Some (ILoop d, bs)
  else if op =? 0xf3 then '(v, bs) ← imm 1 bs; if v =? 0xa4 then Some (IRep_movsb, bs) else None
  else if 8 <=? rex then decode_m rex op bs
  else if (0x50 <=? op) && (op <? 0x58) then r ← reg_of (b + op mod 8); Some (IPush r, bs)
  else if (0x58 <=? op) && (op <? 0x60) then r ← reg_of (b + op mod 8); Some (IPop r, bs)
  else if (0xb8 <=? op) && (op <? 0xc0) then r ← reg_of (b + op mod 8); '(v, bs) ← imm 4 bs; Some (IMov r v, bs)
  else decode_m rex op bs.
(** An instruction and the bytes after it. *)
Definition decode (bs : list Z) : option (ins Z * list Z) :=
  '(op, bs) ← imm 1 bs;
  if (0x40 <=? op) && (op <? 0x50) then '(op', bs) ← imm 1 bs; decode_op (op - 0x40) op' bs
  else decode_op 0 op bs.

(** ** State *)

Record user := User { ur : reg -> Z; usp : Z; upc : Z; uzf : bool; udf : bool }.
Definition upd (r : reg) (v : Z) (g : reg -> Z) : reg -> Z := fun r' => if decide (r' = r) then v else g r'.
Definition set_ur (r : reg) (v : Z) (u : user) : user := User (upd r v (ur u)) (usp u) (upc u) (uzf u) (udf u).
Definition set_usp (v : Z) (u : user) : user := User (ur u) v (upc u) (uzf u) (udf u).
Definition set_upc (v : Z) (u : user) : user := User (ur u) (usp u) v (uzf u) (udf u).
Definition set_uzf (v : bool) (u : user) : user := User (ur u) (usp u) (upc u) v (udf u).
Definition set_udf (v : bool) (u : user) : user := User (ur u) (usp u) (upc u) (uzf u) v.

Lemma upd_same r v g : upd r v g r = v.
Proof. unfold upd. by rewrite decide_True. Qed.
Lemma upd_other r r' v g : r' <> r -> upd r v g r' = g r'.
Proof. intros Hr. unfold upd. by rewrite decide_False. Qed.

(** The low byte of a register. *)
Definition low8 (v : Z) : Z := v mod 256.
Definition with_low8 (v b : Z) : Z := v - v mod 256 + u8 b.

(** The address of an operand; [upc] is already that of the next
    instruction. *)
Definition ea (u : user) (m : mref Z) : Z :=
  match m with
  | Abs a => u64 a
  | Rel d => u64 (upc u + d)
  | At b d => u64 (ur u b + d)
  | Sum b i => u64 (ur u b + ur u i)
  end.

(** ** Execution *)

Fixpoint copy_bytes (k : nat) (step : Z) (s d : Z) (m : mem) : mem :=
  match k with O => m | S k => copy_bytes k step (u64 (s + step)) (u64 (d + step)) (wb m d (rb m s)) end.
(** A jump's condition. *)
Definition taken (c : jump) (zf : bool) : bool := match c with JMP => true | JE => zf | JNE => negb zf end.

(** [u] has [upc] behind the instruction.  [None]: a divide error, or [int]. *)
Definition exec (i : ins Z) (u : user) (m : mem) : option (user * mem) :=
  let ret u := Some (u, m) in
  let arith r v := Some (set_uzf (u64 v =? 0) (set_ur r (u64 v) u), m) in
  let arith_q op v := let a := ea u op in let x := u64 v in Some (set_uzf (x =? 0) u, st 8 m a x) in
  match i with
  | IMov r v => ret (set_ur r v u)
  | IMovr d s => ret (set_ur d (ur u s) u)
  | IMov_al v => ret (set_ur RAX (with_low8 (ur u RAX) v) u)
  | IMovzx_al d => ret (set_ur d (low8 (ur u RAX)) u)
  | ILoad d op => ret (set_ur d (ld 8 m (ea u op)) u)
  | IStore op s => Some (u, st 8 m (ea u op) (ur u s))
  | IStore_q op v => Some (u, st 8 m (ea u op) (u64 v))
  | IStore_b op v => Some (u, wb m (ea u op) v)
  | IStore_al op => Some (u, wb m (ea u op) (ur u RAX))
  | IStore_dl op => Some (u, wb m (ea u op) (ur u RDX))
  | ILea d op => ret (set_ur d (ea u op) u)
  | ICmp_al v => ret (set_uzf (low8 (ur u RAX) =? u8 v) u)
  | ICmp r v => ret (set_uzf (ur u r =? u64 v) u)
  | ICmp_q op v => ret (set_uzf (ld 8 m (ea u op) =? u64 v) u)
  | IAdd_q op v => arith_q op (ld 8 m (ea u op) + v)
  | ISub_q op v => arith_q op (ld 8 m (ea u op) - v)
  | IAdd_dl v => let x := with_low8 (ur u RDX) (ur u RDX + v) in ret (set_uzf (low8 x =? 0) (set_ur RDX x u))
  | IXor d s => arith d (Z.lxor (ur u d) (ur u s))
  | IDiv r =>
      let n := ur u RDX * 2 ^ 64 + ur u RAX in let q := n / ur u r in
      if (ur u r =? 0) || (2 ^ 64 <=? q) then None
      else ret (set_ur RDX (n mod ur u r) (set_ur RAX q u))
  | IInc r => arith r (ur u r + 1)
  | IDec r => arith r (ur u r - 1)
  | IPush r => let sp := u64 (usp u - 8) in Some (set_usp sp u, st 8 m sp (ur u r))
  | IPop r => ret (set_ur r (ld 8 m (usp u)) (set_usp (u64 (usp u + 8)) u))
  | IInt _ => None
  | IHlt => ret u
  | ICld => ret (set_udf false u)
  | IRep_movsb =>
      let n := ur u RCX in let step := if udf u then -1 else 1 in
      Some (set_ur RCX 0 (set_ur RSI (u64 (ur u RSI + step * n)) (set_ur RDI (u64 (ur u RDI + step * n)) u)),
            copy_bytes (Z.to_nat n) step (ur u RSI) (ur u RDI) m)
  | IRet => ret (set_upc (ld 8 m (usp u)) (set_usp (u64 (usp u + 8)) u))
  | ICall t => let sp := u64 (usp u - 8) in Some (set_upc (u64 (upc u + t)) (set_usp sp u), st 8 m sp (upc u))
  | IJ c _ t => ret (if taken c (uzf u) then set_upc (u64 (upc u + t)) u else u)
  | ILoop t =>
      let n := u64 (ur u RCX - 1) in
      let u := set_ur RCX n u in ret (if n =? 0 then u else set_upc (u64 (upc u + t)) u)
  end.

(** The bytes at [pc]; no instruction is longer than 15. *)
Definition fetch (m : mem) (pc : Z) : option (ins Z * Z) :=
  let bs := rbs m pc 15 in
  '(i, r) ← decode bs; Some (i, lenZ bs - lenZ r).

(** ** Decoding reads only the instruction *)

Lemma imm_app n bs x v r : imm n bs = Some (v, r) -> imm n (bs ++ x) = Some (v, r ++ x).
Proof.
  unfold imm. case_bool_decide as Hn; [|done]. intros [= <- <-]. rewrite bool_decide_true.
  - by rewrite take_app_le, drop_app_le.
  - rewrite length_app. lia.
Qed.
Lemma simm_app n bs x v r : simm n bs = Some (v, r) -> simm n (bs ++ x) = Some (v, r ++ x).
Proof.
  unfold simm. destruct (imm n bs) as [[w r']|] eqn:E; [|done]. cbn. intros [= <- <-]. by rewrite (imm_app _ _ x _ _ E).
Qed.

(** One step through a decoder: its argument is a number read, a register or
    a test. *)
Ltac decode_step x :=
  match goal with
  | H : None = Some _ |- _ => discriminate H
  | H : Some _ = Some _ |- _ => injection H; intros; subst
  | H : (imm ?n ?bs ≫= _) = Some _ |- _ =>
      let v := fresh "v" in let r := fresh "r" in let E := fresh "E" in
      destruct (imm n bs) as [[v r]|] eqn:E; [|discriminate H];
      apply (imm_app _ _ x) in E; rewrite E; cbn [mbind option_bind] in H |- *; clear E
  | H : (simm ?n ?bs ≫= _) = Some _ |- _ =>
      let v := fresh "v" in let r := fresh "r" in let E := fresh "E" in
      destruct (simm n bs) as [[v r]|] eqn:E; [|discriminate H];
      apply (simm_app _ _ x) in E; rewrite E; cbn [mbind option_bind] in H |- *; clear E
  | H : (reg_of ?n ≫= _) = Some _ |- _ =>
      destruct (reg_of n); [|discriminate H]; cbn [mbind option_bind] in H |- *
  | H : (if ?b then _ else _) = Some _ |- _ => destruct b; cbn [negb] in H |- *
  end.

Lemma modrm_app rex bs x reg o r : modrm_of rex bs = Some (reg, o, r) -> modrm_of rex (bs ++ x) = Some (reg, o, r ++ x).
Proof. unfold modrm_of. cbv zeta. intros H. repeat decode_step x; done. Qed.
Lemma decode_m_app rex op bs x i r : decode_m rex op bs = Some (i, r) -> decode_m rex op (bs ++ x) = Some (i, r ++ x).
Proof.
  unfold decode_m. intros H. destruct (negb _); [done|]. destruct (modrm_of rex bs) as [[[reg o] r']|] eqn:E; [|done].
  apply (modrm_app _ _ x) in E. rewrite E. cbn [mbind option_bind] in *. destruct o; repeat decode_step x; done.
Qed.
Lemma decode_op_app rex op bs x i r : decode_op rex op bs = Some (i, r) -> decode_op rex op (bs ++ x) = Some (i, r ++ x).
Proof.
  unfold decode_op, decode_0f, short, near. cbv zeta. intros H. repeat decode_step x; try done; try by apply decode_m_app.
  destruct (modrm_of rex r0) as [[[reg o] r']|] eqn:E; [|done].
  apply (modrm_app _ _ x) in E. rewrite E. cbn [mbind option_bind] in *. repeat decode_step x. destruct o; repeat decode_step x; done.
Qed.
Lemma decode_app bs x i r : decode bs = Some (i, r) -> decode (bs ++ x) = Some (i, r ++ x).
Proof.
  unfold decode. intros H. repeat decode_step x; try by apply decode_op_app.
Qed.

(** ** An image in memory *)

#[export] Instance mref_eq_dec : EqDecision (mref Z).
Proof. solve_decision. Defined.
#[export] Instance jump_eq_dec : EqDecision jump.
Proof. solve_decision. Defined.
#[export] Instance ins_eq_dec : EqDecision (ins Z).
Proof. solve_decision. Defined.

(** The image [bs] stands at [p]. *)
Definition loaded (bs : list Z) (p : Z) (m : mem) : Prop := rbs m p (length bs) = bs.
Lemma loaded_wbs bs p m : Forall (fun b => 0 <= b < 256) bs -> loaded bs p (wbs m p bs).
Proof. apply rbs_wbs. Qed.

(** Every instruction of [c] stands in [bs] where [c] says and is decoded as
    itself. *)
Definition code_ok (bs : list Z) (c : list (Z * ins Z)) : bool :=
  forallb (fun x => let e := encode x.2 in
    (0 <=? x.1) && bool_decide (take (length e) (drop (Z.to_nat x.1) bs) = e) &&
    bool_decide (decode e = Some (x.2, [])) && bool_decide (length e <= 15)%nat) c.

Fixpoint ins_at (c : list (Z * ins Z)) (off : Z) : option (ins Z) :=
  match c with [] => None | (a, i) :: c => if a =? off then Some i else ins_at c off end.

Lemma rbs_split m a k n : (k <= n)%nat -> rbs m a n = rbs m a k ++ rbs m (a + Z.of_nat k) (n - k).
Proof.
  intros Hk. rewrite <- (take_drop k (rbs m a n)), take_rbs by done. f_equal.
  apply list_eq. intros i. rewrite lookup_drop. destruct (decide (i < n - k)%nat).
  - rewrite !lookup_rbs by lia. do 2 f_equal. lia.
  - rewrite !lookup_ge_None_2; rewrite ?length_rbs; done || lia.
Qed.

Lemma rbs_cons m a n : rbs m a (S n) = rb m a :: rbs m (a + 1) n.
Proof.
  rewrite (rbs_split m a 1 (S n)) by lia. replace (S n - 1)%nat with n by lia. cbn. by rewrite Z.add_0_r.
Qed.

Lemma loaded_slice bs p m o k :
  loaded bs p m -> (o + k <= length bs)%nat -> rbs m (p + Z.of_nat o) k = take k (drop o bs).
Proof.
  intros Hl Hk. rewrite <- Hl, (rbs_split m p o (length bs)) by lia.
  rewrite drop_app_length' by (by rewrite length_rbs). by rewrite take_rbs by lia.
Qed.

Lemma fetch_ok bs c p m off i :
  code_ok bs c = true -> ins_at c off = Some i -> loaded bs p m ->
  fetch m (p + off) = Some (i, lenZ (encode i)) /\ 0 <= off /\ off + lenZ (encode i) <= lenZ bs.
Proof.
  intros Hc Hi Hl. induction c as [|[a j] c IH]; [done|]. cbn in Hc, Hi. apply andb_true_iff in Hc as [Hj Hc].
  destruct (Z.eqb_spec a off) as [->|_]; [injection Hi as ->|by apply IH]. clear IH Hc.
  bsimp. rewrite !bool_decide_eq_true in *.
  match goal with H : take _ _ = _ |- _ => rename H into Ht end.
  match goal with H : decode _ = _ |- _ => rename H into Hd end.
  assert (Hlen : (Z.to_nat off + length (encode i) <= length bs)%nat).
  { pose proof (f_equal length Ht) as E. rewrite length_take, length_drop in E.
    destruct (encode i); [by vm_compute in Hd|]. cbn [length] in *. lia. }
  split; [|unfold lenZ; lia].
  unfold fetch. rewrite (rbs_split m (p + off) (length (encode i)) 15) by done.
  assert (E : rbs m (p + off) (length (encode i)) = encode i).
  { rewrite <- Ht at 2. replace (p + off) with (p + Z.of_nat (Z.to_nat off)) by lia. by apply loaded_slice. }
  rewrite E, (decode_app _ _ _ _ Hd). cbn. do 2 f_equal. unfold lenZ. rewrite length_app. cbn [length app]. lia.
Qed.
