(* ===== verification/Ulogic.v ===== *)
(** * Running a user program among others

    A program runs instruction by instruction; between any two of them the
    timer may run other tasks, and a call runs the kernel.  Both may change
    whatever memory the program does not own, in particular what lies below
    its stack pointer.  [eventually] says that the program reaches a state
    whatever they do; the rules at the end reduce it to running the
    instructions on one memory. *)

From Stdlib Require Import ZArith Lia.
From S2P Require Import Prelude Memory LibC AllocSpec Heaps Multitask TaskLogic Fs PortIO Keyboard Clock Vga KStats.
From S2P Require Import Power Machine Loader Syscall Cpu Uasm Ucpu.

(** ** What an instruction reads and writes *)

Abbreviation spans := (list (Z * Z)%type).
Definition covers (l : spans) (x : Z) : Prop := exists a n, List.In (a, n) l /\ a <= x < a + n.

Definition reads (i : ins Z) (u : user) : spans :=
  match i with
  | ILoad _ op | ICmp_q op _ | IAdd_q op _ | ISub_q op _ => [(ea u op, 8)]
  | IPop _ | IRet => [(usp u, 8)]
  | IRep_movsb => [(ur u RSI, ur u RCX)]
  | _ => []
  end.
Definition writes (i : ins Z) (u : user) : spans :=
  match i with
  | IStore op _ | IStore_q op _ | IAdd_q op _ | ISub_q op _ => [(ea u op, 8)]
  | IStore_b op _ | IStore_al op | IStore_dl op => [(ea u op, 1)]
  | IPush _ | ICall _ => [(u64 (usp u - 8), 8)]
  | IRep_movsb => [(ur u RDI, ur u RCX)]
  | _ => []
  end.
(** The string instruction goes upwards and does not wrap around. *)
Definition straight (i : ins Z) (u : user) : Prop :=
  match i with
  | IRep_movsb =>
      udf u = false /\ 0 <= ur u RCX /\ 0 <= ur u RSI /\ 0 <= ur u RDI /\
      ur u RSI + ur u RCX < 2 ^ 64 /\ ur u RDI + ur u RCX < 2 ^ 64
  | _ => True
  end.

Lemma covers_one a n x : covers [(a, n)] x <-> a <= x < a + n.
Proof.
  split; [|by exists a, n; split; [left|]]. intros (b & k & [[= <- <-]|[]] & Hx). done.
Qed.
Lemma covers_nil x : ~ covers [] x.
Proof. by intros (b & k & [] & _). Qed.

Lemma wb_local m μ a v x : rb m x = rb μ x \/ x = a -> rb (wb m a v) x = rb (wb μ a v) x.
Proof. intros H. rewrite !rb_wb. bcase; [done|]. by destruct H as [H| ->]. Qed.
Lemma st_local n m μ a v x :
  rb m x = rb μ x \/ a <= x < a + Z.of_nat n -> rb (st n m a v) x = rb (st n μ a v) x.
Proof.
  revert m μ a v. induction n as [|n IH]; intros m μ a v H; cbn [st]; [destruct H; [done|lia]|].
  apply IH. destruct (decide (x = a)) as [->|Hne]; [left; by apply wb_local; right|].
  destruct H as [H|H]; [left; apply wb_local; by left|right; lia].
Qed.

(** Copies of equal bytes. *)
Lemma copy_local k s d m μ x :
  0 <= s -> 0 <= d -> s + Z.of_nat k < 2 ^ 64 -> d + Z.of_nat k < 2 ^ 64 ->
  (forall y, s <= y < s + Z.of_nat k -> rb m y = rb μ y) ->
  rb m x = rb μ x \/ d <= x < d + Z.of_nat k -> rb (copy_bytes k 1 s d m) x = rb (copy_bytes k 1 s d μ) x.
Proof.
  revert s d m μ. induction k as [|k IH]; intros s d m μ Hs Hd H1 H2 Hr Hx; cbn [copy_bytes].
  { destruct Hx; [done|lia]. }
  change (2 ^ 64) with 18446744073709551616 in *. rewrite !u64_small by lia. apply IH; try lia.
  - intros y Hy. rewrite (Hr s) by lia. apply wb_local. left. apply Hr. lia.
  - rewrite (Hr s) by lia. destruct (decide (x = d)) as [->|Hne]; [left; by apply wb_local; right|].
    destruct Hx as [Hx|Hx]; [left; apply wb_local; by left|right; lia].
Qed.
Lemma copy_only k s d m x :
  0 <= s -> 0 <= d -> s + Z.of_nat k < 2 ^ 64 -> d + Z.of_nat k < 2 ^ 64 ->
  ~ (d <= x < d + Z.of_nat k) -> rb (copy_bytes k 1 s d m) x = rb m x.
Proof.
  revert s d m. induction k as [|k IH]; intros s d m Hs Hd H1 H2 Hx; cbn [copy_bytes]; [done|].
  change (2 ^ 64) with 18446744073709551616 in *. rewrite !u64_small by lia. rewrite IH by lia. apply rb_wb_ne. lia.
Qed.

(** An instruction is determined by what it reads. *)
Definition local (i : ins Z) (u u' : user) (m μ μ' : mem) : Prop :=
  exists m', exec i u m = Some (u', m') /\
    (forall x, rb m x = rb μ x \/ covers (writes i u) x -> rb m' x = rb μ' x) /\
    (forall x, ~ covers (writes i u) x -> rb m' x = rb m x).

Lemma exec_local i u u' m μ μ' :
  exec i u μ = Some (u', μ') -> straight i u -> (forall x, covers (reads i u) x -> rb m x = rb μ x) -> local i u u' m μ μ'.
Proof.
  intros E Hs Hr. unfold local.
  assert (Hld : forall a, (forall x, a <= x < a + 8 -> covers (reads i u) x) -> ld 8 m a = ld 8 μ a).
  { intros a Ha. apply ld_ext. intros x Hx. apply Hr, Ha. simpl in Hx. lia. }
  assert (Hst : forall a v x, rb m x = rb μ x \/ covers [(a, 8)] x -> rb (st 8 m a v) x = rb (st 8 μ a v) x).
  { intros a v x Hx. apply st_local. rewrite covers_one in Hx. simpl. tauto. }
  assert (Hso : forall a v x, ~ covers [(a, 8)] x -> rb (st 8 m a v) x = rb m x).
  { intros a v x Hx. apply rb_st_out. rewrite covers_one in Hx. simpl. lia. }
  assert (Hwb : forall a v x, rb m x = rb μ x \/ covers [(a, 1)] x -> rb (wb m a v) x = rb (wb μ a v) x).
  { intros a v x Hx. apply wb_local. rewrite covers_one in Hx. destruct Hx; [by left|right; lia]. }
  assert (Hwo : forall a v x, ~ covers [(a, 1)] x -> rb (wb m a v) x = rb m x).
  { intros a v x Hx. apply rb_wb_ne. rewrite covers_one in Hx. lia. }
  assert (Hno : forall x, rb m x = rb μ x \/ covers [] x -> rb m x = rb μ x).
  { intros x [Hx|Hx]; [done|by apply covers_nil in Hx]. }
  destruct i; cbn [exec reads writes] in *;
    try (rewrite Hld by (intros x Hx; by apply covers_one));
    try (injection E as <- <-; eexists; split; [done|split; eauto; done]).
  - destruct (_ || _); [done|]. injection E as <- <-. eexists. split; [done|by split].
  - done.
  - destruct Hs as (Hf & H1 & H2 & H3 & H4 & H5). rewrite Hf in *. injection E as <- <-. eexists. split; [done|]. split.
    + intros x Hx. apply copy_local; try lia; rewrite covers_one in Hx; [|rewrite Z2Nat.id by lia; tauto].
      intros y Hy. apply Hr, covers_one. lia.
    + intros x Hx. rewrite covers_one in Hx. apply copy_only; lia.
Qed.

(** ** System calls *)

(** A call, as the dispatcher understands the registers. *)
Inductive scall :=
  | PrintAt (s : list Z) (x y fg bg : Z)
  | PutChar (c fg bg : Z)
  | Print (s : list Z) (fg bg : Z)
  | Backspace | Clean
  | Malloc (n : Z)
  | Stats (p : Z)
  | Getchar | PowerOff | Reboot
  | Create (ptr : Z) (name : list Z)
  | Stop (pid : Z) | Exit (code : Z) | Alive (pid : Z).

(** [None]: a number the programs do not use, or a string without an end. *)
Definition call_of (fuel : nat) (u : user) (m : mem) : option scall :=
  let n := u32 (ur u RAX) in
  let rdi := ur u RDI in let rsi := ur u RSI in let rdx := ur u RDX in
  if n =? SYSCALL_PRINT_STRING_POSITION then
    Some (PrintAt (chars_at 81 m rdi) (u32 rsi) (u32 rdx) (u8 (ur u R10)) (u8 (ur u R8)))
  else if n =? SYSCALL_PRINT_CHAR then Some (PutChar (s8 rdi) (u8 rsi) (u8 rdx))
  else if n =? SYSCALL_PRINT_STRING then s ← string_at fuel m rdi; Some (Print s (u8 rsi) (u8 rdx))
  else if n =? SYSCALL_BACKSPACE then Some Backspace
  else if n =? SYSCALL_CLEAN_SCREEN then Some Clean
  else if n =? SYSCALL_MALLOC then Some (Malloc rdi)
  else if n =? SYSCALL_KMALLOC_STATS then Some (Stats rdi)
  else if n =? SYSCALL_GETCHAR then Some Getchar
  else if n =? SYSCALL_POWER_OFF then Some PowerOff
  else if n =? SYSCALL_REBOOT then Some Reboot
  else if n =? SYSCALL_TASK_CREATE then Some (Create rdi (chars_at 64 m rdi))
  else if n =? SYSCALL_TASK_STOP then Some (Stop (s32 rdi))
  else if n =? SYSCALL_TASK_EXIT then Some (Exit (s32 rdi))
  else if n =? SYSCALL_TASK_IS_ALIVE then Some (Alive (s32 rdi))
  else None.

Lemma call_print fuel u m s :
  ur u RAX = 3 -> cstr m (ur u RDI) s -> (length s < fuel)%nat ->
  call_of fuel u m = Some (Print s (u8 (ur u RSI)) (u8 (ur u RDX))).
Proof.
  intros Ha Hs Hf. unfold call_of. rewrite Ha. cbn -[string_at]. by rewrite (string_at_cstr _ _ _ _ Hs Hf).
Qed.

(** ** Runs *)

Inductive event := Do (c : scall) | Got (v : Z).
(** The addresses the program owns besides its image and its stack, its
    registers, the memory, what it did, and the call it is in. *)
Record urun := URun { r_own : Z -> Prop; r_user : user; r_mem : mem; r_log : list event; r_in : option scall }.

(** What a call writes of the program's memory, and what it adds to it. *)
Definition outputs (c : scall) (x : Z) : Prop := match c with Stats p => p <= x < p + 56 | _ => False end.
Definition fresh (c : scall) (v x : Z) : Prop := match c with Malloc n => v <> 0 /\ v <= x < v + n | _ => False end.
Definition grow (own : Z -> Prop) (c : scall) (v : Z) : Z -> Prop :=
  match c with Malloc n => fun x => own x \/ fresh c v x | _ => own end.
Definition final (c : scall) : bool := match c with PowerOff | Reboot => true | _ => false end.

Section Runs.
(** The image and where it is loaded, the stack, and the bound on strings. *)
Context (bs : list Z) (p lo top : Z) (fuel : nat).

Definition held (own : Z -> Prop) (u : user) (x : Z) : Prop := own x \/ usp u <= x < top.
Definition guarded (own : Z -> Prop) (u : user) (x : Z) : Prop := p <= x < p + lenZ bs \/ held own u x.
Definition kept (own : Z -> Prop) (u : user) (m m' : mem) : Prop := forall x, guarded own u x -> rb m' x = rb m x.

(** Memory that is not yet the program's. *)
Definition apart (own : Z -> Prop) (x : Z) : Prop :=
  ~ (p <= x < p + lenZ bs) /\ ~ own x /\ ~ (lo <= x < top) /\ 0 <= x < 2 ^ 64.

(** What the program relies on when a call returns [v]. *)
Record answer (own : Z -> Prop) (u : user) (c : scall) (v : Z) (m m' : mem) : Prop := {
  an_returns : final c = false;
  an_word : word64 v;
  an_kept x : guarded own u x -> ~ outputs c x -> rb m' x = rb m x;
  an_fresh x : fresh c v x -> apart own x
}.

(** One step leads into [post], whatever the others do. *)
Inductive ostep : urun -> (urun -> Prop) -> Prop :=
  | o_run own u m log (post : urun -> Prop) :
      (forall m0, kept own u m m0 -> exists i n u' m', fetch m0 (upc u) = Some (i, n) /\
         exec i (set_upc (u64 (upc u + n)) u) m0 = Some (u', m') /\ post (URun own u' m' log None)) ->
      ostep (URun own u m log None) post
  | o_call own u m log (post : urun -> Prop) :
      (forall m0, kept own u m m0 -> exists n c, fetch m0 (upc u) = Some (IInt 128, n) /\
         let u' := set_upc (u64 (upc u + n)) u in
         call_of fuel u' m0 = Some c /\ post (URun own u' m0 (log ++ [Do c]) (Some c))) ->
      ostep (URun own u m log None) post
  | o_return own u m log c (post : urun -> Prop) :
      (forall v m', answer own u c v m m' -> post (URun (grow own c v) (set_ur RAX v u) m' (log ++ [Got v]) None)) ->
      ostep (URun own u m log (Some c)) post.

Inductive eventually (P : urun -> Prop) : urun -> Prop :=
  | ev_now s : P s -> eventually P s
  | ev_step s mid : ostep s mid -> (forall s', mid s' -> eventually P s') -> eventually P s.

Lemma eventually_trans P Q s : eventually P s -> (forall s', P s' -> eventually Q s') -> eventually Q s.
Proof. intros H HQ. induction H as [s Hs|s mid Hs _ IH]; [by apply HQ|]. by apply (ev_step Q s mid). Qed.
Lemma eventually_mono (P Q : urun -> Prop) s : eventually P s -> (forall s', P s' -> Q s') -> eventually Q s.
Proof. intros H HQ. apply (eventually_trans P); [done|]. intros s' Hs. by apply ev_now, HQ. Qed.

(** ** On one memory *)

Definition agrees (own : Z -> Prop) (u : user) (μ m : mem) : Prop :=
  loaded bs p m /\ forall x, held own u x -> rb m x = rb μ x.
Definition runs_to (P : urun -> Prop) (own : Z -> Prop) (u : user) (μ : mem) (log : list event) : Prop :=
  forall m, agrees own u μ m -> eventually P (URun own u m log None).

(** The image is loaded and the processor at its start. *)
Definition launched (u : user) (m : mem) : Prop := loaded bs p m /\ upc u = p /\ 0 <= p /\ p + lenZ bs < 2 ^ 64.

Lemma runs_start P own u m log :
  loaded bs p m -> runs_to P own u m log -> eventually P (URun own u m log None).
Proof. intros Hl Hr. by apply Hr. Qed.
Lemma launched_at P own u m log :
  launched u m -> (forall g sp zf df, u = User g sp p zf df -> runs_to P own (User g sp (p + 0) zf df) m log) ->
  eventually P (URun own u m log None).
Proof.
  intros (Hl & Hu & _) Hr. apply runs_start; [done|]. destruct u as [g sp pc zf df]. cbn in *. subst pc.
  specialize (Hr g sp zf df eq_refl). by rewrite Z.add_0_r in Hr.
Qed.

Lemma agrees_kept own u μ m m0 : agrees own u μ m -> kept own u m m0 -> agrees own u μ m0.
Proof.
  intros [Hl Ha] Hk. split.
  - unfold loaded in *. rewrite <- Hl at 2. apply rbs_ext. intros i Hi. apply Hk. left. unfold lenZ. lia.
  - intros x Hx. rewrite Hk by (by right). by apply Ha.
Qed.

Context (code : list (Z * ins Z)) (Hcode : code_ok bs code = true) (Hp : 0 <= p /\ p + lenZ bs < 2 ^ 64).

(** Behind the instruction at [off]. *)
Definition next_off (off : Z) (i : ins Z) : Z := off + lenZ (encode i).

(** An instruction that reads what the program owns and writes only that or
    what it pushes, outside the image. *)
Record allowed (own : Z -> Prop) (u u' : user) (i : ins Z) : Prop := {
  al_straight : straight i u;
  al_reads x : covers (reads i u) x -> held own u x;
  al_writes x : covers (writes i u) x -> held own u' x /\ ~ (p <= x < p + lenZ bs);
  al_stack x : usp u' <= x < top -> usp u <= x < top \/ covers (writes i u) x
}.

Lemma fetched off i m : ins_at code off = Some i -> loaded bs p m ->
  exists n, fetch m (p + off) = Some (i, n) /\ u64 (p + off + n) = p + next_off off i.
Proof using Hcode Hp.
  intros Hi Hl. destruct (fetch_ok _ _ _ _ _ _ Hcode Hi Hl) as (Hf & H0 & H1).
  exists (lenZ (encode i)). split; [done|]. unfold next_off, lenZ in *. change (2 ^ 64) with 18446744073709551616 in Hp.
  rewrite u64_small; lia.
Qed.

Lemma runs_exec P own g sp off zf df μ log i off' u' μ' :
  ins_at code off = Some i -> next_off off i = off' -> exec i (User g sp (p + off') zf df) μ = Some (u', μ') ->
  allowed own (User g sp (p + off') zf df) u' i -> runs_to P own u' μ' log ->
  runs_to P own (User g sp (p + off) zf df) μ log.
Proof using Hcode Hp.
  intros Hi <- E [S1 S2 S3 S4] Hr m Hm.
  apply (ev_step P _ (fun s => exists m', s = URun own u' m' log None /\ agrees own u' μ' m')).
  - apply o_run. intros m0 Hk. pose proof (agrees_kept _ _ _ _ _ Hm Hk) as [Hl Ha].
    destruct (fetched _ _ _ Hi Hl) as (n & Hf & En).
    destruct (exec_local i _ u' m0 μ μ' E S1 ltac:(intros x Hx; by apply Ha, S2)) as (m' & E' & Hin & Hout).
    exists i, n, u', m'. split; [done|]. split; [cbn [upc]; by rewrite En|]. exists m'. split; [done|]. split.
    + unfold loaded in *. rewrite <- Hl at 2. apply rbs_ext. intros k Hk'. apply Hout. intros Hc.
      apply (proj2 (S3 _ Hc)). unfold lenZ. lia.
    + intros x Hx. apply Hin. destruct Hx as [Hx|Hx]; [left; apply Ha; by left|].
      destruct (S4 x Hx) as [Hs|Hs]; [left; apply Ha; by right|by right].
  - intros s' (m' & -> & Ha). by apply Hr.
Qed.

(** A call: into the kernel. *)
Lemma runs_trap (P : urun -> Prop) own g sp off zf df μ log off' c :
  ins_at code off = Some (IInt 128) -> next_off off (IInt 128) = off' ->
  (forall m, agrees own (User g sp (p + off') zf df) μ m -> call_of fuel (User g sp (p + off') zf df) m = Some c) ->
  (forall m, agrees own (User g sp (p + off') zf df) μ m ->
     eventually P (URun own (User g sp (p + off') zf df) m (log ++ [Do c]) (Some c))) ->
  runs_to P own (User g sp (p + off) zf df) μ log.
Proof using Hcode Hp.
  intros Hi <- Hc HP m Hm. set (u' := User g sp (p + _) zf df) in *.
  apply (ev_step P _ (fun s => exists m', s = URun own u' m' (log ++ [Do c]) (Some c) /\ agrees own u' μ m')).
  - apply o_call. intros m0 Hk. pose proof (agrees_kept _ _ _ _ _ Hm Hk) as Ha.
    destruct (fetched _ _ _ Hi (proj1 Ha)) as (n & Hf & En). exists n, c. split; [done|]. cbv zeta. cbn [upc].
    rewrite En. split; [by apply Hc|]. by exists m0.
  - intros s' (m0 & -> & Ha). by apply HP.
Qed.

(** And back.  [μ'] has the program's memory after it. *)
Lemma runs_call P own g sp off zf df μ log off' c :
  ins_at code off = Some (IInt 128) -> next_off off (IInt 128) = off' ->
  (forall m, agrees own (User g sp (p + off') zf df) μ m -> call_of fuel (User g sp (p + off') zf df) m = Some c) ->
  (forall x, outputs c x -> ~ (p <= x < p + lenZ bs)) ->
  (forall v μ', word64 v -> (forall x, held own (User g sp (p + off') zf df) x -> ~ outputs c x -> rb μ' x = rb μ x) ->
     (forall x, fresh c v x -> apart own x) ->
     runs_to P (grow own c v) (User (upd RAX v g) sp (p + off') zf df) μ' (log ++ [Do c; Got v])) ->
  runs_to P own (User g sp (p + off) zf df) μ log.
Proof using Hcode Hp.
  intros Hi Hn Hc Ho Hr. apply (runs_trap P own g sp off zf df μ log off' c Hi Hn Hc).
  set (u' := User g sp (p + off') zf df) in *. intros m [Hl Ha].
  apply (ev_step P _ (fun s => exists v m', s = URun (grow own c v) (set_ur RAX v u') m' (log ++ [Do c; Got v]) None /\
    answer own u' c v m m')).
  - apply o_return. intros v m' Hans. exists v, m'. split; [|done]. f_equal. by rewrite <- app_assoc.
  - intros s' (v & m' & -> & [A1 A2 A3 A4]). apply (Hr v m'); try done.
    + intros x Hx Hout. rewrite A3 by (by try right). by apply Ha.
    + split; [|done]. unfold loaded in *. rewrite <- Hl at 2. apply rbs_ext. intros k Hk.
      apply A3; [left; unfold lenZ; lia|]. intros Hx. apply (Ho _ Hx). unfold lenZ. lia.
Qed.

(** A call that neither writes nor adds to the program's memory. *)
Lemma runs_plain P own g sp off zf df μ log off' c :
  ins_at code off = Some (IInt 128) -> next_off off (IInt 128) = off' ->
  (forall m, agrees own (User g sp (p + off') zf df) μ m -> call_of fuel (User g sp (p + off') zf df) m = Some c) ->
  (forall v, grow own c v = own) -> (forall x, ~ outputs c x) ->
  (forall v, word64 v -> runs_to P own (User (upd RAX v g) sp (p + off') zf df) μ (log ++ [Do c; Got v])) ->
  runs_to P own (User g sp (p + off) zf df) μ log.
Proof using Hcode Hp.
  intros Hi Hn Hc Hg Ho Hr. apply (runs_call P own g sp off zf df μ log off' c); try done.
  - intros x Hx. by destruct (Ho x).
  - intros v μ' Hv Hk _ m [Hl Ha]. rewrite Hg in *. apply (Hr v Hv). split; [done|]. intros x Hx. rewrite Ha by done.
    apply Hk; [exact Hx|apply Ho].
Qed.

Lemma runs_end (P : urun -> Prop) own u μ log :
  (forall m, agrees own u μ m -> P (URun own u m log None)) -> runs_to P own u μ log.
Proof using. intros H m Hm. by apply ev_now, H. Qed.
End Runs.

(** ** Strings in an image *)

Definition text_at (bs : list Z) (o : Z) (s : list Z) : bool :=
  bool_decide (take (length s) (drop (Z.to_nat o) bs) = s) && forallb (fun c => negb (c =? 0)) s &&
  bool_decide (bs !! (Z.to_nat o + length s)%nat = Some 0) && (0 <=? o).

Lemma loaded_byte bs p m i c : loaded bs p m -> bs !! i = Some c -> rb m (p + Z.of_nat i) = c.
Proof.
  intros Hl Hi. pose proof (lookup_lt_Some _ _ _ Hi) as Hlt. rewrite <- Hl, lookup_rbs in Hi by done. by injection Hi.
Qed.
Lemma loaded_text bs p m o s : text_at bs o s = true -> loaded bs p m -> cstr m (p + o) s.
Proof.
  unfold text_at. intros Ht Hl. bsimp. rewrite !bool_decide_eq_true in *.
  match goal with H : forallb _ _ = true |- _ => rename H into Hnz end.
  match goal with H : take _ _ = _ |- _ => rename H into Hs end.
  match goal with H : _ !! _ = _ |- _ => rename H into He end.
  apply cstr_of.
  - intros i c Hi. split.
    + assert (Hb : bs !! (Z.to_nat o + i)%nat = Some c).
      { rewrite <- Hs in Hi. apply lookup_take_Some in Hi as [Hi _]. by rewrite lookup_drop in Hi. }
      rewrite <- (loaded_byte _ _ _ _ _ Hl Hb). f_equal. lia.
    + rewrite forallb_forall in Hnz. specialize (Hnz c (proj1 (list_elem_of_In _ _) (list_elem_of_lookup_2 _ _ _ Hi))).
      by apply negb_true_iff, Z.eqb_neq in Hnz.
  - rewrite <- (loaded_byte _ _ _ _ _ Hl He). f_equal. unfold lenZ. lia.
Qed.

(** It is in the call [c], after the events [log]. *)
Definition in_call (c : scall) (log : list event) (s : urun) : Prop := r_log s = log ++ [Do c] /\ r_in s = Some c.

(** A program just loaded. *)
Definition image_at (bs : list Z) (p : Z) : mem := wbs ∅ p bs.
Definition at_launch (p sp : Z) : user := User (fun _ => 0) sp p false false.
Lemma image_launched bs p sp :
  Forall (fun b => 0 <= b < 256) bs -> 0 <= p /\ p + lenZ bs < 2 ^ 64 -> launched bs p (at_launch p sp) (image_at bs p).
Proof. intros Hb Hp. split; [by apply loaded_wbs|]. by split. Qed.

(** ** Tactics

    They run the code at a concrete offset of a concrete image. *)

(** Registers, addresses and loads that can be read off. *)
Ltac fold_off :=
  repeat match goal with
  | |- context [?p + ?a + ?b] =>
      is_var p; lazymatch isZcst a with true => lazymatch isZcst b with true =>
        let c := eval vm_compute in (a + b) in replace (p + a + b) with (p + c) by lia end end
  end.
Ltac unorm :=
  repeat first
    [ rewrite upd_same | rewrite upd_other by discriminate | rewrite Z.lxor_nilpotent
    | match goal with |- context [u64 ?x] => rewrite (u64_small x) by lia end ];
  fold_off.

Ltac unorm_in H :=
  repeat first
    [ rewrite upd_same in H | rewrite upd_other in H by discriminate
    | match type of H with context [u64 ?x] => rewrite (u64_small x) in H by lia end ].

Ltac uexec :=
  lazymatch goal with
  | |- runs_to ?bs ?p ?lo ?top ?fuel ?P ?own (User ?g ?sp (?p + ?off) ?zf ?df) ?μ ?log =>
      lazymatch goal with Hc : code_ok bs ?code = true, Hp : 0 <= p /\ _ |- _ =>
        let i := eval vm_compute in (ins_at code off) in
        lazymatch i with Some ?i =>
          let o := eval vm_compute in (next_off off i) in
          let x := eval cbv beta iota zeta delta [exec ea set_ur set_upc set_usp set_uzf set_udf ur usp upc uzf udf taken negb]
            in (exec i (User g sp (p + o) zf df) μ) in
          lazymatch x with Some (?u', ?μ') =>
            apply (runs_exec bs p lo top fuel code Hc Hp P own g sp off zf df μ log i o u' μ');
            [vm_compute; reflexivity|vm_compute; reflexivity|reflexivity|..]
          end end end end.
Ltac uallow :=
  split; [try exact I|intros ?x ?Hx..];
  cbn [reads writes ea ur usp upc held] in *; unfold held;
  repeat match goal with
  | H : covers [] _ |- _ => destruct (covers_nil _ H)
  | H : covers [_] _ |- _ => apply covers_one in H
  | H : context [usp (if ?b then _ else _)] |- _ => destruct b; cbn [usp] in H
  end.

(** An access that arithmetic allows; [own] is unfolded by the caller. *)
Ltac uaccess_of x Hx :=
  cbn [reads writes ea ur usp upc held] in Hx |- *; unfold held;
  try (destruct (covers_nil _ Hx)); try apply covers_one in Hx; rewrite ?covers_one;
  unorm_in Hx; cbn [usp] in Hx |- *; unorm; try lia.
Ltac uaccess :=
  split; [try exact I|let x := fresh "x" in let Hx := fresh "Hx" in intros x Hx; uaccess_of x Hx..].

(** The call [c] at a trap. *)
Ltac ucall_of := intros ?m ?Hm; unfold call_of; cbn [ur]; unorm; try reflexivity.
Ltac ucall c :=
  lazymatch goal with
  | |- runs_to ?bs ?p ?lo ?top ?fuel ?P ?own (User ?g ?sp (?p + ?off) ?zf ?df) ?μ ?log =>
      lazymatch goal with Hc : code_ok bs ?code = true, Hp : 0 <= p /\ _ |- _ =>
        let o := eval vm_compute in (next_off off (IInt 128)) in
        apply (runs_plain bs p lo top fuel code Hc Hp P own g sp off zf df μ log o c);
        [vm_compute; reflexivity|vm_compute; reflexivity|ucall_of|reflexivity|by intros ?x []|]
      end end.
(** Printing the string [s] in white on black; what is left is where it
    stands. *)
Ltac uprint s :=
  lazymatch goal with
  | |- runs_to ?bs ?p ?lo ?top ?fuel ?P ?own (User ?g ?sp (?p + ?off) ?zf ?df) ?μ ?log =>
      lazymatch goal with Hc : code_ok bs ?code = true, Hp : 0 <= p /\ _ |- _ =>
        let o := eval vm_compute in (next_off off (IInt 128)) in
        let m := fresh "m" in let Hm := fresh "Hm" in
        apply (runs_plain bs p lo top fuel code Hc Hp P own g sp off zf df μ log o (Print s 15 0));
        [vm_compute; reflexivity|vm_compute; reflexivity
        |intros m Hm; rewrite (call_print fuel _ m s);
         [cbn [ur]; unorm; reflexivity|cbn [ur]; unorm; reflexivity|cbn [ur]; unorm|]
        |reflexivity|by intros ?x []|]
      end end.
(** The call [c], of which the program is not to return. *)
Ltac utrap c :=
  lazymatch goal with
  | |- runs_to ?bs ?p ?lo ?top ?fuel ?P ?own (User ?g ?sp (?p + ?off) ?zf ?df) ?μ ?log =>
      lazymatch goal with Hc : code_ok bs ?code = true, Hp : 0 <= p /\ _ |- _ =>
        let o := eval vm_compute in (next_off off (IInt 128)) in
        apply (runs_trap bs p lo top fuel code Hc Hp P own g sp off zf df μ log o c);
        [vm_compute; reflexivity|vm_compute; reflexivity|ucall_of|intros ?m ?Hm; apply ev_now]
      end end.
(** Instructions that only change registers. *)
Ltac uregs := repeat (uexec; [uallow; tauto|]; unorm).
