(* ===== verification/SmallProgs.v ===== *)
(** * The small user programs

    clear, reboot, shutdown and user_prog, run from their images. *)

From Stdlib Require Import ZArith Lia.
From stdpp Require Import strings.
From S2P Require Import Prelude Memory LibC Machine Cpu Uasm Ucpu Programs Ulogic.

Definition clear_code : list (Z * ins Z) := Eval vm_compute in code clear_asm.
Definition reboot_code : list (Z * ins Z) := Eval vm_compute in code reboot_asm.
Definition shutdown_code : list (Z * ins Z) := Eval vm_compute in code shutdown_asm.
Definition user_prog_code : list (Z * ins Z) := Eval vm_compute in code user_prog_asm.
Lemma clear_code_ok : code_ok clear_bin clear_code = true.
Proof. by vm_compute. Qed.
Lemma reboot_code_ok : code_ok reboot_bin reboot_code = true.
Proof. by vm_compute. Qed.
Lemma shutdown_code_ok : code_ok shutdown_bin shutdown_code = true.
Proof. by vm_compute. Qed.
Lemma user_prog_code_ok : code_ok user_prog_bin user_prog_code = true.
Proof. by vm_compute. Qed.

Section Small.
Context (p lo top : Z) (fuel : nat) (own : Z -> Prop).

(** clear clears the screen and ends its task; reboot and shutdown ask for
    that. *)
Lemma clear_runs u m : launched clear_bin p u m ->
  eventually clear_bin p lo top fuel (fun s => exists v, in_call (Exit 0) [Do Clean; Got v] s) (URun own u m [] None).
Proof using.
  intros Hu. pose proof clear_code_ok as Hc. pose proof Hu as (_ & _ & Hp).
  apply (launched_at _ _ _ _ _ _ _ _ _ _ Hu). intros g sp zf df _.
  uregs. ucall Clean. intros v _. uregs. utrap (Exit 0). by exists v.
Qed.
Lemma reboot_runs u m : launched reboot_bin p u m ->
  eventually reboot_bin p lo top fuel (in_call Reboot []) (URun own u m [] None).
Proof using.
  intros Hu. pose proof reboot_code_ok as Hc. pose proof Hu as (_ & _ & Hp).
  apply (launched_at _ _ _ _ _ _ _ _ _ _ Hu). intros g sp zf df _. uregs. by utrap Reboot.
Qed.
Lemma shutdown_runs u m : launched shutdown_bin p u m ->
  eventually shutdown_bin p lo top fuel (in_call PowerOff []) (URun own u m [] None).
Proof using.
  intros Hu. pose proof shutdown_code_ok as Hc. pose proof Hu as (_ & _ & Hp).
  apply (launched_at _ _ _ _ _ _ _ _ _ _ Hu). intros g sp zf df _. uregs. by utrap PowerOff.
Qed.

Definition hello : list Z := Eval vm_compute in chars "Hello from user mode!".
Definition at_start (log : list event) (s : urun) : Prop :=
  r_log s = log /\ r_in s = None /\ upc (r_user s) = p /\ loaded user_prog_bin p (r_mem s).

(** [loop .delay] turns 10000 times. *)
Lemma delay P g sp zf df μ log n :
  code_ok user_prog_bin user_prog_code = true -> 0 <= p /\ p + lenZ user_prog_bin < 2 ^ 64 ->
  0 < n < 2 ^ 32 -> g RCX = n ->
  (forall g', runs_to user_prog_bin p lo top fuel P own (User g' sp (p + 43) zf df) μ log) ->
  runs_to user_prog_bin p lo top fuel P own (User g sp (p + 41) zf df) μ log.
Proof using.
  intros Hc Hp Hn Hg Hr. change (lenZ user_prog_bin) with 70 in Hp. assert (Hk : n = Z.of_nat (Z.to_nat n)) by lia. revert Hk. generalize (Z.to_nat n) as k.
  intros k. revert n g Hn Hg. induction k as [|k IH]; intros n g Hn Hg Hk; [lia|].
  uexec; [uallow; tauto|]. rewrite Hg, (u64_small (n - 1)) by lia.
  destruct (Z.eqb_spec (n - 1) 0) as [E|E]; [apply Hr|]. rewrite u64_small by lia.
  replace (p + 43 + -2) with (p + 41) by lia. apply (IH (n - 1)); [lia|by rewrite upd_same|lia].
Qed.

(** At the instruction [loop .delay], with [n] turns of it to go. *)
Definition at_delay (n : Z) (log : list event) (s : urun) : Prop :=
  r_own s = own /\ r_log s = log /\ r_in s = None /\ upc (r_user s) = p + 41 /\ ur (r_user s) RCX = n /\
  loaded user_prog_bin p (r_mem s).

(** user_prog prints its line and enters the delay; the delay leads back to
    the start. *)
Definition hello_said (v : Z) : list event := [Do (PrintAt hello 10 3 14 0); Got v].
Lemma user_prog_prints u m log : launched user_prog_bin p u m ->
  eventually user_prog_bin p lo top fuel (fun s => exists v, at_delay 10000 (log ++ hello_said v) s) (URun own u m log None).
Proof using.
  intros Hu. pose proof user_prog_code_ok as Hc. pose proof Hu as (_ & _ & Hp).
  apply (launched_at _ _ _ _ _ _ _ _ _ _ Hu). intros g sp zf df _.
  change (lenZ user_prog_bin) with 70 in Hp. uregs. ucall (PrintAt hello 10 3 14 0).
  { change (Some (PrintAt (chars_at 81 m0 (p + 48)) 10 3 14 0) = Some (PrintAt hello 10 3 14 0)).
    rewrite (chars_at_cstr 81 m0 (p + 48) hello); [done| |vm_compute; lia].
    by apply (loaded_text user_prog_bin p m0 48); [vm_compute|apply Hm]. }
  intros v _. uexec; [uallow; tauto|]. unorm. apply runs_end. intros m1 [Hl _]. exists v. by repeat split.
Qed.
Lemma user_prog_delays log s : 0 <= p /\ p + lenZ user_prog_bin < 2 ^ 64 -> at_delay 10000 log s ->
  eventually user_prog_bin p lo top fuel (at_start log) s.
Proof using.
  intros Hp (Ho & Hl & Hi & Hpc & Hcx & Hld). pose proof user_prog_code_ok as Hc.
  destruct s as [own' [g sp pc zf df] m log' c]. cbn in Ho, Hl, Hi, Hpc, Hcx, Hld. subst own' log' c pc.
  change (lenZ user_prog_bin) with 70 in Hp. apply runs_start; [exact Hld|].
  apply (delay _ _ _ _ _ _ _ 10000); [done|done|done|done|]. intros g'. uexec; [uallow; tauto|].
  unorm. apply runs_end. intros m1 [Hl1 _]. split; [done|]. split; [done|]. split; [cbn; lia|done].
Qed.
Lemma user_prog_round u m log : launched user_prog_bin p u m ->
  eventually user_prog_bin p lo top fuel (fun s => exists v,
    at_delay 10000 (log ++ hello_said v) s /\
    eventually user_prog_bin p lo top fuel (at_start (log ++ hello_said v)) s) (URun own u m log None).
Proof using.
  intros Hu. eapply eventually_mono; [by apply user_prog_prints|]. intros s (v & Hs). exists v. split; [exact Hs|].
  apply user_prog_delays; [apply Hu|exact Hs].
Qed.
End Small.

(** C36. The small programs make their calls, whatever else runs: clear clears the
    screen and ends its task, reboot and shutdown ask for that and nothing
    else, and user_prog prints its line at column 10 of row 3, enters its
    delay loop with 10000 in rcx, leaves it and starts over. *)
Theorem small_programs p lo top fuel own :
  (forall u m, launched clear_bin p u m ->
     eventually clear_bin p lo top fuel (fun s => exists v, in_call (Exit 0) [Do Clean; Got v] s) (URun own u m [] None)) /\
  (forall u m, launched reboot_bin p u m ->
     eventually reboot_bin p lo top fuel (in_call Reboot []) (URun own u m [] None)) /\
  (forall u m, launched shutdown_bin p u m ->
     eventually shutdown_bin p lo top fuel (in_call PowerOff []) (URun own u m [] None)) /\
  (forall u m log, launched user_prog_bin p u m ->
     eventually user_prog_bin p lo top fuel
       (fun s => exists v, at_delay p own 10000 (log ++ [Do (PrintAt hello 10 3 14 0); Got v]) s /\
          eventually user_prog_bin p lo top fuel (at_start p (log ++ [Do (PrintAt hello 10 3 14 0); Got v])) s)
       (URun own u m log None)).
Proof.
  split; [apply clear_runs|]. split; [apply reboot_runs|]. split; [apply shutdown_runs|]. apply user_prog_round.
Qed.

Lemma small_programs_witness :
  let start bs := URun (fun _ => False) (at_launch 0x200000 0x304000) (image_at bs 0x200000) [] None in
  let runs bs P := eventually bs 0x200000 0x300000 0x304000 100 P (start bs) in
  runs clear_bin (fun s => exists v, in_call (Exit 0) [Do Clean; Got v] s) /\
  runs reboot_bin (in_call Reboot []) /\ runs shutdown_bin (in_call PowerOff []) /\
  runs user_prog_bin (fun s => exists v, at_delay 0x200000 (fun _ => False) 10000 [Do (PrintAt hello 10 3 14 0); Got v] s /\
    eventually user_prog_bin 0x200000 0x300000 0x304000 100 (at_start 0x200000 [Do (PrintAt hello 10 3 14 0); Got v]) s).
Proof.
  pose proof (small_programs 0x200000 0x300000 0x304000 100 (fun _ => False)) as (H1 & H2 & H3 & H4). cbv zeta.
  split; [apply H1|split; [apply H2|split; [apply H3|apply (H4 _ _ [])]]];
    (apply image_launched; [apply (bool_decide_unpack _); by vm_compute|vm_compute; split; congruence]).
Defined.
