(* ===== verification/Htop.v ===== *)
(** * htop

    The statistics program: one call for the numbers, then a line for each of
    the seven. *)

From Stdlib Require Import ZArith Lia.
From stdpp Require Import strings.
From S2P Require Import Prelude Memory LibC KStats Machine Cpu Uasm Ucpu Programs Ulogic SmallProgs.

Definition htop_code : list (Z * ins Z) := Eval vm_compute in code htop_asm.
Lemma htop_code_ok : code_ok htop_bin htop_code = true.
Proof. by vm_compute. Qed.

(** ** Lemmas on memory *)

(** A copy towards lower addresses. *)
Lemma copy_down k s d m x :
  0 <= d < s -> s + Z.of_nat k < 2 ^ 64 ->
  rb (copy_bytes k 1 s d m) x = if (d <=? x) && (x <? d + Z.of_nat k) then rb m (x + (s - d)) else rb m x.
Proof.
  revert s d m. induction k as [|k IH]; intros s d m Hd H1; cbn [copy_bytes].
  - replace (_ && _) with false; [done|]. symmetry. apply andb_false_iff. rewrite Z.leb_gt, Z.ltb_ge. lia.
  - change (2 ^ 64) with 18446744073709551616 in *. rewrite !u64_small by lia. rewrite IH by lia.
    replace (s + 1 - (d + 1)) with (s - d) by lia.
    assert (Hs : forall y, d < y -> rb (wb m d (rb m s)) y = rb m y) by (intros y Hy; apply rb_wb_ne; lia).
    destruct (Z.eqb_spec x d) as [->|Hne].
    + rewrite (proj2 (Z.leb_gt (d + 1) d)), (proj2 (Z.leb_le d d)), (proj2 (Z.ltb_lt d (d + Z.of_nat (S k)))) by lia. cbn [andb].
      rewrite rb_wb_eq. replace (d + (s - d)) with s by lia. apply u8_small, rb_range.
    + repeat bcase; cbn [andb]; try lia; try (apply Hs; lia); try (apply rb_wb_ne; lia).
Qed.

(** The decimal digits of a 64-bit number. *)
Definition dec64 (v : Z) : list Z := if v =? 0 then [48] else reverse (dec_loop 20 v).

Lemma dec_loop_short F q : (length (dec_loop F q) <= F)%nat.
Proof. revert q. induction F as [|F IH]; intros q; cbn [dec_loop]; [done|]. destruct (q =? 0); cbn [length]; [lia|]. specialize (IH (q / 10)). lia. Qed.
Lemma dec64_ok v : 0 <= v < 2 ^ 64 -> dec_val (dec64 v) = v /\ Forall digit (dec64 v) /\ lenZ (dec64 v) <= 20.
Proof.
  intros Hv. unfold dec64. destruct (Z.eqb_spec v 0) as [->|Hne].
  - split; [done|]. split; [|by vm_compute]. constructor; [unfold digit; lia|constructor].
  - destruct (dec_loop_ok 20 v) as (H1 & H2 & _ & _); [split; [lia|]; eapply Z.lt_trans; [apply Hv|reflexivity]|].
    split; [done|]. split; [by rewrite reverse_Permutation|]. unfold lenZ. rewrite length_reverse.
    pose proof (dec_loop_short 20 v). lia.
Qed.

Lemma with_low8_digit r : 0 <= r < 10 -> with_low8 r (r + 48) = 48 + r.
Proof. intros Hr. unfold with_low8, u8. rewrite !Z.mod_small by lia. lia. Qed.

Lemma div10 g sp pc zf df μ q :
  g RDX = 0 -> g R13 = 10 -> g RAX = q -> 0 <= q < 2 ^ 64 ->
  exec (IDiv R13) (User g sp pc zf df) μ = Some (User (upd RDX (q mod 10) (upd RAX (q / 10) g)) sp pc zf df, μ).
Proof.
  intros H1 H2 H3 Hq. cbn [exec ur]. rewrite H1, H2, H3. change (0 * 2 ^ 64 + q) with q.
  assert (q / 10 < 2 ^ 64) by (apply Z.div_lt_upper_bound; lia). by rewrite (proj2 (Z.leb_gt (2 ^ 64) _)) by lia.
Qed.

Section Htop.
Context (p lo top : Z) (fuel : nat).
Context (Hp : 0 <= p /\ p + 560 < 2 ^ 64).

(** .bss: the statistics and the number buffer. *)
Definition bss (x : Z) : Prop := p + 472 <= x < p + 560.
Abbreviation goes := (runs_to htop_bin p lo top fuel).
Abbreviation out := (p + 528).

(** ** [.loop_div] *)

Lemma div_loop P sp df log F q g zf μ s :
  (forall g' zf' μ', let t := reverse (dec_loop F q) ++ s in
     g' RSI = out -> g' RBX = out + 31 - lenZ t -> g' R12 = lenZ t -> rbs μ' (out + 31 - lenZ t) (length t) = t ->
     lenZ t <= 31 -> only_in out (out + 31) μ μ' ->
     goes P bss (User g' sp (p + 221) zf' df) μ' log) ->
  0 < q < 10 ^ Z.of_nat F -> q < 2 ^ 64 -> Z.of_nat F + lenZ s <= 31 ->
  g RAX = q -> g RSI = out -> g RBX = out + 31 - lenZ s -> g R12 = lenZ s -> rbs μ (out + 31 - lenZ s) (length s) = s ->
  goes P bss (User g sp (p + 192) zf df) μ log.
Proof.
  intros Hend. revert q g zf μ s Hend. induction F as [|F IH]; intros q g zf μ s Hend Hq H64 Hs Ea Esi Eb E12 Em; [cbn in Hq; lia|].
  pose proof htop_code_ok as Hc. assert (Hlen : lenZ htop_bin = 470) by done.
  assert (Hp' : 0 <= p /\ p + lenZ htop_bin < 2 ^ 64) by (rewrite Hlen; lia).
  assert (Hl : 0 <= lenZ s) by (unfold lenZ; lia).
  uexec; [uallow; tauto|]. unorm. uexec; [uallow; tauto|]. unorm.
  eapply (runs_exec _ _ _ _ _ _ Hc Hp' P bss _ _ 201 _ _ _ _ (IDiv R13) 204);
    [vm_compute; reflexivity|vm_compute; reflexivity|apply (div10 _ _ _ _ _ _ q); [by unorm..|lia]|uallow; tauto|].
  pose proof (Z.mod_pos_bound q 10 ltac:(lia)) as Hd. pose proof (Z.div_mod q 10 ltac:(lia)) as Edm.
  uexec; [uallow; tauto|]. unorm. rewrite with_low8_digit by lia. uexec; [uallow; tauto|]. unorm. rewrite Eb.
  uexec. { uaccess; unfold bss; rewrite ?Hlen; try lia. }
  unorm. set (c := 48 + q mod 10) in *. set (a := p + 559 - lenZ s - 1 + 0).
  assert (Ha : a = out + 31 - lenZ (c :: s)) by (unfold a, lenZ; cbn [length]; lia).
  assert (Ec : u8 c = c) by (apply u8_small; unfold c; lia).
  assert (Em' : rbs (wb μ a c) a (length (c :: s)) = c :: s).
  { cbn [length]. rewrite rbs_cons, rb_wb_eq, Ec. f_equal. rewrite <- Em at 2. apply rbs_ext. intros i Hi.
    rewrite rb_wb_ne by lia. f_equal. unfold a. lia. }
  assert (Hlc : lenZ (c :: s) = lenZ s + 1) by (unfold lenZ; cbn [length]; lia).
  assert (Ho : only_in out (out + 31) μ (wb μ a c)) by (intros x Hx; apply rb_wb_ne; lia).
  uexec; [uallow; tauto|]. unorm. uexec; [uallow; tauto|]. unorm.
  assert (Ed : reverse (dec_loop (S F) q) ++ s = reverse (dec_loop F (q / 10)) ++ c :: s).
  { cbn [dec_loop]. rewrite (proj2 (Z.eqb_neq q 0)) by lia. fold c. rewrite Ec, reverse_cons, <- app_assoc. done. }
  cbv zeta in Hend. rewrite Ed in Hend. pose proof (Z.pow_pos_nonneg 10 (Z.of_nat F) ltac:(lia) ltac:(lia)).
  rewrite Nat2Z.inj_succ, Z.pow_succ_r in Hq by lia.
  destruct (Z.eqb_spec (q / 10) 0) as [E0|E0]; (uexec; [uallow; tauto|]; unorm).
  - rewrite E0 in Hend. assert (Ez : dec_loop F 0 = []) by (by destruct F). rewrite Ez in Hend. change (reverse [] ++ c :: s) with (c :: s) in Hend.
    clearbody a. apply Hend; [by unorm|unorm; lia|unorm; lia|by rewrite <- Ha|lia|done].
  - clearbody a. apply (IH (q / 10) _ _ _ (c :: s)).
    + intros g' zf' μ' t H1 H2 H3 H4 H5 H6. apply Hend; [exact H1|exact H2|exact H3|exact H4|exact H5|].
      etransitivity; [exact Ho|exact H6].
    + clear Hend IH. split; [lia|]. apply Z.div_lt_upper_bound; [lia|]. apply Hq.
    + clear Hend IH H Hq. lia.
    + clear Hend IH H Hq Edm. lia.
    + unorm. reflexivity.
    + unorm. exact Esi.
    + clear H Hq Edm. unorm. lia.
    + clear H Hq Edm. unorm. lia.
    + rewrite <- Ha. exact Em'.
Qed.

(** The stack. *)
Context (Hstack : 0 <= lo /\ lo <= top /\ top < 2 ^ 64 /\ (top <= p \/ p + 560 <= lo)).

Ltac hstep := uexec; [uaccess; unfold bss; change (lenZ htop_bin) with 470 in *; lia|]; unorm.

(** ** [u64_to_dec] *)

(** What a routine may write: the buffer, and the stack below its frame. *)
Definition scratch (sp x : Z) : Prop := out <= x < out + 32 \/ lo <= x < sp.

(** The end of the routine. *)
Lemma dec_return P g sp zf df μ μ2 log v ret :
  (forall g' zf' df' μ', cstr μ' out (dec64 v) -> (forall x, ~ scratch sp x -> rb μ' x = rb μ x) ->
     goes P bss (User g' (sp + 8) ret zf' df') μ' log) ->
  lo + 24 <= sp -> sp + 8 <= top -> ld 8 μ sp = ret ->
  cstr μ2 out (dec64 v) -> (forall x, ~ scratch sp x -> rb μ2 x = rb μ x) ->
  goes P bss (User g (sp - 8 - 8 - 8) (p + 236) zf df) μ2 log.
Proof.
  intros Hend Hlo Htop Hret H1 H2. pose proof htop_code_ok as Hc.
  assert (Hp' : 0 <= p /\ p + lenZ htop_bin < 2 ^ 64) by (change (lenZ htop_bin) with 470; lia).
  assert (Er : ld 8 μ2 (sp - 8 - 8 - 8 + 8 + 8 + 8) = ret).
  { rewrite <- Hret. replace (sp - 8 - 8 - 8 + 8 + 8 + 8) with sp by lia. apply ld_ext. intros x Hx. simpl in Hx.
    apply H2. unfold scratch. lia. }
  do 4 hstep. rewrite Er. replace (sp - 8 - 8 - 8 + 8 + 8 + 8 + 8) with (sp + 8) by lia. by apply Hend.
Qed.

(** The digits, moved to the front of the buffer. *)
Lemma dec_move P g sp zf df μ log t :
  (forall g' zf' df' μ', cstr μ' out t -> (forall x, ~ (out <= x < out + 32) -> rb μ' x = rb μ x) ->
     goes P bss (User g' sp (p + 236) zf' df') μ' log) ->
  Forall digit t -> lenZ t <= 20 ->
  g RSI = out -> g RBX = out + 31 - lenZ t -> g R12 = lenZ t -> rbs μ (out + 31 - lenZ t) (length t) = t ->
  goes P bss (User g sp (p + 221) zf df) μ log.
Proof.
  intros Hend Hdig H20 T1 T2 T3 T4. pose proof htop_code_ok as Hc. assert (Hlen : lenZ htop_bin = 470) by reflexivity.
  assert (Hp' : 0 <= p /\ p + lenZ htop_bin < 2 ^ 64) by (rewrite Hlen; lia).
  assert (Hl : 0 <= lenZ t) by (unfold lenZ; lia). do 4 hstep. uexec.
  { split.
    - cbn [straight udf ur]. unorm. rewrite T1, T2, T3. change (2 ^ 64) with 18446744073709551616 in *. lia.
    - intros x Hx. uaccess_of x Hx. unfold bss. rewrite T2, T3 in Hx. lia.
    - intros x Hx. uaccess_of x Hx. unfold bss. rewrite Hlen. rewrite T1, T3 in Hx. lia.
    - intros x Hx. uaccess_of x Hx. }
  unorm. rewrite T1, T2, T3, Z.mul_1_l. unorm.
  assert (Hcopy : forall x, rb (copy_bytes (Z.to_nat (lenZ t)) 1 (p + 559 - lenZ t) out μ) x =
    if (out <=? x) && (x <? out + lenZ t) then rb μ (x + (31 - lenZ t)) else rb μ x).
  { intros x. rewrite copy_down by (rewrite ?Z2Nat.id; lia). rewrite Z2Nat.id by lia.
    replace (x + (p + 559 - lenZ t - out)) with (x + (31 - lenZ t)) by lia. reflexivity. }
  set (μ3 := copy_bytes _ _ _ _ _) in *. clearbody μ3.
  hstep. replace (out + lenZ t + 0) with (out + lenZ t) by lia. apply Hend.
  - apply cstr_of; [|apply rb_wb_eq]. intros i c Hi. pose proof (lookup_lt_Some _ _ _ Hi) as Hlt.
    rewrite rb_wb_ne by (unfold lenZ; lia). rewrite Hcopy.
    rewrite (proj2 (Z.leb_le _ _)), (proj2 (Z.ltb_lt _ _)) by (unfold lenZ; lia). cbn [andb]. split.
    + rewrite <- T4 in Hi. rewrite lookup_rbs in Hi by exact Hlt. injection Hi as <-. f_equal. lia.
    + rewrite Forall_lookup in Hdig. specialize (Hdig i c Hi). unfold digit in Hdig. lia.
  - intros x Hx. rewrite rb_wb_ne by lia. rewrite Hcopy.
    destruct (Z.leb_spec out x), (Z.ltb_spec x (out + lenZ t)); cbn [andb]; try reflexivity. lia.
Qed.

Lemma u64_to_dec_ok P g sp zf df μ log v ret a :
  (forall g' zf' df' μ', cstr μ' out (dec64 v) -> (forall x, ~ scratch sp x -> rb μ' x = rb μ x) ->
     goes P bss (User g' (sp + 8) ret zf' df') μ' log) ->
  lo + 24 <= sp -> sp + 8 <= top -> ld 8 μ sp = ret -> g RDI = a -> g RSI = out -> p + 472 <= a -> a + 8 <= out -> ld 8 μ a = v ->
  goes P bss (User g sp (p + 159) zf df) μ log.
Proof.
  intros Hend Hlo Htop Hret Hdi Hsi Ha Ha' Hv. pose proof htop_code_ok as Hc.
  assert (Hp' : 0 <= p /\ p + lenZ htop_bin < 2 ^ 64) by (change (lenZ htop_bin) with 470; lia).
  pose proof (ld_range 8 μ a) as Hvr. rewrite Hv in Hvr. change (256 ^ Z.of_nat 8) with (2 ^ 64) in Hvr.
  assert (Hepi : forall g2 zf2 df2 μ2, cstr μ2 out (dec64 v) -> (forall x, ~ scratch sp x -> rb μ2 x = rb μ x) ->
    goes P bss (User g2 (sp - 8 - 8 - 8) (p + 236) zf2 df2) μ2 log).
  { intros g2 zf2 df2 μ2 H1 H2. by apply (dec_return P _ sp _ _ μ μ2 log v ret). }
  clear Hend. do 5 hstep. set (μ1 := st 8 (st 8 _ _ _) _ _).
  assert (Ev : ld 8 μ1 (g RDI + 0) = v).
  { unfold μ1. rewrite Hdi, Z.add_0_r, !ld_st_out by (simpl; lia). exact Hv. }
  assert (H1 : forall x, ~ scratch sp x -> rb μ1 x = rb μ x).
  { unfold scratch. intros x Hx. unfold μ1. rewrite !rb_st_out by (simpl; lia). reflexivity. }
  rewrite Ev. clearbody μ1. destruct (Z.eqb_spec v 0) as [E0|E0]; hstep.
  - do 3 hstep. rewrite Hsi, Z.add_0_r. apply Hepi.
    + unfold dec64. rewrite E0. cbn [Z.eqb cstr]. rewrite rb_wb_ne, !rb_wb_eq by lia. split; [reflexivity|split; [discriminate|reflexivity]].
    + intros x Hx. rewrite <- (H1 x Hx). unfold scratch in Hx. rewrite !rb_wb_ne by lia. reflexivity.
  - do 2 hstep. rewrite Hsi. destruct (dec64_ok v Hvr) as (_ & Hdig & H20).
    apply (div_loop P _ _ _ 20 v _ _ _ []);
      [|split; [lia|eapply Z.lt_trans; [apply Hvr|reflexivity]]|apply Hvr|vm_compute; congruence
       |unorm; reflexivity|unorm; exact Hsi|unorm; unfold lenZ; cbn [length]; lia|unorm; reflexivity|reflexivity].
    intros g' zf' μ2 t T1 T2 T3 T4 T5 T6.
    assert (Ht : t = dec64 v).
    { unfold t. rewrite app_nil_r. unfold dec64. rewrite (proj2 (Z.eqb_neq v 0) E0). reflexivity. }
    clearbody t. subst t. apply (dec_move P _ _ _ _ _ _ (dec64 v)); try assumption.
    intros g2 zf2 df2 μ3 H3 H4. apply Hepi; [exact H3|]. intros x Hx. rewrite <- (H1 x Hx). unfold scratch in Hx.
    rewrite H4 by lia. apply T6. lia.
Qed.

(** ** [print_field] *)
Context (Hfuel : (64 < fuel)%nat).

(** A label, a number and a newline. *)
Definition field_log (s : list Z) (v v1 v2 v3 : Z) : list event :=
  [Do (Print s 15 0); Got v1; Do (Print (dec64 v) 15 0); Got v2; Do (Print [10] 15 0); Got v3].

Lemma print_field_ok P g sp zf df μ log lbl s v ret a :
  (forall g' zf' df' μ' v1 v2 v3, (forall x, ~ scratch sp x -> rb μ' x = rb μ x) ->
     goes P bss (User g' (sp + 8) ret zf' df') μ' (log ++ field_log s v v1 v2 v3)) ->
  lo + 56 <= sp -> sp + 8 <= top -> ld 8 μ sp = ret -> g RDI = p + lbl -> text_at htop_bin lbl s = true -> (length s <= 64)%nat ->
  g RSI = a -> p + 472 <= a -> a + 8 <= out -> ld 8 μ a = v ->
  goes P bss (User g sp (p + 250) zf df) μ log.
Proof.
  intros Hend Hlo Htop Hret Hdi Hs Hl Hsi Ha Ha' Hv.
  pose proof htop_code_ok as Hc. assert (Hlen : lenZ htop_bin = 470) by reflexivity.
  assert (Hp' : 0 <= p /\ p + lenZ htop_bin < 2 ^ 64) by (rewrite Hlen; lia).
  pose proof (ld_range 8 μ a) as Hvr. rewrite Hv in Hvr. change (256 ^ Z.of_nat 8) with (2 ^ 64) in Hvr.
  do 7 hstep. uprint s; [rewrite Hdi; apply (loaded_text _ _ _ _ _ Hs), Hm|lia|]. intros v1 _.
  do 3 hstep. set (μ1 := st 8 (st 8 _ _ _) _ _). assert (H1 : forall x, ~ scratch sp x -> rb μ1 x = rb μ x).
  { unfold scratch. intros x Hx. unfold μ1. rewrite !rb_st_out by (simpl; lia). reflexivity. }
  apply (u64_to_dec_ok P _ _ _ _ _ _ v (p + 289) a);
    [|lia|lia|unfold μ1; rewrite ld_st_small by (simpl; lia); reflexivity|unorm; exact Hsi|unorm; reflexivity|lia|lia|].
  2: { rewrite <- Hv. apply ld_ext. intros x Hx. simpl in Hx. apply H1. unfold scratch. lia. }
  clearbody μ1. intros g2 zf2 df2 μ2 Hdec H2.
  assert (H3 : forall x, ~ scratch sp x -> rb μ2 x = rb μ x).
  { intros x Hx. rewrite <- (H1 x Hx). apply H2. unfold scratch in *. lia. }
  replace (sp - 8 - 8 - 8 - 8 + 8) with (sp - 24) by lia. destruct (dec64_ok v Hvr) as (_ & _ & H20).
  do 4 hstep. uprint (dec64 v).
  { apply (cstr_ext μ2); [|exact Hdec]. intros x Hx. symmetry. apply Hm. left. unfold bss. lia. }
  { unfold lenZ in H20. lia. }
  intros v2 _. do 4 hstep. uprint [10].
  { apply (loaded_text htop_bin p m 468); [by vm_compute|apply Hm]. }
  { cbn [length]. lia. }
  intros v3 _. assert (Er : ld 8 μ2 (sp - 24 + 8 + 8 + 8) = ret).
  { rewrite <- Hret. replace (sp - 24 + 8 + 8 + 8) with sp by lia. apply ld_ext. intros x Hx. simpl in Hx.
    apply H3. unfold scratch. lia. }
  do 4 hstep. rewrite Er. replace (sp - 24 + 8 + 8 + 8 + 8) with (sp + 8) by lia. rewrite <- !app_assoc. by apply Hend.
Qed.

(** ** [_start] *)

(** The labels, at 344 in the image, and their lines. *)
Definition labels : list (list Z) := Eval vm_compute in
  chars <$> ["total_managed: "; "used_payload:    "; "free_payload:    "; "largest_free:    "; "num_blocks:      ";
             "num_used:        "; "num_free:        "]%string.
Definition stat (m : mem) (i : Z) : Z := ld 8 m (p + 472 + 8 * i).
Fixpoint report (i : Z) (ls : list (list Z)) (m : mem) (ans : list (Z * Z * Z)) : list event :=
  match ls, ans with
  | l :: ls, (v1, v2, v3) :: ans => field_log l (stat m i) v1 v2 v3 ++ report (i + 1) ls m ans
  | _, _ => []
  end.

Context (Hroom : lo + 64 <= top).

Lemma stat_kept sp m m' i :
  sp <= top -> 0 <= i < 7 -> (forall x, ~ scratch sp x -> rb m' x = rb m x) -> stat m' i = stat m i.
Proof. intros Hsp Hi Hk. apply ld_ext. intros x Hx. simpl in Hx. apply Hk. unfold scratch. lia. Qed.

(** The three instructions of a field and its line. *)
Ltac field lbl s a ret v1 v2 v3 :=
  do 3 hstep;
  match goal with
  | |- goes ?P _ (User ?g (?sp - 8) _ ?zf ?df) (st 8 ?μ _ _) ?log =>
      apply (print_field_ok P g (sp - 8) zf df (st 8 μ (sp - 8) (p + ret)) log lbl s (ld 8 μ a) (p + ret) a);
      [replace (sp - 8 + 8) with sp by lia|lia|lia|apply ld_st_small; simpl; lia|unorm; reflexivity
      |vm_compute; reflexivity|vm_compute; lia|unorm; reflexivity|lia|lia
      |rewrite ld_st_out by (simpl; lia); reflexivity];
      let g' := fresh "g" in let zf' := fresh "zf" in let df' := fresh "df" in let μ' := fresh "μ" in let K := fresh "K" in
      intros g' zf' df' μ' v1 v2 v3 K;
      assert (forall x, ~ scratch sp x -> rb μ' x = rb μ x)
        by (let x := fresh "x" in let Hx := fresh "Hx" in intros x Hx; unfold scratch in Hx; rewrite K by (unfold scratch; lia);
            apply rb_st_out; simpl; lia); clear K
  end.

(** What htop has done when it ends its task. *)
Definition reported_stats (s : urun) : Prop :=
  exists r ans, length ans = 7%nat /\
    in_call (Exit 0) (Do (Stats (p + 472)) :: Got r :: report 0 labels (r_mem s) ans) s.

Lemma htop_run g sp zf df μ :
  lo + 64 <= sp -> sp <= top -> goes reported_stats bss (User g sp (p + 0) zf df) μ [].
Proof.
  intros Hlo Htop. pose proof htop_code_ok as Hc. assert (Hlen : lenZ htop_bin = 470) by reflexivity.
  assert (Hp' : 0 <= p /\ p + lenZ htop_bin < 2 ^ 64) by (rewrite Hlen; lia).
  do 2 hstep.
  apply (runs_call htop_bin p lo top fuel htop_code Hc Hp' reported_stats bss _ _ 12 _ _ _ _ 14 (Stats (p + 472)));
   [vm_compute; reflexivity|vm_compute; reflexivity|ucall_of| |].
  { intros x Hx. cbn in Hx. lia. }
  intros r μ1 _ _ _. cbn [grow app]. clear μ. 
  field 344 (nth 0 labels []) (p + 472) 33 v1 v2 v3.
  field 360 (nth 1 labels []) (p + 480) 52 v4 v5 v6.
  field 378 (nth 2 labels []) (p + 488) 71 v7 v8 v9.
  field 396 (nth 3 labels []) (p + 496) 90 w1 w2 w3.
  field 414 (nth 4 labels []) (p + 504) 109 w4 w5 w6.
  field 432 (nth 5 labels []) (p + 512) 128 w7 w8 w9.
  field 450 (nth 6 labels []) (p + 520) 147 x1 x2 x3.
  do 2 hstep. utrap (Exit 0).
  exists r, [(v1, v2, v3); (v4, v5, v6); (v7, v8, v9); (w1, w2, w3); (w4, w5, w6); (w7, w8, w9); (x1, x2, x3)].
  split; [reflexivity|]. split; [|reflexivity]. cbn [r_log r_mem].
  assert (E : forall i, 0 <= i < 7 -> stat m i = stat μ6 i).
  { intros i Hi. apply ld_ext. intros x Hx. simpl in Hx. apply Hm. left. unfold bss. lia. }
  assert (T : forall i, 0 <= i < 7 -> stat μ1 i = stat m i /\ stat μ i = stat m i /\ stat μ0 i = stat m i /\
    stat μ2 i = stat m i /\ stat μ3 i = stat m i /\ stat μ4 i = stat m i /\ stat μ5 i = stat m i).
  { intros i Hi. rewrite (E i Hi). repeat match goal with K : forall x, ~ scratch sp x -> rb _ x = rb _ x |- _ =>
      apply (stat_kept sp _ _ i Htop Hi) in K end. intuition congruence. }
  clear - T. assert (U : forall μ' i a, 0 <= i < 7 -> stat μ' i = stat m i -> a = p + 472 + 8 * i -> ld 8 μ' a = stat m i).
  { intros μ' i a _ <- ->. reflexivity. }
  rewrite (U μ1 0 (p + 472)), (U μ (0 + 1) (p + 480)), (U μ0 (0 + 1 + 1) (p + 488)), (U μ2 (0 + 1 + 1 + 1) (p + 496)),
    (U μ3 (0 + 1 + 1 + 1 + 1) (p + 504)), (U μ4 (0 + 1 + 1 + 1 + 1 + 1) (p + 512)), (U μ5 (0 + 1 + 1 + 1 + 1 + 1 + 1) (p + 520))
    by first [lia|apply T; lia].
  reflexivity.
Qed.
End Htop.

(** C14. htop prints the kernel heap's statistics: it asks the kernel for them,
    prints a line for each of the seven - its label, its decimal digits, a
    newline - and ends its task, whatever runs in between, provided it has 64
    bytes of stack apart from its image and its .bss. *)
Theorem htop_prints_stats p lo top fuel u m :
  launched htop_bin p u m -> p + 560 < 2 ^ 64 ->
  0 <= lo -> lo + 64 <= usp u <= top -> top < 2 ^ 64 -> top <= p \/ p + 560 <= lo -> (64 < fuel)%nat ->
  eventually htop_bin p lo top fuel (fun s => exists r ans, length ans = 7%nat /\
    in_call (Exit 0) (Do (Stats (p + 472)) :: Got r :: report p 0 labels (r_mem s) ans) s)
    (URun (bss p) u m [] None).
Proof.
  intros Hu Hp Hlo Hsp Htop Hd Hf. pose proof Hu as (_ & _ & Hp').
  apply (launched_at _ _ _ _ _ _ _ _ _ _ Hu). intros g sp zf df ->. cbn [usp] in *.
  apply (htop_run p lo top fuel); lia.
Qed.

Lemma htop_prints_stats_witness :
  eventually htop_bin 0x200000 0x300000 0x304000 100 (fun s => exists r ans, length ans = 7%nat /\
    in_call (Exit 0) (Do (Stats (0x200000 + 472)) :: Got r :: report 0x200000 0 labels (r_mem s) ans) s)
    (URun (bss 0x200000) (at_launch 0x200000 0x304000) (image_at htop_bin 0x200000) [] None).
Proof.
  apply (htop_prints_stats 0x200000 0x300000 0x304000 100 (at_launch 0x200000 0x304000)).
  - apply image_launched; [apply (bool_decide_unpack _); by vm_compute|vm_compute; split; congruence].
  - lia.
  - lia.
  - cbn [usp at_launch]. lia.
  - lia.
  - right. lia.
  - lia.
Defined.
