(* ===== verification/Terminal.v ===== *)
(** * The terminal

    The line editor of user/terminal.asm as a transition system on lines and
    children, and its machine code as an implementation of it. *)

From Stdlib Require Import ZArith Lia.
From stdpp Require Import strings.
From S2P Require Import Prelude Memory LibC Machine Cpu Uasm Ucpu Programs Ulogic.

Definition terminal_code : list (Z * ins Z) := Eval vm_compute in code terminal_asm.
Lemma terminal_code_ok : code_ok terminal_bin terminal_code = true.
Proof. by vm_compute. Qed.

Definition prompt : list Z := Eval vm_compute in chars "$: ".
Definition welcome : list Z := Eval vm_compute in chars "SimpleTerm v0.1" ++ [10].

(** ** What the terminal does *)

(** Editing a line, with the pid of the last program; or waiting for one. *)
Inductive tstate := Editing (line : list Z) (child : Z) | Waiting (child : Z).

(** The name the kernel reads: up to a NUL, 64 characters at most. *)
Fixpoint cut (n : nat) (l : list Z) : list Z :=
  match n, l with S n, c :: l => if c =? 0 then [] else c :: cut n l | _, _ => [] end.

Section Spec.
(** The line buffer. *)
Context (buf : Z).

(** A character that is not ignored. *)
Inductive typed : list Z -> Z -> Z -> list event -> tstate -> Prop :=
  | ty_unknown line child v1 v2 :
      typed line child 10
        [Do (PutChar 10 15 0); Got v1; Do (Create buf (cut 64 line)); Got 0; Do (Print prompt 15 0); Got v2] (Editing [] child)
  | ty_start line child v1 pid :
      pid <> 0 ->
      typed line child 10 [Do (PutChar 10 15 0); Got v1; Do (Create buf (cut 64 line)); Got pid] (Waiting pid)
  | ty_nothing child : typed [] child 8 [] (Editing [] child)
  | ty_erase line x child v : typed (line ++ [x]) child 8 [Do Backspace; Got v] (Editing line child)
  | ty_char line child c v :
      c <> 8 -> c <> 10 -> let c' := if c =? 1 then 32 else c in
      typed line child c [Do (PutChar (s8 c') 15 0); Got v] (Editing (line ++ [c']) child).

(** One turn of the loop: a key, or a look at the child.  The character 1 is
    what the keyboard driver sends for the space bar.  Ctrl-C asks the kernel
    to stop the last program, and then takes the answer for a character. *)
Inductive tstep : tstate -> list event -> tstate -> Prop :=
  | ts_ignored line child v :
      low8 v = 0 \/ low8 v = 32 -> tstep (Editing line child) [Do Getchar; Got v] (Editing line child)
  | ts_stop line child v r es t :
      low8 v = 3 -> child <> 0 -> typed line 0 (low8 r) es t ->
      tstep (Editing line child) ([Do Getchar; Got v; Do (Stop (s32 child)); Got r] ++ es) t
  | ts_key line child v es t :
      low8 v <> 0 -> low8 v <> 32 -> (low8 v = 3 -> child = 0) -> typed line child (low8 v) es t ->
      tstep (Editing line child) ([Do Getchar; Got v] ++ es) t
  | ts_running child r :
      r <> 0 -> tstep (Waiting child) [Do (Alive (s32 child)); Got r] (Waiting child)
  | ts_ended child v :
      tstep (Waiting child) [Do (Alive (s32 child)); Got 0; Do (Print prompt 15 0); Got v] (Editing [] child).

(** Turns, one after the other. *)
Inductive tsteps : nat -> tstate -> list event -> tstate -> Prop :=
  | tr_none t : tsteps 0 t [] t
  | tr_turn n t es t1 es' t' : tsteps n t es t1 -> tstep t1 es' t' -> tsteps (S n) t (es ++ es') t'.
End Spec.
(** A line that fills its buffer. *)
Definition full (t : tstate) : Prop := match t with Editing line _ => lenZ line = 8192 | Waiting _ => False end.

Lemma chars_at_cut n m a l :
  rbs m a (length l) = l -> rb m (a + lenZ l) = 0 -> chars_at n m a = cut n l.
Proof.
  unfold lenZ. revert a l. induction n as [|n IH]; intros a [|c l] Hl H0; try reflexivity.
  - cbn in *. rewrite Z.add_0_r in H0. by rewrite H0.
  - cbn [length] in *. rewrite rbs_cons in Hl. injection Hl as Hc Hl. cbn [chars_at cut]. rewrite Hc.
    destruct (c =? 0); [reflexivity|]. f_equal. apply IH; [exact Hl|]. rewrite <- H0. f_equal. lia.
Qed.

(** ** The machine code *)

Section Terminal.
Context (p lo top : Z) (fuel : nat).
Context (Hp : 400 <= p /\ p + 408 < 2 ^ 64) (Hfuel : (64 < fuel)%nat).
Context (Hstack : 400 <= lo /\ lo <= top /\ top < 2 ^ 64 /\ (top <= p \/ p + 408 <= lo)).

(** [input_len] is addressed absolutely: it is the word at 392, wherever the
    program is loaded; [input_buffer_ptr] lies behind the image. *)
Definition cells (x : Z) : Prop := 392 <= x < 400 \/ p + 400 <= x < p + 408.
Definition owned (buf : Z) : Z -> Prop := grow cells (Malloc 8192) buf.
(** The buffer lies apart from the rest. *)
Definition buffer_ok (buf : Z) : Prop :=
  buf <> 0 /\ 400 <= buf /\ buf + 8192 <= 2 ^ 64 /\ (buf + 8192 <= p \/ p + 408 <= buf) /\ (buf + 8192 <= lo \/ top <= buf).

Abbreviation goes := (runs_to terminal_bin p lo top fuel).

(** The program's registers and memory in a state, at the top of the loop. *)
Definition holds_state (buf : Z) (t : tstate) (g : reg -> Z) (pc : Z) (m : mem) : Prop :=
  ld 8 m (p + 400) = buf /\
  match t with
  | Editing line child =>
      pc = p + 85 /\ g R15 = child /\ word64 child /\ ld 8 m 392 = lenZ line /\ lenZ line <= 8192 /\
      rbs m buf (length line) = line
  | Waiting child => pc = p + 199 /\ g R15 = child /\ word64 child /\ ld 8 m 392 = 0
  end.
Definition matches (buf sp : Z) (t : tstate) (s : urun) : Prop :=
  r_in s = None /\ r_own s = owned buf /\ usp (r_user s) = sp /\ loaded terminal_bin p (r_mem s) /\
  holds_state buf t (ur (r_user s)) (upc (r_user s)) (r_mem s).

(** It survives what the others do. *)
Lemma holds_agrees buf t g pc u μ m :
  buffer_ok buf -> holds_state buf t g pc μ -> agrees terminal_bin p top (owned buf) u μ m -> holds_state buf t g pc m.
Proof.
  intros Hb [H1 H2] [_ Ha].
  assert (Hc : forall x, cells x -> rb m x = rb μ x) by (intros x Hx; apply Ha; left; left; exact Hx).
  assert (E1 : forall a, a = 392 \/ a = p + 400 -> ld 8 m a = ld 8 μ a).
  { intros a Ha'. apply ld_ext. intros x Hx. simpl in Hx. apply Hc. unfold cells. lia. }
  split; [rewrite E1 by lia; exact H1|]. destruct t as [line child|child]; rewrite E1 by lia; [|exact H2].
  destruct H2 as (A1 & A2 & A3 & A4 & A5 & A6). do 5 (split; [assumption|]). rewrite <- A6 at 2. apply rbs_ext.
  intros i Hi. apply Ha. left. right. cbn. destruct Hb as (B0 & _). unfold lenZ in A5. lia.
Qed.

Ltac tstep_ins := uexec; [uaccess; unfold owned, cells, grow, fresh, buffer_ok in *; change (lenZ terminal_bin) with 389 in *; lia|]; unorm.

(** Where a round ends. *)
Definition turned (buf sp : Z) (t : tstate) (log : list event) (s : urun) : Prop :=
  exists es t', tstep buf t es t' /\ r_log s = log ++ es /\ matches buf sp t' s.

Lemma round_end buf sp t log t' es g pc zf df μ :
  buffer_ok buf -> tstep buf t es t' -> holds_state buf t' g pc μ ->
  goes (turned buf sp t log) (owned buf) (User g sp pc zf df) μ (log ++ es).
Proof.
  intros Hb Ht Hs. apply runs_end. intros m Hm. exists es, t'. split; [exact Ht|]. split; [reflexivity|].
  do 3 (split; [reflexivity|]). split; [apply Hm|]. by eapply holds_agrees.
Qed.

Context (buf sp : Z) (Hb : buffer_ok buf) (Hsp : lo + 8 <= sp /\ sp <= top).

(** .wait_char *)
Lemma wait_char P g zf df μ log :
  goes P (owned buf) (User g sp (p + 85) zf df) μ log -> goes P (owned buf) (User g sp (p + 333) zf df) μ log.
Proof using All.
  intros Hend. pose proof terminal_code_ok as Hc.
  assert (Hp' : 0 <= p /\ p + lenZ terminal_bin < 2 ^ 64) by (change (lenZ terminal_bin) with 389; lia).
  do 2 tstep_ins. exact Hend.
Qed.

(** .child_ended *)
Lemma child_ended P g zf df μ log :
  (forall g' v, g' R15 = g R15 -> goes P (owned buf) (User g' sp (p + 85) zf df) μ (log ++ [Do (Print prompt 15 0); Got v])) ->
  goes P (owned buf) (User g sp (p + 220) zf df) μ log.
Proof using All.
  intros Hend. pose proof terminal_code_ok as Hc.
  assert (Hp' : 0 <= p /\ p + lenZ terminal_bin < 2 ^ 64) by (change (lenZ terminal_bin) with 389; lia).
  do 4 tstep_ins. uprint prompt.
  { apply (loaded_text terminal_bin p m 368); [by vm_compute|apply Hm]. }
  { unfold prompt. cbn [length]. lia. }
  intros v _. tstep_ins. apply wait_char, Hend. by unorm.
Qed.

(** ** A key *)

Definition line_at (line : list Z) (μ : mem) : Prop :=
  ld 8 μ (p + 400) = buf /\ ld 8 μ 392 = lenZ line /\ lenZ line < 8192 /\ rbs μ buf (length line) = line.
(** Going on where the table says. *)
Definition typed_to (P : urun -> Prop) (line : list Z) (child c : Z) (log : list event) : Prop :=
  forall es t g pc zf df μ, typed buf line child c es t -> holds_state buf t g pc μ ->
    goes P (owned buf) (User g sp pc zf df) μ (log ++ es).

(** Return: the line is complete. *)
Lemma key_return P line child g zf df μ log :
  typed_to P line child 10 log -> line_at line μ -> g R15 = child -> word64 child ->
  goes P (owned buf) (User g sp (p + 138) zf df) μ log.
Proof using All.
  intros Hend (H1 & H2 & H3 & H4) H15 Hw. pose proof terminal_code_ok as Hc.
  assert (Hp' : 0 <= p /\ p + lenZ terminal_bin < 2 ^ 64) by (change (lenZ terminal_bin) with 389; lia).
  pose proof Hb as (B0 & B1 & B2 & B3 & B4). assert (Hl : 0 <= lenZ line) by (unfold lenZ; lia).
  do 2 tstep_ins. rewrite H1, H2.
  do 6 tstep_ins. ucall (PutChar 10 15 0). intros v1 _. tstep_ins. rewrite ld_st_small by (simpl; lia).
  replace (sp - 8 + 8) with sp by lia.
  do 2 tstep_ins. set (μ1 := st 8 (st 8 (wb _ _ _) _ _) _ _).
  assert (E1 : ld 8 μ1 (p + 400) = buf) by (unfold μ1; mem_peel; exact H1).
  assert (E2 : ld 8 μ1 392 = 0) by (unfold μ1; apply ld_st_small; simpl; lia).
  assert (E3 : rbs μ1 buf (length line) = line).
  { rewrite <- H4 at 2. apply rbs_ext. intros i Hi. unfold μ1, lenZ in *. by mem_peel. }
  assert (E4 : rb μ1 (buf + lenZ line) = 0) by (unfold μ1; mem_peel; reflexivity).
  rewrite E1. clearbody μ1. tstep_ins. ucall (Create buf (cut 64 line)).
  { change (Some (Create buf (chars_at 64 m buf)) = Some (Create buf (cut 64 line))). do 2 f_equal.
    assert (Em : forall x, buf <= x < buf + 8192 -> rb m x = rb μ1 x).
    { intros x Hx. apply Hm. left. right. cbn. lia. }
    apply chars_at_cut; [|rewrite Em by lia; exact E4]. rewrite <- E3 at 2. apply rbs_ext. intros i Hi.
    apply Em. unfold lenZ in H3. lia. }
  intros pid Hpid. rewrite <- app_assoc. cbn [app]. tstep_ins. destruct (Z.eqb_spec pid 0) as [->|Hne].
  - tstep_ins. apply child_ended. intros g' v Hg. rewrite <- app_assoc. cbn [app].
    apply (Hend _ (Editing [] child)); [constructor|]. split; [exact E1|]. split; [reflexivity|].
    split; [rewrite Hg; by unorm|]. split; [exact Hw|]. split; [exact E2|]. split; [vm_compute; congruence|reflexivity].
  - do 3 tstep_ins. apply (Hend _ (Waiting pid)); [by constructor|]. split; [exact E1|].
    split; [reflexivity|]. split; [by unorm|]. by split.
Qed.

(** Backspace. *)
Lemma key_backspace P line child g zf df μ log :
  typed_to P line child 8 log -> line_at line μ -> g R15 = child -> word64 child ->
  goes P (owned buf) (User g sp (p + 250) zf df) μ log.
Proof using All.
  intros Hend (H1 & H2 & H3 & H4) H15 Hw. pose proof terminal_code_ok as Hc.
  assert (Hp' : 0 <= p /\ p + lenZ terminal_bin < 2 ^ 64) by (change (lenZ terminal_bin) with 389; lia).
  pose proof Hb as (B0 & B1 & B2 & B3 & B4). assert (Hl : 0 <= lenZ line) by (unfold lenZ; lia).
  tstep_ins. rewrite H2. destruct (Z.eqb_spec (lenZ line) 0) as [E|E].
  - tstep_ins. apply wait_char. destruct line as [|c line]; [|unfold lenZ in E; cbn in E; lia].
    rewrite <- (app_nil_r log). apply (Hend [] (Editing [] child)); [constructor|]. split; [exact H1|].
    do 3 (split; [done|]). split; [exact H2|]. split; [vm_compute; congruence|reflexivity].
  - do 2 tstep_ins. rewrite H2. unorm. tstep_ins. ucall Backspace. intros v _. tstep_ins. apply wait_char.
    destruct line as [|x line _] using rev_ind; [by destruct E|]. assert (El : lenZ (line ++ [x]) = lenZ line + 1).
    { unfold lenZ. rewrite length_app. cbn. lia. }
    apply (Hend _ (Editing line child)); [constructor|]. split; [mem_peel; exact H1|]. split; [reflexivity|].
    split; [by unorm|]. split; [exact Hw|]. split; [mem_peel; lia|]. split; [lia|].
    rewrite length_app in H4. cbn [length] in H4. rewrite (rbs_split μ buf (length line)) in H4 by lia.
    apply app_inj_1 in H4 as [H4 _]; [|by rewrite length_rbs]. etransitivity; [|exact H4]. apply rbs_ext.
    intros i Hi. unfold lenZ in *. by mem_peel.
Qed.

(** Any other character. *)
Lemma key_char P line child c g zf df μ log :
  typed_to P line child c log -> line_at line μ -> g R15 = child -> word64 child -> low8 (g RAX) = c -> c <> 8 -> c <> 10 ->
  goes P (owned buf) (User g sp (p + 279) zf df) μ log.
Proof using All.
  intros Hend (H1 & H2 & H3 & H4) H15 Hw Ha H8 H10. pose proof terminal_code_ok as Hc.
  assert (Hp' : 0 <= p /\ p + lenZ terminal_bin < 2 ^ 64) by (change (lenZ terminal_bin) with 389; lia).
  pose proof Hb as (B0 & B1 & B2 & B3 & B4). assert (Hl : 0 <= lenZ line) by (unfold lenZ; lia).
  (* the character in al *)
  assert (Htail : forall g2 zf2, g2 R15 = child -> low8 (g2 RAX) = (if c =? 1 then 32 else c) ->
    goes P (owned buf) (User g2 sp (p + 285) zf2 df) μ log).
  { intros g2 zf2 G15 Ga. set (c' := if c =? 1 then 32 else c) in *.
    do 2 tstep_ins. rewrite H1, H2. do 2 tstep_ins. set (μ1 := wb _ _ _).
    assert (E2 : ld 8 μ1 392 = lenZ line) by (unfold μ1; mem_peel; exact H2). rewrite E2. unorm.
    do 4 tstep_ins. rewrite Ga. ucall (PutChar (s8 c') 15 0). intros v _. apply wait_char.
    apply (Hend _ (Editing (line ++ [c']) child)); [by constructor|].
    assert (El : lenZ (line ++ [c']) = lenZ line + 1) by (unfold lenZ; rewrite length_app; cbn; lia).
    split; [unfold μ1; mem_peel; exact H1|]. split; [reflexivity|]. split; [by unorm|]. split; [exact Hw|].
    split; [rewrite El; apply ld_st_small; simpl; lia|]. split; [lia|].
    rewrite length_app. cbn [length]. rewrite (rbs_split _ buf (length line)) by lia.
    replace (length line + 1 - length line)%nat with 1%nat by lia. f_equal.
    - etransitivity; [|exact H4]. apply rbs_ext. intros i Hi. unfold μ1, lenZ in *. by mem_peel.
    - cbn. f_equal. rewrite Z.add_0_r. unfold μ1, lenZ in *. mem_peel. exact Ga. }
  tstep_ins. rewrite Ha. change (u8 1) with 1. destruct (Z.eqb_spec c 1) as [E1|E1].
  - do 2 tstep_ins. apply Htail; unorm; [exact H15|]. subst c. unfold low8, with_low8.
    change (u8 32) with 32. rewrite (Z.add_comm _ 32), Z.add_sub_assoc. 
    pose proof (Z.div_mod (g RAX) 256 ltac:(lia)). replace (32 + g RAX - g RAX mod 256) with (32 + g RAX / 256 * 256) by lia.
    by rewrite Z.mod_add.
  - tstep_ins. by apply Htail.
Qed.

(** Each key leads where the table says. *)
Lemma key_ok P line child c g zf df μ log :
  typed_to P line child c log -> line_at line μ -> g R15 = child -> word64 child -> low8 (g RAX) = c ->
  goes P (owned buf) (User g sp (p + 134) zf df) μ log.
Proof using All.
  intros Hend Hl H15 Hw Ha. pose proof terminal_code_ok as Hc.
  assert (Hp' : 0 <= p /\ p + lenZ terminal_bin < 2 ^ 64) by (change (lenZ terminal_bin) with 389; lia).
  tstep_ins. rewrite Ha. change (u8 10) with 10. destruct (Z.eqb_spec c 10) as [->|E10]; tstep_ins.
  { by eapply key_return. }
  tstep_ins. rewrite Ha. change (u8 8) with 8. destruct (Z.eqb_spec c 8) as [->|E8]; tstep_ins.
  { by eapply key_backspace. }
  by eapply key_char.
Qed.

(** ** A turn of the loop *)

Lemma typed_turned line child c pre log child' :
  (forall es t, typed buf line child' c es t -> tstep buf (Editing line child) (pre ++ es) t) ->
  typed_to (turned buf sp (Editing line child) log) line child' c (log ++ pre).
Proof using All.
  intros Hs es t g pc zf df μ Ht Hh. rewrite <- app_assoc. by eapply round_end; [|apply Hs|].
Qed.

Lemma turn_editing line child g zf df μ log :
  holds_state buf (Editing line child) g (p + 85) μ -> lenZ line < 8192 ->
  goes (turned buf sp (Editing line child) log) (owned buf) (User g sp (p + 85) zf df) μ log.
Proof using All.
  intros (H1 & _ & H15 & Hw & H2 & _ & H4) H3. pose proof terminal_code_ok as Hc.
  assert (Hp' : 0 <= p /\ p + lenZ terminal_bin < 2 ^ 64) by (change (lenZ terminal_bin) with 389; lia).
  assert (Hline : line_at line μ) by done.
  assert (Hign : forall v g2 zf2, low8 v = 0 \/ low8 v = 32 -> g2 R15 = child ->
    goes (turned buf sp (Editing line child) log) (owned buf) (User g2 sp (p + 333) zf2 df) μ (log ++ [Do Getchar; Got v])).
  { intros v g2 zf2 Hv G15. apply wait_char. eapply round_end; [exact Hb|by apply (ts_ignored buf line child v)|].
    split; [exact H1|]. split; [reflexivity|]. split; [exact G15|]. split; [exact Hw|]. split; [exact H2|]. split; [lia|exact H4]. }
  tstep_ins. ucall Getchar. intros v Hv. tstep_ins. change (u8 0) with 0.
  destruct (Z.eqb_spec (low8 v) 0) as [E0|E0]; tstep_ins.
  { apply Hign; [by left|by unorm]. }
  tstep_ins. change (u8 32) with 32. destruct (Z.eqb_spec (low8 v) 32) as [E32|E32]; tstep_ins.
  { apply Hign; [by right|by unorm]. }
  tstep_ins. change (u8 3) with 3. destruct (Z.eqb_spec (low8 v) 3) as [E3|E3]; tstep_ins; cycle 1.
  { apply (key_ok _ line child (low8 v)); [|exact Hline|by unorm|exact Hw|by unorm].
    apply typed_turned. intros es t Ht. by apply ts_key. }
  tstep_ins. rewrite H15. destruct (Z.eqb_spec child 0) as [Ec|Ec]; tstep_ins.
  { apply (key_ok _ line child (low8 v)); [|exact Hline|by unorm|exact Hw|by unorm].
    apply typed_turned. intros es t Ht. by apply ts_key. }
  tstep_ins. tstep_ins. ucall (Stop (s32 child)).
  { do 3 f_equal. exact H15. }
  intros r Hr. tstep_ins. rewrite <- app_assoc. cbn [app].
  apply (key_ok _ line 0 (low8 r)); [|exact Hline|by unorm|split; lia|by unorm].
  apply typed_turned. intros es t Ht. by apply (ts_stop buf line child v r).
Qed.

Lemma turn_waiting child g zf df μ log :
  holds_state buf (Waiting child) g (p + 199) μ ->
  goes (turned buf sp (Waiting child) log) (owned buf) (User g sp (p + 199) zf df) μ log.
Proof using All.
  intros (H1 & _ & H15 & Hw & H2). pose proof terminal_code_ok as Hc.
  assert (Hp' : 0 <= p /\ p + lenZ terminal_bin < 2 ^ 64) by (change (lenZ terminal_bin) with 389; lia).
  do 2 tstep_ins. ucall (Alive (s32 child)).
  { do 3 f_equal. exact H15. }
  intros r Hr. tstep_ins. destruct (Z.eqb_spec r 0) as [->|E]; tstep_ins.
  - tstep_ins. apply child_ended. intros g' v Hg. rewrite <- app_assoc. cbn [app].
    eapply round_end; [exact Hb|apply (ts_ended buf child v)|]. split; [exact H1|]. split; [reflexivity|].
    split; [rewrite Hg; by unorm|]. split; [exact Hw|]. split; [exact H2|]. split; [vm_compute; congruence|reflexivity].
  - do 2 tstep_ins. eapply round_end; [exact Hb|by apply (ts_running buf child r)|]. split; [exact H1|].
    split; [reflexivity|]. split; [by unorm|]. by split.
Qed.

Lemma turn_ok t s : matches buf sp t s -> ~ full t -> eventually terminal_bin p lo top fuel (turned buf sp t (r_log s)) s.
Proof using All.
  destruct s as [own [g sp' pc zf df] m log c]. intros (E1 & E2 & E3 & Hl & Hh) Hf. cbn in E1, E2, E3, Hl, Hh |- *. subst.
  apply runs_start; [exact Hl|]. destruct t as [line child|child]; pose proof Hh as [_ [-> Hrest]].
  - apply turn_editing; [exact Hh|]. cbn in Hf. lia.
  - by apply turn_waiting.
Qed.

(** ** A full line *)

(** A key that is put into the line. *)
Definition plain (v : Z) : Prop := ~ List.In (low8 v) [0; 3; 8; 10; 32].
(** The next instruction stores a byte at [a]. *)
Definition storing (a : Z) (s : urun) : Prop :=
  exists op n, fetch (r_mem s) (upc (r_user s)) = Some (IStore_al op, n) /\
    ea (set_upc (u64 (upc (r_user s) + n)) (r_user s)) op = a.

Lemma key_overrun line child s :
  matches buf sp (Editing line child) s -> lenZ line = 8192 ->
  eventually terminal_bin p lo top fuel
    (fun s' => exists v, r_log s' = r_log s ++ [Do Getchar; Got v] /\ (plain v -> storing (u64 (buf + 8192)) s')) s.
Proof using All.
  destruct s as [own [g sp' pc zf df] m log c]. intros (E1 & E2 & E3 & Hl & H1 & E4 & _ & _ & H2 & _) Hf.
  cbn [r_in r_own r_user r_mem r_log usp upc ur] in * |-. cbn [r_log]. subst c own sp' pc. pose proof terminal_code_ok as Hc. rewrite Hf in H2.
  assert (Hp' : 0 <= p /\ p + lenZ terminal_bin < 2 ^ 64) by (change (lenZ terminal_bin) with 389; lia).
  apply (runs_start terminal_bin p lo top fuel); [exact Hl|]. tstep_ins. ucall Getchar. intros v _.
  destruct (decide (plain v)) as [Hv|Hv]; [|apply runs_end; intros m' _; exists v; by split].
  assert (D : low8 v <> 0 /\ low8 v <> 3 /\ low8 v <> 8 /\ low8 v <> 10 /\ low8 v <> 32) by (unfold plain in Hv; cbn in Hv; lia).
  destruct D as (D0 & D3 & D8 & D10 & D32).
  assert (Hend : forall g2 zf2, goes (fun s' => exists v', r_log s' = log ++ [Do Getchar; Got v'] /\
      (plain v' -> storing (u64 (buf + 8192)) s')) (owned buf) (User g2 sp (p + 285) zf2 df) m (log ++ [Do Getchar; Got v])).
  { intros g2 zf2. do 2 tstep_ins. rewrite H1, H2. apply runs_end. intros m' Hm. exists v. split; [reflexivity|].
    intros _. destruct (fetched terminal_bin p terminal_code Hc Hp' 300 (IStore_al (Sum RDI RBX)) m' eq_refl (proj1 Hm)) as (n & Hn & _).
    exists (Sum RDI RBX), n. split; [exact Hn|]. reflexivity. }
  tstep_ins. change (u8 0) with 0. rw_test. tstep_ins. tstep_ins. change (u8 32) with 32. rw_test. tstep_ins.
  tstep_ins. change (u8 3) with 3. rw_test. tstep_ins. tstep_ins. change (u8 10) with 10. rw_test. tstep_ins.
  tstep_ins. change (u8 8) with 8. rw_test. tstep_ins. tstep_ins. change (u8 1) with 1.
  destruct (Z.eqb_spec (low8 v) 1) as [E|E]; tstep_ins; [tstep_ins|]; apply Hend.
Qed.

(** ** Start-up *)

Definition greeting (v0 v1 v2 : Z) : list event :=
  [Do (Malloc 8192); Got v0; Do (Print welcome 15 0); Got v1; Do (Print prompt 15 0); Got v2].
(** The first prompt is there; a null buffer is used all the same. *)
Definition greeted (s : urun) : Prop :=
  exists b v1 v2, r_log s = greeting b v1 v2 /\ (b <> 0 -> buffer_ok b /\ matches b sp (Editing [] 0) s).
End Terminal.

Section Start.
Context (p lo top sp : Z) (fuel : nat).
Context (Hp : 400 <= p /\ p + 408 < 2 ^ 64) (Hfuel : (64 < fuel)%nat).
Context (Hstack : 400 <= lo /\ lo <= top /\ top < 2 ^ 64 /\ (top <= p \/ p + 408 <= lo)).
Context (Hsp : lo + 8 <= sp /\ sp <= top).

(** What the allocator hands out is a buffer. *)
Lemma fresh_buffer b :
  b <> 0 -> (forall x, fresh (Malloc 8192) b x -> apart terminal_bin p lo top (cells p) x) -> buffer_ok p lo top b.
Proof using All.
  intros Hb Hf. assert (F : forall x, b <= x < b + 8192 -> apart terminal_bin p lo top (cells p) x) by (intros x Hx; by apply Hf).
  clear Hf. unfold apart, cells in F. change (lenZ terminal_bin) with 389 in F.
  pose proof (F b ltac:(lia)) as F1. pose proof (F (b + 8191) ltac:(lia)) as F2.
  split; [exact Hb|]. split; [|split; [lia|split]].
  - destruct (Z.le_gt_cases 400 b) as [H|H]; [exact H|]. pose proof (F 399 ltac:(lia)). lia.
  - destruct (Z.le_gt_cases (p + 408) b) as [H|H]; [by right|]. left.
    destruct (Z.le_gt_cases (b + 8192) p) as [H'|H']; [exact H'|]. pose proof (F (Z.max b p) ltac:(lia)).
    pose proof (F (p + 407) ltac:(lia)). lia.
  - destruct (Z.le_gt_cases top b) as [H|H]; [by right|]. left.
    destruct (Z.le_gt_cases (b + 8192) lo) as [H'|H']; [exact H'|]. pose proof (F (Z.max b lo) ltac:(lia)). lia.
Qed.

Ltac sstep := uexec; [uaccess; unfold cells in *; change (lenZ terminal_bin) with 389 in *; lia|]; unorm.

Lemma greeting_ok g zf df μ :
  runs_to terminal_bin p lo top fuel (greeted p lo top sp) (cells p) (User g sp (p + 0) zf df) μ [].
Proof using All.
  pose proof terminal_code_ok as Hc.
  assert (Hp' : 0 <= p /\ p + lenZ terminal_bin < 2 ^ 64) by (change (lenZ terminal_bin) with 389; lia).
  do 2 sstep.
  apply (runs_call terminal_bin p lo top fuel terminal_code Hc Hp' _ _ _ _ 10 _ _ _ _ 12 (Malloc 8192));
    [vm_compute; reflexivity|vm_compute; reflexivity|ucall_of|by intros x []|].
  intros b μ1 Hb _ Hf. cbn [app].
  assert (Hnear : b <> 0 -> buffer_ok p lo top b) by (intros H0; by apply fresh_buffer).
  assert (own_cells : forall x, cells p x -> owned p b x) by (intros x Hx; by left).
  unfold owned in own_cells. clear Hf.
  do 7 (uexec; [uaccess; change (lenZ terminal_bin) with 389 in *; unfold cells, grow in *; lia|]; unorm).
  uprint welcome.
  { apply (loaded_text terminal_bin p m 372); [by vm_compute|apply Hm]. }
  { unfold welcome. cbn [length]. lia. }
  intros v1 _. do 4 (uexec; [uallow; tauto|]; unorm). uprint prompt.
  { apply (loaded_text terminal_bin p m 368); [by vm_compute|apply Hm]. }
  { unfold prompt. cbn [length]. lia. }
  intros v2 _. apply runs_end. intros m Hm. exists b, v1, v2. split; [reflexivity|]. intros H0.
  pose proof (Hnear H0) as Hb'. split; [exact Hb'|]. do 3 (split; [reflexivity|]). split; [apply Hm|].
  eapply holds_agrees; [exact Hp|exact Hfuel|exact Hb'| |exact Hm].
  split; [mem_peel; apply ld_st_small, Hb|]. split; [reflexivity|]. split; [by unorm|]. split; [split; lia|].
  split; [by apply ld_st_small|]. split; [vm_compute; congruence|reflexivity].
Qed.
End Start.

(** ** The program *)

(** Where it may be: the image with its .bss below 2^64, and a stack apart
    from it; [fuel] bounds the strings it prints. *)
Definition placed (p lo top sp : Z) (fuel : nat) : Prop :=
  400 <= p /\ p + 408 < 2 ^ 64 /\ (64 < fuel)%nat /\
  400 <= lo /\ lo + 8 <= sp <= top /\ top < 2 ^ 64 /\ (top <= p \/ p + 408 <= lo).

Lemma full_dec t : full t \/ ~ full t.
Proof. destruct t as [line child|child]; [apply Z.eq_decidable|right; intros []]. Qed.

(** C13. The terminal implements its transition system, whatever the calls answer
    and the other tasks do to memory that is not its own: for every [n] it
    prints its greeting and takes [n] turns of the system, with two
    exceptions.  When the call for its buffer answers NULL (which it does not
    check) the theorem covers the greeting alone; and once the line has filled
    its 8192 bytes there are no further turns (C37 says what the next key
    does). *)
Theorem terminal_refines p lo top fuel u m n :
  launched terminal_bin p u m -> placed p lo top (usp u) fuel ->
  eventually terminal_bin p lo top fuel (fun s => exists b v1 v2 es,
    r_log s = greeting b v1 v2 ++ es /\
    (b = 0 /\ es = [] \/ buffer_ok p lo top b /\
     exists k t, tsteps b k (Editing [] 0) es t /\ matches p b (usp u) t s /\ (k = n \/ full t)))
    (URun (cells p) u m [] None).
Proof.
  intros Hu (P1 & P2 & P3 & P4 & P5 & P6 & P7). set (sp := usp u).
  assert (Hs : 400 <= lo /\ lo <= top /\ top < 2 ^ 64 /\ (top <= p \/ p + 408 <= lo)) by lia.
  induction n as [|n IH].
  - apply (eventually_trans _ _ _ _ _ (greeted p lo top sp)).
    { apply (launched_at _ _ _ _ _ _ _ _ _ _ Hu). intros g sp' zf df E. subst sp. rewrite E in *. by apply greeting_ok. }
    intros s (b & v1 & v2 & Hlog & Hb). apply ev_now. exists b, v1, v2, []. split; [by rewrite app_nil_r|].
    destruct (Z.eq_dec b 0) as [->|H0]; [by left|right]. destruct (Hb H0) as [Hok Hm]. split; [exact Hok|].
    exists 0%nat, (Editing [] 0). split; [constructor|]. split; [exact Hm|by left].
  - apply (eventually_trans _ _ _ _ _ _ _ _ IH). clear IH. intros s (b & v1 & v2 & es & Hlog & [[-> ->]|(Hb & k & t & Ht & Hm & Hk)]).
    { apply ev_now. exists 0, v1, v2, []. split; [exact Hlog|by left]. }
    destruct (full_dec t) as [Hf|Hf].
    { apply ev_now. exists b, v1, v2, es. split; [exact Hlog|]. right. split; [exact Hb|]. exists k, t. auto. }
    destruct Hk as [->|Hk]; [|by destruct Hf].
    eapply eventually_mono; [by apply (turn_ok p lo top fuel (conj P1 P2) P3 Hs b sp Hb P5)|].
    intros s' (es' & t' & Ht' & Hlog' & Hm'). exists b, v1, v2, (es ++ es').
    split; [by rewrite Hlog', Hlog, app_assoc|]. right. split; [exact Hb|]. exists (S n), t'.
    split; [exact (tr_turn _ _ _ _ _ _ _ Ht Ht')|]. split; [exact Hm'|by left].
Qed.

(** C37. Nothing stops a line at the end of its buffer: with 8192 characters in it
    the next plain key leads to a store behind it. *)
Theorem terminal_overrun p lo top sp fuel b line child s :
  placed p lo top sp fuel -> buffer_ok p lo top b -> matches p b sp (Editing line child) s -> lenZ line = 8192 ->
  ~ owned p b (b + 8192) /\
  eventually terminal_bin p lo top fuel
    (fun s' => exists v, r_log s' = r_log s ++ [Do Getchar; Got v] /\ (plain v -> storing (u64 (b + 8192)) s')) s.
Proof.
  intros (P1 & P2 & P3 & P4 & P5 & P6 & P7) Hb Hm Hf.
  assert (Hs : 400 <= lo /\ lo <= top /\ top < 2 ^ 64 /\ (top <= p \/ p + 408 <= lo)) by lia.
  split; [|by apply (key_overrun p lo top fuel (conj P1 P2) P3 Hs b sp Hb P5 line child)].
  destruct Hb as (_ & B1 & _ & B3 & _). unfold owned, grow, fresh, cells. lia.
Qed.

(** *** Where they apply *)

Lemma terminal_refines_witness :
  eventually terminal_bin 0x200000 0x300000 0x304000 100 (fun s => exists b v1 v2 es,
    r_log s = greeting b v1 v2 ++ es /\
    (b = 0 /\ es = [] \/ buffer_ok 0x200000 0x300000 0x304000 b /\
     exists k t, tsteps b k (Editing [] 0) es t /\ matches 0x200000 b 0x304000 t s /\ (k = 1000%nat \/ full t)))
    (URun (cells 0x200000) (at_launch 0x200000 0x304000) (image_at terminal_bin 0x200000) [] None).
Proof.
  apply (terminal_refines 0x200000 0x300000 0x304000 100 (at_launch 0x200000 0x304000)).
  - apply image_launched; [apply (bool_decide_unpack _); by vm_compute|vm_compute; split; congruence].
  - unfold placed. cbn [usp at_launch]. lia.
Defined.

(** A terminal with a full line. *)
Definition a_line : list Z := replicate (Z.to_nat 8192) 97.
Lemma a_line_ok : lenZ a_line = 8192 /\ Forall (fun b => 0 <= b < 256) a_line.
Proof. split; [unfold lenZ, a_line; rewrite length_replicate; lia|apply Forall_replicate; lia]. Qed.
Definition filled (p b sp : Z) : urun :=
  URun (owned p b) (User (fun _ => 0) sp (p + 85) false false)
    (st 8 (st 8 (wbs (wbs ∅ b a_line) p terminal_bin) (p + 400) b) 392 8192) [] None.
Lemma filled_matches p lo top b sp :
  buffer_ok p lo top b -> 400 <= p -> matches p b sp (Editing a_line 0) (filled p b sp).
Proof.
  intros (B0 & B1 & B2 & B3 & _) Hp. do 3 (split; [reflexivity|]). cbn [filled r_mem r_user ur upc].
  destruct a_line_ok as [Hlen Hbytes]. generalize dependent a_line. intros line Hlen Hbytes. set (μ := wbs _ _ _).
  assert (E : forall x, 400 <= x -> x < p + 400 \/ p + 408 <= x ->
    rb (st 8 (st 8 μ (p + 400) b) 392 8192) x = rb μ x).
  { intros x H1 H2. by rewrite !rb_st_out by (simpl; lia). }
  split; [|split; [|split; [reflexivity|split; [reflexivity|split; [by split|split; [|split; [lia|]]]]]]].
  - etransitivity; [|apply (loaded_wbs terminal_bin p (wbs ∅ b line))].
    + apply rbs_ext. intros i Hi. apply E; [lia|]. change (length terminal_bin) with 389%nat in Hi. lia.
    + apply (bool_decide_unpack _). by vm_compute.
  - rewrite ld_st_out by (simpl; lia). apply ld_st_small. simpl. lia.
  - rewrite Hlen. by apply ld_st_small.
  - etransitivity; [|by apply (rbs_wbs ∅ b line)]. apply rbs_ext. unfold lenZ in Hlen. intros i Hi. rewrite E by lia. apply rb_wbs_out.
    change (lenZ terminal_bin) with 389. lia.
Qed.

Lemma terminal_overrun_witness :
  ~ owned 0x200000 0x10000 (0x10000 + 8192) /\
  eventually terminal_bin 0x200000 0x300000 0x304000 100
    (fun s' => exists v, r_log s' = [Do Getchar; Got v] /\ (plain v -> storing 0x12000 s'))
    (filled 0x200000 0x10000 0x304000).
Proof.
  apply (terminal_overrun 0x200000 0x300000 0x304000 0x304000 100 0x10000 a_line 0 (filled 0x200000 0x10000 0x304000)).
  - unfold placed. lia.
  - unfold buffer_ok. lia.
  - apply (filled_matches _ 0x300000 0x304000); [unfold buffer_ok; lia|lia].
  - apply a_line_ok.
Defined.
