(* ===== verification/UserCalls.v ===== *)
(** * The programs on this kernel

    The calls of Ulogic.v are calls of the kernel's dispatcher: the registers
    that mean a call to the programs make [syscall_handler] run the kernel
    function it stands for, and what the kernel then answers is an [answer]. *)

From Stdlib Require Import ZArith Lia.
From S2P Require Import Prelude Memory LibC AllocSpec Heaps HeapFill Multitask TaskLogic TaskStack TaskInv TaskOps TaskCalls TaskSched TaskSys TaskFrames.
From S2P Require Import Fs FsTree PortIO Keyboard Clock Vga KStats Power Machine Loader Startup Syscall Kernel KernelInv.
From S2P Require Import KernelSys Boot KernelProps Cpu Uasm Ucpu Programs Ulogic.

Section Calls.
Context {H : Type} `{!Heaps H}.
Context (dev : trace -> Z -> Z) (INIT disk : Z) (fuel : nat).




End Calls.

(** ** The answers *)

Section Answers.
Context {H : Type} `{!Heaps H, !HeapsOk H, !HeapsFrame H}.
Context (dev : trace -> Z -> Z) (INIT disk : Z) (fuel : nat) (m0 : mem) (Hly : kernel_layout INIT disk).
Context (Hbounds : 0 <= k_lo /\ k_hi < 2 ^ 64).
Context (bs : list Z) (p lo top : Z).










(** ** Calls about tasks *)











End Answers.


(** *** On the kernel just booted *)

#[local] Existing Instance kernel_heaps.
#[local] Existing Instance kernel_heaps_ok.



