(* ===== verification/Debug.v ===== *)
(** * The debugging aid of kernel.c

    [list_root_dir] prints the root directory, a line for each entry: the file
    system, [itoa] and the screen together. *)

From Stdlib Require Import ZArith Lia.
From S2P Require Import Prelude Memory LibC AllocSpec Heaps Multitask TaskLogic Fs FsTree FsProps PortIO Keyboard Clock Vga Machine.
From S2P Require Import Syscall Itoa KStats.

Definition s_root : list Z := [82; 111; 111; 116; 32; 100; 105; 114; 101; 99; 116; 111; 114; 121; 58].

(** One turn of the loop; [size_buf] is the address of the buffer. *)
Definition list_row (size_buf i : Z) (e : fs_entry) (v : vga) : option vga :=
  let v := print_string_position (field_str (name e)) 0 (u32 (i + 1)) WHITE BLACK v in
  if is_dir e then Some v
  else
    let v := on_vmem (itoa (size e) size_buf 10) v in
    s ← string_at 40 (vmem v) size_buf;
    Some (print_string_position s 22 (u32 (i + 1)) RED BLACK v).
Fixpoint list_rows (size_buf i : Z) (l : list fs_entry) (v : vga) : option vga :=
  match l with
  | [] => Some v
  | e :: l => v ← list_row size_buf i e v; list_rows size_buf (i + 1) l v
  end.
Definition list_root_dir (size_buf : Z) (s : fs) (v : vga) : option vga :=
  let files := fs_get_all_in_dir FS_MAX_ENTRIES FS_ROOT_IDX s in
  list_rows size_buf 0 files (print_string_position s_root 0 0 RED BLACK v).

(** ** What it shows *)

Section Listing.
Context (size_buf : Z) (Hbuf : size_buf + 34 <= VGA_BUF \/ VGA_BUF + 4000 <= size_buf).

(** Apart from the buffer and row [y] of the screen nothing changes. *)
Definition row_and_buf (y : Z) (m m' : mem) : Prop :=
  (forall x, off_screen x -> ~ (size_buf <= x < size_buf + 34) -> rb m' x = rb m x) /\
  forall j, on_screen j -> j < y * 80 \/ y * 80 + 80 <= j -> vget m' j = vget m j.

(** The line of an entry: its name, and for a file its size from column 22. *)
Definition row_shows (y : Z) (e : fs_entry) (m : mem) : Prop :=
  (forall j c, field_str (name e) !! j = Some c -> Z.of_nat j < (if is_dir e then 80 else 22) ->
     vget m (y * 80 + Z.of_nat j) = cell_of c (make_color WHITE BLACK)) /\
  (is_dir e = false -> exists d, number_of 10 d = size e /\ Forall digit d /\ lenZ d <= 33 /\
     forall j c, d !! j = Some c -> vget m (y * 80 + 22 + Z.of_nat j) = cell_of c (make_color RED BLACK)).

(** An entry of the table. *)
Definition listable (e : fs_entry) : Prop := 0 <= size e < 4294967296 /\ Forall (fun c => c <> 9) (field_str (name e)).

Lemma row_only_buf y col m m' : 0 <= col -> row_only y col m m' -> row_and_buf y m m'.
Proof using. intros Hc [H1 H2]. split; [intros x Hx _; by apply H1|]. intros j Hj Ho. apply H2; [done|lia]. Qed.

Lemma vget_same m m' j : on_screen j -> only_in size_buf (size_buf + 34) m m' -> vget m' j = vget m j.
Proof using Hbuf.
  intros Hj Ho. unfold vget. apply ld_ext. intros x Hx. apply Ho. unfold on_screen, VGA_BUF in *. simpl in Hx. lia.
Qed.

Lemma positioned str x y f b v :
  0 <= x < 80 -> 0 <= y < 25 ->
  let v' := print_string_position str x y f b v in
  vx v' = vx v /\ vy v' = vy v /\ row_only y x (vmem v) (vmem v') /\
  (Forall (fun c => c <> 9) str -> forall i c, str !! i = Some c -> x + Z.of_nat i < 80 ->
     vget (vmem v') (y * 80 + x + Z.of_nat i) = cell_of c (make_color f b)).
Proof using.
  intros Hx Hy v'. subst v'. unfold print_string_position. rewrite offset_eq by lia. do 2 (split; [done|]).
  exact (print_string_loop_ok str (vmem v) y x (make_color f b) Hx Hy).
Qed.

Lemma list_row_ok i e v :
  0 <= i < 24 -> listable e ->
  exists v', list_row size_buf i e v = Some v' /\ vx v' = vx v /\ vy v' = vy v /\
    row_and_buf (i + 1) (vmem v) (vmem v') /\ row_shows (i + 1) e (vmem v').
Proof using Hbuf.
  intros Hi [Hsz Htab]. unfold list_row. rewrite u32_small by lia.
  destruct (positioned (field_str (name e)) 0 (i + 1) WHITE BLACK v ltac:(lia) ltac:(lia)) as (X1 & Y1 & R1 & N1).
  set (v1 := print_string_position _ 0 _ _ _ _) in *. specialize (N1 Htab).
  destruct (is_dir e) eqn:Hd.
  { exists v1. split; [done|]. do 2 (split; [done|]). split; [by eapply row_only_buf|]. split; [|congruence].
    rewrite Hd. intros j c Hj Hlt. rewrite <- (N1 j c Hj) by lia. f_equal. lia. }
  destruct (itoa_roundtrip (size e) size_buf 10 (vmem v1) Hsz ltac:(lia)) as (d & Hs & Hnum & Hdig & _ & Hlen & Ho).
  set (v2 := on_vmem _ v1). assert (Hdig' : Forall digit d).
  { apply (list.Forall_impl _ _ _ Hdig). intros c Hc. unfold char_digit, digit in *. destruct (Z.leb_spec 65 c); lia. }
  assert (Ho2 : only_in size_buf (size_buf + 34) (vmem v1) (vmem v2)).
  { intros x Hx. apply Ho. lia. }
  rewrite (string_at_cstr 40 (vmem v2) size_buf d Hs) by (unfold lenZ in Hlen; lia). cbn [mbind option_bind].
  destruct (positioned d 22 (i + 1) RED BLACK v2 ltac:(lia) ltac:(lia)) as (X3 & Y3 & R3 & N3).
  set (v3 := print_string_position d _ _ _ _ _) in *.
  exists v3. split; [done|]. split; [by rewrite X3|]. split; [by rewrite Y3|]. split; [split|split].
  - intros x Hx Hb. destruct R1 as [R1 _], R3 as [R3 _]. by rewrite R3, Ho2, R1.
  - intros j Hj Hrow. destruct R1 as [_ R1], R3 as [_ R3]. rewrite R3 by (done || lia).
    rewrite (vget_same (vmem v1)) by done. apply R1; [done|lia].
  - rewrite Hd. intros j c Hj Hlt. assert (Hon : on_screen ((i + 1) * 80 + Z.of_nat j)) by (unfold on_screen; lia).
    destruct R3 as [_ R3]. rewrite R3 by (done || lia). rewrite (vget_same (vmem v1)) by done.
    rewrite <- (N1 j c Hj) by lia. f_equal. lia.
  - intros _. exists d. do 2 (split; [done|]). split; [lia|]. intros j c Hj.
    pose proof (lookup_lt_Some _ _ _ Hj). apply N3; [|exact Hj|unfold lenZ in Hlen; lia].
    apply (list.Forall_impl _ _ _ Hdig'). unfold digit. lia.
Qed.

(** A row shown stays so while others are written. *)
Lemma row_shows_kept y e m m' :
  0 <= y < 25 -> (forall j, y * 80 <= j < y * 80 + 80 -> vget m' j = vget m j) -> row_shows y e m -> row_shows y e m'.
Proof using.
  intros Hy Hk [H1 H2]. split.
  - intros j c Hj Hlt. rewrite (Hk (y * 80 + Z.of_nat j)) by (destruct (is_dir e); lia). by apply H1.
  - intros Hd. destruct (H2 Hd) as (d & Hn & Hdig & Hl & Hc). exists d. do 3 (split; [done|]).
    intros j c Hj. pose proof (lookup_lt_Some _ _ _ Hj). unfold lenZ in Hl.
    rewrite (Hk (y * 80 + 22 + Z.of_nat j)) by lia. by apply Hc.
Qed.

Lemma list_rows_ok l : forall i v, 0 <= i -> i + lenZ l <= 24 -> Forall listable l ->
  exists v', list_rows size_buf i l v = Some v' /\ vx v' = vx v /\ vy v' = vy v /\
    (forall x, off_screen x -> ~ (size_buf <= x < size_buf + 34) -> rb (vmem v') x = rb (vmem v) x) /\
    (forall j, on_screen j -> j < (i + 1) * 80 -> vget (vmem v') j = vget (vmem v) j) /\
    forall k e, l !! k = Some e -> row_shows (i + Z.of_nat k + 1) e (vmem v').
Proof using Hbuf.
  unfold lenZ. induction l as [|e l IH]; intros i v Hi Hl Hall; cbn [list_rows length] in *.
  { exists v. by do 5 (split; [done|]). }
  apply Forall_cons_1 in Hall as [He Hall].
  destruct (list_row_ok i e v ltac:(lia) He) as (v1 & -> & X1 & Y1 & [R1 R1'] & S1). cbn [mbind option_bind].
  destruct (IH (i + 1) v1 ltac:(lia) ltac:(lia) Hall) as (v' & E & X' & Y' & R' & T' & S').
  exists v'. split; [exact E|]. split; [by rewrite X'|]. split; [by rewrite Y'|]. split; [|split].
  - intros x Hx Hb. by rewrite R', R1.
  - intros j Hj Hlt. rewrite T' by (done || lia). apply R1'; [done|lia].
  - intros [|k] f Hk; cbn in Hk.
    + injection Hk as <-. replace (i + Z.of_nat 0 + 1) with (i + 1) by lia.
      apply (row_shows_kept _ _ (vmem v1)); [lia| |exact S1]. intros j Hj. apply T'; [unfold on_screen; lia|lia].
    + replace (i + Z.of_nat (S k) + 1) with (i + 1 + Z.of_nat k + 1) by lia. by apply S'.
Qed.
End Listing.

(** [list_root_dir] of a root directory of at most 24 entries fills one row of
    the screen for each: the name, cut at column 22 for a file, whose size
    follows there in decimal.  It writes the screen and its buffer only. *)
Theorem list_root_dir_shows size_buf s v :
  let files := fs_get_all_in_dir FS_MAX_ENTRIES FS_ROOT_IDX s in
  size_buf + 34 <= VGA_BUF \/ VGA_BUF + 4000 <= size_buf -> lenZ files <= 24 -> Forall listable files ->
  exists v', list_root_dir size_buf s v = Some v' /\ vx v' = vx v /\ vy v' = vy v /\
    (forall x, off_screen x -> ~ (size_buf <= x < size_buf + 34) -> rb (vmem v') x = rb (vmem v) x) /\
    forall k e, files !! k = Some e -> row_shows (Z.of_nat k + 1) e (vmem v').
Proof.
  intros files Hbuf Hlen Hall. unfold list_root_dir. fold files.
  destruct (positioned s_root 0 0 RED BLACK v ltac:(lia) ltac:(lia)) as (X0 & Y0 & [R0 _] & _).
  destruct (list_rows_ok size_buf Hbuf files 0 (print_string_position s_root 0 0 RED BLACK v) ltac:(lia) ltac:(lia) Hall)
    as (v' & E & X' & Y' & R' & _ & S').
  exists v'. split; [exact E|]. split; [by rewrite X'|]. split; [by rewrite Y'|]. split.
  - intros x Hx Hb. by rewrite R', R0.
  - intros k e Hk. exact (S' k e Hk).
Qed.

Lemma list_root_dir_shows_witness :
  exists v', list_root_dir 4096 f1 v0 = Some v' /\ row_shows 1 (Entry (mkname [97]) (replicate 64 0) 0 2 600 true false) (vmem v').
Proof.
  assert (E : fs_get_all_in_dir FS_MAX_ENTRIES FS_ROOT_IDX f1 = [Entry (mkname [97]) (replicate 64 0) 0 2 600 true false])
    by by vm_compute.
  destruct (list_root_dir_shows 4096 f1 v0) as (v' & H1 & _ & _ & _ & H2).
  - left. vm_compute. congruence.
  - rewrite E. vm_compute. congruence.
  - rewrite E. repeat constructor; vm_compute; congruence.
  - exists v'. split; [exact H1|]. apply (H2 0%nat). by rewrite E.
Defined.
